(** * Linea SpinWheel: the wallet record store, the freshness policy and the
      per-wallet pass, embedded from the TypeScript sources.

    Source files embedded here:
    - [src/modules/database.ts]  (class [WalletDatabase])
    - the campaign entry point   (functions [performAllAvailableSpins],
      [processWallet])
    - [utils/encryption]         (class [KeyEncryption])

    Conventions of the embedding.
    - A [Date] is the integer it wraps: milliseconds since the Unix epoch.
      [toISOString().split('T')[0]] (the [YYYY-MM-DD] prefix) is a one-to-one
      rendering of the UTC day number, so a date string is modelled by that
      day number and comparing two date strings is comparing two day numbers.
    - Optional properties of a record loaded from JSON are [option]s.  An
      object built in memory may also carry a property whose value is
      [undefined]; such objects use [Slot].
    - Counters read from the page come from [parseInt] over a run of digits;
      they are integers ([Z]).  A counter kept in the file is taken to be
      an integer too; arithmetic on it is that of JavaScript numbers, whose
      result is the double nearest to the exact one ([toDouble]).
    - Token amounts are the 9-decimal strings the code formats with
      [toFixed(9)], modelled by their integer number of 1e-9 units.
    - [console.log] output is not modelled. *)

From Stdlib Require Import ZArith List String Ascii Bool Lia Permutation DecimalString.
Import ListNotations.
Local Open Scope string_scope.
Local Open Scope list_scope.
Local Open Scope Z_scope.
Set Warnings "-register-all".


(* ================================================================== *)
(** ** JavaScript helpers *)

(** What a call can end in: a returned value or a thrown exception. *)
Inductive Error : Type :=
| IOError                         (* fs: ENOENT, EACCES, ... *)
| SyntaxError                     (* JSON.parse *)
| TypeError
| RuntimeError (message : string) (* [new Error(message)] *).

Inductive Outcome (A : Type) : Type :=
| Returned (a : A)
| Thrown (e : Error).
Arguments Returned {A} a.
Arguments Thrown {A} e.

(** [try { return body } catch (error) { return handler(error) }] *)
Definition tryCatch {A : Type} (body : Outcome A) (handler : Error -> A) : A :=
  match body with
  | Returned a => a
  | Thrown e => handler e
  end.

Definition andThen {A B : Type} (c : Outcome A) (k : A -> Outcome B) : Outcome B :=
  match c with
  | Returned a => k a
  | Thrown e => Thrown e
  end.

(** A property of an in-memory object: not an own property, an own property
    holding [undefined], or an own property holding a value. *)
Inductive Slot (A : Type) : Type :=
| Absent
| Undefined
| Value (a : A).
Arguments Absent {A}.
Arguments Undefined {A}.
Arguments Value {A} a.

(** [String.prototype.toLowerCase] on the ASCII range (addresses are
    [0x]-prefixed hexadecimal strings). *)
Definition lowerChar (c : ascii) : ascii :=
  let n := nat_of_ascii c in
  if (andb (Nat.leb 65 n) (Nat.leb n 90)) then ascii_of_nat (n + 32) else c.

Fixpoint toLowerCase (s : string) : string :=
  match s with
  | EmptyString => EmptyString
  | String c rest => String (lowerChar c) (toLowerCase rest)
  end.

(** [Array.prototype.findIndex]: the first index whose element satisfies
    [p], paired with that element; [None] stands for the JavaScript [-1]. *)
Fixpoint findIndexFrom {A : Type} (p : A -> bool) (l : list A) (i : nat)
  : option (nat * A) :=
  match l with
  | [] => None
  | x :: rest => if p x then Some (i, x) else findIndexFrom p rest (S i)
  end.

Definition findIndex {A : Type} (p : A -> bool) (l : list A) : option (nat * A) :=
  findIndexFrom p l 0.

(** [l[i] = x] for an index inside the array. *)
Fixpoint setAt {A : Type} (i : nat) (x : A) (l : list A) : list A :=
  match l, i with
  | [], _ => []
  | _ :: rest, O => x :: rest
  | y :: rest, S j => y :: setAt j x rest
  end.

(* ================================================================== *)
(** ** Time *)

Definition Timestamp := Z.
Definition Day := Z.

Definition msPerHour : Z := 3600000.
Definition msPerDay : Z := 86400000.

(** [t.toISOString().split('T')[0]] *)
Definition isoDate (t : Timestamp) : Day := t / msPerDay.

(** [t.getUTCHours()] *)
Definition getUTCHours (t : Timestamp) : Z := (t / msPerHour) mod 24.

(** The instant [h:m:s] UTC of the day numbered [day]. *)
Definition atUTC (day h m s : Z) : Timestamp :=
  day * msPerDay + h * msPerHour + m * 60000 + s * 1000.

(** [d && d !== today] for an optional date string [d]. *)
Definition differsFrom (d : option Day) (today : Day) : bool :=
  match d with
  | Some x => negb (Z.eqb x today)
  | None => false
  end.

(* ================================================================== *)
(** ** Data model ([interface WalletData]) *)

Record WalletData : Type := mkWalletData {
  address : string;
  balance : option string;
  wethBalance : option Z;
  transactionCount : option Z;
  lastActivity : option Timestamp;
  connectedAt : option Timestamp;
  spinsAvailable : option Z;
  prizesWon : option Z;
  gamesPlayed : option Z;
  dayStreak : option Z;
  nextSpinTime : option string;
  todayTransfer : option bool;
  lastTransferDate : option Day;
  transferAmount : option Z;
  lastSpinDate : option Timestamp
}.

(** An object built in memory and handed to the store.  Every optional
    property is a [Slot].  [K] is the type of the key [address]: [string]
    for an argument of type [WalletData], whose [address] is required, and
    [option string] for a [Partial<WalletData>], which may leave it out. *)
Record WalletFields (K : Type) : Type := mkWalletFields {
  p_address : K;
  p_balance : Slot string;
  p_wethBalance : Slot Z;
  p_transactionCount : Slot Z;
  p_lastActivity : Slot Timestamp;
  p_connectedAt : Slot Timestamp;
  p_spinsAvailable : Slot Z;
  p_prizesWon : Slot Z;
  p_gamesPlayed : Slot Z;
  p_dayStreak : Slot Z;
  p_nextSpinTime : Slot string;
  p_todayTransfer : Slot bool;
  p_lastTransferDate : Slot Day;
  p_transferAmount : Slot Z;
  p_lastSpinDate : Slot Timestamp
}.
Arguments mkWalletFields {K}.
Arguments p_address {K} w.
Arguments p_balance {K} w.
Arguments p_wethBalance {K} w.
Arguments p_transactionCount {K} w.
Arguments p_lastActivity {K} w.
Arguments p_connectedAt {K} w.
Arguments p_spinsAvailable {K} w.
Arguments p_prizesWon {K} w.
Arguments p_gamesPlayed {K} w.
Arguments p_dayStreak {K} w.
Arguments p_nextSpinTime {K} w.
Arguments p_todayTransfer {K} w.
Arguments p_lastTransferDate {K} w.
Arguments p_transferAmount {K} w.
Arguments p_lastSpinDate {K} w.

Definition WalletObject : Type := WalletFields string.
Definition WalletPatch : Type := WalletFields (option string).

(** The persisted document: [{ wallets: WalletData[]; lastUpdate: string }]. *)
Record Snapshot : Type := mkSnapshot {
  wallets : list WalletData;
  lastUpdate : Timestamp
}.

(** Field assignments [w.f = v] used by the store. *)
Definition set_wethBalance (v : option Z) (w : WalletData) : WalletData :=
  mkWalletData (address w) (balance w) v (transactionCount w)
    (lastActivity w) (connectedAt w) (spinsAvailable w) (prizesWon w)
    (gamesPlayed w) (dayStreak w) (nextSpinTime w) (todayTransfer w)
    (lastTransferDate w) (transferAmount w) (lastSpinDate w).

Definition set_lastActivity (v : option Timestamp) (w : WalletData) : WalletData :=
  mkWalletData (address w) (balance w) (wethBalance w) (transactionCount w)
    v (connectedAt w) (spinsAvailable w) (prizesWon w)
    (gamesPlayed w) (dayStreak w) (nextSpinTime w) (todayTransfer w)
    (lastTransferDate w) (transferAmount w) (lastSpinDate w).

Definition set_connectedAt (v : option Timestamp) (w : WalletData) : WalletData :=
  mkWalletData (address w) (balance w) (wethBalance w) (transactionCount w)
    (lastActivity w) v (spinsAvailable w) (prizesWon w)
    (gamesPlayed w) (dayStreak w) (nextSpinTime w) (todayTransfer w)
    (lastTransferDate w) (transferAmount w) (lastSpinDate w).

Definition set_spinsAvailable (v : option Z) (w : WalletData) : WalletData :=
  mkWalletData (address w) (balance w) (wethBalance w) (transactionCount w)
    (lastActivity w) (connectedAt w) v (prizesWon w)
    (gamesPlayed w) (dayStreak w) (nextSpinTime w) (todayTransfer w)
    (lastTransferDate w) (transferAmount w) (lastSpinDate w).

Definition set_todayTransfer (v : option bool) (w : WalletData) : WalletData :=
  mkWalletData (address w) (balance w) (wethBalance w) (transactionCount w)
    (lastActivity w) (connectedAt w) (spinsAvailable w) (prizesWon w)
    (gamesPlayed w) (dayStreak w) (nextSpinTime w) v
    (lastTransferDate w) (transferAmount w) (lastSpinDate w).

Definition set_lastTransferDate (v : option Day) (w : WalletData) : WalletData :=
  mkWalletData (address w) (balance w) (wethBalance w) (transactionCount w)
    (lastActivity w) (connectedAt w) (spinsAvailable w) (prizesWon w)
    (gamesPlayed w) (dayStreak w) (nextSpinTime w) (todayTransfer w)
    v (transferAmount w) (lastSpinDate w).

Definition set_lastSpinDate (v : option Timestamp) (w : WalletData) : WalletData :=
  mkWalletData (address w) (balance w) (wethBalance w) (transactionCount w)
    (lastActivity w) (connectedAt w) (spinsAvailable w) (prizesWon w)
    (gamesPlayed w) (dayStreak w) (nextSpinTime w) (todayTransfer w)
    (lastTransferDate w) (transferAmount w) v.

Definition set_balance (v : option string) (w : WalletData) : WalletData :=
  mkWalletData (address w) v (wethBalance w) (transactionCount w)
    (lastActivity w) (connectedAt w) (spinsAvailable w) (prizesWon w)
    (gamesPlayed w) (dayStreak w) (nextSpinTime w) (todayTransfer w)
    (lastTransferDate w) (transferAmount w) (lastSpinDate w).

Definition set_transferAmount (v : option Z) (w : WalletData) : WalletData :=
  mkWalletData (address w) (balance w) (wethBalance w) (transactionCount w)
    (lastActivity w) (connectedAt w) (spinsAvailable w) (prizesWon w)
    (gamesPlayed w) (dayStreak w) (nextSpinTime w) (todayTransfer w)
    (lastTransferDate w) v (lastSpinDate w).

(** A wallet object literal that names only some properties. *)
Definition blankWallet (addr : string) : WalletData :=
  mkWalletData addr None None None None None None None None None None None
    None None None.

(** One property of [{ ...old, ...patch }] as it reaches the file:
    the spread copies every own property of [patch], one holding
    [undefined] included, and [JSON.stringify] then leaves an [undefined]
    property out. *)
Definition spreadSlot {A : Type} (old : option A) (s : Slot A) : option A :=
  match s with
  | Absent => old
  | Undefined => None
  | Value v => Some v
  end.

Definition spreadAddress (old : string) (a : option string) : string :=
  match a with
  | Some v => v
  | None => old
  end.

(** [{ ...old, ...patch }], the key [address] of the result given apart. *)
Definition spread {K : Type} (newAddress : string) (old : WalletData)
  (patch : WalletFields K) : WalletData :=
  mkWalletData
    newAddress
    (spreadSlot (balance old) (p_balance patch))
    (spreadSlot (wethBalance old) (p_wethBalance patch))
    (spreadSlot (transactionCount old) (p_transactionCount patch))
    (spreadSlot (lastActivity old) (p_lastActivity patch))
    (spreadSlot (connectedAt old) (p_connectedAt patch))
    (spreadSlot (spinsAvailable old) (p_spinsAvailable patch))
    (spreadSlot (prizesWon old) (p_prizesWon patch))
    (spreadSlot (gamesPlayed old) (p_gamesPlayed patch))
    (spreadSlot (dayStreak old) (p_dayStreak patch))
    (spreadSlot (nextSpinTime old) (p_nextSpinTime patch))
    (spreadSlot (todayTransfer old) (p_todayTransfer patch))
    (spreadSlot (lastTransferDate old) (p_lastTransferDate patch))
    (spreadSlot (transferAmount old) (p_transferAmount patch))
    (spreadSlot (lastSpinDate old) (p_lastSpinDate patch)).

(* ================================================================== *)
(** ** The backing file *)

(** The state of the file at [dataPath], for a document type [D]:
    no file, a file that cannot be read, or a file with text.  Text is
    kept by what [JSON.parse] makes of it: [None] when it throws,
    [Some d] when it returns the document [d]. *)
Inductive Backing (D : Type) : Type :=
| Missing
| Unreadable
| Text (parsed : option D).
Arguments Missing {D}.
Arguments Unreadable {D}.
Arguments Text {D} parsed.

Record Disk (D : Type) : Type := mkDisk {
  backing : Backing D;
  writable : bool
}.
Arguments mkDisk {D} backing writable.
Arguments backing {D} d.
Arguments writable {D} d.

(** Documents the store can start from: the literal
    [{ wallets: [], lastUpdate: new Date().toISOString() }]. *)
Class Document (D : Type) : Type := emptyDocument : Timestamp -> D.

#[global] Instance Snapshot_Document : Document Snapshot :=
  fun now => mkSnapshot [] now.

(** A generic JSON value, for files whose text parses to something that
    is not a snapshot.  [JDate t] is the string [t.toISOString()]. *)
Inductive Json : Type :=
| JNull
| JBool (b : bool)
| JNumber (n : Z)
| JString (s : string)
| JDate (t : Timestamp)
| JArray (items : list Json)
| JObject (fields : list (string * Json)).

#[global] Instance Json_Document : Document Json :=
  fun now => JObject [("wallets", JArray []); ("lastUpdate", JDate now)].

Fixpoint property (name : string) (fields : list (string * Json)) : option Json :=
  match fields with
  | [] => None
  | (k, v) :: rest => if String.eqb k name then Some v else property name rest
  end.

(** Whether a JSON value has the outline of a snapshot: an object with an
    array [wallets] and a string [lastUpdate]. *)
Definition snapshotShaped (j : Json) : bool :=
  match j with
  | JObject fields =>
      match property "wallets" fields, property "lastUpdate" fields with
      | Some (JArray _), Some (JString _ | JDate _) => true
      | _, _ => false
      end
  | _ => false
  end.

(** [data.wallets.length], the first thing [getDatabaseStats] computes from
    what [loadData] hands it. *)
Definition walletsLength (j : Json) : Outcome nat :=
  match j with
  | JObject fields =>
      match property "wallets" fields with
      | Some (JArray items) => Returned (List.length items)
      | Some (JString s) => Returned (String.length s)
      | _ => Thrown TypeError
      end
  | _ => Thrown TypeError
  end.

Section Store.
Context {D : Type} `{Document D}.

(** [fs.readFileSync(this.dataPath, 'utf-8')] *)
Definition readFileSync (disk : Disk D) : Outcome (option D) :=
  match backing disk with
  | Text parsed => Returned parsed
  | Missing | Unreadable => Thrown IOError
  end.

(** [JSON.parse(data)] *)
Definition JSON_parse (text : option D) : Outcome D :=
  match text with
  | Some d => Returned d
  | None => Thrown SyntaxError
  end.

(** [fs.writeFileSync(this.dataPath, JSON.stringify(data, null, 2))] *)
Definition writeFileSync (disk : Disk D) (data : D) : Outcome (Disk D) :=
  if writable disk
  then Returned (mkDisk (Text (Some data)) (writable disk))
  else Thrown IOError.

(** [loadData] (database.ts 61-69) *)
Definition loadData (disk : Disk D) (now : Timestamp) : D :=
  tryCatch (andThen (readFileSync disk) JSON_parse)
           (fun _error => emptyDocument now).

(** [saveData] (database.ts 74-80) *)
Definition saveData (disk : Disk D) (data : D) : Disk D :=
  tryCatch (writeFileSync disk data) (fun _error => disk).

(** [fs.existsSync(this.dataPath)] *)
Definition existsSync (disk : Disk D) : bool :=
  match backing disk with
  | Missing => false
  | Unreadable | Text _ => true
  end.

(** [ensureDatabaseExists] (database.ts 47-56), run by the constructor;
    its write is not guarded. *)
Definition ensureDatabaseExists (disk : Disk D) (now : Timestamp) : Outcome (Disk D) :=
  if negb (existsSync disk)
  then writeFileSync disk (emptyDocument now)
  else Returned disk.

End Store.

(* ================================================================== *)
(** ** [class WalletDatabase]: the record store (database.ts)

    Every method takes the file as it finds it and the instant [now] its
    [new Date()] calls read, and gives back the file as it leaves it. *)

Definition Store : Type := Disk Snapshot.

(** [w.address.toLowerCase() === address.toLowerCase()] *)
Definition isWallet (addr : string) (w : WalletData) : bool :=
  String.eqb (toLowerCase (address w)) (toLowerCase addr).

(** [saveWalletData] (85-139).  The [changes] list it builds is never
    printed and is left out. *)
Definition saveWalletData (disk : Store) (now : Timestamp)
  (walletData : WalletObject) : Store :=
  let data := loadData disk now in
  match findIndex (isWallet (p_address walletData)) (wallets data) with
  | Some (existingIndex, existing) =>
      let merged :=
        set_connectedAt (Some now)
          (spread (p_address walletData) existing walletData) in
      saveData disk (mkSnapshot (setAt existingIndex merged (wallets data)) now)
  | None =>
      let created :=
        set_connectedAt (Some now)
          (spread (p_address walletData)
                  (blankWallet (p_address walletData)) walletData) in
      saveData disk (mkSnapshot (wallets data ++ [created]) now)
  end.

(** [getWalletData] (144-148) *)
Definition getWalletData (disk : Store) (now : Timestamp) (addr : string)
  : option WalletData :=
  let data := loadData disk now in
  List.find (isWallet addr) (wallets data).

(** [getAllWallets] (153-156) *)
Definition getAllWallets (disk : Store) (now : Timestamp) : list WalletData :=
  wallets (loadData disk now).

(** [deleteWallet] (161-175) *)
Definition deleteWallet (disk : Store) (now : Timestamp) (addr : string)
  : bool * Store :=
  let data := loadData disk now in
  let initialLength := List.length (wallets data) in
  let remaining := List.filter (fun w => negb (isWallet addr w)) (wallets data) in
  if Nat.ltb (List.length remaining) initialLength
  then (true, saveData disk (mkSnapshot remaining now))
  else (false, disk).

(** [updateWalletStats] (180-194) *)
Definition updateWalletStats (disk : Store) (now : Timestamp) (addr : string)
  (stats : WalletPatch) : Store :=
  let data := loadData disk now in
  match findIndex (isWallet addr) (wallets data) with
  | Some (walletIndex, old) =>
      let merged :=
        set_lastActivity (Some now)
          (spread (spreadAddress (address old) (p_address stats)) old stats) in
      saveData disk (mkSnapshot (setAt walletIndex merged (wallets data)) now)
  | None => disk
  end.

(** [getDatabaseStats] (199-205) *)
Definition getDatabaseStats (disk : Store) (now : Timestamp) : nat * Timestamp :=
  let data := loadData disk now in
  (List.length (wallets data), lastUpdate data).

(** [getWalletDataSync] (317-320) *)
Definition getWalletDataSync (disk : Store) (now : Timestamp) (addr : string)
  : option WalletData :=
  let data := loadData disk now in
  List.find (isWallet addr) (wallets data).

(** [isNewDayForWallet] (210-243) *)
Definition isNewDayForWallet (disk : Store) (now : Timestamp) (addr : string)
  : bool :=
  match getWalletDataSync disk now addr with
  | None => true
  | Some walletData =>
      let today := isoDate now in
      let lastTransferDate := lastTransferDate walletData in
      if differsFrom lastTransferDate today then true
      else
        let lastActivityDate := option_map isoDate (lastActivity walletData) in
        let lastConnectedDate := option_map isoDate (connectedAt walletData) in
        if differsFrom lastActivityDate today then true
        else
          match lastActivityDate with
          | None => if differsFrom lastConnectedDate today then true else false
          | Some _ => false
          end
  end.

(** [shouldRefreshSpinsForNewDay] (249-283).  [now] and [nowUTC] are the
    two [new Date()] the body reads. *)
Definition shouldRefreshSpinsForNewDay (disk : Store) (now nowUTC : Timestamp)
  (addr : string) : bool :=
  match getWalletDataSync disk now addr with
  | None => true
  | Some walletData =>
      let today := isoDate now in
      match lastSpinDate walletData with
      | None => true
      | Some lastSpin =>
          let lastSpinDate := isoDate lastSpin in
          if negb (Z.eqb lastSpinDate today) then true
          else
            let nowUTCHours := getUTCHours nowUTC in
            let lastSpinUTCHours := getUTCHours lastSpin in
            if andb (3 <=? nowUTCHours) (lastSpinUTCHours <? 3) then true
            else false
      end
  end.

(** [resetDailyTransferFlagIfNewDay] (288-312) *)
Definition resetDailyTransferFlagIfNewDay (disk : Store) (now : Timestamp)
  (addr : string) : Store :=
  match getWalletDataSync disk now addr with
  | None => disk
  | Some walletData =>
      let today := isoDate now in
      if differsFrom (lastTransferDate walletData) today then
        let data := loadData disk now in
        match findIndex (isWallet addr) (wallets data) with
        | Some (walletIndex, w) =>
            saveData disk
              (mkSnapshot
                 (setAt walletIndex (set_todayTransfer (Some false) w) (wallets data))
                 now)
        | None => disk
        end
      else disk
  end.

(** [checkSpinsAvailable] (325-333) *)
Definition checkSpinsAvailable (disk : Store) (now : Timestamp) (addr : string)
  : bool :=
  match getWalletData disk now addr with
  | None => false
  | Some walletData =>
      match spinsAvailable walletData with
      | Some n => 0 <? n
      | None => false
      end
  end.

(** [x || 0] for an optional number *)
Definition orZero (x : option Z) : Z :=
  match x with
  | Some n => n
  | None => 0
  end.

(** The double nearest to the integer [n], ties going to the even
    mantissa: what the integer [n] is as a JavaScript number.  Every
    integer of size at most 2^53 is a double; beyond, [e] low bits are
    rounded away so that 53 bits remain.  (An integer of size 2^1024 or
    more would be [Infinity], which [JSON.stringify] does not write; such
    counters are left out of the statements.) *)
Definition toDouble (n : Z) : Z :=
  let a := Z.abs n in
  if a <=? 2 ^ 53 then n
  else
    let e := Z.log2 a - 52 in
    let q := Z.shiftr a e in
    let r := a - Z.shiftl q e in
    let half := Z.shiftl 1 (e - 1) in
    let rounded :=
      if r <? half then q
      else if half <? r then q + 1
      else if Z.even q then q else q + 1 in
    Z.sgn n * Z.shiftl rounded e.

(** [x - y] on JavaScript numbers that hold integers *)
Definition jsSubtract (x y : Z) : Z := toDouble (toDouble x - toDouble y).

(** [decrementSpins] (338-351) *)
Definition decrementSpins (disk : Store) (now : Timestamp) (addr : string)
  : Store :=
  let data := loadData disk now in
  match findIndex (isWallet addr) (wallets data) with
  | Some (walletIndex, w) =>
      let currentSpins := orZero (spinsAvailable w) in
      if 0 <? currentSpins then
        let w1 := set_spinsAvailable (Some (jsSubtract currentSpins 1)) w in
        let w2 := set_lastActivity (Some now) w1 in
        saveData disk (mkSnapshot (setAt walletIndex w2 (wallets data)) now)
      else disk
  | None => disk
  end.

(** [updateLastSpinDate] (356-367) *)
Definition updateLastSpinDate (disk : Store) (now : Timestamp) (addr : string)
  : Store :=
  let data := loadData disk now in
  match findIndex (isWallet addr) (wallets data) with
  | Some (walletIndex, w) =>
      let w1 := set_lastSpinDate (Some now) w in
      let w2 := set_lastActivity (Some now) w1 in
      saveData disk (mkSnapshot (setAt walletIndex w2 (wallets data)) now)
  | None => disk
  end.

(** [forceUpdateWalletData] (372-403) *)
Definition forceUpdateWalletData (disk : Store) (now : Timestamp) (addr : string)
  (newData : WalletPatch) : Store :=
  let data := loadData disk now in
  match findIndex (isWallet addr) (wallets data) with
  | Some (walletIndex, old) =>
      let merged :=
        set_lastActivity (Some now)
          (spread (spreadAddress (address old) (p_address newData)) old newData) in
      saveData disk (mkSnapshot (setAt walletIndex merged (wallets data)) now)
  | None => disk
  end.

(** [updateDailyTransferStatus] (766-794) *)
Definition updateDailyTransferStatus (disk : Store) (now : Timestamp)
  (addr : string) (date : Day) (amount : Z) : Store :=
  let data := loadData disk now in
  match findIndex (isWallet addr) (wallets data) with
  | Some (walletIndex, w) =>
      let w1 := set_todayTransfer (Some true) w in
      let w2 := set_lastTransferDate (Some date) w1 in
      let w3 := set_transferAmount (Some amount) w2 in
      let w4 := set_lastActivity (Some now) w3 in
      saveData disk (mkSnapshot (setAt walletIndex w4 (wallets data)) now)
  | None =>
      let newWallet :=
        mkWalletData addr None None None (Some now) (Some now) None None None
          None None (Some true) (Some date) (Some amount) None in
      saveData disk (mkSnapshot (wallets data ++ [newWallet]) now)
  end.

(** [resetDailyTransferFlags] (863-880) *)
Definition resetDailyTransferFlags (disk : Store) (now : Timestamp) : Store :=
  let data := loadData disk now in
  let today := isoDate now in
  let stale (wallet : WalletData) := differsFrom (lastTransferDate wallet) today in
  let updated := List.existsb stale (wallets data) in
  if updated then
    saveData disk
      (mkSnapshot
         (List.map (fun wallet =>
                      if stale wallet then set_todayTransfer (Some false) wallet
                      else wallet)
                   (wallets data))
         now)
  else disk.

(* ================================================================== *)
(** ** Effects: a state-and-exception monad

    A computation runs from a state, ends in a value or an exception, and
    leaves a state behind; what it did before throwing stays done. *)

Definition M (S A : Type) : Type := S -> Outcome A * S.

Definition ret {S A : Type} (a : A) : M S A := fun s => (Returned a, s).

Definition bind {S A B : Type} (c : M S A) (k : A -> M S B) : M S B :=
  fun s =>
    match c s with
    | (Returned a, s') => k a s'
    | (Thrown e, s') => (Thrown e, s')
    end.

Definition throw {S A : Type} (e : Error) : M S A := fun s => (Thrown e, s).

(** [try { body } catch (error) { handler }] *)
Definition tryCatchM {S A : Type} (body : M S A) (handler : Error -> M S A) : M S A :=
  fun s =>
    match body s with
    | (Returned a, s') => (Returned a, s')
    | (Thrown e, s') => handler e s'
    end.

(** [try { body } finally { cleanup }], for a [cleanup] that does not throw
    or return. *)
Definition tryFinally {S A : Type} (body : M S A) (cleanup : M S unit) : M S A :=
  fun s =>
    match body s with
    | (r, s') =>
        match cleanup s' with
        | (Returned _, s'') => (r, s'')
        | (Thrown e, s'') => (Thrown e, s'')
        end
    end.

Definition get {S : Type} : M S S := fun s => (Returned s, s).
Definition modify {S : Type} (f : S -> S) : M S unit := fun s => (Returned tt, f s).

Declare Scope monad_scope.
Delimit Scope monad_scope with monad.
Notation "x <- c ;; k" := (bind c (fun x => k))
  (at level 61, c at next level, right associativity) : monad_scope.
Notation "c ;; k" := (bind c (fun _ => k))
  (at level 61, right associativity) : monad_scope.

(* ================================================================== *)
(** ** The world outside the program *)

(** The receipt of a mined transaction. *)
Inductive ReceiptStatus : Type := ReceiptSuccess | ReceiptReverted.

(** [interface SpinResult] *)
Record SpinResult : Type := mkSpinResult {
  spin_success : bool;
  spin_error : option string
}.

(** What the program does to the outside, in order, each call with what
    came back. *)
Inductive Event : Type :=
| RpcBalanceRead (addr : string) (balance : Outcome Z)
| LedgerTransfer (privateKey : string) (amount : Z) (submitted : Outcome string)
| LedgerDeposit (privateKey : string) (amount : Z) (submitted : Outcome string)
| ReceiptAwaited (hash : string) (receipt : Outcome ReceiptStatus)
| RandomDrawn (value : Z)
| Slept (ms : Z)
| BotCreated
| BotInitialize (done : Outcome unit)
| BotConnect (connected : Outcome bool)
| BotSpin (result : Outcome SpinResult)
| BotReload (reloaded : Outcome bool)
| BotExtract (done : Outcome unit)
| BotClose (done : Outcome unit).

(** The backing file together with everything else the collaborators can
    see and change (chain, page, browser, random source, clock). *)
Record Machine (Ext : Type) : Type := mkMachine {
  disk : Store;
  ext : Ext
}.
Arguments mkMachine {Ext} disk ext.
Arguments disk {Ext} m.
Arguments ext {Ext} m.

Record World (Ext : Type) : Type := mkWorld {
  machine : Machine Ext;
  trace : list Event
}.
Arguments mkWorld {Ext} machine trace.
Arguments machine {Ext} w.
Arguments trace {Ext} w.

(** [{ success: boolean; hash?: string; error?: string }] *)
Record TxResult : Type := mkTxResult {
  success : bool;
  hash : option string;
  error : option string
}.

(** The libraries and the browser robot, as the program calls them.  A
    call to the chain, the random source or the timer changes the outside
    only and may throw; a method of the robot may also rewrite the backing
    file, since the robot keeps a [WalletDatabase] of its own. *)
Class Collaborators (Ext : Type) : Type := {
  (** [new Date()] *)
  clock : Ext -> Timestamp;
  (** [privateKeyToAccount(privateKey).address] (viem) *)
  privateKeyToAccount : string -> Outcome string;
  (** [getAddress] (viem): the checksummed spelling *)
  getAddress : string -> string;
  (** [client.readContract(... balanceOf ...)] rendered by
      [parseFloat(formatEther(balance)).toFixed(9)] *)
  readContractBalanceOf : string -> Ext -> Outcome Z * Ext;
  (** [(wethAmount * (Math.random() * 0.98 + 0.01)).toFixed(9)] *)
  randomTransferAmount : Z -> Ext -> Z * Ext;
  (** [(Math.random() * (maxAmount - minAmount) + minAmount).toFixed(9)] *)
  randomDepositAmount : Ext -> Z * Ext;
  (** [getRandomNumber(min, max)] *)
  getRandomNumber : Z -> Z -> Ext -> Z * Ext;
  (** [walletClient.writeContract(... transfer ...)] *)
  writeContractTransfer : string -> Z -> Ext -> Outcome string * Ext;
  (** [walletClient.writeContract(... deposit ...)] *)
  writeContractDeposit : string -> Z -> Ext -> Outcome string * Ext;
  (** [client.waitForTransactionReceipt({ hash })] *)
  waitForTransactionReceipt : string -> Ext -> Outcome ReceiptStatus * Ext;
  (** [new Promise(resolve => setTimeout(resolve, ms))] *)
  setTimeout : Z -> Ext -> Ext;
  (** methods of [LineaSpinWheelBot] *)
  bot_initialize : Machine Ext -> Outcome unit * Machine Ext;
  bot_connectToLineaRewards : Machine Ext -> Outcome bool * Machine Ext;
  bot_spinWheel : Machine Ext -> Outcome SpinResult * Machine Ext;
  bot_reloadAndReconnect : Machine Ext -> Outcome bool * Machine Ext;
  bot_extractAndSaveWalletData : Machine Ext -> Outcome unit * Machine Ext;
  bot_close : Machine Ext -> Outcome unit * Machine Ext
}.

Section Campaign.
Context {Ext : Type} `{Collaborators Ext}.

Local Open Scope monad_scope.

Definition Run (A : Type) : Type := M (World Ext) A.

(** A call to the chain, noted in the trace with what came back. *)
Definition callExt {A : Type} (ev : Outcome A -> Event)
  (f : Ext -> Outcome A * Ext) : Run A :=
  fun w =>
    match f (ext (machine w)) with
    | (r, e) => (r, mkWorld (mkMachine (disk (machine w)) e) (trace w ++ [ev r]))
    end.

(** A call to a method of the robot, noted in the trace. *)
Definition callBot {A : Type} (ev : Outcome A -> Event)
  (f : Machine Ext -> Outcome A * Machine Ext) : Run A :=
  fun w =>
    match f (machine w) with
    | (r, m) => (r, mkWorld m (trace w ++ [ev r]))
    end.

(** A number drawn from [Math.random()]. *)
Definition draw (f : Ext -> Z * Ext) : Run Z :=
  fun w =>
    match f (ext (machine w)) with
    | (v, e) =>
        (Returned v,
         mkWorld (mkMachine (disk (machine w)) e) (trace w ++ [RandomDrawn v]))
    end.

(** [await new Promise(resolve => setTimeout(resolve, ms))] *)
Definition sleep (ms : Z) : Run unit :=
  fun w =>
    (Returned tt,
     mkWorld (mkMachine (disk (machine w)) (setTimeout ms (ext (machine w))))
             (trace w ++ [Slept ms])).

(** A pure library call that may throw. *)
Definition lift {A : Type} (r : Outcome A) : Run A := fun w => (r, w).

(** [new Date()] *)
Definition newDate : Run Timestamp :=
  fun w => (Returned (clock (ext (machine w))), w).

(** A method of [WalletDatabase] that reads the file. *)
Definition query {A : Type} (f : Store -> Timestamp -> A) : Run A :=
  fun w => (Returned (f (disk (machine w)) (clock (ext (machine w)))), w).

(** A method of [WalletDatabase] that rewrites the file. *)
Definition update (f : Store -> Timestamp -> Store) : Run unit :=
  fun w =>
    (Returned tt,
     mkWorld (mkMachine (f (disk (machine w)) (clock (ext (machine w))))
                        (ext (machine w)))
             (trace w)).

(** [new WalletDatabase()] (34-42) *)
Definition newWalletDatabase : Run unit :=
  fun w =>
    match ensureDatabaseExists (disk (machine w)) (clock (ext (machine w))) with
    | Returned d => (Returned tt, mkWorld (mkMachine d (ext (machine w))) (trace w))
    | Thrown e => (Thrown e, w)
    end.

(** [delayAfterSuccessfulTransaction] (utils/delays) *)
Definition delayAfterSuccessfulTransaction : Run unit :=
  delay <- draw (getRandomNumber (30 * 1000) (2 * 60 * 1000)) ;;
  sleep delay.

(** [getWETHBalanceViaRPC] (429-463) *)
Definition getWETHBalanceViaRPC (addr : string) : Run (option Z) :=
  tryCatchM
    (balance <- callExt (RpcBalanceRead addr) (readContractBalanceOf addr) ;;
     ret (Some balance))
    (fun _error => ret None).

(** [performWETHTransfer] (538-600) *)
Definition performWETHTransfer (privateKey : string) (amount : Z) : Run TxResult :=
  tryCatchM
    (_account <- lift (privateKeyToAccount privateKey) ;;
     hash <- callExt (LedgerTransfer privateKey amount)
                     (writeContractTransfer privateKey amount) ;;
     receipt <- callExt (ReceiptAwaited hash) (waitForTransactionReceipt hash) ;;
     match receipt with
     | ReceiptSuccess => ret (mkTxResult true (Some hash) None)
     | ReceiptReverted => ret (mkTxResult false None (Some "Transaction failed"))
     end)
    (fun _error => ret (mkTxResult false None (Some "error.message"))).

(** [performWETHDeposit] (605-660) *)
Definition performWETHDeposit (privateKey : string) (amount : Z) : Run TxResult :=
  tryCatchM
    (_account <- lift (privateKeyToAccount privateKey) ;;
     hash <- callExt (LedgerDeposit privateKey amount)
                     (writeContractDeposit privateKey amount) ;;
     receipt <- callExt (ReceiptAwaited hash) (waitForTransactionReceipt hash) ;;
     match receipt with
     | ReceiptSuccess => ret (mkTxResult true (Some hash) None)
     | ReceiptReverted => ret (mkTxResult false None (Some "Transaction failed"))
     end)
    (fun _error => ret (mkTxResult false None (Some "error.message"))).

(** [wethAmount > 0] for a balance that was read *)
Definition positiveBalance (b : option Z) : bool :=
  match b with
  | Some amount => 0 <? amount
  | None => false
  end.

(** The loop [for (let attempt = 0; attempt < 3; attempt++)] of
    [checkAndDepositWETH] (704-716); [newWETHBalance] is the last value
    read. *)
Fixpoint pollNewBalance (addr : string) (attemptsLeft : nat)
  (newWETHBalance : option Z) : Run (option Z) :=
  match attemptsLeft with
  | O => ret newWETHBalance
  | S rest =>
      read <- getWETHBalanceViaRPC addr ;;
      if positiveBalance read then ret read
      else
        (match rest with
         | O => ret tt
         | S _ => sleep 5000
         end) ;;
        pollNewBalance addr rest read
  end.

(** The store update inside [checkAndDepositWETH] (720-740) *)
Definition recordNewBalance (addr : string) (newWETHBalance : Z)
  (store : Store) (now : Timestamp) : Store :=
  let data := loadData store now in
  match findIndex (isWallet addr) (wallets data) with
  | Some (walletIndex, w) =>
      let w1 := set_wethBalance (Some newWETHBalance) w in
      let w2 := set_lastActivity (Some now) w1 in
      saveData store (mkSnapshot (setAt walletIndex w2 (wallets data)) now)
  | None =>
      let newWallet :=
        mkWalletData addr None (Some newWETHBalance) None (Some now) (Some now)
          None None None None None None None None None in
      saveData store (mkSnapshot (wallets data ++ [newWallet]) now)
  end.

(** [checkAndDepositWETH] (665-761) *)
Definition checkAndDepositWETH (privateKey : string) : Run bool :=
  tryCatchM
    (addr <- lift (privateKeyToAccount privateKey) ;;
     currentWETHBalance <- getWETHBalanceViaRPC addr ;;
     match currentWETHBalance with
     | None => ret false
     | Some wethAmount =>
         if 0 <? wethAmount then ret true
         else
           randomAmount <- draw randomDepositAmount ;;
           result <- performWETHDeposit privateKey randomAmount ;;
           if success result then
             sleep 10000 ;;
             newWETHBalance <- pollNewBalance addr 3 None ;;
             match newWETHBalance with
             | Some b =>
                 update (recordNewBalance addr b) ;;
                 delayAfterSuccessfulTransaction ;;
                 ret true
             | None => ret false
             end
           else ret false
     end)
    (fun _error => ret false).

(** [walletData?.lastTransferDate === today] *)
Definition transferredOn (walletData : option WalletData) (today : Day) : bool :=
  match walletData with
  | Some w =>
      match lastTransferDate w with
      | Some d => Z.eqb d today
      | None => false
      end
  | None => false
  end.

(** [checkAndPerformDailyTransfer] (799-858) *)
Definition checkAndPerformDailyTransfer (privateKey : string) : Run bool :=
  tryCatchM
    (addr <- lift (privateKeyToAccount privateKey) ;;
     now <- newDate ;;
     let today := isoDate now in
     walletData <- query (fun store now => getWalletData store now addr) ;;
     if transferredOn walletData today then ret true
     else
       wethBalance <- getWETHBalanceViaRPC addr ;;
       match wethBalance with
       | None => ret false
       | Some wethAmount =>
           if wethAmount <=? 0 then ret false
           else
             transferAmount <- draw (randomTransferAmount wethAmount) ;;
             result <- performWETHTransfer privateKey transferAmount ;;
             if success result then
               update (fun store now =>
                         updateDailyTransferStatus store now addr today transferAmount) ;;
               delayAfterSuccessfulTransaction ;;
               ret true
             else ret false
       end)
    (fun _error => ret false).

(** [checkSpinsAvailableToday] *)
Definition checkSpinsAvailableToday (addr : string) : Run bool :=
  query (fun store now => checkSpinsAvailable store now addr).

Definition maxSpins : nat := 10.

(** The loop of [performAllAvailableSpins] (118-158):
    [while (spinCount < maxSpins) { ... }].  [fuel] bounds the number of
    iterations the model unrolls; [None] reports that it ran out before
    the loop ended. *)
Fixpoint spinLoop (fuel : nat) (spinCount : nat) (addr : string)
  : Run (option unit) :=
  if Nat.ltb spinCount maxSpins then
    match fuel with
    | O => ret None
    | S fuel' =>
        spinsAvailable <- checkSpinsAvailableToday addr ;;
        if negb spinsAvailable then ret (Some tt)
        else
          let spinCount := S spinCount in
          result <- callBot BotSpin bot_spinWheel ;;
          if spin_success result then
            reloaded <- callBot BotReload bot_reloadAndReconnect ;;
            if negb reloaded then ret (Some tt)
            else
              callBot BotExtract bot_extractAndSaveWalletData ;;
              sleep 3000 ;;
              spinLoop fuel' spinCount addr
          else
            callBot BotExtract bot_extractAndSaveWalletData ;;
            ret (Some tt)
    end
  else ret (Some tt).

(** [performAllAvailableSpins] (114-163) *)
Definition performAllAvailableSpins (addr : string) : Run unit :=
  _ <- spinLoop maxSpins 0 addr ;;
  ret tt.

(** The object [processWallet] returns. *)
Record WalletStatus : Type := mkWalletStatus {
  hasWETHBalance : bool;
  dailyTransferCompleted : bool;
  hasAvailableSpins : bool;
  spinsPerformed : bool
}.

(** The [let] variables of [processWallet] (180-186): the four flags and
    whether [bot] has been assigned. *)
Record Locals : Type := mkLocals {
  flags : WalletStatus;
  bot : bool
}.

Record Frame : Type := mkFrame {
  world : World Ext;
  locals : Locals
}.

Definition Pass (A : Type) : Type := M Frame A.

Definition inWorld {A : Type} (c : Run A) : Pass A :=
  fun f =>
    match c (world f) with
    | (r, w) => (r, mkFrame w (locals f))
    end.

Definition assign (g : WalletStatus -> WalletStatus) : Pass unit :=
  modify (fun f => mkFrame (world f) (mkLocals (g (flags (locals f))) (bot (locals f)))).

Definition currentFlags : Pass WalletStatus :=
  fun f => (Returned (flags (locals f)), f).

Definition set_hasWETHBalance (v : bool) (s : WalletStatus) : WalletStatus :=
  mkWalletStatus v (dailyTransferCompleted s) (hasAvailableSpins s) (spinsPerformed s).
Definition set_dailyTransferCompleted (v : bool) (s : WalletStatus) : WalletStatus :=
  mkWalletStatus (hasWETHBalance s) v (hasAvailableSpins s) (spinsPerformed s).
Definition set_hasAvailableSpins (v : bool) (s : WalletStatus) : WalletStatus :=
  mkWalletStatus (hasWETHBalance s) (dailyTransferCompleted s) v (spinsPerformed s).
Definition set_spinsPerformed (v : bool) (s : WalletStatus) : WalletStatus :=
  mkWalletStatus (hasWETHBalance s) (dailyTransferCompleted s) (hasAvailableSpins s) v.

(** [createWalletConfig] (102-109): the address of the configuration *)
Definition createWalletConfig (privateKey : string) : Outcome string :=
  andThen (privateKeyToAccount privateKey) (fun a => Returned (getAddress a)).

(** [bot = new LineaSpinWheelBot(walletConfig)]: the constructor opens its
    own [WalletDatabase]; the assignment happens once it has returned. *)
Definition newLineaSpinWheelBot : Pass unit :=
  inWorld newWalletDatabase ;;
  inWorld (fun w => (Returned tt, mkWorld (machine w) (trace w ++ [BotCreated]))) ;;
  modify (fun f => mkFrame (world f) (mkLocals (flags (locals f)) true)).

(** [walletData.spinsAvailable !== undefined && walletData.prizesWon !==
    undefined && walletData.gamesPlayed !== undefined] *)
Definition fullData (w : WalletData) : bool :=
  match spinsAvailable w, prizesWon w, gamesPlayed w with
  | Some _, Some _, Some _ => true
  | _, _, _ => false
  end.

Definition isSome {A : Type} (o : option A) : bool :=
  match o with
  | Some _ => true
  | None => false
  end.

(** [existingWalletData && dailyTransferDoneToday &&
    existingWalletData.spinsAvailable === 0 && !shouldRefreshSpins] (241-244) *)
Definition walletFullyCompletedToday (existingWalletData : option WalletData)
  (dailyTransferDoneToday shouldRefreshSpins : bool) : bool :=
  match existingWalletData with
  | Some w =>
      dailyTransferDoneToday
      && (match spinsAvailable w with Some n => Z.eqb n 0 | None => false end)
      && negb shouldRefreshSpins
  | None => false
  end.

(** The condition of the first [if] of the dispatch (258) *)
Definition refreshKnownWallet (existingWalletData : option WalletData)
  (isNewDay hasFullData dailyTransferDoneToday shouldRefreshSpins : bool) : bool :=
  isSome existingWalletData && negb isNewDay && hasFullData
  && (dailyTransferDoneToday || shouldRefreshSpins).

(** The condition of the [else if] of the dispatch (292) *)
Definition useCachedSpins (existingWalletData : option WalletData)
  (isNewDay hasFullData shouldRefreshSpins : bool) : bool :=
  isSome existingWalletData && negb isNewDay && hasFullData
  && negb shouldRefreshSpins.

(** [return { hasWETHBalance, dailyTransferCompleted, hasAvailableSpins,
    spinsPerformed: false }] *)
Definition returnNotConnected : Pass (option WalletStatus) :=
  s <- currentFlags ;;
  ret (Some (set_spinsPerformed false s)).

(** The body of the first branch (265-291) and of the last (330-356), which
    differ in their log lines only: open a browser session, connect (the
    connection reads the card into the store), then look at the store. *)
Definition refreshThenDecide (addr : string) : Pass (option WalletStatus) :=
  newLineaSpinWheelBot ;;
  inWorld (callBot BotInitialize bot_initialize) ;;
  connected <- inWorld (callBot BotConnect bot_connectToLineaRewards) ;;
  if negb connected then returnNotConnected
  else
    spinsAvailable <- inWorld (checkSpinsAvailableToday addr) ;;
    if spinsAvailable then
      inWorld (performAllAvailableSpins addr) ;;
      assign (set_spinsPerformed true) ;;
      ret None
    else
      assign (set_spinsPerformed false) ;;
      ret None.

(** The body of the middle branch (293-318): decide from the cached count. *)
Definition decideFromCache (addr : string) : Pass (option WalletStatus) :=
  spinsAvailable <- inWorld (checkSpinsAvailableToday addr) ;;
  if spinsAvailable then
    newLineaSpinWheelBot ;;
    inWorld (callBot BotInitialize bot_initialize) ;;
    connected <- inWorld (callBot BotConnect bot_connectToLineaRewards) ;;
    if negb connected then returnNotConnected
    else
      inWorld (performAllAvailableSpins addr) ;;
      assign (set_spinsPerformed true) ;;
      ret None
  else
    assign (set_spinsPerformed false) ;;
    ret None.

(** [processWallet], lines 199-357: from reading the record to the end of
    the dispatch.  [Some status] is a [return status] met on the way;
    [None] is falling out of the [try] block. *)
Definition planAndDispatch (addr : string) (dailyTransferResult : bool)
  : Pass (option WalletStatus) :=
  walletData <- inWorld (query (fun store now => getWalletData store now addr)) ;;
  assign (set_hasWETHBalance
            (match walletData with
             | Some w => positiveBalance (wethBalance w)
             | None => false
             end)) ;;
  assign (set_dailyTransferCompleted dailyTransferResult) ;;
  (if match walletData with Some w => fullData w | None => false end then
     available <- inWorld (checkSpinsAvailableToday addr) ;;
     assign (set_hasAvailableSpins available)
   else assign (set_hasAvailableSpins false)) ;;
  let existingWalletData := walletData in
  isNewDay <-
    (match existingWalletData with
     | Some _ => inWorld (query (fun store now => isNewDayForWallet store now addr))
     | None => ret true
     end) ;;
  (if isSome existingWalletData && isNewDay then
     inWorld (update (fun store now => resetDailyTransferFlagIfNewDay store now addr))
   else ret tt) ;;
  let hasFullData :=
    match existingWalletData with Some w => fullData w | None => false end in
  now <- inWorld newDate ;;
  let today := isoDate now in
  let dailyTransferDoneToday := transferredOn existingWalletData today in
  shouldRefreshSpins <-
    (match existingWalletData with
     | Some _ =>
         inWorld (query (fun store now =>
                           shouldRefreshSpinsForNewDay store now now addr))
     | None => ret true
     end) ;;
  if walletFullyCompletedToday existingWalletData dailyTransferDoneToday
       shouldRefreshSpins
  then
    s <- currentFlags ;;
    ret (Some (mkWalletStatus (hasWETHBalance s) true false false))
  else if refreshKnownWallet existingWalletData isNewDay hasFullData
            dailyTransferDoneToday shouldRefreshSpins
  then refreshThenDecide addr
  else if useCachedSpins existingWalletData isNewDay hasFullData shouldRefreshSpins
  then decideFromCache addr
  else refreshThenDecide addr.

(** The [finally] block (361-370) *)
Definition closeBrowser : Pass unit :=
  fun f =>
    if bot (locals f)
    then tryCatchM (inWorld (callBot BotClose bot_close)) (fun _closeError => ret tt) f
    else (Returned tt, f).

(** [processWallet] (168-379) *)
Definition processWallet (privateKey : string) : Pass WalletStatus :=
  addr <- inWorld (lift (createWalletConfig privateKey)) ;;
  inWorld newWalletDatabase ;;
  modify (fun f => mkFrame (world f)
                     (mkLocals (mkWalletStatus false false false false) false)) ;;
  returned <-
    tryFinally
      (tryCatchM
         (_wethDepositResult <- inWorld (checkAndDepositWETH privateKey) ;;
          dailyTransferResult <- inWorld (checkAndPerformDailyTransfer privateKey) ;;
          planAndDispatch addr dailyTransferResult)
         (fun _error => ret None))
      closeBrowser ;;
  match returned with
  | Some status => ret status
  | None => currentFlags
  end.

End Campaign.

Arguments Run : clear implicits.
Arguments Frame : clear implicits.
Arguments Pass : clear implicits.

(* ================================================================== *)
(** ** [class KeyEncryption] (utils/encryption)

    A JavaScript string is kept as the bytes of its UTF-8 encoding and a
    [Buffer] as its bytes, both as a [string] of 8-bit characters.  A
    string with a lone surrogate has no UTF-8 encoding: such strings are
    outside the model. *)

(** [String.prototype.split(sep)] for a one-character separator *)
Fixpoint split (sep : ascii) (s : string) : list string :=
  match s with
  | EmptyString => [EmptyString]
  | String c rest =>
      if Ascii.eqb c sep then EmptyString :: split sep rest
      else
        match split sep rest with
        | first :: others => String c first :: others
        | [] => [String c EmptyString]
        end
  end.

(** [Array.prototype.join(sep)] *)
Fixpoint join (sep : string) (l : list string) : string :=
  match l with
  | [] => EmptyString
  | [x] => x
  | x :: rest => String.append x (String.append sep (join sep rest))
  end.

(** The automaton that reads a string of white space as [trim] sees it:
    the characters of ECMAScript's WhiteSpace and LineTerminator, in
    UTF-8.  A state names the bytes of a character read so far. *)
Inductive TrimState : Type :=
| Between | AfterC2 | AfterE1 | AfterE1_9A | AfterE2 | AfterE2_80
| AfterE2_81 | AfterE3 | AfterE3_80 | AfterEF | AfterEF_BB | NotSpace.

Definition trimStep (q : TrimState) (c : ascii) : TrimState :=
  let n := nat_of_ascii c in
  match q with
  | Between =>
      if (Nat.leb 9 n && Nat.leb n 13)%bool || Nat.eqb n 32 then Between
      else if Nat.eqb n 194 then AfterC2
      else if Nat.eqb n 225 then AfterE1
      else if Nat.eqb n 226 then AfterE2
      else if Nat.eqb n 227 then AfterE3
      else if Nat.eqb n 239 then AfterEF
      else NotSpace
  | AfterC2 => if Nat.eqb n 160 then Between else NotSpace
  | AfterE1 => if Nat.eqb n 154 then AfterE1_9A else NotSpace
  | AfterE1_9A => if Nat.eqb n 128 then Between else NotSpace
  | AfterE2 =>
      if Nat.eqb n 128 then AfterE2_80
      else if Nat.eqb n 129 then AfterE2_81
      else NotSpace
  | AfterE2_80 =>
      if (Nat.leb 128 n && Nat.leb n 138)%bool
         || Nat.eqb n 168 || Nat.eqb n 169 || Nat.eqb n 175
      then Between else NotSpace
  | AfterE2_81 => if Nat.eqb n 159 then Between else NotSpace
  | AfterE3 => if Nat.eqb n 128 then AfterE3_80 else NotSpace
  | AfterE3_80 => if Nat.eqb n 128 then Between else NotSpace
  | AfterEF => if Nat.eqb n 187 then AfterEF_BB else NotSpace
  | AfterEF_BB => if Nat.eqb n 191 then Between else NotSpace
  | NotSpace => NotSpace
  end.

Fixpoint trimRun (q : TrimState) (s : string) : TrimState :=
  match s with
  | EmptyString => q
  | String c rest => trimRun (trimStep q c) rest
  end.

(** Whether [s.trim()] is the empty string, which is when the filter
    [key => key.trim()] drops [s]. *)
Definition trimsToEmpty (s : string) : bool :=
  match trimRun Between s with
  | Between => true
  | _ => false
  end.

(** Whether the character [c] occurs in [s]. *)
Fixpoint occurs (c : ascii) (s : string) : bool :=
  match s with
  | EmptyString => false
  | String d rest => Ascii.eqb d c || occurs c rest
  end.

Definition hexDigits : list ascii :=
  ["0"; "1"; "2"; "3"; "4"; "5"; "6"; "7"; "8"; "9"; "a"; "b"; "c"; "d"; "e"; "f"]%char.

Definition hexDigit (n : nat) : ascii := List.nth n hexDigits "0"%char.

(** The value of a hexadecimal digit, either case *)
Definition hexValue (c : ascii) : option nat :=
  let n := nat_of_ascii c in
  if (Nat.leb 48 n && Nat.leb n 57)%bool then Some (n - 48)%nat
  else if (Nat.leb 97 n && Nat.leb n 102)%bool then Some (n - 87)%nat
  else if (Nat.leb 65 n && Nat.leb n 70)%bool then Some (n - 55)%nat
  else None.

(** [buffer.toString('hex')] *)
Fixpoint toHex (bytes : string) : string :=
  match bytes with
  | EmptyString => EmptyString
  | String c rest =>
      let n := nat_of_ascii c in
      String (hexDigit (n / 16)) (String (hexDigit (n mod 16)) (toHex rest))
  end.

(** [Buffer.from(text, 'hex')]: decoding stops at the first pair that is
    not two hexadecimal digits. *)
Fixpoint fromHex (text : string) : string :=
  match text with
  | String a (String b rest) =>
      match hexValue a, hexValue b with
      | Some x, Some y => String (ascii_of_nat (16 * x + y)) (fromHex rest)
      | _, _ => EmptyString
      end
  | _ => EmptyString
  end.

(** Node's [crypto], as [KeyEncryption] uses it. *)
Class Crypto : Type := {
  (** [crypto.pbkdf2Sync(password, salt, 100000, 32, 'sha256')] *)
  pbkdf2Sync : string -> string -> string;
  (** [createCipheriv('aes-256-cbc', key, iv)], then [update] and [final]:
      the bytes of the ciphertext *)
  cipherBytes : string -> string -> string -> string;
  (** [createDecipheriv('aes-256-cbc', key, iv)], then [update] and
      [final] with the output read as UTF-8: the text deciphered; [final]
      throws when the padding is not well formed *)
  decipherBytes : string -> string -> string -> Outcome string
}.

(** What the cipher is relied on for: it decrypts what it encrypted, and a
    ciphertext is never empty (the padding adds at least one byte). *)
Class CryptoLaws (C : Crypto) : Prop := {
  decipher_cipher : forall key iv plain,
    decipherBytes key iv (cipherBytes key iv plain) = Returned plain;
  cipher_nonempty : forall key iv plain,
    cipherBytes key iv plain <> EmptyString
}.

(** The files [keys.encrypted] and [keys.salt]. *)
Record KeyFiles : Type := mkKeyFiles {
  encryptedFile : option string;
  saltFile : option string;
  keyFilesWritable : bool
}.

Definition wrongPassword : Error := RuntimeError "Неверный пароль".
Definition filesNotFound : Error := RuntimeError "Зашифрованные файлы не найдены".
Definition badFormat : Error := RuntimeError "Неверный формат зашифрованных данных".

(** [!s] for a destructured string that may be [undefined] *)
Definition falsy (s : option string) : bool :=
  match s with
  | None => true
  | Some EmptyString => true
  | Some _ => false
  end.

Section KeyEncryption.
Context {C : Crypto}.

(** [deriveKey] (17-19) *)
Definition deriveKey (password salt : string) : string :=
  pbkdf2Sync password salt.

(** [encryptKeys] (24-53); [salt] and [iv] are what the two
    [crypto.randomBytes] calls return.  The [catch] block logs and
    rethrows. *)
Definition encryptKeys (privateKeys : list string) (password : string)
  (salt iv : string) (files : KeyFiles) : Outcome KeyFiles :=
  let key := deriveKey password salt in
  let keysData := join (String "010"%char EmptyString) privateKeys in
  let encrypted := toHex (cipherBytes key iv keysData) in
  let encryptedData := String.append (toHex iv) (String ":"%char encrypted) in
  if keyFilesWritable files
  then Returned (mkKeyFiles (Some encryptedData) (Some (toHex salt)) true)
  else Thrown IOError.

(** The [try] block of [decryptKeys] (60-90) *)
Definition decryptKeysBody (password : string) (files : KeyFiles)
  : Outcome (list string) :=
  match encryptedFile files, saltFile files with
  | Some encryptedData, Some saltHex =>
      let salt := fromHex saltHex in
      let key := deriveKey password salt in
      let parts := split ":"%char encryptedData in
      let ivHex := List.nth_error parts 0 in
      let encrypted := List.nth_error parts 1 in
      if falsy ivHex || falsy encrypted then Thrown badFormat
      else
        let iv := fromHex (match ivHex with Some s => s | None => EmptyString end) in
        let ciphertext :=
          fromHex (match encrypted with Some s => s | None => EmptyString end) in
        andThen (decipherBytes key iv ciphertext)
          (fun decrypted =>
             Returned
               (List.filter (fun key => negb (trimsToEmpty key))
                            (split "010"%char decrypted)))
  | _, _ => Thrown filesNotFound
  end.

(** [decryptKeys] (58-95): whatever the [try] block throws becomes
    [new Error('Неверный пароль')]. *)
Definition decryptKeys (password : string) (files : KeyFiles)
  : Outcome (list string) :=
  match decryptKeysBody password files with
  | Returned privateKeys => Returned privateKeys
  | Thrown _error => Thrown wrongPassword
  end.

(** [hasEncryptedKeys] (100-102) *)
Definition hasEncryptedKeys (files : KeyFiles) : bool :=
  isSome (encryptedFile files) && isSome (saltFile files).

End KeyEncryption.

(** A small cipher that satisfies [CryptoLaws], to run the definitions on:
    the key is the password followed by the salt, a ciphertext is the
    plaintext behind the first byte of the key, and deciphering checks that
    byte. *)
Definition toyTag (key : string) : ascii :=
  match key with
  | String c _ => c
  | EmptyString => "000"%char
  end.

#[local] Instance ToyCrypto : Crypto := {
  pbkdf2Sync password salt := String.append password salt;
  cipherBytes key _iv plain := String (toyTag key) plain;
  decipherBytes key _iv ciphertext :=
    match ciphertext with
    | String tag plain =>
        if Ascii.eqb tag (toyTag key) then Returned plain
        else Thrown (RuntimeError "bad decrypt")
    | EmptyString => Thrown (RuntimeError "bad decrypt")
    end
}.

(* ================================================================== *)
(** ** Node's [aes-256-cbc]

    AES with a 256-bit key (FIPS 197) in cipher block chaining mode
    (SP 800-38A) with the padding of PKCS #7, as OpenSSL computes it for
    [createCipheriv] and [createDecipheriv].  A byte is a number below
    256, a block a list of 16 bytes in the order of the input. *)

Definition sbox : list N :=
  [0x63; 0x7c; 0x77; 0x7b; 0xf2; 0x6b; 0x6f; 0xc5; 0x30; 0x01; 0x67; 0x2b; 0xfe; 0xd7; 0xab; 0x76;
   0xca; 0x82; 0xc9; 0x7d; 0xfa; 0x59; 0x47; 0xf0; 0xad; 0xd4; 0xa2; 0xaf; 0x9c; 0xa4; 0x72; 0xc0;
   0xb7; 0xfd; 0x93; 0x26; 0x36; 0x3f; 0xf7; 0xcc; 0x34; 0xa5; 0xe5; 0xf1; 0x71; 0xd8; 0x31; 0x15;
   0x04; 0xc7; 0x23; 0xc3; 0x18; 0x96; 0x05; 0x9a; 0x07; 0x12; 0x80; 0xe2; 0xeb; 0x27; 0xb2; 0x75;
   0x09; 0x83; 0x2c; 0x1a; 0x1b; 0x6e; 0x5a; 0xa0; 0x52; 0x3b; 0xd6; 0xb3; 0x29; 0xe3; 0x2f; 0x84;
   0x53; 0xd1; 0x00; 0xed; 0x20; 0xfc; 0xb1; 0x5b; 0x6a; 0xcb; 0xbe; 0x39; 0x4a; 0x4c; 0x58; 0xcf;
   0xd0; 0xef; 0xaa; 0xfb; 0x43; 0x4d; 0x33; 0x85; 0x45; 0xf9; 0x02; 0x7f; 0x50; 0x3c; 0x9f; 0xa8;
   0x51; 0xa3; 0x40; 0x8f; 0x92; 0x9d; 0x38; 0xf5; 0xbc; 0xb6; 0xda; 0x21; 0x10; 0xff; 0xf3; 0xd2;
   0xcd; 0x0c; 0x13; 0xec; 0x5f; 0x97; 0x44; 0x17; 0xc4; 0xa7; 0x7e; 0x3d; 0x64; 0x5d; 0x19; 0x73;
   0x60; 0x81; 0x4f; 0xdc; 0x22; 0x2a; 0x90; 0x88; 0x46; 0xee; 0xb8; 0x14; 0xde; 0x5e; 0x0b; 0xdb;
   0xe0; 0x32; 0x3a; 0x0a; 0x49; 0x06; 0x24; 0x5c; 0xc2; 0xd3; 0xac; 0x62; 0x91; 0x95; 0xe4; 0x79;
   0xe7; 0xc8; 0x37; 0x6d; 0x8d; 0xd5; 0x4e; 0xa9; 0x6c; 0x56; 0xf4; 0xea; 0x65; 0x7a; 0xae; 0x08;
   0xba; 0x78; 0x25; 0x2e; 0x1c; 0xa6; 0xb4; 0xc6; 0xe8; 0xdd; 0x74; 0x1f; 0x4b; 0xbd; 0x8b; 0x8a;
   0x70; 0x3e; 0xb5; 0x66; 0x48; 0x03; 0xf6; 0x0e; 0x61; 0x35; 0x57; 0xb9; 0x86; 0xc1; 0x1d; 0x9e;
   0xe1; 0xf8; 0x98; 0x11; 0x69; 0xd9; 0x8e; 0x94; 0x9b; 0x1e; 0x87; 0xe9; 0xce; 0x55; 0x28; 0xdf;
   0x8c; 0xa1; 0x89; 0x0d; 0xbf; 0xe6; 0x42; 0x68; 0x41; 0x99; 0x2d; 0x0f; 0xb0; 0x54; 0xbb; 0x16]%N.

Definition invSbox : list N :=
  [0x52; 0x09; 0x6a; 0xd5; 0x30; 0x36; 0xa5; 0x38; 0xbf; 0x40; 0xa3; 0x9e; 0x81; 0xf3; 0xd7; 0xfb;
   0x7c; 0xe3; 0x39; 0x82; 0x9b; 0x2f; 0xff; 0x87; 0x34; 0x8e; 0x43; 0x44; 0xc4; 0xde; 0xe9; 0xcb;
   0x54; 0x7b; 0x94; 0x32; 0xa6; 0xc2; 0x23; 0x3d; 0xee; 0x4c; 0x95; 0x0b; 0x42; 0xfa; 0xc3; 0x4e;
   0x08; 0x2e; 0xa1; 0x66; 0x28; 0xd9; 0x24; 0xb2; 0x76; 0x5b; 0xa2; 0x49; 0x6d; 0x8b; 0xd1; 0x25;
   0x72; 0xf8; 0xf6; 0x64; 0x86; 0x68; 0x98; 0x16; 0xd4; 0xa4; 0x5c; 0xcc; 0x5d; 0x65; 0xb6; 0x92;
   0x6c; 0x70; 0x48; 0x50; 0xfd; 0xed; 0xb9; 0xda; 0x5e; 0x15; 0x46; 0x57; 0xa7; 0x8d; 0x9d; 0x84;
   0x90; 0xd8; 0xab; 0x00; 0x8c; 0xbc; 0xd3; 0x0a; 0xf7; 0xe4; 0x58; 0x05; 0xb8; 0xb3; 0x45; 0x06;
   0xd0; 0x2c; 0x1e; 0x8f; 0xca; 0x3f; 0x0f; 0x02; 0xc1; 0xaf; 0xbd; 0x03; 0x01; 0x13; 0x8a; 0x6b;
   0x3a; 0x91; 0x11; 0x41; 0x4f; 0x67; 0xdc; 0xea; 0x97; 0xf2; 0xcf; 0xce; 0xf0; 0xb4; 0xe6; 0x73;
   0x96; 0xac; 0x74; 0x22; 0xe7; 0xad; 0x35; 0x85; 0xe2; 0xf9; 0x37; 0xe8; 0x1c; 0x75; 0xdf; 0x6e;
   0x47; 0xf1; 0x1a; 0x71; 0x1d; 0x29; 0xc5; 0x89; 0x6f; 0xb7; 0x62; 0x0e; 0xaa; 0x18; 0xbe; 0x1b;
   0xfc; 0x56; 0x3e; 0x4b; 0xc6; 0xd2; 0x79; 0x20; 0x9a; 0xdb; 0xc0; 0xfe; 0x78; 0xcd; 0x5a; 0xf4;
   0x1f; 0xdd; 0xa8; 0x33; 0x88; 0x07; 0xc7; 0x31; 0xb1; 0x12; 0x10; 0x59; 0x27; 0x80; 0xec; 0x5f;
   0x60; 0x51; 0x7f; 0xa9; 0x19; 0xb5; 0x4a; 0x0d; 0x2d; 0xe5; 0x7a; 0x9f; 0x93; 0xc9; 0x9c; 0xef;
   0xa0; 0xe0; 0x3b; 0x4d; 0xae; 0x2a; 0xf5; 0xb0; 0xc8; 0xeb; 0xbb; 0x3c; 0x83; 0x53; 0x99; 0x61;
   0x17; 0x2b; 0x04; 0x7e; 0xba; 0x77; 0xd6; 0x26; 0xe1; 0x69; 0x14; 0x63; 0x55; 0x21; 0x0c; 0x7d]%N.

Definition subByte (b : N) : N := List.nth (N.to_nat b) sbox 0%N.
Definition invSubByte (b : N) : N := List.nth (N.to_nat b) invSbox 0%N.

(** Multiplication by [x] in GF(2^8) modulo [x^8 + x^4 + x^3 + x + 1] *)
Definition xtime (b : N) : N :=
  let doubled := (2 * b)%N in
  if (doubled <? 256)%N then doubled else N.lxor doubled 0x11b%N.

Definition times2 (b : N) : N := xtime b.
Definition times3 (b : N) : N := N.lxor (xtime b) b.
Definition times9 (b : N) : N := N.lxor (xtime (xtime (xtime b))) b.
Definition times11 (b : N) : N :=
  N.lxor (xtime (xtime (xtime b))) (N.lxor (xtime b) b).
Definition times13 (b : N) : N :=
  N.lxor (xtime (xtime (xtime b))) (N.lxor (xtime (xtime b)) b).
Definition times14 (b : N) : N :=
  N.lxor (xtime (xtime (xtime b))) (N.lxor (xtime (xtime b)) (xtime b)).

Fixpoint xorBytes (a b : list N) : list N :=
  match a, b with
  | x :: a', y :: b' => N.lxor x y :: xorBytes a' b'
  | _, _ => []
  end.

(** Byte [r + 4c] of a block is row [r] of column [c] of the state. *)
Definition shiftRows (s : list N) : list N :=
  List.map (fun i => List.nth (i mod 4 + 4 * ((i / 4 + i mod 4) mod 4))%nat s 0%N)
           (List.seq 0 16).

Definition invShiftRows (s : list N) : list N :=
  List.map (fun i => List.nth (i mod 4 + 4 * ((i / 4 + 4 - i mod 4) mod 4))%nat s 0%N)
           (List.seq 0 16).

Fixpoint mixColumns (s : list N) : list N :=
  match s with
  | a0 :: a1 :: a2 :: a3 :: rest =>
      N.lxor (times2 a0) (N.lxor (times3 a1) (N.lxor a2 a3))
      :: N.lxor a0 (N.lxor (times2 a1) (N.lxor (times3 a2) a3))
      :: N.lxor a0 (N.lxor a1 (N.lxor (times2 a2) (times3 a3)))
      :: N.lxor (times3 a0) (N.lxor a1 (N.lxor a2 (times2 a3)))
      :: mixColumns rest
  | _ => []
  end.

Fixpoint invMixColumns (s : list N) : list N :=
  match s with
  | a0 :: a1 :: a2 :: a3 :: rest =>
      N.lxor (times14 a0) (N.lxor (times11 a1) (N.lxor (times13 a2) (times9 a3)))
      :: N.lxor (times9 a0) (N.lxor (times14 a1) (N.lxor (times11 a2) (times13 a3)))
      :: N.lxor (times13 a0) (N.lxor (times9 a1) (N.lxor (times14 a2) (times11 a3)))
      :: N.lxor (times11 a0) (N.lxor (times13 a1) (N.lxor (times9 a2) (times14 a3)))
      :: invMixColumns rest
  | _ => []
  end.

(** The key schedule for a key of eight words.  [recent] holds the words
    computed so far, the latest first; [i] is the index of the next one. *)
Definition rotWord (w : list N) : list N :=
  match w with
  | a :: rest => rest ++ [a]
  | [] => []
  end.

Definition rcon (j : nat) : N := List.nth (j - 1) [1; 2; 4; 8; 16; 32; 64]%N 0%N.

Fixpoint expandKey (steps i : nat) (recent : list (list N)) : list (list N) :=
  match steps with
  | O => List.rev recent
  | S steps' =>
      let previous := List.nth 0 recent [] in
      let eightBack := List.nth 7 recent [] in
      let temp :=
        if Nat.eqb (i mod 8) 0
        then xorBytes (List.map subByte (rotWord previous)) [rcon (i / 8); 0; 0; 0]%N
        else if Nat.eqb (i mod 8) 4 then List.map subByte previous
        else previous in
      expandKey steps' (S i) (xorBytes eightBack temp :: recent)
  end.

(** A list cut into pieces of [n] elements; a shorter rest is dropped. *)
Fixpoint chunksFuel {A : Type} (fuel n : nat) (l : list A) : list (list A) :=
  match fuel with
  | O => []
  | S fuel' =>
      if Nat.leb n (List.length l) && Nat.ltb 0 n
      then List.firstn n l :: chunksFuel fuel' n (List.skipn n l)
      else []
  end.

Definition chunks {A : Type} (n : nat) (l : list A) : list (list A) :=
  chunksFuel (List.length l) n l.

(** The fifteen round keys of a 32-byte key *)
Definition roundKeys (key : list N) : list (list N) :=
  chunks 16 (List.concat (expandKey 52 8 (List.rev (chunks 4 key)))).

Fixpoint cipherRounds (s : list N) (keys : list (list N)) : list N :=
  match keys with
  | [] => s
  | [lastKey] => xorBytes (shiftRows (List.map subByte s)) lastKey
  | k :: rest =>
      cipherRounds (xorBytes (mixColumns (shiftRows (List.map subByte s))) k) rest
  end.

(** [Cipher] of FIPS 197 *)
Definition encryptBlock (keys : list (list N)) (block : list N) : list N :=
  match keys with
  | k0 :: rest => cipherRounds (xorBytes block k0) rest
  | [] => block
  end.

Fixpoint invCipherRounds (s : list N) (keys : list (list N)) : list N :=
  match keys with
  | [] => s
  | [firstKey] => xorBytes (List.map invSubByte (invShiftRows s)) firstKey
  | k :: rest =>
      invCipherRounds
        (invMixColumns (xorBytes (List.map invSubByte (invShiftRows s)) k)) rest
  end.

(** [InvCipher] of FIPS 197 *)
Definition decryptBlock (keys : list (list N)) (block : list N) : list N :=
  match List.rev keys with
  | k14 :: rest => invCipherRounds (xorBytes block k14) rest
  | [] => block
  end.

Fixpoint cbcEncrypt (keys : list (list N)) (previous : list N)
  (blocks : list (list N)) : list N :=
  match blocks with
  | [] => []
  | p :: rest =>
      let c := encryptBlock keys (xorBytes p previous) in
      c ++ cbcEncrypt keys c rest
  end.

Fixpoint cbcDecrypt (keys : list (list N)) (previous : list N)
  (blocks : list (list N)) : list N :=
  match blocks with
  | [] => []
  | c :: rest =>
      xorBytes (decryptBlock keys c) previous ++ cbcDecrypt keys c rest
  end.

(** PKCS #7: [n] bytes of value [n] bring the length to a multiple of 16,
    with [n] from 1 to 16. *)
Definition pkcs7Pad (data : list N) : list N :=
  let n := (16 - List.length data mod 16)%nat in
  data ++ List.repeat (N.of_nat n) n.

(** What [final] does on deciphering: the last byte [n] must be from 1 to
    16 and the last [n] bytes must all be [n]. *)
Definition pkcs7Unpad (data : list N) : option (list N) :=
  let n := N.to_nat (List.last data 0%N) in
  let body := (List.length data - n)%nat in
  if Nat.leb 1 n && Nat.leb n 16 && Nat.leb n (List.length data)
     && List.forallb (N.eqb (N.of_nat n)) (List.skipn body data)
  then Some (List.firstn body data)
  else None.

(** The UTF-8 decoder of the Encoding standard, writing the text again in
    UTF-8: well-formed input is left as it is, and every maximal ill-formed
    part becomes U+FFFD.  The state is the character being read, if any:
    its bytes so far, the number of bytes still to come and the range the
    next one must lie in. *)
Definition replacementCharacter : list N := [0xEF; 0xBF; 0xBD]%N.

Definition Utf8Pending : Type := (list N * nat * N * N)%type.

Definition utf8Lead (b : N) : list N * option Utf8Pending :=
  if (b <=? 0x7F)%N then ([b], None)
  else if (0xC2 <=? b)%N && (b <=? 0xDF)%N
  then ([], Some ([b], 1%nat, 0x80%N, 0xBF%N))
  else if (0xE0 <=? b)%N && (b <=? 0xEF)%N
  then ([], Some ([b], 2%nat,
                  (if (b =? 0xE0)%N then 0xA0 else 0x80)%N,
                  (if (b =? 0xED)%N then 0x9F else 0xBF)%N))
  else if (0xF0 <=? b)%N && (b <=? 0xF4)%N
  then ([], Some ([b], 3%nat,
                  (if (b =? 0xF0)%N then 0x90 else 0x80)%N,
                  (if (b =? 0xF4)%N then 0x8F else 0xBF)%N))
  else (replacementCharacter, None).

Fixpoint utf8Run (state : option Utf8Pending) (bytes : list N) : list N :=
  match bytes with
  | [] =>
      match state with
      | None => []
      | Some _ => replacementCharacter
      end
  | b :: rest =>
      match state with
      | None =>
          let (out, state') := utf8Lead b in out ++ utf8Run state' rest
      | Some (seen, needed, lower, upper) =>
          if (lower <=? b)%N && (b <=? upper)%N
          then
            match needed with
            | S (S n) => utf8Run (Some (seen ++ [b], S n, 0x80%N, 0xBF%N)) rest
            | _ => seen ++ [b] ++ utf8Run None rest
            end
          else
            let (out, state') := utf8Lead b in
            replacementCharacter ++ out ++ utf8Run state' rest
      end
  end.

Definition bytesOf (s : string) : list N :=
  List.map N_of_ascii (list_ascii_of_string s).

Definition stringOf (bytes : list N) : string :=
  string_of_list_ascii (List.map ascii_of_N bytes).

(** [buffer.toString('utf8')] *)
Definition utf8Decode (bytes : list N) : string := stringOf (utf8Run None bytes).

(** [createCipheriv('aes-256-cbc', key, iv)], [update(plain, 'utf8')] and
    [final()].  A key that is not of 32 bytes or a vector that is not of
    16 makes [createCipheriv] throw. *)
Definition aes256cbcEncrypt (key iv plain : string) : Outcome string :=
  if negb (Nat.eqb (String.length key) 32) then Thrown (RuntimeError "Invalid key length")
  else if negb (Nat.eqb (String.length iv) 16)
  then Thrown (RuntimeError "Invalid initialization vector")
  else
    Returned (stringOf (cbcEncrypt (roundKeys (bytesOf key)) (bytesOf iv)
                          (chunks 16 (pkcs7Pad (bytesOf plain))))).

(** [createDecipheriv('aes-256-cbc', key, iv)], [update(ciphertext)] and
    [final()], the output read as UTF-8. *)
Definition aes256cbcDecrypt (key iv ciphertext : string) : Outcome string :=
  if negb (Nat.eqb (String.length key) 32) then Thrown (RuntimeError "Invalid key length")
  else if negb (Nat.eqb (String.length iv) 16)
  then Thrown (RuntimeError "Invalid initialization vector")
  else if Nat.eqb (String.length ciphertext) 0
          || negb (Nat.eqb (String.length ciphertext mod 16) 0)
  then Thrown (RuntimeError "wrong final block length")
  else
    match pkcs7Unpad (cbcDecrypt (roundKeys (bytesOf key)) (bytesOf iv)
                   (chunks 16 (bytesOf ciphertext))) with
    | Some plain => Returned (utf8Decode plain)
    | None => Thrown (RuntimeError "bad decrypt")
    end.

(** The test vector of FIPS 197, appendix C.3. *)
Definition fipsKey : list N := List.map N.of_nat (List.seq 0 32).

Definition fipsPlaintext : list N :=
  List.map (fun i => N.of_nat (17 * i)) (List.seq 0 16).

Definition fipsCiphertext : list N :=
  [0x8e; 0xa2; 0xb7; 0xca; 0x51; 0x67; 0x45; 0xbf;
   0xea; 0xfc; 0x49; 0x90; 0x4b; 0x49; 0x60; 0x89]%N.

(** The value of [crypto.pbkdf2Sync(password, salt, 100000, 32, 'sha256')]
    at the salt [sampleSalt] and three passwords, in hexadecimal.  The
    100 000 rounds of HMAC-SHA-256 are not computed here: these are the
    values Node returns. *)
Definition sampleSalt : string := "0123456789abcdef0123456789abcdef".

Definition derivedKeys : list (string * string) :=
  [("pass", "9e4154466fe368af2948e4796c4aec9860f92ed5bc901ab9f43a7f6c99dd89d2");
   ("wrong", "db624344b194db92eb6d998e2c7aea0d2e60e45bb80c749848cf97f593c49b19");
   ("guess", "59c3e1634632405cab6a7eb9caf99f9eb6454934fd400c8eca9eb7b9844193bb")].

(** A 16-byte vector, as [crypto.randomBytes(16)] may return it. *)
Definition sampleIv : string := "iv0000003b876526".

(** Node's [crypto] at those inputs: the cipher is AES-256-CBC itself, and
    the key derivation is known at the three passwords of [derivedKeys]
    under [sampleSalt].  Elsewhere the derivation gives the empty key, with
    which the cipher refuses to work; [cipherBytes], which cannot throw,
    then gives no bytes. *)
Definition NodeCrypto : Crypto := {|
  pbkdf2Sync password salt :=
    if String.eqb salt sampleSalt then
      match List.find (fun entry => String.eqb (fst entry) password) derivedKeys with
      | Some entry => fromHex (snd entry)
      | None => EmptyString
      end
    else EmptyString;
  cipherBytes key iv plain :=
    match aes256cbcEncrypt key iv plain with
    | Returned ciphertext => ciphertext
    | Thrown _ => EmptyString
    end;
  decipherBytes := aes256cbcDecrypt
|}.

(* ================================================================== *)
(** ** A scripted outside world, to run the definitions on

    The outside is the clock alone.  Every chain call succeeds and takes a
    millisecond, a balance read gives 1000 units, the random draws give
    half the balance, 500 units and the lower bound, a timer advances the
    clock, and the robot always succeeds without touching the store. *)

#[local] Instance Scripted : Collaborators Z := {
  clock e := e;
  privateKeyToAccount key := Returned (String.append "0xAcc" key);
  getAddress a := a;
  readContractBalanceOf _ e := (Returned 1000, e + 1);
  randomTransferAmount wethAmount e := (wethAmount / 2, e);
  randomDepositAmount e := (500, e);
  getRandomNumber lo _ e := (lo, e);
  writeContractTransfer _ _ e := (Returned "0xhash", e + 1);
  writeContractDeposit _ _ e := (Returned "0xhash", e + 1);
  waitForTransactionReceipt _ e := (Returned ReceiptSuccess, e + 1);
  setTimeout ms e := e + ms;
  bot_initialize m := (Returned tt, m);
  bot_connectToLineaRewards m := (Returned true, m);
  bot_spinWheel m := (Returned (mkSpinResult true None), m);
  bot_reloadAndReconnect m := (Returned true, m);
  bot_extractAndSaveWalletData m := (Returned tt, m);
  bot_close m := (Returned tt, m)
}.

(** The scripted world at 10:00:00 UTC of day 20000, over a given store. *)
Definition scriptedWorld (store : Store) : World Z :=
  mkWorld (mkMachine store (atUTC 20000 10 0 0)) [].

(** A writable store with no wallet in it. *)
Definition emptyStore : Store := mkDisk (Text (Some (mkSnapshot [] 0))) true.

(** A store holding the wallet of key ["k"], which transferred on day
    20000, last spun at 09:00 of that day and has no spin left. *)
Definition completedStore : Store :=
  mkDisk
    (Text (Some (mkSnapshot
       [mkWalletData "0xAcck" None (Some 1000) None
          (Some (atUTC 20000 9 0 0)) (Some (atUTC 20000 9 0 0))
          (Some 0) (Some 1) (Some 3) None None (Some true) (Some 20000)
          (Some 400) (Some (atUTC 20000 9 0 0))]
       (atUTC 20000 9 0 0))))
    true.

(** [processWallet] entered with fresh local variables. *)
Definition freshFrame (store : Store) : Frame Z :=
  mkFrame (scriptedWorld store)
    (mkLocals (mkWalletStatus false false false false) false).

(* ================================================================== *)
(** ** Reading the keys: [loadAllPrivateKeys], [migratePlainKeys]
       (the campaign entry point and utils/encryption) *)

(** [String.prototype.trimStart], on the UTF-8 bytes: [keep] is the rest of
    the string from the first byte of the character being read. *)
Fixpoint trimStartFrom (q : TrimState) (s keep : string) : string :=
  match s with
  | EmptyString =>
      match q with
      | Between => EmptyString
      | _ => keep
      end
  | String c rest =>
      match trimStep q c with
      | Between => trimStartFrom Between rest rest
      | NotSpace => keep
      | q' => trimStartFrom q' rest keep
      end
  end.

Definition trimStart (s : string) : string := trimStartFrom Between s s.

(** [String.prototype.trimEnd]: the string up to the point from which
    only white space follows. *)
Fixpoint trimEnd (s : string) : string :=
  match s with
  | EmptyString => EmptyString
  | String c rest =>
      if trimsToEmpty s then EmptyString else String c (trimEnd rest)
  end.

(** [String.prototype.trim] *)
Definition trim (s : string) : string := trimEnd (trimStart s).

(** [s.startsWith(prefix)] *)
Fixpoint startsWith (prefix s : string) : bool :=
  match prefix with
  | EmptyString => true
  | String a prefix' =>
      match s with
      | EmptyString => false
      | String b s' => Ascii.eqb a b && startsWith prefix' s'
      end
  end.

(** [!s] for a string *)
Definition isEmpty (s : string) : bool :=
  match s with
  | EmptyString => true
  | String _ _ => false
  end.

Fixpoint allHexDigits (s : string) : bool :=
  match s with
  | EmptyString => true
  | String c rest => isSome (hexValue c) && allHexDigits rest
  end.

(** [/^0x[a-fA-F0-9]{64}$/.test(s)] *)
Definition isPrivateKey (s : string) : bool :=
  match s with
  | String "0" (String "x" digits) =>
      Nat.eqb (String.length digits) 64 && allHexDigits digits
  | _ => false
  end.

(** The body of the loop over the lines of [keys.txt]
    ([loadAllPrivateKeys] 56-72, [migratePlainKeys] 157-168): the array
    [privateKeys] after the line has been looked at. *)
Definition readKeyLine (privateKeys : list string) (line : string) : list string :=
  let trimmedLine := trim line in
  if negb (isEmpty trimmedLine) && negb (startsWith "#" trimmedLine) then
    let privateKey :=
      if negb (startsWith "0x" trimmedLine) then String.append "0x" trimmedLine
      else trimmedLine in
    if isPrivateKey privateKey then privateKeys ++ [privateKey]
    else privateKeys
  else privateKeys.

(** [content.split('\n')] run through that loop, from an empty array. *)
Definition readKeyLines (content : string) : list string :=
  List.fold_left readKeyLine (split "010"%char content) [].

(** [s.length]: the number of UTF-16 code units of the string whose UTF-8
    bytes are [s].  A continuation byte adds nothing, the first byte of a
    four-byte sequence stands for a surrogate pair. *)
Fixpoint utf16Length (s : string) : nat :=
  match s with
  | EmptyString => O
  | String c rest =>
      let n := nat_of_ascii c in
      ((if Nat.leb 128 n && Nat.ltb n 192 then 0
        else if Nat.leb 240 n then 2
        else 1)
       + utf16Length rest)%nat
  end.

Definition passwordsDiffer : Error := RuntimeError "Пароли не совпадают".
Definition passwordTooShort : Error :=
  RuntimeError "Пароль должен содержать минимум 6 символов".
Definition noValidKeysInFile : Error :=
  RuntimeError "Не найдено валидных приватных ключей в файле keys.txt".
Definition keysFileNotFound : Error :=
  RuntimeError "Файл keys.txt не найден. Создайте файл с приватными ключами кошельков или зашифруйте их.".

(** [promptPasswordWithConfirmation] (127-140); [password] and
    [confirmPassword] are what the two prompts read. *)
Definition promptPasswordWithConfirmation (password confirmPassword : string)
  : Outcome string :=
  if negb (String.eqb password confirmPassword) then Thrown passwordsDiffer
  else if Nat.ltb (utf16Length password) 6 then Thrown passwordTooShort
  else Returned password.

(** [hasPlainKeys] (107-109); [keysTxt] is the text of [keys.txt], or
    [None] when there is no such file. *)
Definition hasPlainKeys (keysTxt : option string) : bool := isSome keysTxt.

Section KeyLoading.
Context {C : Crypto}.

(** [migratePlainKeys] (145-177) *)
Definition migratePlainKeys (keysTxt : option string)
  (password confirmPassword salt iv : string) (files : KeyFiles)
  : Outcome KeyFiles :=
  if negb (hasPlainKeys keysTxt) then Returned files
  else
    let content := match keysTxt with Some text => text | None => EmptyString end in
    let privateKeys := readKeyLines content in
    if Nat.eqb (List.length privateKeys) 0 then Thrown noValidKeysInFile
    else
      andThen (promptPasswordWithConfirmation password confirmPassword)
        (fun password => encryptKeys privateKeys password salt iv files).

(** The loop [while (true)] of [loadAllPrivateKeys] (23-37), which asks for
    the password until one decrypts a list that is not empty.  [typed] are
    the passwords the prompt will read; [None] reports that they ran out
    with the loop still asking. *)
Fixpoint askPassword (typed : list string) (files : KeyFiles)
  : option (list string) :=
  match typed with
  | [] => None
  | password :: later =>
      match decryptKeys password files with
      | Returned privateKeys =>
          if Nat.eqb (List.length privateKeys) 0 then askPassword later files
          else Some privateKeys
      | Thrown _error => askPassword later files
      end
  end.

(** [loadAllPrivateKeys] (14-78) *)
Definition loadAllPrivateKeys (files : KeyFiles) (keysTxt : option string)
  (typed : list string) : option (Outcome (list string)) :=
  if hasEncryptedKeys files then option_map Returned (askPassword typed files)
  else
    match keysTxt with
    | None => Some (Thrown keysFileNotFound)
    | Some content =>
        let privateKeys := readKeyLines content in
        if Nat.eqb (List.length privateKeys) 0 then Some (Thrown noValidKeysInFile)
        else Some (Returned privateKeys)
    end.

End KeyLoading.

(* ================================================================== *)
(** ** [class WalletDatabase], continued: [updateWalletWETHBalance] *)

(** The store update inside [updateWalletWETHBalance] (499-508): whether a
    record was found, and the file as it is left. *)
Definition recordWETHBalance (addr : string) (wethBalance : Z)
  (store : Store) (now : Timestamp) : bool * Store :=
  let data := loadData store now in
  match findIndex (isWallet addr) (wallets data) with
  | Some (walletIndex, w) =>
      (true,
       saveData store
         (mkSnapshot
            (setAt walletIndex (set_wethBalance (Some wethBalance) w) (wallets data))
            now))
  | None => (false, store)
  end.

Section Balances.
Context {Ext : Type} `{Collaborators Ext}.

Local Open Scope monad_scope.

(** [updateWalletWETHBalance] (494-515) *)
Definition updateWalletWETHBalance (addr : string) : Run Ext bool :=
  tryCatchM
    (wethBalance <- getWETHBalanceViaRPC addr ;;
     match wethBalance with
     | Some amount =>
         fun w =>
           match recordWETHBalance addr amount (disk (machine w))
                   (clock (ext (machine w))) with
           | (found, store) =>
               (Returned found,
                mkWorld (mkMachine store (ext (machine w))) (trace w))
           end
     | None => ret false
     end)
    (fun _error => ret false).

End Balances.

(* ================================================================== *)
(** ** The card read: [extractWalletData] (modules/wallet-data-extractor) *)

(** What [extractSpinInfo] returns. *)
Record SpinInfo : Type := mkSpinInfo {
  info_spinsAvailable : option Z;
  info_prizesWon : option Z;
  info_gamesPlayed : option Z;
  info_dayStreak : option Z;
  info_nextSpinTime : option string
}.

(** [value || undefined] for an optional string *)
Definition orUndefined (value : option string) : Slot string :=
  match value with
  | Some (String c rest) => Value (String c rest)
  | Some EmptyString | None => Undefined
  end.

(** [value !== undefined ? value : undefined], and [value || undefined] for
    a rendered amount, which is never the empty string *)
Definition definedOrUndefined {A : Type} (value : option A) : Slot A :=
  match value with
  | Some v => Value v
  | None => Undefined
  end.

(** The object literal of [extractWalletData] (58-68).  [accountAddress]
    is the address viem derives from the key, which
    [getAddressFromPrivateKey] returns in lower case; [balance],
    [wethBalance] and [spinInfo] are what the three reads returned. *)
Definition extractWalletData (accountAddress : string) (balance : option string)
  (wethBalance : option Z) (spinInfo : SpinInfo) (now : Timestamp) : WalletObject :=
  let walletAddress := toLowerCase accountAddress in
  mkWalletFields walletAddress
    (orUndefined balance)
    (definedOrUndefined wethBalance)
    Absent
    Absent
    (Value now)
    (definedOrUndefined (info_spinsAvailable spinInfo))
    (definedOrUndefined (info_prizesWon spinInfo))
    (definedOrUndefined (info_gamesPlayed spinInfo))
    (definedOrUndefined (info_dayStreak spinInfo))
    (orUndefined (info_nextSpinTime spinInfo))
    Absent Absent Absent Absent.

(* ================================================================== *)
(** ** The campaign entry point, continued: [shuffleArray], the delays
       between wallets and the loop of [main] *)

(** [[a[i], a[j]] = [a[j], a[i]]] for two indices of the array.  The loop
    of [shuffleArray] only uses indices [j <= i < a.length]; for others the
    array is handed back as it is. *)
Definition swapAt {T : Type} (i j : nat) (a : list T) : list T :=
  match nth_error a i, nth_error a j with
  | Some x, Some y => setAt j x (setAt i y a)
  | _, _ => a
  end.

(** [Math.floor(Math.random() * n)] *)
Class RandomIndex (Ext : Type) : Type :=
  floorRandomTimes : nat -> Ext -> nat * Ext.

(** [Math.random()] is below 1, so the index drawn is below [n]. *)
Class RandomIndexLaws (Ext : Type) (R : RandomIndex Ext) : Prop :=
  floorRandomTimes_below :
    forall n e, (0 < n)%nat -> (fst (floorRandomTimes n e) < n)%nat.

(** [shouldSkipWalletDelay] (utils/delays) *)
Definition shouldSkipWalletDelay
  (hasWETHBalance dailyTransferCompleted hasAvailableSpins : bool) : bool :=
  hasWETHBalance && dailyTransferCompleted && negb hasAvailableSpins.

Section Main.
Context {Ext : Type} `{Collaborators Ext} {R : RandomIndex Ext}.

Local Open Scope monad_scope.

(** An index drawn from [Math.random()], noted in the trace. *)
Definition drawIndex (n : nat) : Run Ext nat :=
  fun w =>
    match floorRandomTimes n (ext (machine w)) with
    | (j, e) =>
        (Returned j,
         mkWorld (mkMachine (disk (machine w)) e)
                 (trace w ++ [RandomDrawn (Z.of_nat j)]))
    end.

(** The loop [for (let i = shuffled.length - 1; i > 0; i--)] of
    [shuffleArray] (85-88) *)
Fixpoint shuffleFrom {T : Type} (i : nat) (shuffled : list T) : Run Ext (list T) :=
  match i with
  | O => ret shuffled
  | S i' =>
      j <- drawIndex (i + 1) ;;
      shuffleFrom i' (swapAt i j shuffled)
  end.

(** [shuffleArray] (83-90) *)
Definition shuffleArray {T : Type} (array : list T) : Run Ext (list T) :=
  shuffleFrom (List.length array - 1) array.

(** [smartDelayBetweenWallets] (utils/delays) *)
Definition smartDelayBetweenWallets (spinsPerformed : bool) : Run Ext unit :=
  let minDelay := if spinsPerformed then 15 * 1000 else 30 * 1000 in
  let maxDelay := if spinsPerformed then 45 * 1000 else 2 * 60 * 1000 in
  delay <- draw (getRandomNumber minDelay maxDelay) ;;
  sleep delay.

(** The loop over the wallets of [main] (427-447), from the wallet at the
    head of [shuffledKeys] on. *)
Fixpoint walletLoop (shuffledKeys : list string) : Pass Ext unit :=
  match shuffledKeys with
  | [] => ret tt
  | privateKey :: later =>
      walletResult <- processWallet privateKey ;;
      (match later with
       | [] => ret tt
       | _ :: _ =>
           let shouldSkip :=
             shouldSkipWalletDelay (hasWETHBalance walletResult)
               (dailyTransferCompleted walletResult)
               (hasAvailableSpins walletResult) in
           if shouldSkip then ret tt
           else inWorld (smartDelayBetweenWallets (spinsPerformed walletResult))
       end) ;;
      walletLoop later
  end.

(** [main] from the keys on (421-452): the store is opened, the stale
    daily flags are reset, the keys are shuffled and the wallets are
    processed; whatever is thrown is logged by the [catch]. *)
Definition main (privateKeys : list string) : Pass Ext unit :=
  tryCatchM
    (inWorld newWalletDatabase ;;
     inWorld (update resetDailyTransferFlags) ;;
     shuffledKeys <- inWorld (shuffleArray privateKeys) ;;
     walletLoop shuffledKeys)
    (fun _error => ret tt).

End Main.


(* ================================================================== *)
(** * Clearing secrets from an object (utils/security, rabby-wallet) *)






(* ================================================================== *)
(** * The browser robot: [class LineaSpinWheelBot] (browser-automation)
      with [LineaRewardsConnector.connect] and
      [WalletDataExtractor.extractWalletData] *)

(** The nullable fields of a [LineaSpinWheelBot] ([true]: not [null]),
    next to the outside the libraries see. *)
Record Robot (Ext : Type) : Type := mkRobot {
  this_browser : bool;
  this_context : bool;
  this_page : bool;
  this_rabbyWallet : bool;
  this_lineaRewardsConnector : bool;
  outside : Ext
}.
Arguments mkRobot {Ext}.
Arguments this_browser {Ext} r.
Arguments this_context {Ext} r.
Arguments this_page {Ext} r.
Arguments this_rabbyWallet {Ext} r.
Arguments this_lineaRewardsConnector {Ext} r.
Arguments outside {Ext} r.

Definition set_browser {Ext : Type} (v : bool) (r : Robot Ext) : Robot Ext :=
  mkRobot v (this_context r) (this_page r) (this_rabbyWallet r)
    (this_lineaRewardsConnector r) (outside r).
Definition set_context {Ext : Type} (v : bool) (r : Robot Ext) : Robot Ext :=
  mkRobot (this_browser r) v (this_page r) (this_rabbyWallet r)
    (this_lineaRewardsConnector r) (outside r).
Definition set_page {Ext : Type} (v : bool) (r : Robot Ext) : Robot Ext :=
  mkRobot (this_browser r) (this_context r) v (this_rabbyWallet r)
    (this_lineaRewardsConnector r) (outside r).
Definition set_rabbyWallet {Ext : Type} (v : bool) (r : Robot Ext) : Robot Ext :=
  mkRobot (this_browser r) (this_context r) (this_page r) v
    (this_lineaRewardsConnector r) (outside r).
Definition set_lineaRewardsConnector {Ext : Type} (v : bool) (r : Robot Ext)
  : Robot Ext :=
  mkRobot (this_browser r) (this_context r) (this_page r) (this_rabbyWallet r)
    v (outside r).
Definition set_outside {Ext : Type} (x : Ext) (r : Robot Ext) : Robot Ext :=
  mkRobot (this_browser r) (this_context r) (this_page r) (this_rabbyWallet r)
    (this_lineaRewardsConnector r) x.

(** A robot as its constructor leaves the fields (22-29). *)
Definition newRobot {Ext : Type} (x : Ext) : Robot Ext :=
  mkRobot false false false false false x.

(** Playwright, the Rabby wallet and the page, as the robot, the connector
    and the extractor call them.  A call that the source makes inside a
    [try] of the callee that returns a default is total here; every other
    call may throw. *)
Class Playwright (Ext : Type) : Type := {
  (** [rabbyWallet.initialize()] *)
  rabby_initialize : Ext -> Outcome unit * Ext;
  (** [rabbyWallet.importWallet()], with the key of the configuration *)
  rabby_importWallet : string -> Ext -> Outcome string * Ext;
  (** [rabbyWallet.getPage()] *)
  rabby_getPage : Ext -> Outcome unit * Ext;
  (** [rabbyWallet.cleanup()], which logs what it catches *)
  rabby_cleanup : Ext -> Ext;
  (** [chromium.launch(...)] *)
  chromium_launch : Ext -> Outcome unit * Ext;
  (** [browser.newContext(...)] *)
  browser_newContext : Ext -> Outcome unit * Ext;
  (** [context.newPage()] *)
  context_newPage : Ext -> Outcome unit * Ext;
  (** [page.goto(config.url, { waitUntil: 'networkidle' })] *)
  page_goto : Ext -> Outcome unit * Ext;
  (** [page.waitForTimeout(ms)] *)
  page_waitForTimeout : Z -> Ext -> Outcome unit * Ext;
  (** [page.reload({ waitUntil: 'networkidle' })] *)
  page_reload : Ext -> Outcome unit * Ext;
  (** [page.close()], [context.close()], [browser.close()] *)
  page_close : Ext -> Outcome unit * Ext;
  context_close : Ext -> Outcome unit * Ext;
  browser_close : Ext -> Outcome unit * Ext;
  (** [checkWalletConnection()] of the connector: no connect button on the
      page; [false] when the look-up throws *)
  checkWalletConnection : Ext -> bool * Ext;
  (** [connectWallet()] of the connector *)
  connectWallet : Ext -> Outcome unit * Ext;
  (** [walletDataExtractor.waitForWalletCard(page)] *)
  waitForWalletCard : Ext -> bool * Ext;
  (** [extractBalance(page, walletAddress)] *)
  extractBalance : string -> Ext -> option string * Ext;
  (** [getWETHBalanceViaRPC(walletAddress)] of the extractor *)
  extractorWETHBalance : string -> Ext -> option Z * Ext;
  (** [extractSpinInfo(page)] *)
  extractSpinInfo : Ext -> SpinInfo * Ext;
  (** steps 1 to 7 of [spinWheel] (198-287): the two clicks, the waits,
      the wallet popup and the reading of the result *)
  spinSteps : Ext -> Outcome unit * Ext
}.

(** [new Error('Браузер или коннектор не инициализирован')] *)
Definition notInitialised : Error :=
  RuntimeError "Браузер или коннектор не инициализирован".

(** The object literal [statsToUpdate] of [updateWalletStatsAfterSpin]
    (707-715): six properties copied from the card read, each present even
    when it holds [undefined], and [lastActivity]. *)
Definition statsToUpdate (updatedWalletData : WalletObject) (now : Timestamp)
  : WalletPatch :=
  mkWalletFields None
    (p_balance updatedWalletData)
    Absent
    Absent
    (Value now)
    Absent
    (p_spinsAvailable updatedWalletData)
    (p_prizesWon updatedWalletData)
    (p_gamesPlayed updatedWalletData)
    (p_dayStreak updatedWalletData)
    (p_nextSpinTime updatedWalletData)
    Absent Absent Absent Absent.

Section LineaSpinWheelBot.
Context {Ext : Type} `{Collaborators Ext} {P : Playwright Ext}.

Local Open Scope monad_scope.

(** What a method of the robot runs in: the backing file, the fields of
    the robot and the outside. *)
Definition Bot (A : Type) : Type := M (Machine (Robot Ext)) A.

(** A call to a library that may throw. *)
Definition onOutside {A : Type} (f : Ext -> Outcome A * Ext) : Bot A :=
  fun m =>
    match f (outside (ext m)) with
    | (r, x) => (r, mkMachine (disk m) (set_outside x (ext m)))
    end.

(** A call to a library that catches what it throws. *)
Definition onOutsideSafe {A : Type} (f : Ext -> A * Ext) : Bot A :=
  fun m =>
    match f (outside (ext m)) with
    | (a, x) => (Returned a, mkMachine (disk m) (set_outside x (ext m)))
    end.

(** [this.field = ...] *)
Definition setField (g : Robot Ext -> Robot Ext) : Bot unit :=
  modify (fun m => mkMachine (disk m) (g (ext m))).

(** [if (this.field) { body }] *)
Definition whenField (field : Robot Ext -> bool) (body : Bot unit) : Bot unit :=
  fun m => if field (ext m) then body m else (Returned tt, m).

(** A method of [this.walletDatabase] that rewrites the file. *)
Definition onStore (f : Store -> Timestamp -> Store) : Bot unit :=
  fun m =>
    (Returned tt, mkMachine (f (disk m) (clock (outside (ext m)))) (ext m)).

(** [LineaRewardsConnector.connect] (23-57) *)
Definition LineaRewardsConnector_connect : Bot bool :=
  tryCatchM
    (onOutside page_goto ;;
     onOutside (page_waitForTimeout 3000) ;;
     isConnected <- onOutsideSafe checkWalletConnection ;;
     if isConnected then ret true
     else
       onOutside connectWallet ;;
       onOutside (page_waitForTimeout 5000) ;;
       finalConnection <- onOutsideSafe checkWalletConnection ;;
       if negb finalConnection then ret false else ret true)
    (fun _error => ret false).

(** [WalletDataExtractor.extractWalletData(page, privateKey)] (40-76):
    [None] is [null]. *)
Definition WalletDataExtractor_extractWalletData (privateKey : string)
  : Bot (option WalletObject) :=
  tryCatchM
    (onOutside (page_waitForTimeout 3000) ;;
     accountAddress <- (fun m => (privateKeyToAccount privateKey, m)) ;;
     let walletAddress := toLowerCase accountAddress in
     balance <- onOutsideSafe (extractBalance walletAddress) ;;
     wethBalance <- onOutsideSafe (extractorWETHBalance walletAddress) ;;
     spinInfo <- onOutsideSafe extractSpinInfo ;;
     now <- (fun m => (Returned (clock (outside (ext m))), m)) ;;
     ret (Some (extractWalletData accountAddress balance wethBalance spinInfo now)))
    (fun _error => ret None).

(** [initializeWithProgrammaticWallet] (83-110) *)
Definition initializeWithProgrammaticWallet : Bot unit :=
  tryCatchM
    (onOutside chromium_launch ;;
     setField (set_browser true) ;;
     onOutside browser_newContext ;;
     setField (set_context true) ;;
     onOutside context_newPage ;;
     setField (set_page true))
    (fun error => throw error).

(** [initialize] (45-78) *)
Definition initialize (privateKey : string) : Bot unit :=
  tryCatchM
    (setField (set_rabbyWallet true) ;;
     onOutside rabby_initialize ;;
     _walletAddress <- onOutside (rabby_importWallet privateKey) ;;
     onOutside rabby_getPage ;;
     setField (set_page true) ;;
     setField (set_lineaRewardsConnector true))
    (fun _error => initializeWithProgrammaticWallet).

(** [extractAndSaveWalletData] (640-666) *)
Definition extractAndSaveWalletData (privateKey : string) : Bot unit :=
  fun m =>
    if negb (this_page (ext m)) then (Returned tt, m)
    else
      tryCatchM
        (cardFound <- onOutsideSafe waitForWalletCard ;;
         if negb cardFound then ret tt
         else
           walletData <- WalletDataExtractor_extractWalletData privateKey ;;
           match walletData with
           | None => ret tt
           | Some walletData =>
               onStore (fun store now => saveWalletData store now walletData)
           end)
        (fun _error => ret tt) m.

(** [connectToLineaRewards] (117-144) *)
Definition connectToLineaRewards (privateKey : string) : Bot bool :=
  fun m =>
    if negb (this_page (ext m)) || negb (this_lineaRewardsConnector (ext m))
    then (Thrown notInitialised, m)
    else
      tryCatchM
        (connected <- LineaRewardsConnector_connect ;;
         if negb connected then ret false
         else
           extractAndSaveWalletData privateKey ;;
           ret true)
        (fun _error => ret false) m.

(** [updateWalletStatsAfterSpin] (693-723), for the wallet
    [{ privateKey, address }] of the robot *)
Definition updateWalletStatsAfterSpin (privateKey walletAddress : string)
  : Bot unit :=
  fun m =>
    if negb (this_page (ext m)) then (Returned tt, m)
    else
      tryCatchM
        (onOutside (page_waitForTimeout 3000) ;;
         updatedWalletData <- WalletDataExtractor_extractWalletData privateKey ;;
         match updatedWalletData with
         | Some updatedWalletData =>
             now <- (fun m => (Returned (clock (outside (ext m))), m)) ;;
             onStore (fun store t =>
                        updateWalletStats store t walletAddress
                          (statsToUpdate updatedWalletData now))
         | None => ret tt
         end)
        (fun _error => ret tt) m.

(** [spinWheel] (186-311) *)
Definition spinWheel (privateKey walletAddress : string) : Bot SpinResult :=
  fun m =>
    if negb (this_page (ext m))
    then (Returned (mkSpinResult false (Some "Страница не инициализирована")), m)
    else
      tryCatchM
        (onOutside spinSteps ;;
         tryCatchM (updateWalletStatsAfterSpin privateKey walletAddress)
                   (fun _error => ret tt) ;;
         ret (mkSpinResult true None))
        (fun _error => ret (mkSpinResult false (Some "error.message"))) m.

(** [reloadAndReconnect] (316-342) *)
Definition reloadAndReconnect (privateKey : string) : Bot bool :=
  fun m =>
    if negb (this_page (ext m)) then (Returned false, m)
    else
      tryCatchM
        (onOutside page_reload ;;
         onOutside (page_waitForTimeout 3000) ;;
         connected <- connectToLineaRewards privateKey ;;
         if connected then ret true else ret false)
        (fun _error => ret false) m.

(** [close] (731-758) *)
Definition close : Bot unit :=
  tryCatchM
    (whenField this_page
       (onOutside page_close ;; setField (set_page false)) ;;
     whenField this_rabbyWallet
       (onOutsideSafe (fun x => (tt, rabby_cleanup x)) ;;
        setField (set_rabbyWallet false)) ;;
     whenField this_context
       (onOutside context_close ;; setField (set_context false)) ;;
     whenField this_browser
       (onOutside browser_close ;; setField (set_browser false)))
    (fun _error => ret tt).

End LineaSpinWheelBot.

Arguments Bot : clear implicits.

(* ================================================================== *)
(** * The pass over a wallet with the robot of browser-automation *)

Section RobotAsCollaborator.
Context {Ext : Type} `{Collaborators Ext} {P : Playwright Ext}.

(** A library call made by the rest of the program: it sees the outside
    and not the fields of the robot. *)
Definition aside {A : Type} (f : Ext -> A * Ext) (r : Robot Ext) : A * Robot Ext :=
  match f (outside r) with
  | (a, x) => (a, set_outside x r)
  end.

(** The collaborators of [processWallet] when its robot is the
    [LineaSpinWheelBot] above, built for the wallet
    [{ privateKey, address }].  The pass builds one robot; the fields in
    the state are the fields of that robot. *)
Definition withRobot (privateKey walletAddress : string)
  : Collaborators (Robot Ext) := {|
  clock r := clock (outside r);
  privateKeyToAccount := privateKeyToAccount;
  getAddress := getAddress;
  readContractBalanceOf addr := aside (readContractBalanceOf addr);
  randomTransferAmount wethAmount := aside (randomTransferAmount wethAmount);
  randomDepositAmount := aside randomDepositAmount;
  getRandomNumber lo hi := aside (getRandomNumber lo hi);
  writeContractTransfer key amount := aside (writeContractTransfer key amount);
  writeContractDeposit key amount := aside (writeContractDeposit key amount);
  waitForTransactionReceipt h := aside (waitForTransactionReceipt h);
  setTimeout ms r := set_outside (setTimeout ms (outside r)) r;
  bot_initialize := initialize privateKey;
  bot_connectToLineaRewards := connectToLineaRewards privateKey;
  bot_spinWheel := spinWheel privateKey walletAddress;
  bot_reloadAndReconnect := reloadAndReconnect privateKey;
  bot_extractAndSaveWalletData := extractAndSaveWalletData privateKey;
  bot_close := close
|}.

End RobotAsCollaborator.
(* ================================================================== *)
(** * The vocabulary of the statements *)

(** [d <= day] for an optional date *)
Definition notAfter (d : option Day) (day : Day) : Prop :=
  match d with
  | Some x => x <= day
  | None => True
  end.

(** No date kept in the record lies after the day of [t]. *)
Definition datesNotAfter (w : WalletData) (t : Timestamp) : Prop :=
  notAfter (lastTransferDate w) (isoDate t)
  /\ notAfter (option_map isoDate (lastActivity w)) (isoDate t)
  /\ notAfter (option_map isoDate (connectedAt w)) (isoDate t).

(** Every recorded spin budget is zero or more (an unknown budget counts
    as zero, as [spinsAvailable || 0] reads it). *)
Definition spinsNonNegative (data : Snapshot) : Prop :=
  Forall (fun w => 0 <= orZero (spinsAvailable w)) (wallets data).

(** A run of [decrementSpins] calls, each at its own instant. *)
Definition decrementSpinsMany (calls : list (Timestamp * string)) (disk : Store)
  : Store :=
  List.fold_left (fun d c => decrementSpins d (fst c) (snd c)) calls disk.

(** How one optional property of the stored record comes out of a merge
    with the same property of the update. *)
Definition slotMerged {A : Type} (old : option A) (s : Slot A) (new : option A)
  : Prop :=
  match s with
  | Absent => new = old
  | Undefined => new = None
  | Value v => new = Some v
  end.

(** [slotMerged] for every optional property except the two time stamps
    [connectedAt] and [lastActivity], which the store sets itself. *)
Definition fieldsMerged {K : Type} (old : WalletData) (patch : WalletFields K)
  (new : WalletData) : Prop :=
  slotMerged (balance old) (p_balance patch) (balance new)
  /\ slotMerged (wethBalance old) (p_wethBalance patch) (wethBalance new)
  /\ slotMerged (transactionCount old) (p_transactionCount patch)
                (transactionCount new)
  /\ slotMerged (spinsAvailable old) (p_spinsAvailable patch) (spinsAvailable new)
  /\ slotMerged (prizesWon old) (p_prizesWon patch) (prizesWon new)
  /\ slotMerged (gamesPlayed old) (p_gamesPlayed patch) (gamesPlayed new)
  /\ slotMerged (dayStreak old) (p_dayStreak patch) (dayStreak new)
  /\ slotMerged (nextSpinTime old) (p_nextSpinTime patch) (nextSpinTime new)
  /\ slotMerged (todayTransfer old) (p_todayTransfer patch) (todayTransfer new)
  /\ slotMerged (lastTransferDate old) (p_lastTransferDate patch)
                (lastTransferDate new)
  /\ slotMerged (transferAmount old) (p_transferAmount patch) (transferAmount new)
  /\ slotMerged (lastSpinDate old) (p_lastSpinDate patch) (lastSpinDate new).

Definition isLedgerTransfer (ev : Event) : bool :=
  match ev with
  | LedgerTransfer _ _ _ => true
  | _ => false
  end.

(** How many transfers a stretch of the trace submits to the ledger. *)
Definition transfersIn (evs : list Event) : nat :=
  List.length (List.filter isLedgerTransfer evs).

Definition isSpin (ev : Event) : bool :=
  match ev with
  | BotSpin _ => true
  | _ => false
  end.

(** How many times a stretch of the trace spins the wheel. *)
Definition spinsIn (evs : list Event) : nat :=
  List.length (List.filter isSpin evs).

(** A spin that did not succeed: [spinWheel] threw, or reported
    [success: false]. *)
Definition spinFailed (r : Outcome SpinResult) : bool :=
  match r with
  | Returned res => negb (spin_success res)
  | Thrown _ => true
  end.

(** A reload that did not bring the page back. *)
Definition reloadFailed (r : Outcome bool) : bool :=
  match r with
  | Returned reloaded => negb reloaded
  | Thrown _ => true
  end.

(** In a stretch of the trace, no spin comes after a failed spin or a
    failed reload. *)
Fixpoint haltsOnFailure (evs : list Event) : bool :=
  match evs with
  | [] => true
  | BotSpin r :: rest =>
      if spinFailed r then Nat.eqb (spinsIn rest) 0 else haltsOnFailure rest
  | BotReload r :: rest =>
      if reloadFailed r then Nat.eqb (spinsIn rest) 0 else haltsOnFailure rest
  | _ :: rest => haltsOnFailure rest
  end.

Definition isBotEvent (ev : Event) : bool :=
  match ev with
  | BotCreated | BotInitialize _ | BotConnect _ | BotSpin _ | BotReload _
  | BotExtract _ | BotClose _ => true
  | _ => false
  end.

Section StatementVocabulary.
Context {Ext : Type} `{Collaborators Ext}.

(** Why a loop that spun fewer times than the cap came to its end: a
    collaborator threw, or the store reports no spin left, or the last spin
    failed (the card is read once more and the loop is left), or the page
    could not be reloaded after the last spin. *)
Definition stoppedEarly (addr : string) (r : Outcome (option unit))
  (w' : World Ext) (evs : list Event) : Prop :=
  (exists e, r = Thrown e)
  \/ checkSpinsAvailable (disk (machine w')) (clock (ext (machine w'))) addr = false
  \/ (exists pre res x,
        evs = pre ++ [BotSpin (Returned res); BotExtract x]
        /\ spin_success res = false)
  \/ (exists pre s, evs = pre ++ [BotSpin s; BotReload (Returned false)]).

(** A computation that only adds events satisfying [P] to the trace. *)
Definition adds (P : Event -> Prop) {A : Type} (c : Run Ext A) : Prop :=
  forall w, exists evs, trace (snd (c w)) = trace w ++ evs /\ Forall P evs.

Definition notBot (ev : Event) : Prop := isBotEvent ev = false.

(** The frame in which the dispatch starts when no record was found. *)
Definition afterReadingNothing (dailyTransferResult : bool) (f : Frame Ext)
  : Frame Ext :=
  mkFrame (world f)
    (mkLocals
       (mkWalletStatus false dailyTransferResult false
          (spinsPerformed (flags (locals f))))
       (bot (locals f))).

End StatementVocabulary.

Arguments adds Ext P {A} c.

(* ================================================================== *)
(** * Stores to run the definitions on *)

(** A store holding one wallet that last spun at [lastSpin]. *)
Definition spunAt (lastSpin : Timestamp) : Store :=
  mkDisk
    (Text (Some (mkSnapshot
       [set_lastSpinDate (Some lastSpin) (blankWallet "0xAbC")] lastSpin)))
    true.

(** A store holding one wallet last active at [t]. *)
Definition activeAt (t : Timestamp) : Store :=
  mkDisk
    (Text (Some (mkSnapshot
       [set_connectedAt (Some t) (set_lastActivity (Some t) (blankWallet "0xabc"))]
       t)))
    true.

(** A store holding one wallet with [n] spins left. *)
Definition withSpins (n : Z) : Store :=
  mkDisk
    (Text (Some (mkSnapshot [set_spinsAvailable (Some n) (blankWallet "0xABC")] 0)))
    true.

(** A store holding one wallet with five spins left. *)
Definition spinsLeft : Store := withSpins 5.

(** A store holding one wallet with five spins, connected at instant 1. *)
Definition fiveSpins : Store :=
  mkDisk
    (Text (Some (mkSnapshot
       [set_connectedAt (Some 1) (set_spinsAvailable (Some 5) (blankWallet "0xAbC"))]
       1)))
    true.

(** The object [extractWalletData] builds when the card shows a balance
    and no counter: every property it names is an own property of the
    object, the missing ones with the value [undefined]. *)
Definition cardWithoutSpins : WalletObject :=
  mkWalletFields "0xabc" (Value "0.0100 ETH") Undefined Absent Absent (Value 7)
    Undefined Undefined Undefined Undefined Undefined Absent Absent Absent Absent.

(** A partial update that sets the spin count to 4 and names a
    [lastActivity] of its own. *)
Definition fourSpinsPatch : WalletPatch :=
  mkWalletFields None Absent Absent Absent (Value 3) Absent (Value 4) Absent
    Absent Absent Absent Absent Absent Absent Absent.

(** A store with no wallet in it, on a medium that cannot be written. *)
Definition readOnlyStore : Store := mkDisk (Text (Some (mkSnapshot [] 0))) false.

(** The scripted world one millisecond before midnight of day 20000, over
    a given store. *)
Definition beforeMidnight (store : Store) : World Z :=
  mkWorld (mkMachine store (atUTC 20000 23 59 59 + 999)) [].

(** A pass of [checkAndPerformDailyTransfer] followed by a second one. *)
Definition twoPasses (privateKey : string) (w : World Z) : World Z :=
  snd (checkAndPerformDailyTransfer privateKey
         (snd (checkAndPerformDailyTransfer privateKey w))).

(* ================================================================== *)
(** * More vocabulary: the store as a keyed collection *)

(** The key under which the store looks a record up: its address in
    lower case. *)
Definition addressKey (w : WalletData) : string := toLowerCase (address w).

(** No two records of the snapshot have the same address up to letter
    case. *)
Definition uniqueAddresses (data : Snapshot) : Prop :=
  NoDup (List.map addressKey (wallets data)).

(** An optional address of a partial update that, when present, spells the
    address [addr] (up to letter case). *)
Definition keepsKey (addr : string) (a : option string) : Prop :=
  match a with
  | Some v => toLowerCase v = toLowerCase addr
  | None => True
  end.

(** A transfer date that is set and is not the day of [now]: what
    [resetDailyTransferFlags] looks for. *)
Definition staleTransfer (now : Timestamp) (w : WalletData) : bool :=
  differsFrom (lastTransferDate w) (isoDate now).

(** A run of [decrementSpins] calls for one address. *)
Definition decrementsOf (addr : string) (times : list Timestamp)
  : list (Timestamp * string) :=
  List.map (fun t => (t, addr)) times.

(** A writable store with two spellings of one wallet's neighbours: the
    wallets ["0xAA"] and ["0xbb"], the second with a transfer dated day 7. *)
Definition twoWallets : Store :=
  mkDisk
    (Text (Some (mkSnapshot
       [set_spinsAvailable (Some 2) (blankWallet "0xAA");
        set_todayTransfer (Some true)
          (set_lastTransferDate (Some 7) (blankWallet "0xbb"))]
       0)))
    true.

(** An update object that names the address only. *)
Definition bareCard (addr : string) : WalletObject :=
  mkWalletFields addr Absent Absent Absent Absent Absent Absent Absent Absent
    Absent Absent Absent Absent Absent Absent.

(** A partial update that names nothing. *)
Definition emptyPatch : WalletPatch :=
  mkWalletFields None Absent Absent Absent Absent Absent Absent Absent Absent
    Absent Absent Absent Absent Absent Absent.

(* ================================================================== *)
(** * More vocabulary: the ledger *)

Definition isLedgerDeposit (ev : Event) : bool :=
  match ev with
  | LedgerDeposit _ _ _ => true
  | _ => false
  end.

(** How many deposits a stretch of the trace submits to the ledger. *)
Definition depositsIn (evs : list Event) : nat :=
  List.length (List.filter isLedgerDeposit evs).

(** What a submission to the ledger leaves in the trace and in its result.
    Either the call was accepted under a hash [h] and the receipt awaited
    for [h] reports success: then the result is [{success: true, hash: h}].
    Or the result is [{success: false, error}] with no hash, and the trace
    shows why: nothing was submitted (the key was refused), the submission
    threw, or the receipt threw or reports a revert. *)
Definition settles (submission : Outcome string -> Event) (result : TxResult)
  (evs : list Event) : Prop :=
  (exists h,
      result = mkTxResult true (Some h) None
      /\ evs = [submission (Returned h); ReceiptAwaited h (Returned ReceiptSuccess)])
  \/ (success result = false
      /\ hash result = None
      /\ isSome (error result) = true
      /\ (evs = []
          \/ (exists e, evs = [submission (Thrown e)])
          \/ (exists h e, evs = [submission (Returned h); ReceiptAwaited h (Thrown e)])
          \/ (exists h, evs = [submission (Returned h);
                               ReceiptAwaited h (Returned ReceiptReverted)]))).

(** A balance that was read and is not positive, or could not be read. *)
Definition noBalance (r : Outcome Z) : Prop :=
  match r with
  | Returned b => b <= 0
  | Thrown _ => True
  end.

(* ================================================================== *)
(** * More vocabulary: browser sessions *)

Definition isBotCreated (ev : Event) : bool :=
  match ev with
  | BotCreated => true
  | _ => false
  end.

Definition isBotClose (ev : Event) : bool :=
  match ev with
  | BotClose _ => true
  | _ => false
  end.

(** An event that neither opens nor closes a browser session. *)
Definition inSession (ev : Event) : Prop :=
  isBotCreated ev = false /\ isBotClose ev = false.

(** The events of a pass that handles its browser session properly: either
    the robot does not appear at all, or one session is opened, the robot
    is used only after that, and the last event of all is the call of
    [close] on it, whatever that call gives. *)
Definition sessionShape (evs : list Event) : Prop :=
  Forall notBot evs
  \/ exists pre session closed,
      evs = pre ++ BotCreated :: session ++ [BotClose closed]
      /\ Forall notBot pre
      /\ Forall inSession session.

Section SessionVocabulary.
Context {Ext : Type} `{Collaborators Ext}.

(** A part of a pass that only adds events satisfying [P] and leaves the
    variable [bot] as it is. *)
Definition passAdds (P : Event -> Prop) {A : Type} (c : Pass Ext A) : Prop :=
  forall f,
    exists evs,
      trace (world (snd (c f))) = trace (world f) ++ evs
      /\ Forall P evs
      /\ bot (locals (snd (c f))) = bot (locals f).

(** A part of a pass that, entered with [bot] unassigned, either leaves it
    so and does not use the robot, or assigns it on opening a session and
    uses the robot only from then on, without closing the session. *)
Definition opens {A : Type} (c : Pass Ext A) : Prop :=
  forall f,
    bot (locals f) = false ->
    exists evs,
      trace (world (snd (c f))) = trace (world f) ++ evs
      /\ ((bot (locals (snd (c f))) = false /\ Forall notBot evs)
          \/ (bot (locals (snd (c f))) = true
              /\ exists pre session,
                  evs = pre ++ BotCreated :: session
                  /\ Forall notBot pre
                  /\ Forall inSession session)).

(** The [try] block of [processWallet] (189-358) with its [catch]. *)
Definition guardedPass (privateKey addr : string) : Pass Ext (option WalletStatus) :=
  tryCatchM
    (bind (inWorld (checkAndDepositWETH privateKey)) (fun _wethDepositResult =>
     bind (inWorld (checkAndPerformDailyTransfer privateKey))
       (fun dailyTransferResult => planAndDispatch addr dailyTransferResult)))
    (fun _error => ret None).

End SessionVocabulary.

Arguments passAdds Ext P {A} c.
Arguments opens Ext {A} c.

(** A world whose chain and robot are out of reach: every key but the
    empty one is accepted, the clock runs, and every call to the chain or
    to the robot throws. *)
Definition Offline : Collaborators Z := {|
  clock e := e;
  privateKeyToAccount key :=
    if isEmpty key then Thrown TypeError
    else Returned (String.append "0xAcc" key);
  getAddress a := a;
  readContractBalanceOf _ e := (Thrown IOError, e + 1);
  randomTransferAmount wethAmount e := (wethAmount / 2, e);
  randomDepositAmount e := (500, e);
  getRandomNumber lo _ e := (lo, e);
  writeContractTransfer _ _ e := (Thrown IOError, e + 1);
  writeContractDeposit _ _ e := (Thrown IOError, e + 1);
  waitForTransactionReceipt _ e := (Thrown IOError, e + 1);
  setTimeout ms e := e + ms;
  bot_initialize m := (Thrown IOError, m);
  bot_connectToLineaRewards m := (Thrown IOError, m);
  bot_spinWheel m := (Thrown IOError, m);
  bot_reloadAndReconnect m := (Thrown IOError, m);
  bot_extractAndSaveWalletData m := (Thrown IOError, m);
  bot_close m := (Thrown IOError, m)
|}.

(* ================================================================== *)
(** * More vocabulary: the campaign *)

(** The events of a run that handles one browser session after another:
    they split into stretches each of which has the shape of a well
    handled session. *)
Definition sessionsInTurn (evs : list Event) : Prop :=
  exists stretches,
    evs = List.concat stretches /\ Forall sessionShape stretches.

(** A part of the campaign whose events are sessions in turn. *)
Definition takesTurns {Ext A : Type} (c : Pass Ext A) : Prop :=
  forall f,
    exists evs,
      trace (world (snd (c f))) = trace (world f) ++ evs /\ sessionsInTurn evs.

(** A draw of [shuffleArray]: an index of an array of [n] elements. *)
Definition drawsIndexBelow (n : nat) (ev : Event) : Prop :=
  exists j, ev = RandomDrawn (Z.of_nat j) /\ (j < n)%nat.

(** A random source for the scripted world: the clock read modulo [n]. *)
Definition ClockRandom : RandomIndex Z :=
  fun n e => (Z.to_nat (e mod Z.of_nat n), e + 1).

(* ================================================================== *)
(** * More vocabulary: the keys *)

(** What one line of [keys.txt] adds to the keys: nothing, or one key. *)
Definition keyOfLine (line : string) : list string := readKeyLine [] line.

(** A password under which the stored ciphertext does not decipher. *)
Definition refusedBy {C : Crypto} (files : KeyFiles) (password : string) : Prop :=
  exists e, decryptKeys password files = Thrown e.

(** Tab, line feed, vertical tab, form feed, carriage return and space:
    the white space of the ASCII range. *)
Definition isAsciiSpace (c : ascii) : bool :=
  let n := nat_of_ascii c in
  (Nat.leb 9 n && Nat.leb n 13) || Nat.eqb n 32.

Fixpoint allAsciiSpace (s : string) : bool :=
  match s with
  | EmptyString => true
  | String c rest => isAsciiSpace c && allAsciiSpace rest
  end.

(** Sixty-four hexadecimal digits, and the key they make. *)
Definition sampleDigits : string :=
  "00112233445566778899aabbccddeeff00112233445566778899AABBCCDDEEFF".

Definition sampleKey : string := String.append "0x" sampleDigits.

(** A [keys.txt] with a comment, a key without its prefix between blanks
    and ending in a carriage return, a line that is no key, and a key. *)
Definition sampleKeysTxt : string :=
  String.append "# wallets"
    (String "010"
       (String.append "  "
          (String.append sampleDigits
             (String " " (String "013" (String "010"
                (String.append "not a key"
                   (String "010" sampleKey)))))))).

(* ================================================================== *)
(** * More vocabulary: the card read *)

(** What the spin guard makes of a counter read from the card. *)
Definition showsSpin (spinInfo : SpinInfo) : bool :=
  match info_spinsAvailable spinInfo with
  | Some n => 0 <? n
  | None => false
  end.

(** A card that shows three spins and nothing else. *)
Definition threeSpinsCard : SpinInfo :=
  mkSpinInfo (Some 3) None None None None.


(* ================================================================== *)
(** * More vocabulary: names of properties *)



(* ================================================================== *)
(** * More vocabulary: the browser robot *)

(** A computation that returns from every state. *)
Definition neverThrows {S A : Type} (c : M S A) : Prop :=
  forall s, exists a, fst (c s) = Returned a.

(** A computation that takes every state to one related to it, whether it
    returns or throws. *)
Definition preserves {S A : Type} (R : S -> S -> Prop) (c : M S A) : Prop :=
  forall s, R s (snd (c s)).

(** The backing file is left as it was. *)
Definition sameDisk {Ext : Type} (before after : Machine Ext) : Prop :=
  disk after = disk before.

(** The same records under the same spellings, in the same order. *)
Definition sameAddresses {Ext : Type} (t : Timestamp) (before after : Machine Ext)
  : Prop :=
  List.map address (getAllWallets (disk after) t)
  = List.map address (getAllWallets (disk before) t).

(** The keys filed in a store, in the order of the file. *)
Definition filedKeys (t : Timestamp) (store : Store) : list string :=
  List.map addressKey (getAllWallets store t).

Section RobotVocabulary.
Context {Ext : Type} `{Collaborators Ext} {P : Playwright Ext}.

(** What filing the card of [privateKey] may do to the keys of the file:
    nothing, or add the account of the key, in lower case, at the end when
    it was not filed. *)
Definition filesCard (privateKey : string) (t : Timestamp)
  (before after : Machine (Robot Ext)) : Prop :=
  filedKeys t (disk after) = filedKeys t (disk before)
  \/ exists account,
       privateKeyToAccount privateKey = Returned account
       /\ getWalletData (disk before) t account = None
       /\ filedKeys t (disk after)
          = filedKeys t (disk before) ++ [toLowerCase account].

(** The Rabby path of [initialize] runs to its end from the outside [x]:
    the extension starts, the key is imported and the page is found. *)
Definition rabbyStarts (privateKey : string) (x : Ext) : bool :=
  match rabby_initialize x with
  | (Returned _, x1) =>
      match rabby_importWallet privateKey x1 with
      | (Returned _, x2) =>
          match rabby_getPage x2 with
          | (Returned _, _) => true
          | (Thrown _, _) => false
          end
      | (Thrown _, _) => false
      end
  | (Thrown _, _) => false
  end.

(** The robot holds nothing that [close] looks at. *)
Definition allClosed (r : Robot Ext) : Prop :=
  this_page r = false /\ this_rabbyWallet r = false
  /\ this_context r = false /\ this_browser r = false.

End RobotVocabulary.

(** A site on which everything works: every call returns and takes a
    millisecond, the wallet is connected at the first look, the card is
    found and shows three spins. *)
Definition SiteUp : Playwright Z := {|
  rabby_initialize e := (Returned tt, e + 1);
  rabby_importWallet key e := (Returned (String.append "0xAcc" key), e + 1);
  rabby_getPage e := (Returned tt, e + 1);
  rabby_cleanup e := e + 1;
  chromium_launch e := (Returned tt, e + 1);
  browser_newContext e := (Returned tt, e + 1);
  context_newPage e := (Returned tt, e + 1);
  page_goto e := (Returned tt, e + 1);
  page_waitForTimeout ms e := (Returned tt, e + ms);
  page_reload e := (Returned tt, e + 1);
  page_close e := (Returned tt, e + 1);
  context_close e := (Returned tt, e + 1);
  browser_close e := (Returned tt, e + 1);
  checkWalletConnection e := (true, e + 1);
  connectWallet e := (Returned tt, e + 1);
  waitForWalletCard e := (true, e + 1);
  extractBalance _ e := (Some "0.5000 ETH", e + 1);
  extractorWETHBalance _ e := (Some 1000, e + 1);
  extractSpinInfo e := (threeSpinsCard, e + 1);
  spinSteps e := (Returned tt, e + 1)
|}.

(** A machine on which the Rabby extension does not start and a page does
    not close; the rest works as on [SiteUp]. *)
Definition RabbyDown : Playwright Z := {|
  rabby_initialize e := (Thrown IOError, e + 1);
  rabby_importWallet key e := (Returned (String.append "0xAcc" key), e + 1);
  rabby_getPage e := (Returned tt, e + 1);
  rabby_cleanup e := e + 1;
  chromium_launch e := (Returned tt, e + 1);
  browser_newContext e := (Returned tt, e + 1);
  context_newPage e := (Returned tt, e + 1);
  page_goto e := (Returned tt, e + 1);
  page_waitForTimeout ms e := (Returned tt, e + ms);
  page_reload e := (Returned tt, e + 1);
  page_close e := (Thrown IOError, e + 1);
  context_close e := (Returned tt, e + 1);
  browser_close e := (Returned tt, e + 1);
  checkWalletConnection e := (true, e + 1);
  connectWallet e := (Returned tt, e + 1);
  waitForWalletCard e := (true, e + 1);
  extractBalance _ e := (Some "0.5000 ETH", e + 1);
  extractorWETHBalance _ e := (Some 1000, e + 1);
  extractSpinInfo e := (threeSpinsCard, e + 1);
  spinSteps e := (Returned tt, e + 1)
|}.

(** A robot just constructed, at 10:00:00 UTC of day 20000, over a given
    store. *)
Definition freshRobot (store : Store) : Machine (Robot Z) :=
  mkMachine store (newRobot (atUTC 20000 10 0 0)).

(** A robot whose Rabby start-up went through, at the same time, over a
    given store. *)
Definition openRobot (store : Store) : Machine (Robot Z) :=
  mkMachine store
    (mkRobot false false true true true (atUTC 20000 10 0 0)).

(* ================================================================== *)
(** * More vocabulary: a pass that stays off the site *)

(** A computation that, from a state satisfying [I], ends in a state
    satisfying [I], adds to the trace only events satisfying [P], and
    returns only values satisfying [Q]. *)
Definition keeps {S A : Type} (tr : S -> list Event) (I : S -> Prop)
  (P : Event -> Prop) (Q : A -> Prop) (c : M S A) : Prop :=
  forall s,
    I s ->
    I (snd (c s))
    /\ (exists evs, tr (snd (c s)) = tr s ++ evs /\ Forall P evs)
    /\ (forall a, fst (c s) = Returned a -> Q a).

(** An event that is no use of the site: no spin, no reload, no card read,
    and no connection other than one refused for want of a connector. *)
Definition offSite (ev : Event) : Prop :=
  match ev with
  | BotSpin _ | BotReload _ | BotExtract _ => False
  | BotConnect connected => connected = Thrown notInitialised
  | _ => True
  end.

(** The fields of the robot, the outside left out. *)
Definition robotFields {Ext : Type} (r : Robot Ext) : bool * bool * bool * bool * bool :=
  (this_browser r, this_context r, this_page r, this_rabbyWallet r,
   this_lineaRewardsConnector r).

(** The robot is left as it was. *)
Definition sameRobot {Ext : Type} (before after : World (Robot Ext)) : Prop :=
  robotFields (ext (machine after)) = robotFields (ext (machine before)).

(** No connector, and no spin reported so far. *)
Definition idle {Ext : Type} (f : Frame (Robot Ext)) : Prop :=
  this_lineaRewardsConnector (ext (machine (world f))) = false
  /\ spinsPerformed (flags (locals f)) = false.

Definition passTrace {Ext : Type} (f : Frame Ext) : list Event := trace (world f).

(** A status that reports no spin. *)
Definition noSpinReported (returned : option WalletStatus) : Prop :=
  match returned with
  | Some status => spinsPerformed status = false
  | None => True
  end.

(** [processWallet] entered with a robot not yet built, over a given
    store. *)
Definition robotFrame (store : Store) : Frame (Robot Z) :=
  mkFrame (mkWorld (freshRobot store) [])
    (mkLocals (mkWalletStatus false false false false) false).
(* ================================================================== *)
(** * Properties *)

(** ** Arrays *)

Lemma findIndexFrom_spec {A : Type} (p : A -> bool) (l : list A) :
  forall k i x,
    findIndexFrom p l k = Some (i, x) ->
    (k <= i)%nat /\ nth_error l (i - k) = Some x /\ p x = true /\
    (forall j y, (j < i - k)%nat -> nth_error l j = Some y -> p y = false).
Proof.
  induction l as [|a l IH]; intros k i x Hf; simpl in Hf.
  - discriminate.
  - destruct (p a) eqn:Hp.
    + inversion Hf; subst. rewrite Nat.sub_diag. simpl.
      repeat split; auto. intros j y Hj. lia.
    + apply IH in Hf. destruct Hf as (Hle & Hn & Hx & Hbefore).
      assert (Hi : (i - k = S (i - S k))%nat) by lia.
      rewrite Hi. simpl. repeat split; auto; try lia.
      intros j y Hj Hy. destruct j as [|j]; simpl in Hy.
      * inversion Hy; subst. exact Hp.
      * apply (Hbefore j y); auto. lia.
Qed.

Lemma findIndex_spec {A : Type} (p : A -> bool) (l : list A) i x :
  findIndex p l = Some (i, x) ->
  nth_error l i = Some x /\ p x = true /\
  (forall j y, (j < i)%nat -> nth_error l j = Some y -> p y = false).
Proof.
  unfold findIndex. intros Hf. apply findIndexFrom_spec in Hf.
  rewrite Nat.sub_0_r in Hf. tauto.
Qed.

Lemma findIndexFrom_None {A : Type} (p : A -> bool) (l : list A) :
  forall k, findIndexFrom p l k = None <-> List.find p l = None.
Proof.
  induction l as [|a l IH]; intros k; simpl.
  - tauto.
  - destruct (p a); [split; discriminate | apply IH].
Qed.

Lemma findIndexFrom_find {A : Type} (p : A -> bool) (l : list A) :
  forall k i x, findIndexFrom p l k = Some (i, x) -> List.find p l = Some x.
Proof.
  induction l as [|a l IH]; intros k i x; simpl.
  - discriminate.
  - destruct (p a).
    + intros Hf. inversion Hf. reflexivity.
    + apply IH.
Qed.

Lemma find_findIndexFrom {A : Type} (p : A -> bool) (l : list A) :
  forall k x, List.find p l = Some x -> exists i, findIndexFrom p l k = Some (i, x).
Proof.
  induction l as [|a l IH]; intros k x; simpl.
  - discriminate.
  - destruct (p a).
    + intros Hf. inversion Hf. eauto.
    + apply IH.
Qed.

Lemma setAt_length {A : Type} (x : A) (l : list A) :
  forall i, List.length (setAt i x l) = List.length l.
Proof.
  induction l as [|a l IH]; intros [|i]; simpl; auto.
Qed.

Lemma setAt_same {A : Type} (x : A) (l : list A) :
  forall i y, nth_error l i = Some y -> nth_error (setAt i x l) i = Some x.
Proof.
  induction l as [|a l IH]; intros [|i] y; simpl; try discriminate; eauto.
Qed.

Lemma setAt_other {A : Type} (x : A) (l : list A) :
  forall i j, i <> j -> nth_error (setAt i x l) j = nth_error l j.
Proof.
  induction l as [|a l IH]; intros [|i] [|j] Hij; simpl; auto;
    try congruence.
Qed.

Lemma setAt_Forall {A : Type} (P : A -> Prop) (x : A) (l : list A) :
  forall i, P x -> Forall P l -> Forall P (setAt i x l).
Proof.
  induction l as [|a l IH]; intros [|i] Hx Hl; simpl; auto;
    inversion Hl; subst; constructor; auto.
Qed.

(** ** The backing file *)

Lemma loadData_holds {D : Type} `{Document D} (disk : Disk D) now d :
  backing disk = Text (Some d) -> loadData disk now = d.
Proof.
  intros Hb. unfold loadData, readFileSync. rewrite Hb. reflexivity.
Qed.

Lemma loadData_saveData {D : Type} `{Document D} (disk : Disk D) data now :
  writable disk = true -> loadData (saveData disk data) now = data.
Proof.
  intros Hw. unfold saveData, writeFileSync. rewrite Hw. reflexivity.
Qed.

Lemma saveData_unwritable {D : Type} (disk : Disk D) data :
  writable disk = false -> saveData disk data = disk.
Proof.
  intros Hw. unfold saveData, writeFileSync. rewrite Hw. reflexivity.
Qed.

Lemma saveData_writable {D : Type} (disk : Disk D) data :
  writable (saveData disk data) = writable disk.
Proof.
  unfold saveData, writeFileSync. destruct (writable disk) eqn:Hw; simpl; auto.
Qed.

Lemma loadData_wallets_any_time (disk : Store) (t1 t2 : Timestamp) :
  wallets (loadData disk t1) = wallets (loadData disk t2).
Proof.
  unfold loadData, readFileSync.
  destruct (backing disk) as [| |[d|]]; reflexivity.
Qed.

(** C7, as amended.  [loadData] and [saveData] are total: their [try]
    blocks turn every exception into a returned value.  When reading or
    parsing throws (no file, an unreadable file, text that is not JSON),
    [loadData] returns the empty snapshot; text that parses is returned as
    it parsed, with no check of its shape.  When writing throws,
    [saveData] leaves the file as it was; otherwise the file holds the
    data. *)
Theorem loadData_saveData_total :
  forall (D : Type) (doc : Document D) (disk : Disk D) (now : Timestamp) (data : D),
    (forall e, andThen (readFileSync disk) JSON_parse = Thrown e ->
               loadData disk now = emptyDocument now)
    /\ (backing disk = Missing \/ backing disk = Unreadable
        \/ backing disk = Text None ->
        loadData disk now = emptyDocument now)
    /\ (forall d, backing disk = Text (Some d) -> loadData disk now = d)
    /\ (forall e, writeFileSync disk data = Thrown e -> saveData disk data = disk)
    /\ (writable disk = false -> saveData disk data = disk)
    /\ (writable disk = true ->
        saveData disk data = mkDisk (Text (Some data)) true)
    /\ snapshotShaped (emptyDocument (D := Json) now) = true.
Proof.
  intros D doc disk now data. repeat split.
  - intros e He. unfold loadData. rewrite He. reflexivity.
  - intros [Hb | [Hb | Hb]]; unfold loadData, readFileSync; rewrite Hb; reflexivity.
  - intros d Hb. now apply loadData_holds.
  - intros e He. unfold saveData. rewrite He. reflexivity.
  - apply saveData_unwritable.
  - intros Hw. unfold saveData, writeFileSync. rewrite Hw. reflexivity.
Qed.

(** C7, witness: a file that is missing on a medium that cannot be written. *)
Lemma loadData_saveData_total_witness :
  loadData (mkDisk (@Missing Snapshot) false) 7 = mkSnapshot [] 7
  /\ saveData (mkDisk (@Missing Snapshot) false) (mkSnapshot [] 9)
     = mkDisk Missing false.
Proof.
  pose proof (loadData_saveData_total Snapshot Snapshot_Document
                (mkDisk (@Missing Snapshot) false) 7 (mkSnapshot [] 9))
    as (_ & Hload & _ & _ & Hsave & _).
  split.
  - apply Hload. left. reflexivity.
  - apply Hsave. reflexivity.
Defined.

(** C7, counterexample: the file holds the text [{}].  It parses, so
    [loadData] returns the empty object, which is not a snapshot, and the
    caller's [data.wallets.length] throws. *)
Lemma loadData_returns_unshaped_document :
  loadData (mkDisk (Text (Some (JObject []))) true) 0 = JObject []
  /\ snapshotShaped (loadData (mkDisk (Text (Some (JObject []))) true) 0) = false
  /\ walletsLength (loadData (mkDisk (Text (Some (JObject []))) true) 0)
     = Thrown TypeError.
Proof.
  repeat split.
Qed.

(** ** Freshness policy *)

Lemma isoDate_atUTC day h m s :
  0 <= h < 24 -> 0 <= m < 60 -> 0 <= s < 60 -> isoDate (atUTC day h m s) = day.
Proof.
  intros Hh Hm Hs. unfold isoDate, atUTC, msPerDay, msPerHour.
  symmetry. apply Z.div_unique with (r := h * 3600000 + m * 60000 + s * 1000); lia.
Qed.

Lemma getUTCHours_atUTC day h m s :
  0 <= h < 24 -> 0 <= m < 60 -> 0 <= s < 60 -> getUTCHours (atUTC day h m s) = h.
Proof.
  intros Hh Hm Hs. unfold getUTCHours, atUTC, msPerDay, msPerHour.
  replace ((day * 86400000 + h * 3600000 + m * 60000 + s * 1000) / 3600000)
    with (day * 24 + h).
  - symmetry. apply Z.mod_unique with (q := day); lia.
  - apply Z.div_unique with (r := m * 60000 + s * 1000); lia.
Qed.

Lemma isoDate_monotone t1 t2 : t1 <= t2 -> isoDate t1 <= isoDate t2.
Proof.
  intros Hle. unfold isoDate, msPerDay. apply Z.div_le_mono; lia.
Qed.

Lemma getWalletDataSync_any_time (disk : Store) t1 t2 addr :
  getWalletDataSync disk t1 addr = getWalletDataSync disk t2 addr.
Proof.
  unfold getWalletDataSync. now rewrite (loadData_wallets_any_time disk t1 t2).
Qed.

(** C3.  [shouldRefreshSpinsForNewDay], read at one instant [now]: when
    the last spin is on today's UTC date the answer is exactly
    "[now]'s UTC hour is at least 3 and the last spin's UTC hour is below
    3"; a last spin at 02:59:00 with [now] at 03:00:01 of the same day
    gives [true], a last spin at 03:01:00 with [now] at 05:00:00 gives
    [false]; and the answer is [true] when there is no record, no
    [lastSpinDate], or a last spin on another date. *)
Theorem shouldRefreshSpins_boundary :
  forall (disk : Store) (now : Timestamp) (addr : string),
    (forall w lastSpin,
        getWalletDataSync disk now addr = Some w ->
        lastSpinDate w = Some lastSpin ->
        isoDate lastSpin = isoDate now ->
        shouldRefreshSpinsForNewDay disk now now addr
        = (3 <=? getUTCHours now) && (getUTCHours lastSpin <? 3))
    /\ (forall w day,
        getWalletDataSync disk now addr = Some w ->
        lastSpinDate w = Some (atUTC day 2 59 0) ->
        now = atUTC day 3 0 1 ->
        shouldRefreshSpinsForNewDay disk now now addr = true)
    /\ (forall w day,
        getWalletDataSync disk now addr = Some w ->
        lastSpinDate w = Some (atUTC day 3 1 0) ->
        now = atUTC day 5 0 0 ->
        shouldRefreshSpinsForNewDay disk now now addr = false)
    /\ (getWalletDataSync disk now addr = None ->
        shouldRefreshSpinsForNewDay disk now now addr = true)
    /\ (forall w,
        getWalletDataSync disk now addr = Some w ->
        lastSpinDate w = None ->
        shouldRefreshSpinsForNewDay disk now now addr = true)
    /\ (forall w lastSpin,
        getWalletDataSync disk now addr = Some w ->
        lastSpinDate w = Some lastSpin ->
        isoDate lastSpin <> isoDate now ->
        shouldRefreshSpinsForNewDay disk now now addr = true).
Proof.
  intros disk now addr.
  assert (Hsame : forall w lastSpin,
             getWalletDataSync disk now addr = Some w ->
             lastSpinDate w = Some lastSpin ->
             isoDate lastSpin = isoDate now ->
             shouldRefreshSpinsForNewDay disk now now addr
             = (3 <=? getUTCHours now) && (getUTCHours lastSpin <? 3)).
  { intros w lastSpin Hw Hl Hd. unfold shouldRefreshSpinsForNewDay.
    rewrite Hw, Hl, Hd, Z.eqb_refl. simpl.
    destruct ((3 <=? getUTCHours now) && (getUTCHours lastSpin <? 3)); reflexivity. }
  repeat split.
  - exact Hsame.
  - intros w day Hw Hl Hnow.
    rewrite (Hsame w _ Hw Hl); subst now.
    + rewrite !getUTCHours_atUTC by lia. reflexivity.
    + rewrite !isoDate_atUTC by lia. reflexivity.
  - intros w day Hw Hl Hnow.
    rewrite (Hsame w _ Hw Hl); subst now.
    + rewrite !getUTCHours_atUTC by lia. reflexivity.
    + rewrite !isoDate_atUTC by lia. reflexivity.
  - intros Hw. unfold shouldRefreshSpinsForNewDay. rewrite Hw. reflexivity.
  - intros w Hw Hl. unfold shouldRefreshSpinsForNewDay. rewrite Hw, Hl. reflexivity.
  - intros w lastSpin Hw Hl Hd. unfold shouldRefreshSpinsForNewDay.
    rewrite Hw, Hl. apply Z.eqb_neq in Hd. rewrite Hd. reflexivity.
Qed.

(** C3, witness: the two boundary cases on day 20000. *)
Lemma shouldRefreshSpins_boundary_witness :
  shouldRefreshSpinsForNewDay (spunAt (atUTC 20000 2 59 0))
    (atUTC 20000 3 0 1) (atUTC 20000 3 0 1) "0xabc" = true
  /\ shouldRefreshSpinsForNewDay (spunAt (atUTC 20000 3 1 0))
    (atUTC 20000 5 0 0) (atUTC 20000 5 0 0) "0xabc" = false.
Proof.
  split.
  - eapply (proj1 (proj2 (shouldRefreshSpins_boundary
                            (spunAt (atUTC 20000 2 59 0)) (atUTC 20000 3 0 1) "0xabc")))
      with (day := 20000); reflexivity.
  - eapply (proj1 (proj2 (proj2 (shouldRefreshSpins_boundary
                            (spunAt (atUTC 20000 3 1 0)) (atUTC 20000 5 0 0) "0xabc"))))
      with (day := 20000); reflexivity.
Defined.

Lemma differsFrom_later d day1 day2 :
  notAfter d day1 -> day1 <= day2 ->
  differsFrom d day1 = true -> differsFrom d day2 = true.
Proof.
  destruct d as [x|]; simpl; [|discriminate].
  intros Hx Hle Hd. apply negb_true_iff, Z.eqb_neq in Hd.
  apply negb_true_iff, Z.eqb_neq. lia.
Qed.

(** C6, as amended.  For a record none of whose dates lies after the day
    of [t1], and which is not modified in between, [isNewDayForWallet] is
    monotone in time. *)
Theorem isNewDay_monotone :
  forall (disk : Store) (addr : string) (t1 t2 : Timestamp),
    t1 <= t2 ->
    (forall w, getWalletDataSync disk t1 addr = Some w -> datesNotAfter w t1) ->
    isNewDayForWallet disk t1 addr = true ->
    isNewDayForWallet disk t2 addr = true.
Proof.
  intros disk addr t1 t2 Hle Hdates. unfold isNewDayForWallet.
  rewrite <- (getWalletDataSync_any_time disk t1 t2).
  destruct (getWalletDataSync disk t1 addr) as [w|]; [|reflexivity].
  destruct (Hdates w eq_refl) as (Ht & Ha & Hc).
  pose proof (isoDate_monotone t1 t2 Hle) as Hday.
  destruct (differsFrom (lastTransferDate w) (isoDate t1)) eqn:E1.
  - intros _. now rewrite (differsFrom_later _ _ _ Ht Hday E1).
  - destruct (differsFrom (lastTransferDate w) (isoDate t2)); [reflexivity|].
    destruct (differsFrom (option_map isoDate (lastActivity w)) (isoDate t1)) eqn:E2.
    + intros _. now rewrite (differsFrom_later _ _ _ Ha Hday E2).
    + destruct (differsFrom (option_map isoDate (lastActivity w)) (isoDate t2));
        [reflexivity|].
      destruct (option_map isoDate (lastActivity w)); [discriminate|].
      destruct (differsFrom (option_map isoDate (connectedAt w)) (isoDate t1)) eqn:E3;
        [|discriminate].
      intros _. now rewrite (differsFrom_later _ _ _ Hc Hday E3).
Qed.

(** C6, witness: last active on day 0, asked on day 1 and on day 2. *)
Lemma isNewDay_monotone_witness :
  isNewDayForWallet (activeAt 0) (2 * msPerDay) "0xabc" = true.
Proof.
  apply (isNewDay_monotone (activeAt 0) "0xabc" (1 * msPerDay) (2 * msPerDay)).
  - unfold msPerDay. lia.
  - intros w Hw. vm_compute in Hw. inversion Hw; subst.
    unfold datesNotAfter. vm_compute. repeat split; discriminate.
  - reflexivity.
Defined.

(** C6, counterexample: a record whose [lastActivity] is on day 1.  Asked
    on day 0 the answer is [true]; asked later, on day 1, it is [false]. *)
Lemma isNewDay_not_monotone :
  0 <= 1 * msPerDay
  /\ isNewDayForWallet (activeAt (1 * msPerDay)) 0 "0xabc" = true
  /\ isNewDayForWallet (activeAt (1 * msPerDay)) (1 * msPerDay) "0xabc" = false.
Proof.
  repeat split. vm_compute. discriminate.
Qed.

(** ** The spin budget *)

Lemma toDouble_small n : Z.abs n <= 2 ^ 53 -> toDouble n = n.
Proof.
  intros H. unfold toDouble. apply Z.leb_le in H. now rewrite H.
Qed.

Lemma toDouble_positive n : 0 < n -> 0 < toDouble n.
Proof.
  intros Hn. unfold toDouble. destruct (Z.abs n <=? 2 ^ 53) eqn:E; [exact Hn|].
  apply Z.leb_gt in E. rewrite Z.abs_eq in * by lia.
  rewrite Z.sgn_pos by exact Hn. rewrite Z.mul_1_l.
  assert (He : 0 <= Z.log2 n - 52).
  { assert (53 <= Z.log2 n); [|lia]. apply Z.log2_le_pow2; lia. }
  set (e := Z.log2 n - 52) in *.
  assert (Hq : 0 < Z.shiftr n e).
  { rewrite Z.shiftr_div_pow2 by exact He.
    apply Z.div_str_pos. split; [apply Z.pow_pos_nonneg; lia|].
    transitivity (2 ^ Z.log2 n); [apply Z.pow_le_mono_r; lia|].
    apply Z.log2_spec. exact Hn. }
  set (q := Z.shiftr n e) in *.
  rewrite Z.shiftl_mul_pow2 by exact He.
  apply Z.mul_pos_pos; [|apply Z.pow_pos_nonneg; lia].
  destruct (_ <? _); [exact Hq|].
  destruct (_ <? _); [lia|]. destruct (Z.even q); lia.
Qed.

Lemma toDouble_nonneg n : 0 <= n -> 0 <= toDouble n.
Proof.
  intros Hn. destruct (Z.eq_dec n 0) as [->|Hz]; [reflexivity|].
  apply Z.lt_le_incl, toDouble_positive. lia.
Qed.

Lemma jsSubtract_one_nonneg n : 0 < n -> 0 <= jsSubtract n 1.
Proof.
  intros Hn. unfold jsSubtract. apply toDouble_nonneg.
  pose proof (toDouble_positive n Hn).
  rewrite (toDouble_small 1) by (simpl; lia). lia.
Qed.

Lemma jsSubtract_one_exact n : 0 < n <= 2 ^ 53 -> jsSubtract n 1 = n - 1.
Proof.
  intros Hn. unfold jsSubtract.
  rewrite (toDouble_small n), (toDouble_small 1) by (try (simpl; lia); lia).
  apply toDouble_small. lia.
Qed.

Lemma decrementSpins_cases (disk : Store) now addr :
  decrementSpins disk now addr = disk
  \/ exists i w n,
      findIndex (isWallet addr) (wallets (loadData disk now)) = Some (i, w)
      /\ spinsAvailable w = Some n /\ 0 < n
      /\ decrementSpins disk now addr
         = saveData disk
             (mkSnapshot
                (setAt i (set_lastActivity (Some now)
                            (set_spinsAvailable (Some (jsSubtract n 1)) w))
                       (wallets (loadData disk now)))
                now).
Proof.
  unfold decrementSpins.
  destruct (findIndex (isWallet addr) (wallets (loadData disk now)))
    as [[i w]|] eqn:Hf; [|now left].
  destruct (spinsAvailable w) as [n|] eqn:Hs; simpl; [|now left].
  destruct (0 <? n) eqn:Hn; [|now left].
  right. exists i, w, n. apply Z.ltb_lt in Hn. auto.
Qed.

Lemma decrementSpins_keeps_nonNegative (disk : Store) now addr t t' :
  spinsNonNegative (loadData disk t) ->
  spinsNonNegative (loadData (decrementSpins disk now addr) t').
Proof.
  intros Hinv. unfold spinsNonNegative in *.
  destruct (decrementSpins_cases disk now addr)
    as [Hsame | (i & w & n & Hf & Hs & Hn & Hdec)].
  - rewrite Hsame. now rewrite (loadData_wallets_any_time disk t' t).
  - rewrite Hdec. destruct (writable disk) eqn:Hw.
    + rewrite loadData_saveData by exact Hw. simpl.
      apply setAt_Forall.
      * simpl. now apply jsSubtract_one_nonneg.
      * now rewrite (loadData_wallets_any_time disk now t).
    + rewrite saveData_unwritable by exact Hw.
      now rewrite (loadData_wallets_any_time disk t' t).
Qed.

(** C10, as amended.  The spin budget is an integer.  [decrementSpins]
    leaves the file exactly as it was when no record matches the address
    or the matching record's [spinsAvailable] is absent, 0 or negative.
    When the budget [n] is positive the saved snapshot holds, in that
    record and with every other record as before, the double nearest to
    [n - 1]: that is [n - 1] itself for a budget of at most 2^53, and it
    is never negative.  So over any run of calls no budget drops below
    zero. *)
Theorem decrementSpins_never_negative :
  forall (disk : Store) (now : Timestamp) (addr : string),
    (findIndex (isWallet addr) (wallets (loadData disk now)) = None ->
     decrementSpins disk now addr = disk)
    /\ (forall i w,
        findIndex (isWallet addr) (wallets (loadData disk now)) = Some (i, w) ->
        spinsAvailable w = None \/ spinsAvailable w = Some 0 ->
        decrementSpins disk now addr = disk)
    /\ (forall i w n,
        findIndex (isWallet addr) (wallets (loadData disk now)) = Some (i, w) ->
        spinsAvailable w = Some n -> n < 0 ->
        decrementSpins disk now addr = disk)
    /\ (forall i w n later,
        findIndex (isWallet addr) (wallets (loadData disk now)) = Some (i, w) ->
        spinsAvailable w = Some n -> 0 < n ->
        writable disk = true ->
        let after := loadData (decrementSpins disk now addr) later in
        (exists w', nth_error (wallets after) i = Some w'
                    /\ spinsAvailable w' = Some (toDouble (toDouble n - 1))
                    /\ 0 <= toDouble (toDouble n - 1)
                    /\ (n <= 2 ^ 53 -> spinsAvailable w' = Some (n - 1))
                    /\ address w' = address w)
        /\ List.length (wallets after) = List.length (wallets (loadData disk now))
        /\ (forall j, j <> i ->
              nth_error (wallets after) j
              = nth_error (wallets (loadData disk now)) j))
    /\ (forall calls t t',
        spinsNonNegative (loadData disk t) ->
        spinsNonNegative (loadData (decrementSpinsMany calls disk) t')).
Proof.
  intros disk now addr. split; [|split; [|split; [|split]]].
  - intros Hf. unfold decrementSpins. now rewrite Hf.
  - intros i w Hf [Hs | Hs]; unfold decrementSpins; rewrite Hf, Hs; reflexivity.
  - intros i w n Hf Hs Hn. unfold decrementSpins. rewrite Hf, Hs. simpl.
    destruct (0 <? n) eqn:E; [|reflexivity].
    apply Z.ltb_lt in E. lia.
  - intros i w n later Hf Hs Hn Hw after.
    assert (Hafter : wallets after
                     = setAt i (set_lastActivity (Some now)
                                  (set_spinsAvailable (Some (jsSubtract n 1)) w))
                             (wallets (loadData disk now))).
    { unfold after, decrementSpins. rewrite Hf, Hs.
      cbn [orZero]. apply Z.ltb_lt in Hn. rewrite Hn.
      rewrite loadData_saveData by exact Hw. reflexivity. }
    apply findIndex_spec in Hf as (Hnth & _ & _).
    rewrite Hafter. split; [|split].
    + eexists. split; [eapply setAt_same; exact Hnth|].
      split; [reflexivity|]. split; [exact (jsSubtract_one_nonneg n Hn)|].
      split; [|reflexivity].
      intros Hsafe. cbn [spinsAvailable set_lastActivity set_spinsAvailable].
      f_equal. apply jsSubtract_one_exact. lia.
    + apply setAt_length.
    + intros j Hj. apply setAt_other. congruence.
  - intros calls. unfold decrementSpinsMany.
    revert disk. induction calls as [|[t0 a0] calls IH]; intros disk t t' Hinv; simpl.
    + unfold spinsNonNegative in *.
      now rewrite (loadData_wallets_any_time disk t' t).
    + apply (IH (decrementSpins disk t0 a0) t t').
      now apply decrementSpins_keeps_nonNegative with (t := t).
Qed.

(** C10, witness: two spins left, decremented three times. *)
Lemma decrementSpins_never_negative_witness :
  (exists w', nth_error (wallets (loadData (decrementSpins (withSpins 2) 5 "0xabc") 6)) 0
              = Some w'
              /\ spinsAvailable w' = Some 1
              /\ address w' = "0xABC")
  /\ spinsNonNegative
       (loadData (decrementSpinsMany [(5, "0xabc"); (6, "0xabc"); (7, "0xabc")]
                    (withSpins 2)) 8).
Proof.
  destruct (decrementSpins_never_negative (withSpins 2) 5 "0xabc")
    as (_ & _ & _ & Hdec & Hmany).
  split.
  - destruct (Hdec 0%nat (set_spinsAvailable (Some 2) (blankWallet "0xABC")) 2 6
                eq_refl eq_refl eq_refl eq_refl)
      as ((w' & Hnth & _ & _ & Hexact & Haddr) & _).
    exists w'. split; [exact Hnth|]. split; [|exact Haddr].
    apply Hexact. vm_compute. discriminate.
  - apply (Hmany _ 0). repeat constructor. simpl. lia.
Defined.

(** C10, counterexample: the claim as first stated has every budget other
    than an absent one or 0 lowered by exactly 1.  A budget of 2^54 is a
    JavaScript number whose difference with 1 rounds back to 2^54: the
    record is saved with the budget it had.  A budget of -3 is not
    positive: nothing is written, and the budget is not -4. *)
Lemma decrementSpins_not_by_one :
  List.map spinsAvailable
    (wallets (loadData (decrementSpins (withSpins (2 ^ 54)) 5 "0xabc") 6))
  = [Some (2 ^ 54)]
  /\ 2 ^ 54 <> 2 ^ 54 - 1
  /\ decrementSpins (withSpins (-3)) 5 "0xabc" = withSpins (-3)
  /\ List.map spinsAvailable (wallets (loadData (withSpins (-3)) 6)) = [Some (-3)].
Proof.
  split; [vm_compute; reflexivity|]. split; [vm_compute; discriminate|].
  split; reflexivity.
Qed.

(** ** Upsert *)

Lemma spreadSlot_merged {A : Type} (old : option A) (s : Slot A) :
  slotMerged old s (spreadSlot old s).
Proof.
  destruct s; reflexivity.
Qed.

Lemma fieldsMerged_spread_connectedAt {K : Type} a t (old : WalletData)
  (patch : WalletFields K) :
  fieldsMerged old patch (set_connectedAt t (spread a old patch)).
Proof.
  unfold fieldsMerged; simpl. repeat split; apply spreadSlot_merged.
Qed.

Lemma fieldsMerged_spread_lastActivity {K : Type} a t (old : WalletData)
  (patch : WalletFields K) :
  fieldsMerged old patch (set_lastActivity t (spread a old patch)).
Proof.
  unfold fieldsMerged; simpl. repeat split; apply spreadSlot_merged.
Qed.

Lemma isWallet_case_insensitive addr w :
  isWallet addr w = true <-> toLowerCase (address w) = toLowerCase addr.
Proof.
  unfold isWallet. apply String.eqb_eq.
Qed.

(** C2, as amended.  Upsert of an existing record, on a writable medium.
    The record updated is the first whose address equals the given one up
    to letter case.  In the saved snapshot, whose [lastUpdate] is the
    current instant, every other record is as before, and in the updated
    record each optional property other than the store's own time stamp
    follows the update: left as it was when the update lacks the property,
    set to the update's value when it carries one, and removed when the
    update carries the property with the value [undefined].
    [saveWalletData] sets [connectedAt], and [forceUpdateWalletData]
    [lastActivity], to the current instant whatever the update holds. *)
Theorem upsert_merges_fields :
  forall (disk : Store) (now later : Timestamp),
    writable disk = true ->
    (forall (walletData : WalletObject) i old,
        findIndex (isWallet (p_address walletData)) (wallets (loadData disk now))
        = Some (i, old) ->
        let after := loadData (saveWalletData disk now walletData) later in
        toLowerCase (address old) = toLowerCase (p_address walletData)
        /\ (forall j w, (j < i)%nat ->
              nth_error (wallets (loadData disk now)) j = Some w ->
              isWallet (p_address walletData) w = false)
        /\ lastUpdate after = now
        /\ List.length (wallets after) = List.length (wallets (loadData disk now))
        /\ (forall j, j <> i ->
              nth_error (wallets after) j
              = nth_error (wallets (loadData disk now)) j)
        /\ exists new,
            nth_error (wallets after) i = Some new
            /\ address new = p_address walletData
            /\ connectedAt new = Some now
            /\ slotMerged (lastActivity old) (p_lastActivity walletData)
                          (lastActivity new)
            /\ fieldsMerged old walletData new)
    /\ (forall (addr : string) (newData : WalletPatch) i old,
        findIndex (isWallet addr) (wallets (loadData disk now)) = Some (i, old) ->
        let after := loadData (forceUpdateWalletData disk now addr newData) later in
        toLowerCase (address old) = toLowerCase addr
        /\ (forall j w, (j < i)%nat ->
              nth_error (wallets (loadData disk now)) j = Some w ->
              isWallet addr w = false)
        /\ lastUpdate after = now
        /\ List.length (wallets after) = List.length (wallets (loadData disk now))
        /\ (forall j, j <> i ->
              nth_error (wallets after) j
              = nth_error (wallets (loadData disk now)) j)
        /\ exists new,
            nth_error (wallets after) i = Some new
            /\ address new = spreadAddress (address old) (p_address newData)
            /\ lastActivity new = Some now
            /\ slotMerged (connectedAt old) (p_connectedAt newData)
                          (connectedAt new)
            /\ fieldsMerged old newData new).
Proof.
  intros disk now later Hw. split.
  - intros walletData i old Hf after.
    assert (Hafter : after
                     = mkSnapshot
                         (setAt i (set_connectedAt (Some now)
                                     (spread (p_address walletData) old walletData))
                                (wallets (loadData disk now)))
                         now).
    { unfold after, saveWalletData. rewrite Hf.
      now rewrite loadData_saveData by exact Hw. }
    apply findIndex_spec in Hf as (Hnth & Hp & Hbefore).
    rewrite Hafter. simpl.
    split; [now apply isWallet_case_insensitive|].
    split; [exact Hbefore|]. split; [reflexivity|].
    split; [apply setAt_length|].
    split; [intros j Hj; apply setAt_other; congruence|].
    eexists. split; [eapply setAt_same; exact Hnth|].
    split; [reflexivity|]. split; [reflexivity|].
    split; [apply spreadSlot_merged | apply fieldsMerged_spread_connectedAt].
  - intros addr newData i old Hf after.
    assert (Hafter : after
                     = mkSnapshot
                         (setAt i (set_lastActivity (Some now)
                                     (spread (spreadAddress (address old)
                                                (p_address newData)) old newData))
                                (wallets (loadData disk now)))
                         now).
    { unfold after, forceUpdateWalletData. rewrite Hf.
      now rewrite loadData_saveData by exact Hw. }
    apply findIndex_spec in Hf as (Hnth & Hp & Hbefore).
    rewrite Hafter. simpl.
    split; [now apply isWallet_case_insensitive|].
    split; [exact Hbefore|]. split; [reflexivity|].
    split; [apply setAt_length|].
    split; [intros j Hj; apply setAt_other; congruence|].
    eexists. split; [eapply setAt_same; exact Hnth|].
    split; [reflexivity|]. split; [reflexivity|].
    split; [apply spreadSlot_merged | apply fieldsMerged_spread_lastActivity].
Qed.

(** C2, witness: an update through [saveWalletData] that spells the
    address in lower case and carries [spinsAvailable: undefined], and one
    through [forceUpdateWalletData] that sets the spin count. *)
Lemma upsert_merges_fields_witness :
  (exists new,
    nth_error (wallets (loadData (saveWalletData fiveSpins 100 cardWithoutSpins) 200))
              0 = Some new
    /\ address new = "0xabc"
    /\ connectedAt new = Some 100
    /\ balance new = Some "0.0100 ETH"
    /\ spinsAvailable new = None)
  /\ (exists new,
    nth_error (wallets (loadData
                 (forceUpdateWalletData fiveSpins 100 "0xABC" fourSpinsPatch) 200))
              0 = Some new
    /\ address new = "0xAbC"
    /\ lastActivity new = Some 100
    /\ connectedAt new = Some 1
    /\ spinsAvailable new = Some 4).
Proof.
  split.
  - destruct (proj1 (upsert_merges_fields fiveSpins 100 200 eq_refl)
                cardWithoutSpins 0%nat
                (set_connectedAt (Some 1)
                   (set_spinsAvailable (Some 5) (blankWallet "0xAbC")))
                eq_refl)
      as (_ & _ & _ & _ & _ & new & Hnth & Ha & Hc & _ & Hm).
    exists new. destruct Hm as (Hbalance & _ & _ & Hspins & _).
    repeat split; assumption.
  - destruct (proj2 (upsert_merges_fields fiveSpins 100 200 eq_refl)
                "0xABC" fourSpinsPatch 0%nat
                (set_connectedAt (Some 1)
                   (set_spinsAvailable (Some 5) (blankWallet "0xAbC")))
                eq_refl)
      as (_ & _ & _ & _ & _ & new & Hnth & Ha & Hl & Hc & Hm).
    exists new. destruct Hm as (_ & _ & _ & Hspins & _).
    repeat split; assumption.
Defined.

(** C2, counterexample: the stored record has five spins and was connected
    at instant 1; the update carries [spinsAvailable: undefined] and
    [connectedAt] 7.  After the upsert at instant 100 the spin count is
    gone, where the claim keeps 5, and [connectedAt] is 100, where the
    claim writes 7. *)
Lemma upsert_undefined_overwrites :
  option_map spinsAvailable
    (nth_error (wallets (loadData fiveSpins 100)) 0)
  = Some (Some 5)
  /\ p_spinsAvailable cardWithoutSpins = Undefined
  /\ p_connectedAt cardWithoutSpins = Value 7
  /\ option_map spinsAvailable
    (nth_error (wallets (loadData (saveWalletData fiveSpins 100 cardWithoutSpins) 200)) 0)
  = Some None
  /\ option_map connectedAt
    (nth_error (wallets (loadData (saveWalletData fiveSpins 100 cardWithoutSpins) 200)) 0)
  = Some (Some 100).
Proof.
  repeat split.
Qed.

(** ** The daily transfer *)

Lemma find_app_last {A : Type} (p : A -> bool) (l : list A) (x : A) :
  List.find p l = None -> p x = true -> List.find p (l ++ [x]) = Some x.
Proof.
  induction l as [|a l IH]; simpl; intros Hn Hx.
  - now rewrite Hx.
  - destruct (p a); [discriminate | auto].
Qed.

Lemma find_setAt_first {A : Type} (p : A -> bool) (x : A) (l : list A) :
  forall k i y,
    findIndexFrom p l k = Some (i, y) -> p x = true ->
    List.find p (setAt (i - k) x l) = Some x.
Proof.
  induction l as [|a l IH]; intros k i y Hf Hx; simpl in Hf.
  - discriminate.
  - destruct (p a) eqn:Hp.
    + inversion Hf; subst. rewrite Nat.sub_diag. simpl. now rewrite Hx.
    + pose proof (findIndexFrom_spec p l _ _ _ Hf) as (Hle & _).
      replace (i - k)%nat with (S (i - S k)) by lia. simpl. rewrite Hp.
      eapply IH; eauto.
Qed.

Lemma isWallet_refl addr w : address w = addr -> isWallet addr w = true.
Proof.
  intros <-. unfold isWallet. apply String.eqb_refl.
Qed.

(** After [updateDailyTransferStatus] on a writable medium the record
    found for the address carries the given date. *)
Lemma updateDailyTransferStatus_recorded (store : Store) now addr date amount later :
  writable store = true ->
  exists w,
    getWalletData (updateDailyTransferStatus store now addr date amount) later addr
    = Some w
    /\ lastTransferDate w = Some date
    /\ todayTransfer w = Some true
    /\ transferAmount w = Some amount.
Proof.
  intros Hw. unfold getWalletData, updateDailyTransferStatus.
  destruct (findIndex (isWallet addr) (wallets (loadData store now)))
    as [[i w]|] eqn:Hf.
  - rewrite loadData_saveData by exact Hw. simpl.
    eexists. split.
    + unfold findIndex in Hf.
      pose proof (find_setAt_first (isWallet addr)
                    (set_lastActivity (Some now)
                       (set_transferAmount (Some amount)
                          (set_lastTransferDate (Some date)
                             (set_todayTransfer (Some true) w))))
                    _ _ _ _ Hf) as Hfind.
      rewrite Nat.sub_0_r in Hfind. apply Hfind.
      apply findIndexFrom_spec in Hf as (_ & _ & Hp & _). exact Hp.
    + repeat split.
  - rewrite loadData_saveData by exact Hw. simpl.
    eexists. split.
    + apply find_app_last.
      * unfold findIndex in Hf. now apply findIndexFrom_None in Hf.
      * now apply isWallet_refl.
    + repeat split.
Qed.

(** One step of symbolic execution: split on an innermost scrutinee. *)
Ltac run_step :=
  match goal with
  | |- context [match ?x with _ => _ end] =>
      lazymatch x with
      | context [match _ with _ => _ end] => fail
      | _ => destruct x eqn:?
      end
  end.

Section DailyTransfer.
Context {Ext : Type} `{Collaborators Ext}.


Lemma daily_transfer_recorded_today (privateKey addr : string) (w : World Ext) :
  privateKeyToAccount privateKey = Returned addr ->
  transferredOn
    (getWalletData (disk (machine w)) (clock (ext (machine w))) addr)
    (isoDate (clock (ext (machine w)))) = true ->
  checkAndPerformDailyTransfer privateKey w = (Returned true, w).
Proof.
  intros Hk Ht.
  unfold checkAndPerformDailyTransfer, tryCatchM, bind, lift, newDate, query.
  rewrite Hk. simpl. rewrite Ht. reflexivity.
Qed.

Lemma daily_transfer_run (privateKey : string) (w : World Ext) :
  exists evs,
    trace (snd (checkAndPerformDailyTransfer privateKey w)) = trace w ++ evs
    /\ (transfersIn evs <= 1)%nat
    /\ (disk (machine (snd (checkAndPerformDailyTransfer privateKey w)))
        = disk (machine w)
        \/ exists addr amount hash now' b delay,
            privateKeyToAccount privateKey = Returned addr
            /\ fst (checkAndPerformDailyTransfer privateKey w) = Returned true
            /\ evs = [RpcBalanceRead addr (Returned b); RandomDrawn amount;
                      LedgerTransfer privateKey amount (Returned hash);
                      ReceiptAwaited hash (Returned ReceiptSuccess);
                      RandomDrawn delay; Slept delay]
            /\ disk (machine (snd (checkAndPerformDailyTransfer privateKey w)))
               = updateDailyTransferStatus (disk (machine w)) now' addr
                   (isoDate (clock (ext (machine w)))) amount).
Proof.
  unfold checkAndPerformDailyTransfer, performWETHTransfer, getWETHBalanceViaRPC,
    delayAfterSuccessfulTransaction, tryCatchM, bind, lift, newDate, query, update,
    callExt, draw, sleep, ret.
  repeat (simpl; run_step).
  all: simpl.
  all: try (eexists; split; [rewrite <- ?app_assoc; simpl; try reflexivity; symmetry; apply app_nil_r |]).
  all: try (split; [unfold transfersIn; simpl; lia|]).
  all: try (left; reflexivity).
  right. exists a, z, a1, (clock e2). do 2 eexists. simpl.
  split; [reflexivity|]. split; [reflexivity|]. split; reflexivity.
Qed.

(** C1, as amended.  One pass of [checkAndPerformDailyTransfer] submits at
    most one transfer to the ledger.  If the stored record's
    [lastTransferDate] is the UTC date the pass reads at its start, the
    pass returns [true] and does nothing at all.  The store is left
    untouched unless the transfer was submitted and its receipt reports
    success: the events of the pass are then the balance read, the draw of
    the amount, the transfer, its receipt reporting success and the
    closing delay, and what is written is exactly
    [updateDailyTransferStatus] for the date read at the start and the
    amount sent.  Once that is on a writable medium, a pass at any later
    instant whose UTC date is the date so recorded returns [true] and does
    nothing; and the record then found for the wallet has [todayTransfer]
    true, [lastTransferDate] that date and [transferAmount] that amount.
    Nothing is promised when the write was dropped or when the pass read
    its date on one day and transferred on the next. *)
Theorem daily_transfer_once_per_day :
  forall (privateKey : string) (w : World Ext),
    (forall addr,
        privateKeyToAccount privateKey = Returned addr ->
        transferredOn
          (getWalletData (disk (machine w)) (clock (ext (machine w))) addr)
          (isoDate (clock (ext (machine w)))) = true ->
        checkAndPerformDailyTransfer privateKey w = (Returned true, w))
    /\ (exists evs,
        trace (snd (checkAndPerformDailyTransfer privateKey w)) = trace w ++ evs
        /\ (transfersIn evs <= 1)%nat
        /\ (disk (machine (snd (checkAndPerformDailyTransfer privateKey w)))
            = disk (machine w)
            \/ exists addr amount hash now' b delay,
                privateKeyToAccount privateKey = Returned addr
                /\ fst (checkAndPerformDailyTransfer privateKey w) = Returned true
                /\ evs = [RpcBalanceRead addr (Returned b); RandomDrawn amount;
                          LedgerTransfer privateKey amount (Returned hash);
                          ReceiptAwaited hash (Returned ReceiptSuccess);
                          RandomDrawn delay; Slept delay]
                /\ disk (machine (snd (checkAndPerformDailyTransfer privateKey w)))
                   = updateDailyTransferStatus (disk (machine w)) now' addr
                       (isoDate (clock (ext (machine w)))) amount))
    /\ (forall addr amount now' (later : World Ext),
        privateKeyToAccount privateKey = Returned addr ->
        writable (disk (machine w)) = true ->
        disk (machine later)
        = updateDailyTransferStatus (disk (machine w)) now' addr
            (isoDate (clock (ext (machine w)))) amount ->
        isoDate (clock (ext (machine later))) = isoDate (clock (ext (machine w))) ->
        checkAndPerformDailyTransfer privateKey later = (Returned true, later))
    /\ (forall addr amount now' date later,
        writable (disk (machine w)) = true ->
        exists record,
          getWalletData
            (updateDailyTransferStatus (disk (machine w)) now' addr date amount)
            later addr = Some record
          /\ todayTransfer record = Some true
          /\ lastTransferDate record = Some date
          /\ transferAmount record = Some amount).
Proof.
  intros privateKey w. split; [|split; [|split]]; cycle 3.
  - intros addr amount now' date later Hw.
    destruct (updateDailyTransferStatus_recorded (disk (machine w)) now' addr
                date amount later Hw) as (rec & Hget & Hdate & Hflag & Hamount).
    exists rec. auto.
  - intros addr. apply daily_transfer_recorded_today.
  - apply daily_transfer_run.
  - intros addr amount now' later Hk Hw Hdisk Hday.
    apply daily_transfer_recorded_today with (addr := addr); [exact Hk|].
    rewrite Hdisk, Hday.
    destruct (updateDailyTransferStatus_recorded (disk (machine w)) now' addr
                (isoDate (clock (ext (machine w)))) amount
                (clock (ext (machine later))) Hw)
      as (rec & Hget & Hdate & _).
    rewrite Hget. unfold transferredOn. rewrite Hdate. apply Z.eqb_refl.
Qed.

End DailyTransfer.

(** C1, witness: in the scripted world a first pass transfers and records;
    the theorem then makes the second pass of the day a no-op. *)
Lemma daily_transfer_once_per_day_witness :
  fst (checkAndPerformDailyTransfer "k" (scriptedWorld emptyStore)) = Returned true
  /\ transfersIn (trace (snd (checkAndPerformDailyTransfer "k"
                                (scriptedWorld emptyStore)))) = 1%nat
  /\ checkAndPerformDailyTransfer "k"
       (snd (checkAndPerformDailyTransfer "k" (scriptedWorld emptyStore)))
     = (Returned true,
        snd (checkAndPerformDailyTransfer "k" (scriptedWorld emptyStore))).
Proof.
  split; [reflexivity|]. split; [reflexivity|].
  apply (proj1 (proj2 (proj2 (daily_transfer_once_per_day "k"
                                (scriptedWorld emptyStore))))
           "0xAcck" 500 (atUTC 20000 10 0 0 + 3)
           (snd (checkAndPerformDailyTransfer "k" (scriptedWorld emptyStore))));
    reflexivity.
Defined.

(** C1, counterexample: two transfers executed on one UTC day.  On a
    medium that cannot be written the bookkeeping of the first pass is
    dropped, and a second pass of the same day transfers again.  On a
    writable medium, a pass that reads the date one millisecond before
    midnight of day 20000 submits its transfer after midnight and files it
    under day 20000; the next pass, on day 20001, transfers again: both
    transfers were submitted on day 20001. *)
Lemma daily_transfer_twice_in_a_day :
  (isoDate (clock (ext (machine (scriptedWorld readOnlyStore)))) = 20000
   /\ isoDate (clock (ext (machine (twoPasses "k" (scriptedWorld readOnlyStore)))))
      = 20000
   /\ transfersIn (trace (twoPasses "k" (scriptedWorld readOnlyStore))) = 2%nat)
  /\ (isoDate (clock (ext (machine (beforeMidnight emptyStore)))) = 20000
      /\ isoDate (clock (ext (machine (snd (getWETHBalanceViaRPC "0xAcck"
                                              (beforeMidnight emptyStore))))))
         = 20001
      /\ trace (snd (checkAndPerformDailyTransfer "k" (beforeMidnight emptyStore)))
         = [RpcBalanceRead "0xAcck" (Returned 1000); RandomDrawn 500;
            LedgerTransfer "k" 500 (Returned "0xhash");
            ReceiptAwaited "0xhash" (Returned ReceiptSuccess);
            RandomDrawn 30000; Slept 30000]
      /\ option_map lastTransferDate
           (getWalletData
              (disk (machine (snd (checkAndPerformDailyTransfer "k"
                                     (beforeMidnight emptyStore)))))
              0 "0xAcck")
         = Some (Some 20000)
      /\ isoDate (clock (ext (machine (snd (checkAndPerformDailyTransfer "k"
                                              (beforeMidnight emptyStore))))))
         = 20001
      /\ isoDate (clock (ext (machine (twoPasses "k" (beforeMidnight emptyStore)))))
         = 20001
      /\ transfersIn (trace (twoPasses "k" (beforeMidnight emptyStore))) = 2%nat).
Proof.
  repeat split; vm_compute; reflexivity.
Qed.

(** ** The spin loop *)

Section SpinLoop.
Context {Ext : Type} `{Collaborators Ext}.

Lemma spinLoop_unfold (fuel spinCount : nat) (addr : string) :
  spinLoop (S fuel) spinCount addr
  = if Nat.ltb spinCount maxSpins then
      bind (checkSpinsAvailableToday addr) (fun spinsAvailable =>
        if negb spinsAvailable then ret (Some tt)
        else
          bind (callBot BotSpin bot_spinWheel) (fun result =>
            if spin_success result then
              bind (callBot BotReload bot_reloadAndReconnect) (fun reloaded =>
                if negb reloaded then ret (Some tt)
                else
                  bind (callBot BotExtract bot_extractAndSaveWalletData) (fun _ =>
                    bind (sleep 3000) (fun _ =>
                      spinLoop fuel (S spinCount) addr)))
            else
              bind (callBot BotExtract bot_extractAndSaveWalletData) (fun _ =>
                ret (Some tt))))
    else ret (Some tt).
Proof.
  reflexivity.
Qed.

Lemma spinLoop_run (addr : string) :
  forall fuel spinCount (w : World Ext) r w',
    (spinCount <= maxSpins)%nat ->
    spinLoop fuel spinCount addr w = (r, w') ->
    exists evs,
      trace w' = trace w ++ evs
      /\ (spinsIn evs + spinCount <= maxSpins)%nat
      /\ ((maxSpins <= fuel + spinCount)%nat -> r <> Returned None)
      /\ ((maxSpins <= fuel + spinCount)%nat ->
          (spinsIn evs + spinCount < maxSpins)%nat ->
          stoppedEarly addr r w' evs).
Proof.
  induction fuel as [|fuel IH]; intros spinCount w r w' Hle Hrun.
  - exists []. simpl in Hrun. rewrite app_nil_r.
    destruct (Nat.ltb spinCount maxSpins) eqn:Hg;
      inversion Hrun; subst; clear Hrun.
    + apply Nat.ltb_lt in Hg. repeat split; simpl; try lia.
    + apply Nat.ltb_ge in Hg. repeat split; simpl; try lia. discriminate.
  - rewrite spinLoop_unfold in Hrun.
    destruct (Nat.ltb spinCount maxSpins) eqn:Hg.
    + apply Nat.ltb_lt in Hg.
      unfold bind, checkSpinsAvailableToday, query, callBot, sleep, ret in Hrun.
      simpl in Hrun.
      destruct (checkSpinsAvailable (disk (machine w)) (clock (ext (machine w))) addr)
        eqn:Hcheck; try rewrite Hcheck in Hrun; simpl in Hrun.
      * destruct (bot_spinWheel (machine w)) as [[res|e] m1] eqn:Hspin;
          try rewrite Hspin in Hrun; simpl in Hrun.
        -- destruct (spin_success res) eqn:Hok; simpl in Hrun.
           ++ destruct (bot_reloadAndReconnect m1) as [[reloaded|e] m2] eqn:Hreload;
                try rewrite Hreload in Hrun; simpl in Hrun.
              ** destruct reloaded; simpl in Hrun.
                 --- destruct (bot_extractAndSaveWalletData m2)
                       as [[[]|e] m3] eqn:Hextract;
                       try rewrite Hextract in Hrun; simpl in Hrun.
                     +++ apply IH in Hrun; [|lia].
                         destruct Hrun as (evs & Htrace & Hcount & Hfuel & Hstop).
                         simpl in Htrace.
                         exists ([BotSpin (Returned res); BotReload (Returned true);
                                  BotExtract (Returned tt); Slept 3000] ++ evs).
                         split; [rewrite Htrace; now rewrite <- !app_assoc|].
                         split; [unfold spinsIn in *; simpl; lia|].
                         split; [intros Hf; apply Hfuel; lia|].
                         intros Hf Hlt.
                         destruct Hstop as [Ht | [Hs | [Hfail | Hrel]]];
                           [lia | unfold spinsIn in *; simpl in Hlt; lia | | | |].
                         *** left. exact Ht.
                         *** right. left. exact Hs.
                         *** right. right. left.
                             destruct Hfail as (pre & res' & x & -> & Hres).
                             exists ([BotSpin (Returned res); BotReload (Returned true);
                                      BotExtract (Returned tt); Slept 3000] ++ pre),
                               res', x.
                             split; [now rewrite <- app_assoc | exact Hres].
                         *** right. right. right.
                             destruct Hrel as (pre & s & ->).
                             exists ([BotSpin (Returned res); BotReload (Returned true);
                                      BotExtract (Returned tt); Slept 3000] ++ pre), s.
                             now rewrite <- app_assoc.
                     +++ inversion Hrun; subst; clear Hrun. simpl.
                         exists [BotSpin (Returned res); BotReload (Returned true);
                                 BotExtract (Thrown e)].
                         split; [now rewrite <- !app_assoc|].
                         split; [unfold spinsIn; simpl; lia|].
                         split; [discriminate|]. intros _ _. left. eauto.
                 --- inversion Hrun; subst; clear Hrun. simpl.
                     exists [BotSpin (Returned res); BotReload (Returned false)].
                     split; [now rewrite <- !app_assoc|].
                     split; [unfold spinsIn; simpl; lia|].
                     split; [discriminate|]. intros _ _.
                     right. right. right. exists [], (Returned res). reflexivity.
              ** inversion Hrun; subst; clear Hrun. simpl.
                 exists [BotSpin (Returned res); BotReload (Thrown e)].
                 split; [now rewrite <- !app_assoc|].
                 split; [unfold spinsIn; simpl; lia|].
                 split; [discriminate|]. intros _ _. left. eauto.
           ++ destruct (bot_extractAndSaveWalletData m1) as [[[]|e] m2] eqn:Hextract;
                try rewrite Hextract in Hrun; simpl in Hrun;
                inversion Hrun; subst; clear Hrun; simpl.
              ** exists [BotSpin (Returned res); BotExtract (Returned tt)].
                 split; [now rewrite <- !app_assoc|].
                 split; [unfold spinsIn; simpl; lia|].
                 split; [discriminate|]. intros _ _.
                 right. right. left. exists [], res, (Returned tt). auto.
              ** exists [BotSpin (Returned res); BotExtract (Thrown e)].
                 split; [now rewrite <- !app_assoc|].
                 split; [unfold spinsIn; simpl; lia|].
                 split; [discriminate|]. intros _ _. left. eauto.
        -- inversion Hrun; subst; clear Hrun. simpl.
           exists [BotSpin (Thrown e)].
           split; [reflexivity|].
           split; [unfold spinsIn; simpl; lia|].
           split; [discriminate|]. intros _ _. left. eauto.
      * inversion Hrun; subst; clear Hrun.
        exists []. rewrite app_nil_r.
        split; [reflexivity|]. split; [simpl; lia|].
        split; [discriminate|]. intros _ _. right. left. exact Hcheck.
    + apply Nat.ltb_ge in Hg. inversion Hrun; subst; clear Hrun.
      exists []. rewrite app_nil_r.
      split; [reflexivity|]. split; [simpl; lia|].
      split; [discriminate|]. intros _ Hlt. simpl in Hlt. lia.
Qed.

Lemma spinLoop_halts (addr : string) :
  forall fuel spinCount (w : World Ext) r w',
    spinLoop fuel spinCount addr w = (r, w') ->
    exists evs, trace w' = trace w ++ evs /\ haltsOnFailure evs = true.
Proof.
  induction fuel as [|fuel IH]; intros spinCount w r w' Hrun.
  - exists []. simpl in Hrun. rewrite app_nil_r.
    destruct (Nat.ltb spinCount maxSpins); inversion Hrun; auto.
  - rewrite spinLoop_unfold in Hrun.
    destruct (Nat.ltb spinCount maxSpins);
      [|inversion Hrun; exists []; rewrite app_nil_r; auto].
    unfold bind, checkSpinsAvailableToday, query, callBot, sleep, ret in Hrun.
    simpl in Hrun.
    destruct (checkSpinsAvailable (disk (machine w)) (clock (ext (machine w))) addr);
      simpl in Hrun;
      [|inversion Hrun; exists []; rewrite app_nil_r; auto].
    destruct (bot_spinWheel (machine w)) as [[res|e] m1]; simpl in Hrun;
      [|inversion Hrun; exists [BotSpin (Thrown e)]; auto].
    destruct (spin_success res) eqn:Hok; simpl in Hrun.
    + destruct (bot_reloadAndReconnect m1) as [[reloaded|e] m2]; simpl in Hrun;
        [|inversion Hrun; simpl;
          exists [BotSpin (Returned res); BotReload (Thrown e)];
          rewrite <- app_assoc; simpl; rewrite Hok; auto].
      destruct reloaded; simpl in Hrun;
        [|inversion Hrun; simpl;
          exists [BotSpin (Returned res); BotReload (Returned false)];
          rewrite <- app_assoc; simpl; rewrite Hok; auto].
      destruct (bot_extractAndSaveWalletData m2) as [[[]|e] m3]; simpl in Hrun;
        [|inversion Hrun; simpl;
          exists [BotSpin (Returned res); BotReload (Returned true);
                  BotExtract (Thrown e)];
          rewrite <- !app_assoc; simpl; rewrite Hok; auto].
      apply IH in Hrun. destruct Hrun as (evs & Htrace & Hhalts). simpl in Htrace.
      exists ([BotSpin (Returned res); BotReload (Returned true);
               BotExtract (Returned tt); Slept 3000] ++ evs).
      split; [rewrite Htrace; now rewrite <- !app_assoc|].
      simpl. now rewrite Hok.
    + destruct (bot_extractAndSaveWalletData m1) as [[[]|e] m2]; simpl in Hrun;
        inversion Hrun; simpl.
      * exists [BotSpin (Returned res); BotExtract (Returned tt)].
        rewrite <- app_assoc. simpl. rewrite Hok. auto.
      * exists [BotSpin (Returned res); BotExtract (Thrown e)].
        rewrite <- app_assoc. simpl. rewrite Hok. auto.
Qed.

(** C9.  [performAllAvailableSpins] always ends, whatever the robot and
    the store do: unrolling the loop [maxSpins] times is enough, and it
    spins the wheel at most [maxSpins] = 10 times.  At any turn of the
    loop, a store that reports no spin ends it at once; no spin follows a
    failed spin or a failed reload; and a run that spins fewer than 10
    times ended because a collaborator threw, or the store reported no
    spin left, or a spin failed, or the page could not be reloaded. *)
Theorem spin_loop_bounded :
  forall (addr : string) (w : World Ext),
    exists evs,
      trace (snd (performAllAvailableSpins addr w)) = trace w ++ evs
      /\ (spinsIn evs <= maxSpins)%nat
      /\ maxSpins = 10%nat
      /\ (forall e, fst (spinLoop maxSpins 0 addr w) = Returned e -> e = Some tt)
      /\ (forall fuel spinCount (turn : World Ext),
            checkSpinsAvailable (disk (machine turn)) (clock (ext (machine turn)))
              addr = false ->
            spinLoop (S fuel) spinCount addr turn = (Returned (Some tt), turn))
      /\ (checkSpinsAvailable (disk (machine w)) (clock (ext (machine w))) addr
          = false ->
          performAllAvailableSpins addr w = (Returned tt, w))
      /\ haltsOnFailure evs = true
      /\ ((spinsIn evs < maxSpins)%nat ->
          stoppedEarly addr (fst (spinLoop maxSpins 0 addr w))
            (snd (performAllAvailableSpins addr w)) evs).
Proof.
  intros addr w.
  assert (Hturn : forall fuel spinCount (turn : World Ext),
             checkSpinsAvailable (disk (machine turn)) (clock (ext (machine turn)))
               addr = false ->
             spinLoop (S fuel) spinCount addr turn = (Returned (Some tt), turn)).
  { intros fuel spinCount turn Hcheck. rewrite spinLoop_unfold.
    destruct (Nat.ltb spinCount maxSpins); [|reflexivity].
    unfold bind, checkSpinsAvailableToday, query, ret. now rewrite Hcheck. }
  destruct (spinLoop maxSpins 0 addr w) as [r w'] eqn:Hrun.
  destruct (spinLoop_run addr maxSpins 0%nat w r w' (Nat.le_0_l _) Hrun)
    as (evs & Htrace & Hcount & Hfuel & Hstop).
  destruct (spinLoop_halts addr maxSpins 0%nat w r w' Hrun)
    as (evs' & Htrace' & Hhalts).
  assert (evs' = evs) as ->.
  { rewrite Htrace in Htrace'. now apply app_inv_head in Htrace'. }
  assert (Hsnd : snd (performAllAvailableSpins addr w) = w').
  { unfold performAllAvailableSpins, bind, ret. rewrite Hrun.
    destruct r; reflexivity. }
  exists evs. rewrite Hsnd. simpl.
  split; [exact Htrace|]. split; [lia|]. split; [reflexivity|].
  split; [|split; [exact Hturn|split; [|split; [exact Hhalts|]]]].
  - intros e He. subst r. destruct e as [[]|]; [reflexivity|].
    exfalso. apply Hfuel; [lia | reflexivity].
  - intros Hcheck. unfold performAllAvailableSpins, bind, ret.
    change maxSpins with 10%nat. now rewrite (Hturn 9%nat 0%nat w Hcheck).
  - intros Hlt. apply Hstop; lia.
Qed.

End SpinLoop.

(** C9, witness: in the scripted world the robot never updates the store,
    so the check for spins stays true for ever; the loop spins ten times. *)
Lemma spin_loop_bounded_witness :
  spinsIn (trace (snd (performAllAvailableSpins "0xabc" (scriptedWorld spinsLeft))))
  = 10%nat
  /\ exists evs,
      trace (snd (performAllAvailableSpins "0xabc" (scriptedWorld spinsLeft)))
      = trace (scriptedWorld spinsLeft) ++ evs
      /\ (spinsIn evs <= maxSpins)%nat.
Proof.
  split; [reflexivity|].
  destruct (spin_loop_bounded "0xabc" (scriptedWorld spinsLeft))
    as (evs & Htrace & Hcount & _).
  exists evs. split; assumption.
Defined.

(** ** The planner *)

Section Planner.
Context {Ext : Type} `{Collaborators Ext}.

Lemma adds_ret P {A : Type} (a : A) : adds Ext P (ret a).
Proof.
  intros w. exists []. simpl. now rewrite app_nil_r.
Qed.

Lemma adds_bind P {A B : Type} (c : Run Ext A) (k : A -> Run Ext B) :
  adds Ext P c -> (forall a, adds Ext P (k a)) -> adds Ext P (bind c k).
Proof.
  intros Hc Hk w. unfold bind. destruct (Hc w) as (evs & Ht & Hp).
  destruct (c w) as [[a|e] w1]; simpl in *.
  - destruct (Hk a w1) as (evs' & Ht' & Hp').
    exists (evs ++ evs'). rewrite Ht', Ht, app_assoc.
    split; [reflexivity | now apply Forall_app].
  - exists evs. auto.
Qed.

Lemma adds_tryCatchM P {A : Type} (c : Run Ext A) (h : Error -> Run Ext A) :
  adds Ext P c -> (forall e, adds Ext P (h e)) -> adds Ext P (tryCatchM c h).
Proof.
  intros Hc Hh w. unfold tryCatchM. destruct (Hc w) as (evs & Ht & Hp).
  destruct (c w) as [[a|e] w1]; simpl in *.
  - exists evs. auto.
  - destruct (Hh e w1) as (evs' & Ht' & Hp').
    exists (evs ++ evs'). rewrite Ht', Ht, app_assoc.
    split; [reflexivity | now apply Forall_app].
Qed.

Lemma adds_silent P {A : Type} (c : Run Ext A) :
  (forall w, trace (snd (c w)) = trace w) -> adds Ext P c.
Proof.
  intros Hc w. exists []. rewrite Hc, app_nil_r. auto.
Qed.

Lemma adds_callExt P {A : Type} (ev : Outcome A -> Event) f :
  (forall r, P (ev r)) -> adds Ext P (callExt ev f).
Proof.
  intros Hev w. unfold callExt. destruct (f (ext (machine w))) as [r e]. simpl.
  exists [ev r]. auto.
Qed.

Lemma adds_draw P f : (forall v, P (RandomDrawn v)) -> adds Ext P (draw f).
Proof.
  intros Hev w. unfold draw. destruct (f (ext (machine w))) as [v e]. simpl.
  exists [RandomDrawn v]. auto.
Qed.

Lemma adds_sleep P ms : P (Slept ms) -> adds Ext P (sleep ms).
Proof.
  intros Hev w. exists [Slept ms]. auto.
Qed.

Ltac adds_step :=
  first
    [ apply adds_ret
    | apply adds_bind; [|intros]
    | apply adds_tryCatchM; [|intros]
    | apply adds_callExt; intros; reflexivity
    | apply adds_draw; intros; reflexivity
    | apply adds_sleep; reflexivity
    | apply adds_silent; intros; reflexivity
    | match goal with
      | |- adds _ _ (match ?x with _ => _ end) => destruct x
      end ].

Lemma getWETHBalanceViaRPC_notBot addr : adds Ext notBot (getWETHBalanceViaRPC addr).
Proof.
  unfold getWETHBalanceViaRPC. repeat adds_step.
Qed.

Lemma delay_notBot : adds Ext notBot delayAfterSuccessfulTransaction.
Proof.
  unfold delayAfterSuccessfulTransaction. repeat adds_step.
Qed.

Lemma pollNewBalance_notBot addr :
  forall n last, adds Ext notBot (pollNewBalance addr n last).
Proof.
  induction n as [|n IH]; intros last; simpl.
  - apply adds_ret.
  - apply adds_bind; [apply getWETHBalanceViaRPC_notBot|]. intros read.
    destruct (positiveBalance read); [apply adds_ret|].
    apply adds_bind; [|intros; apply IH].
    destruct n; repeat adds_step.
Qed.

Lemma checkAndDepositWETH_notBot key : adds Ext notBot (checkAndDepositWETH key).
Proof.
  unfold checkAndDepositWETH, performWETHDeposit.
  repeat first
    [ apply getWETHBalanceViaRPC_notBot
    | apply delay_notBot
    | apply pollNewBalance_notBot
    | adds_step ].
Qed.

Lemma checkAndPerformDailyTransfer_notBot key :
  adds Ext notBot (checkAndPerformDailyTransfer key).
Proof.
  unfold checkAndPerformDailyTransfer, performWETHTransfer.
  repeat first
    [ apply getWETHBalanceViaRPC_notBot
    | apply delay_notBot
    | adds_step ].
Qed.

Lemma resetDailyTransferFlag_same_day (store : Store) now addr r :
  getWalletData store now addr = Some r ->
  lastTransferDate r = Some (isoDate now) ->
  resetDailyTransferFlagIfNewDay store now addr = store.
Proof.
  intros Hget Hdate. unfold resetDailyTransferFlagIfNewDay.
  change (getWalletDataSync store now addr) with (getWalletData store now addr).
  rewrite Hget, Hdate. simpl. now rewrite Z.eqb_refl.
Qed.

Lemma planAndDispatch_fully_completed addr dtr (f : Frame Ext) r :
  getWalletData (disk (machine (world f))) (clock (ext (machine (world f)))) addr
  = Some r ->
  lastTransferDate r = Some (isoDate (clock (ext (machine (world f))))) ->
  spinsAvailable r = Some 0 ->
  shouldRefreshSpinsForNewDay (disk (machine (world f)))
    (clock (ext (machine (world f)))) (clock (ext (machine (world f)))) addr
  = false ->
  planAndDispatch addr dtr f
  = (Returned (Some (mkWalletStatus (positiveBalance (wethBalance r))
                       true false false)),
     mkFrame (world f)
       (mkLocals
          (mkWalletStatus (positiveBalance (wethBalance r)) dtr false
             (spinsPerformed (flags (locals f))))
          (bot (locals f)))).
Proof.
  destruct f as [[[store e] tr] [[f1 f2 f3 f4] b]]. simpl.
  intros Hget Hdate Hspins Hrefresh.
  assert (Hcheck : checkSpinsAvailable store (clock e) addr = false).
  { unfold checkSpinsAvailable. now rewrite Hget, Hspins. }
  pose proof (resetDailyTransferFlag_same_day store (clock e) addr r Hget Hdate)
    as Hreset.
  unfold planAndDispatch, bind, inWorld, query, assign, modify, update, newDate,
    currentFlags, ret, checkSpinsAvailableToday.
  simpl. rewrite Hget. simpl.
  destruct (fullData r); simpl; rewrite ?Hcheck; simpl;
    destruct (isNewDayForWallet store (clock e) addr); simpl;
    rewrite ?Hreset, Hrefresh; unfold transferredOn, walletFullyCompletedToday;
    rewrite Hdate, Hspins, Z.eqb_refl; reflexivity.
Qed.

(** C4.  A pass of [processWallet] that, once the two daily checks are
    done, finds a record whose [lastTransferDate] is today's UTC date,
    whose [spinsAvailable] is exactly 0 and for which
    [shouldRefreshSpinsForNewDay] is false, returns at once with
    [dailyTransferCompleted] true, [hasAvailableSpins] false and
    [spinsPerformed] false.  Nothing happens after the daily checks (the
    world is left as they left it), and in the whole pass no browser
    session is created and no method of the robot is called. *)
Theorem fully_completed_wallet_skipped :
  forall (privateKey addr : string) (f : Frame Ext) (w0 w1 w2 : World Ext)
         (deposited transferred : bool) (r : WalletData),
    createWalletConfig privateKey = Returned addr ->
    newWalletDatabase (world f) = (Returned tt, w0) ->
    checkAndDepositWETH privateKey w0 = (Returned deposited, w1) ->
    checkAndPerformDailyTransfer privateKey w1 = (Returned transferred, w2) ->
    getWalletData (disk (machine w2)) (clock (ext (machine w2))) addr = Some r ->
    lastTransferDate r = Some (isoDate (clock (ext (machine w2)))) ->
    spinsAvailable r = Some 0 ->
    shouldRefreshSpinsForNewDay (disk (machine w2)) (clock (ext (machine w2)))
      (clock (ext (machine w2))) addr = false ->
    fst (processWallet privateKey f)
    = Returned (mkWalletStatus (positiveBalance (wethBalance r)) true false false)
    /\ world (snd (processWallet privateKey f)) = w2
    /\ bot (locals (snd (processWallet privateKey f))) = false
    /\ exists evs,
        trace (world (snd (processWallet privateKey f))) = trace (world f) ++ evs
        /\ Forall (fun ev => isBotEvent ev = false) evs.
Proof.
  intros privateKey addr f w0 w1 w2 deposited transferred r
    Hcfg Hdb Hdep Htr Hget Hdate Hspins Hrefresh.
  assert (Hrun : processWallet privateKey f
                 = (Returned (mkWalletStatus (positiveBalance (wethBalance r))
                                true false false),
                    mkFrame w2
                      (mkLocals
                         (mkWalletStatus (positiveBalance (wethBalance r))
                            transferred false false)
                         false))).
  { unfold processWallet, bind, inWorld, lift, modify, tryFinally, tryCatchM,
      closeBrowser, ret.
    rewrite Hcfg. simpl. rewrite Hdb. simpl. rewrite Hdep. simpl.
    rewrite Htr. simpl.
    rewrite (planAndDispatch_fully_completed addr transferred
               (mkFrame w2 (mkLocals (mkWalletStatus false false false false) false))
               r Hget Hdate Hspins Hrefresh).
    reflexivity. }
  rewrite Hrun. simpl. repeat split.
  destruct (checkAndDepositWETH_notBot privateKey w0) as (evs1 & Ht1 & Hp1).
  destruct (checkAndPerformDailyTransfer_notBot privateKey w1) as (evs2 & Ht2 & Hp2).
  rewrite Hdep in Ht1. rewrite Htr in Ht2. simpl in Ht1, Ht2.
  assert (Htrace0 : trace w0 = trace (world f)).
  { unfold newWalletDatabase in Hdb.
    destruct (ensureDatabaseExists (disk (machine (world f)))
                (clock (ext (machine (world f))))); inversion Hdb; reflexivity. }
  exists (evs1 ++ evs2). split.
  - now rewrite Ht2, Ht1, Htrace0, app_assoc.
  - apply Forall_app. split; assumption.
Qed.

Lemma performAllAvailableSpins_trace addr (w : World Ext) :
  exists evs, trace (snd (performAllAvailableSpins addr w)) = trace w ++ evs.
Proof.
  destruct (spinLoop maxSpins 0 addr w) as [r w'] eqn:Hrun.
  destruct (spinLoop_run addr maxSpins 0%nat w r w' (Nat.le_0_l _) Hrun)
    as (evs & Htrace & _).
  exists evs. unfold performAllAvailableSpins, bind, ret. rewrite Hrun.
  destruct r; exact Htrace.
Qed.

Lemma planAndDispatch_absent addr dtr (f : Frame Ext) :
  getWalletData (disk (machine (world f))) (clock (ext (machine (world f)))) addr
  = None ->
  planAndDispatch addr dtr f = refreshThenDecide addr (afterReadingNothing dtr f).
Proof.
  destruct f as [[[store e] tr] [[f1 f2 f3 f4] b]]. simpl. intros Hget.
  unfold planAndDispatch, bind, inWorld, query, assign, modify, update, newDate,
    currentFlags, ret, afterReadingNothing.
  simpl. rewrite Hget. reflexivity.
Qed.

Lemma refreshThenDecide_run addr (f : Frame Ext) :
  existsSync (disk (machine (world f))) = true ->
  exists init m1 rest,
    bot_initialize (machine (world f)) = (init, m1)
    /\ trace (world (snd (refreshThenDecide addr f)))
       = trace (world f) ++ BotCreated :: BotInitialize init :: rest
    /\ bot (locals (snd (refreshThenDecide addr f))) = true
    /\ (forall e,
          init = Thrown e ->
          rest = [] /\ fst (refreshThenDecide addr f) = Thrown e)
    /\ (init = Returned tt ->
        exists connected m2 after,
          bot_connectToLineaRewards m1 = (connected, m2)
          /\ rest = BotConnect connected :: after
          /\ (connected <> Returned true -> after = [])
          /\ (checkSpinsAvailable (disk m2) (clock (ext m2)) addr = false ->
              after = [])
          /\ ((0 < spinsIn after)%nat ->
              connected = Returned true
              /\ checkSpinsAvailable (disk m2) (clock (ext m2)) addr = true)).
Proof.
  destruct f as [[[store e] tr] [fl b]]. simpl. intros Hexists.
  unfold refreshThenDecide, newLineaSpinWheelBot, newWalletDatabase,
    ensureDatabaseExists, returnNotConnected, bind, inWorld, callBot, modify,
    assign, currentFlags, ret, checkSpinsAvailableToday, query.
  simpl. rewrite Hexists. simpl.
  destruct (bot_initialize {| disk := store; ext := e |}) as [[[]|err] m1] eqn:Hinit;
    simpl.
  - destruct (bot_connectToLineaRewards m1) as [[connected|err] m2] eqn:Hconn;
      simpl.
    + destruct connected; simpl.
      * destruct (checkSpinsAvailable (disk m2) (clock (ext m2)) addr) eqn:Hcheck;
          simpl.
        -- destruct (performAllAvailableSpins_trace addr
                       {| machine := m2;
                          trace := ((tr ++ [BotCreated])
                                    ++ [BotInitialize (Returned tt)])
                                   ++ [BotConnect (Returned true)] |})
             as (evs & Htrace).
           destruct (performAllAvailableSpins addr _) as [[[]|err] w']; simpl in *.
           ++ exists (Returned tt), m1, (BotConnect (Returned true) :: evs).
              rewrite Htrace, <- !app_assoc. simpl.
              split; [reflexivity|]. split; [reflexivity|]. split; [reflexivity|].
              split; [discriminate|]. intros _.
              exists (Returned true), m2, evs.
              split; [exact Hconn|]. split; [reflexivity|].
              split; [congruence|]. split; [congruence|]. auto.
           ++ exists (Returned tt), m1, (BotConnect (Returned true) :: evs).
              rewrite Htrace, <- !app_assoc. simpl.
              split; [reflexivity|]. split; [reflexivity|]. split; [reflexivity|].
              split; [discriminate|]. intros _.
              exists (Returned true), m2, evs.
              split; [exact Hconn|]. split; [reflexivity|].
              split; [congruence|]. split; [congruence|]. auto.
        -- exists (Returned tt), m1, [BotConnect (Returned true)].
           rewrite <- !app_assoc. simpl.
           split; [reflexivity|]. split; [reflexivity|]. split; [reflexivity|].
           split; [discriminate|]. intros _.
           exists (Returned true), m2, [].
           split; [exact Hconn|]. split; [reflexivity|].
           split; [reflexivity|]. split; [reflexivity|].
           unfold spinsIn. simpl. lia.
      * exists (Returned tt), m1, [BotConnect (Returned false)].
        rewrite <- !app_assoc. simpl.
        split; [reflexivity|]. split; [reflexivity|]. split; [reflexivity|].
        split; [discriminate|]. intros _.
        exists (Returned false), m2, [].
        split; [exact Hconn|]. split; [reflexivity|].
        split; [reflexivity|]. split; [reflexivity|].
        unfold spinsIn. simpl. lia.
    + exists (Returned tt), m1, [BotConnect (Thrown err)].
      rewrite <- !app_assoc. simpl.
      split; [reflexivity|]. split; [reflexivity|]. split; [reflexivity|].
      split; [discriminate|]. intros _.
      exists (Thrown err), m2, [].
      split; [exact Hconn|]. split; [reflexivity|].
      split; [reflexivity|]. split; [reflexivity|].
      unfold spinsIn. simpl. lia.
  - exists (Thrown err), m1, [].
    rewrite <- !app_assoc. simpl.
    split; [reflexivity|]. split; [reflexivity|]. split; [reflexivity|].
    split; [|discriminate].
    intros e' He. inversion He; subst. split; reflexivity.
Qed.

(** C5.  When no record is found for the wallet at planning time, none of
    the fully-completed skip, the refresh of a known wallet and the
    cached-spins branch can fire, whatever the other flags are, and the
    dispatch is the refresh branch.  With the database file in place that
    branch builds the robot and initialises it; when the initialisation
    throws, nothing else is done and the exception leaves the dispatch;
    when it returns, the next event is the connection to the site, whose
    page read fills the store: the live read is then always attempted.  Nothing
    follows a connection that did not succeed, nor one after which the
    store reports no spin; the wheel is spun only after a successful
    connection once the store reports a spin. *)
Theorem absent_record_refreshes :
  forall (addr : string) (dailyTransferResult : bool) (f : Frame Ext),
    getWalletData (disk (machine (world f))) (clock (ext (machine (world f)))) addr
    = None ->
    (forall isNewDay hasFullData doneToday shouldRefresh,
        walletFullyCompletedToday None doneToday shouldRefresh = false
        /\ refreshKnownWallet None isNewDay hasFullData doneToday shouldRefresh
           = false
        /\ useCachedSpins None isNewDay hasFullData shouldRefresh = false)
    /\ planAndDispatch addr dailyTransferResult f
       = refreshThenDecide addr (afterReadingNothing dailyTransferResult f)
    /\ (existsSync (disk (machine (world f))) = true ->
        exists init m1 rest,
          bot_initialize (machine (world f)) = (init, m1)
          /\ trace (world (snd (planAndDispatch addr dailyTransferResult f)))
             = trace (world f) ++ BotCreated :: BotInitialize init :: rest
          /\ (forall e,
                init = Thrown e ->
                rest = []
                /\ fst (planAndDispatch addr dailyTransferResult f) = Thrown e)
          /\ (init = Returned tt ->
              exists connected m2 after,
                bot_connectToLineaRewards m1 = (connected, m2)
                /\ rest = BotConnect connected :: after
                /\ (connected <> Returned true -> after = [])
                /\ (checkSpinsAvailable (disk m2) (clock (ext m2)) addr = false ->
                    after = [])
                /\ ((0 < spinsIn after)%nat ->
                    connected = Returned true
                    /\ checkSpinsAvailable (disk m2) (clock (ext m2)) addr
                       = true))).
Proof.
  intros addr dtr f Hget. split; [|split].
  - intros. repeat split.
  - now apply planAndDispatch_absent.
  - intros Hexists. rewrite (planAndDispatch_absent addr dtr f Hget).
    destruct (refreshThenDecide_run addr (afterReadingNothing dtr f) Hexists)
      as (init & m1 & rest & Hinit & Htrace & _ & Hthrown & Hconnect).
    exists init, m1, rest. auto.
Qed.

End Planner.

(** C4, witness: the scripted pass over a wallet that is done for the day. *)
Lemma fully_completed_wallet_skipped_witness :
  fst (processWallet "k" (freshFrame completedStore))
  = Returned (mkWalletStatus true true false false)
  /\ bot (locals (snd (processWallet "k" (freshFrame completedStore)))) = false.
Proof.
  destruct (fully_completed_wallet_skipped "k" "0xAcck"
              (freshFrame completedStore)
              (scriptedWorld completedStore)
              (snd (checkAndDepositWETH "k" (scriptedWorld completedStore)))
              (snd (checkAndDepositWETH "k" (scriptedWorld completedStore)))
              true true
              (mkWalletData "0xAcck" None (Some 1000) None
                 (Some (atUTC 20000 9 0 0)) (Some (atUTC 20000 9 0 0))
                 (Some 0) (Some 1) (Some 3) None None (Some true) (Some 20000)
                 (Some 400) (Some (atUTC 20000 9 0 0))))
    as (Hresult & _ & Hbot & _); try reflexivity.
  split; assumption.
Defined.

(** C5, witness: the scripted pass over an empty store builds the robot,
    initialises it and goes on to the connection. *)
Lemma absent_record_refreshes_witness :
  exists connected after,
    trace (world (snd (planAndDispatch "0xAcck" false (freshFrame emptyStore))))
    = BotCreated :: BotInitialize (Returned tt) :: BotConnect connected :: after.
Proof.
  destruct (proj2 (proj2 (absent_record_refreshes "0xAcck" false
                            (freshFrame emptyStore) eq_refl)) eq_refl)
    as (init & m1 & rest & Hinit & Htrace & _ & Hconnect).
  assert (Hreturned : init = Returned tt) by (inversion Hinit; reflexivity).
  destruct (Hconnect Hreturned) as (connected & m2 & after & _ & Hrest & _).
  exists connected, after. rewrite Htrace, Hreturned, Hrest. reflexivity.
Defined.

(** ** Secrets at rest *)

Lemma split_app_sep sep s t :
  occurs sep s = false ->
  split sep (String.append s (String sep t)) = s :: split sep t.
Proof.
  induction s as [|c s IH]; simpl; intros Hs.
  - now rewrite Ascii.eqb_refl.
  - apply orb_false_iff in Hs as [Hc Hs]. rewrite Hc, (IH Hs). reflexivity.
Qed.

Lemma split_no_sep sep s : occurs sep s = false -> split sep s = [s].
Proof.
  induction s as [|c s IH]; simpl; intros Hs.
  - reflexivity.
  - apply orb_false_iff in Hs as [Hc Hs]. rewrite Hc, (IH Hs). reflexivity.
Qed.

Lemma split_join sep (l : list string) :
  l <> [] ->
  Forall (fun s => occurs sep s = false) l ->
  split sep (join (String sep EmptyString) l) = l.
Proof.
  induction l as [|x l IH]; intros Hne Hall; [congruence|].
  inversion Hall as [|? ? Hx Hl]; subst.
  destruct l as [|y l].
  - simpl. now apply split_no_sep.
  - change (join (String sep EmptyString) (x :: y :: l))
      with (String.append x (String sep (join (String sep EmptyString) (y :: l)))).
    rewrite split_app_sep by exact Hx.
    rewrite IH; [reflexivity | discriminate | exact Hl].
Qed.

Lemma filter_keeps_all {A : Type} (p : A -> bool) (l : list A) :
  Forall (fun x => p x = true) l -> List.filter p l = l.
Proof.
  induction 1 as [|x l Hx Hl IH]; simpl; [reflexivity|].
  now rewrite Hx, IH.
Qed.

Lemma fromHex_toHex bytes : fromHex (toHex bytes) = bytes.
Proof.
  induction bytes as [|c rest IH]; [reflexivity|].
  change (toHex (String c rest))
    with (String (hexDigit (nat_of_ascii c / 16))
            (String (hexDigit (nat_of_ascii c mod 16)) (toHex rest))).
  change (fromHex (String (hexDigit (nat_of_ascii c / 16))
                     (String (hexDigit (nat_of_ascii c mod 16)) (toHex rest))))
    with (match hexValue (hexDigit (nat_of_ascii c / 16)),
                hexValue (hexDigit (nat_of_ascii c mod 16)) with
          | Some x, Some y => String (ascii_of_nat (16 * x + y)) (fromHex (toHex rest))
          | _, _ => EmptyString
          end).
  rewrite IH.
  destruct c as [[] [] [] [] [] [] [] []]; reflexivity.
Qed.

Lemma toHex_no_colon bytes : occurs ":"%char (toHex bytes) = false.
Proof.
  induction bytes as [|c rest IH]; [reflexivity|].
  change (occurs ":"%char (toHex (String c rest)))
    with (Ascii.eqb (hexDigit (nat_of_ascii c / 16)) ":"%char
          || (Ascii.eqb (hexDigit (nat_of_ascii c mod 16)) ":"%char
              || occurs ":"%char (toHex rest))).
  rewrite IH.
  destruct c as [[] [] [] [] [] [] [] []]; reflexivity.
Qed.

Lemma toHex_nonempty bytes : bytes <> EmptyString -> falsy (Some (toHex bytes)) = false.
Proof.
  destruct bytes; [congruence | reflexivity].
Qed.

Section KeyEncryptionRun.
Context {C : Crypto}.

Lemma decryptKeysBody_of_stored password salt iv ciphertext :
  iv <> EmptyString ->
  ciphertext <> EmptyString ->
  decryptKeysBody password
    (mkKeyFiles
       (Some (String.append (toHex iv) (String ":"%char (toHex ciphertext))))
       (Some (toHex salt)) true)
  = andThen
      (decipherBytes (deriveKey password salt) iv ciphertext)
      (fun decrypted =>
         Returned (List.filter (fun key => negb (trimsToEmpty key))
                               (split "010"%char decrypted))).
Proof.
  intros Hiv Hc. unfold decryptKeysBody. cbn [encryptedFile saltFile].
  rewrite split_app_sep by apply toHex_no_colon.
  rewrite split_no_sep by apply toHex_no_colon. cbn [nth_error].
  rewrite (toHex_nonempty iv Hiv).
  rewrite (toHex_nonempty _ Hc). cbn [orb].
  now rewrite !fromHex_toHex.
Qed.

Lemma lines_of_joined (privateKeys : list string) :
  Forall (fun s => trimsToEmpty s = false /\ occurs "010"%char s = false)
         privateKeys ->
  List.filter (fun key => negb (trimsToEmpty key))
    (split "010"%char (join (String "010"%char EmptyString) privateKeys))
  = privateKeys.
Proof.
  intros Hall. destruct privateKeys as [|x l] eqn:Hl; [reflexivity|].
  rewrite <- Hl in *. rewrite split_join.
  - apply filter_keeps_all. eapply Forall_impl; [|exact Hall].
    intros s [Hs _]. now rewrite Hs.
  - subst. discriminate.
  - eapply Forall_impl; [|exact Hall]. intros s [_ Hs]. exact Hs.
Qed.

(** C8, as amended.  Strings are well-formed texts, held as their UTF-8
    bytes.  Take writable files, a non-empty initialisation vector and a
    list of secrets whose lines the cipher, under the key derived from the
    password, turns into some bytes and back into the same text.  Then
    [encryptKeys] stores them, and [decryptKeys] under the same password
    yields the original list, in order, provided no secret contains a line
    feed and none is empty or made of white space only.  Under any other
    password the outcome of [decryptKeys] is decided by the decipher alone,
    the code having no check of its own: when [final] rejects the padding
    found under the other key, the wrong-password error is thrown; when it
    accepts it, the non-blank lines of whatever was deciphered are
    returned.  No other error ever leaves [decryptKeys]. *)
Theorem secrets_roundtrip :
  forall (privateKeys : list string) (password salt iv : string) (files : KeyFiles),
    keyFilesWritable files = true ->
    iv <> EmptyString ->
    cipherBytes (deriveKey password salt) iv
      (join (String "010"%char EmptyString) privateKeys) <> EmptyString ->
    decipherBytes (deriveKey password salt) iv
      (cipherBytes (deriveKey password salt) iv
         (join (String "010"%char EmptyString) privateKeys))
    = Returned (join (String "010"%char EmptyString) privateKeys) ->
    exists stored,
      encryptKeys privateKeys password salt iv files = Returned stored
      /\ (Forall (fun s => trimsToEmpty s = false /\ occurs "010"%char s = false)
                 privateKeys ->
          decryptKeys password stored = Returned privateKeys)
      /\ (forall other,
            decryptKeys other stored
            = match
                decipherBytes (deriveKey other salt) iv
                  (cipherBytes (deriveKey password salt) iv
                     (join (String "010"%char EmptyString) privateKeys))
              with
              | Returned deciphered =>
                  Returned (List.filter (fun key => negb (trimsToEmpty key))
                                        (split "010"%char deciphered))
              | Thrown _ => Thrown wrongPassword
              end)
      /\ (forall other anyFiles e,
            decryptKeys other anyFiles = Thrown e -> e = wrongPassword).
Proof.
  intros privateKeys password salt iv files Hw Hiv Hc Hback.
  unfold encryptKeys. rewrite Hw. eexists. split; [reflexivity|].
  split; [|split].
  - intros Hall. unfold decryptKeys.
    rewrite decryptKeysBody_of_stored by assumption.
    rewrite Hback. simpl. now rewrite lines_of_joined.
  - intros other. unfold decryptKeys.
    rewrite decryptKeysBody_of_stored by assumption.
    destruct (decipherBytes (deriveKey other salt) iv _); reflexivity.
  - intros other anyFiles e. unfold decryptKeys.
    destruct (decryptKeysBody other anyFiles); intros Heq; inversion Heq.
    reflexivity.
Qed.

End KeyEncryptionRun.

Section KeyEncryptionProperties.
Context {C : Crypto} {laws : CryptoLaws C}.

Lemma decryptKeys_of_encrypted password key_password salt iv plain :
  iv <> EmptyString ->
  decryptKeysBody password
    (mkKeyFiles
       (Some (String.append (toHex iv)
                (String ":"%char
                   (toHex (cipherBytes (deriveKey key_password salt) iv plain)))))
       (Some (toHex salt)) true)
  = andThen
      (decipherBytes (deriveKey password salt) iv
         (cipherBytes (deriveKey key_password salt) iv plain))
      (fun decrypted =>
         Returned (List.filter (fun key => negb (trimsToEmpty key))
                               (split "010"%char decrypted))).
Proof.
  intros Hiv. apply decryptKeysBody_of_stored; [exact Hiv|].
  apply cipher_nonempty.
Qed.

(** A secret with a line feed inside comes back as two secrets, and a
    secret of white space does not come back, whatever the cipher. *)
Lemma roundtrip_loses_secrets (password salt iv : string) :
  iv <> EmptyString ->
  andThen (encryptKeys [String "a" (String "010" (String "b" EmptyString))]
             password salt iv (mkKeyFiles None None true))
          (decryptKeys password)
  = Returned ["a"; "b"]
  /\ andThen (encryptKeys [" "] password salt iv (mkKeyFiles None None true))
             (decryptKeys password)
     = Returned [].
Proof.
  intros Hiv. unfold encryptKeys, decryptKeys. simpl.
  rewrite !decryptKeys_of_encrypted by exact Hiv.
  rewrite !decipher_cipher. split; reflexivity.
Qed.

End KeyEncryptionProperties.

#[local] Instance ToyCrypto_laws : CryptoLaws ToyCrypto.
Proof.
  split.
  - intros key iv plain. simpl. now rewrite Ascii.eqb_refl.
  - intros key iv plain. simpl. discriminate.
Qed.

(** The model of the cipher gives the ciphertext of FIPS 197, appendix
    C.3, and deciphers it; the two substitution tables are inverse to each
    other. *)
Lemma aes256_known_answer :
  encryptBlock (roundKeys fipsKey) fipsPlaintext = fipsCiphertext
  /\ decryptBlock (roundKeys fipsKey) fipsCiphertext = fipsPlaintext
  /\ List.forallb
       (fun i => N.eqb (invSubByte (subByte (N.of_nat i))) (N.of_nat i))
       (List.seq 0 256) = true.
Proof.
  split; [|split]; vm_compute; reflexivity.
Qed.

(** C8, witness: two secrets under AES-256-CBC and the keys that PBKDF2
    derives.  They are read back with the right password, and the password
    ["guess"] is refused: under its key the last deciphered byte is no
    padding. *)
Lemma secrets_roundtrip_witness :
  exists stored,
    encryptKeys (C := NodeCrypto) ["0xaa"; "0xbb"] "pass" sampleSalt sampleIv
      (mkKeyFiles None None true)
    = Returned stored
    /\ stored
       = mkKeyFiles
           (Some "69763030303030303362383736353236:3375924b146b576290ea4f995edbe50d")
           (Some "3031323334353637383961626364656630313233343536373839616263646566")
           true
    /\ decryptKeys (C := NodeCrypto) "pass" stored = Returned ["0xaa"; "0xbb"]
    /\ decryptKeys (C := NodeCrypto) "guess" stored = Thrown wrongPassword.
Proof.
  destruct (secrets_roundtrip (C := NodeCrypto) ["0xaa"; "0xbb"] "pass"
              sampleSalt sampleIv (mkKeyFiles None None true) eq_refl)
    as (stored & Henc & Hdec & Hother & _).
  - discriminate.
  - vm_compute. discriminate.
  - vm_compute. reflexivity.
  - exists stored. split; [exact Henc|]. split.
    + assert (Hstored :
        encryptKeys (C := NodeCrypto) ["0xaa"; "0xbb"] "pass" sampleSalt sampleIv
          (mkKeyFiles None None true)
        = Returned
            (mkKeyFiles
               (Some "69763030303030303362383736353236:3375924b146b576290ea4f995edbe50d")
               (Some "3031323334353637383961626364656630313233343536373839616263646566")
               true))
        by (vm_compute; reflexivity).
      rewrite Hstored in Henc. now inversion Henc.
    + split.
      * apply Hdec. repeat constructor.
      * rewrite (Hother "guess"). vm_compute. reflexivity.
Defined.

(** C8, counterexample, under AES-256-CBC and the keys that PBKDF2
    derives.  With the right password, the one secret ["a\nb"] comes back
    as the two secrets ["a"] and ["b"], and the one secret [" "] comes back
    as none.  And the password ["wrong"] is not refused: under its key the
    deciphered block ends in the byte 1, a well-formed padding, so
    [decryptKeys] returns the fifteen bytes before it as one secret. *)
Lemma secrets_roundtrip_fails :
  andThen (encryptKeys (C := NodeCrypto)
             [String "a" (String "010" (String "b" EmptyString))]
             "pass" sampleSalt sampleIv (mkKeyFiles None None true))
          (decryptKeys (C := NodeCrypto) "pass")
  = Returned ["a"; "b"]
  /\ andThen (encryptKeys (C := NodeCrypto) [" "] "pass" sampleSalt sampleIv
                (mkKeyFiles None None true))
             (decryptKeys (C := NodeCrypto) "pass")
     = Returned []
  /\ andThen (encryptKeys (C := NodeCrypto) ["0xaa"; "0xbb"] "pass" sampleSalt
                sampleIv (mkKeyFiles None None true))
             (decryptKeys (C := NodeCrypto) "wrong")
     = Returned ["[cEVm,1r63Q3WNy"].
Proof.
  split; [|split]; vm_compute; reflexivity.
Qed.

(* ================================================================== *)
(** * Further properties of the record store *)

(** ** Arrays, continued *)

Lemma isWallet_spelling a b w :
  toLowerCase a = toLowerCase b -> isWallet a w = isWallet b w.
Proof.
  unfold isWallet. now intros ->.
Qed.

Lemma isWallet_other a b w :
  toLowerCase a <> toLowerCase b -> isWallet a w = true -> isWallet b w = false.
Proof.
  unfold isWallet. intros Hab Ha. apply String.eqb_eq in Ha.
  apply String.eqb_neq. congruence.
Qed.

Lemma find_setAt_other {A : Type} (p : A -> bool) (x : A) (l : list A) :
  forall i y,
    nth_error l i = Some y -> p y = false -> p x = false ->
    List.find p (setAt i x l) = List.find p l.
Proof.
  induction l as [|a l IH]; intros [|i] y Hn Hy Hx; simpl in *; try discriminate.
  - inversion Hn; subst. now rewrite Hx, Hy.
  - destruct (p a); [reflexivity | eauto].
Qed.

Lemma find_app_other {A : Type} (p : A -> bool) (l : list A) (x : A) :
  p x = false -> List.find p (l ++ [x]) = List.find p l.
Proof.
  intros Hx. induction l as [|a l IH]; simpl.
  - now rewrite Hx.
  - destruct (p a); [reflexivity | exact IH].
Qed.

Lemma findIndexFrom_setAt_first {A : Type} (p : A -> bool) (x : A) (l : list A) :
  forall k i y,
    findIndexFrom p l k = Some (i, y) -> p x = true ->
    findIndexFrom p (setAt (i - k) x l) k = Some (i, x).
Proof.
  induction l as [|a l IH]; intros k i y Hf Hx; simpl in Hf.
  - discriminate.
  - destruct (p a) eqn:Hp.
    + inversion Hf; subst. rewrite Nat.sub_diag. simpl. now rewrite Hx.
    + pose proof (findIndexFrom_spec p l _ _ _ Hf) as (Hle & _).
      replace (i - k)%nat with (S (i - S k)) by lia. simpl. rewrite Hp.
      eapply IH; eauto.
Qed.

Lemma findIndexFrom_app_last {A : Type} (p : A -> bool) (l : list A) (x : A) :
  forall k,
    List.find p l = None -> p x = true ->
    findIndexFrom p (l ++ [x]) k = Some ((k + List.length l)%nat, x).
Proof.
  induction l as [|a l IH]; intros k Hn Hx; simpl in *.
  - rewrite Hx, Nat.add_0_r. reflexivity.
  - destruct (p a); [discriminate|].
    rewrite IH by assumption. f_equal. f_equal. lia.
Qed.

Lemma setAt_setAt {A : Type} (x y : A) (l : list A) :
  forall i, setAt i x (setAt i y l) = setAt i x l.
Proof.
  induction l as [|a l IH]; intros [|i]; simpl; auto. now rewrite IH.
Qed.

Lemma setAt_app_last {A : Type} (x y : A) (l : list A) :
  setAt (List.length l) x (l ++ [y]) = l ++ [x].
Proof.
  induction l as [|a l IH]; simpl; auto. now rewrite IH.
Qed.

Lemma map_setAt_same {A B : Type} (f : A -> B) (x : A) (l : list A) :
  forall i y,
    nth_error l i = Some y -> f x = f y ->
    List.map f (setAt i x l) = List.map f l.
Proof.
  induction l as [|a l IH]; intros [|i] y Hn Hf; simpl in *; try discriminate.
  - inversion Hn; subst. now rewrite Hf.
  - f_equal. eauto.
Qed.

Lemma filter_shorter {A : Type} (q : A -> bool) (l : list A) :
  Nat.ltb (List.length (List.filter (fun w => negb (q w)) l)) (List.length l)
  = isSome (List.find q l).
Proof.
  induction l as [|a l IH]; simpl; [reflexivity|].
  destruct (q a) eqn:Hq; simpl.
  - apply Nat.ltb_lt.
    pose proof (List.filter_length_le (fun w => negb (q w)) l). lia.
  - exact IH.
Qed.

Lemma find_filter_out {A : Type} (q : A -> bool) (l : list A) :
  List.find q (List.filter (fun w => negb (q w)) l) = None.
Proof.
  induction l as [|a l IH]; simpl; [reflexivity|].
  destruct (q a) eqn:Hq; simpl; [exact IH | now rewrite Hq].
Qed.

Lemma find_filter_other {A : Type} (p q : A -> bool) (l : list A) :
  (forall w, p w = true -> q w = false) ->
  List.find p (List.filter (fun w => negb (q w)) l) = List.find p l.
Proof.
  intros Hpq. induction l as [|a l IH]; simpl; [reflexivity|].
  destruct (p a) eqn:Hp.
  - rewrite (Hpq a Hp). simpl. now rewrite Hp.
  - destruct (q a); simpl; [exact IH | now rewrite Hp].
Qed.

Lemma find_none_key addr (l : list WalletData) :
  List.find (isWallet addr) l = None ->
  ~ In (toLowerCase addr) (List.map addressKey l).
Proof.
  induction l as [|a l IH]; simpl; intros Hf; [tauto|].
  destruct (isWallet addr a) eqn:Ha; [discriminate|].
  intros [Hk | Hin]; [|now apply IH].
  unfold isWallet, addressKey in *. apply String.eqb_neq in Ha. congruence.
Qed.

Lemma NoDup_map_filter {A B : Type} (f : A -> B) (p : A -> bool) (l : list A) :
  NoDup (List.map f l) -> NoDup (List.map f (List.filter p l)).
Proof.
  induction l as [|a l IH]; simpl; intros Hn; [constructor|].
  inversion Hn as [|? ? Hnotin Hrest]; subst.
  destruct (p a); simpl; [|auto].
  constructor; [|auto].
  intros Hin. apply Hnotin. apply in_map_iff in Hin as (w & Hw & Hin).
  apply filter_In in Hin as [Hin _]. apply in_map_iff. eauto.
Qed.

Lemma find_same {A : Type} (p q : A -> bool) (l : list A) :
  (forall x, p x = q x) -> List.find p l = List.find q l.
Proof.
  intros Hpq. induction l as [|a l IH]; simpl; [reflexivity|].
  now rewrite Hpq, IH.
Qed.

(** ** Reading back what was written *)

Lemma getWalletData_spelling (disk : Store) now a b :
  toLowerCase a = toLowerCase b ->
  getWalletData disk now a = getWalletData disk now b.
Proof.
  intros Hab. unfold getWalletData.
  apply find_same. intros w. now apply isWallet_spelling.
Qed.

Lemma getWalletData_any_time (disk : Store) t1 t2 addr :
  getWalletData disk t1 addr = getWalletData disk t2 addr.
Proof.
  unfold getWalletData. now rewrite (loadData_wallets_any_time disk t1 t2).
Qed.

Lemma findIndex_of_found (disk : Store) now addr w :
  getWalletData disk now addr = Some w ->
  exists i, findIndex (isWallet addr) (wallets (loadData disk now)) = Some (i, w).
Proof.
  unfold getWalletData, findIndex. apply find_findIndexFrom.
Qed.

Lemma findIndex_of_missing (disk : Store) now addr :
  getWalletData disk now addr = None ->
  findIndex (isWallet addr) (wallets (loadData disk now)) = None.
Proof.
  unfold getWalletData, findIndex. apply findIndexFrom_None.
Qed.

(** The record found after the first match was rewritten in place with a
    record of the same address. *)
Lemma getWalletData_after_rewrite (disk : Store) now later addr i old new :
  writable disk = true ->
  findIndex (isWallet addr) (wallets (loadData disk now)) = Some (i, old) ->
  isWallet addr new = true ->
  getWalletData
    (saveData disk (mkSnapshot (setAt i new (wallets (loadData disk now))) now))
    later addr = Some new.
Proof.
  intros Hw Hf Hnew. unfold getWalletData.
  rewrite loadData_saveData by exact Hw. simpl.
  unfold findIndex in Hf.
  pose proof (find_setAt_first (isWallet addr) new _ _ _ _ Hf Hnew) as Hfind.
  now rewrite Nat.sub_0_r in Hfind.
Qed.

Lemma isWallet_of_found addr (l : list WalletData) i w :
  findIndex (isWallet addr) l = Some (i, w) -> isWallet addr w = true.
Proof.
  intros Hf. now apply findIndex_spec in Hf as (_ & Hp & _).
Qed.

(** ** Deleting a record *)

(** X1.  [deleteWallet] answers whether a record is filed under the
    address, up to letter case, whether or not the file can then be written.
    When none is, the file is left exactly as it was.  When one is and the
    medium is writable, the saved snapshot holds the records that do not
    match, in their order, with [lastUpdate] the current instant: the
    address is no longer found, and the record found for any other address
    is the one found before. *)
Theorem deleteWallet_removes_every_match :
  forall (disk : Store) (now later : Timestamp) (addr : string),
    fst (deleteWallet disk now addr) = isSome (getWalletData disk now addr)
    /\ (getWalletData disk now addr = None ->
        deleteWallet disk now addr = (false, disk))
    /\ (writable disk = true ->
        fst (deleteWallet disk now addr) = true ->
        let after := snd (deleteWallet disk now addr) in
        getWalletData after later addr = None
        /\ getAllWallets after later
           = List.filter (fun w => negb (isWallet addr w)) (getAllWallets disk now)
        /\ snd (getDatabaseStats after later) = now
        /\ (forall other,
              toLowerCase other <> toLowerCase addr ->
              getWalletData after later other = getWalletData disk now other)).
Proof.
  intros disk now later addr.
  assert (Hflag : fst (deleteWallet disk now addr)
                  = isSome (getWalletData disk now addr)).
  { unfold deleteWallet, getWalletData. rewrite filter_shorter.
    destruct (List.find (isWallet addr) (wallets (loadData disk now))); reflexivity. }
  split; [exact Hflag|]. split.
  - intros Hnone. unfold deleteWallet. rewrite filter_shorter.
    unfold getWalletData in Hnone. now rewrite Hnone.
  - intros Hw Htrue after.
    assert (Hafter : loadData after later
                     = mkSnapshot
                         (List.filter (fun w => negb (isWallet addr w))
                            (wallets (loadData disk now)))
                         now).
    { unfold after. unfold deleteWallet in *. rewrite filter_shorter in *.
      destruct (isSome (List.find (isWallet addr) (wallets (loadData disk now))));
        [|discriminate].
      simpl. now rewrite loadData_saveData by exact Hw. }
    unfold getWalletData, getAllWallets, getDatabaseStats. rewrite Hafter. simpl.
    split; [apply find_filter_out|]. split; [reflexivity|]. split; [reflexivity|].
    intros other Hother. apply find_filter_other.
    intros w Hp. apply (isWallet_other other addr w Hother Hp).
Qed.

(** X1, witness: the record filed as ["0xAA"] is deleted under the
    spelling ["0xaa"]; the other record stays. *)
Lemma deleteWallet_removes_every_match_witness :
  getWalletData (snd (deleteWallet twoWallets 5 "0xaa")) 6 "0xaa" = None
  /\ getWalletData (snd (deleteWallet twoWallets 5 "0xaa")) 6 "0xBB"
     = getWalletData twoWallets 5 "0xBB".
Proof.
  destruct (deleteWallet_removes_every_match twoWallets 5 6 "0xaa")
    as (_ & _ & Hdel).
  destruct (Hdel eq_refl eq_refl) as (Hgone & _ & _ & Hother).
  split; [exact Hgone|]. apply Hother. vm_compute. discriminate.
Defined.

(** ** Upsert, read back *)

Lemma spreadSlot_twice {A : Type} (old : option A) (s : Slot A) :
  spreadSlot (spreadSlot old s) s = spreadSlot old s.
Proof.
  destruct s; reflexivity.
Qed.

Lemma spread_twice {K : Type} a t (old : WalletData) (patch : WalletFields K) :
  set_connectedAt t (spread a (set_connectedAt t (spread a old patch)) patch)
  = set_connectedAt t (spread a old patch).
Proof.
  unfold set_connectedAt, spread. simpl. now rewrite !spreadSlot_twice.
Qed.

(** The snapshot [saveWalletData] hands to [saveData]. *)
Lemma saveWalletData_cases (disk : Store) now (walletData : WalletObject) :
  exists ws new,
    saveWalletData disk now walletData = saveData disk (mkSnapshot ws now)
    /\ address new = p_address walletData
    /\ connectedAt new = Some now
    /\ List.find (isWallet (p_address walletData)) ws = Some new
    /\ findIndex (isWallet (p_address walletData)) ws
       = Some ((match findIndex (isWallet (p_address walletData))
                        (wallets (loadData disk now)) with
                | Some (i, _) => i
                | None => List.length (wallets (loadData disk now))
                end), new)
    /\ set_connectedAt (Some now) (spread (p_address walletData) new walletData) = new
    /\ List.length ws
       = (if isSome (getWalletData disk now (p_address walletData))
          then List.length (wallets (loadData disk now))
          else S (List.length (wallets (loadData disk now))))
    /\ List.map addressKey ws
       = (if isSome (getWalletData disk now (p_address walletData))
          then List.map addressKey (wallets (loadData disk now))
          else List.map addressKey (wallets (loadData disk now))
               ++ [toLowerCase (p_address walletData)])
    /\ (forall other,
          toLowerCase other <> toLowerCase (p_address walletData) ->
          List.find (isWallet other) ws
          = List.find (isWallet other) (wallets (loadData disk now))).
Proof.
  unfold saveWalletData, getWalletData.
  set (addr := p_address walletData). set (l := wallets (loadData disk now)).
  destruct (findIndex (isWallet addr) l) as [[i old]|] eqn:Hf.
  - pose proof (findIndex_spec _ _ _ _ Hf) as (Hnth & Hp & _).
    set (new := set_connectedAt (Some now) (spread addr old walletData)).
    assert (Hnew : isWallet addr new = true) by now apply isWallet_refl.
    unfold findIndex in Hf.
    rewrite (findIndexFrom_find _ _ _ _ _ Hf). simpl.
    exists (setAt i new l), new.
    split; [reflexivity|]. split; [reflexivity|]. split; [reflexivity|].
    split.
    { pose proof (find_setAt_first _ new _ _ _ _ Hf Hnew) as Hfind.
      now rewrite Nat.sub_0_r in Hfind. }
    split.
    { pose proof (findIndexFrom_setAt_first _ new _ _ _ _ Hf Hnew) as Hfind.
      now rewrite Nat.sub_0_r in Hfind. }
    split; [apply spread_twice|].
    split; [apply setAt_length|].
    split.
    { apply map_setAt_same with (y := old); [exact Hnth|].
      unfold addressKey. simpl. symmetry. now apply isWallet_case_insensitive. }
    intros other Hother. apply find_setAt_other with (y := old); [exact Hnth | |].
    + destruct (isWallet other old) eqn:Ho; [|reflexivity].
      exfalso. apply Hother. apply isWallet_case_insensitive in Ho.
      apply isWallet_case_insensitive in Hp. congruence.
    + apply String.eqb_neq. simpl. congruence.
  - set (new := set_connectedAt (Some now)
                  (spread addr (blankWallet addr) walletData)).
    assert (Hnew : isWallet addr new = true) by now apply isWallet_refl.
    assert (Hnone : List.find (isWallet addr) l = None).
    { unfold findIndex in Hf. now apply findIndexFrom_None in Hf. }
    rewrite Hnone. simpl.
    exists (l ++ [new]), new.
    split; [reflexivity|]. split; [reflexivity|]. split; [reflexivity|].
    split; [now apply find_app_last|].
    split; [apply (findIndexFrom_app_last _ l new 0%nat Hnone Hnew)|].
    split; [apply spread_twice|].
    split; [rewrite length_app; simpl; lia|].
    split; [now rewrite map_app|].
    intros other Hother. apply find_app_other.
    apply String.eqb_neq. simpl. congruence.
Qed.

(** X2.  On a writable medium, whatever the file held before (nothing, an
    unreadable text, other records): after [saveWalletData] the record is
    found under every spelling of its address, it carries the address as
    the update spells it and [connectedAt] the current instant; the store
    counts one record more when the address was not filed before and as
    many as before when it was; [lastUpdate] is the current instant; and
    the record found for any other address is the one found before. *)
Theorem saveWalletData_then_found :
  forall (disk : Store) (now later : Timestamp) (walletData : WalletObject)
         (spelling : string),
    writable disk = true ->
    toLowerCase spelling = toLowerCase (p_address walletData) ->
    let after := saveWalletData disk now walletData in
    (exists w,
        getWalletData after later spelling = Some w
        /\ address w = p_address walletData
        /\ connectedAt w = Some now)
    /\ fst (getDatabaseStats after later)
       = (if isSome (getWalletData disk now (p_address walletData))
          then fst (getDatabaseStats disk now)
          else S (fst (getDatabaseStats disk now)))
    /\ snd (getDatabaseStats after later) = now
    /\ (forall other,
          toLowerCase other <> toLowerCase (p_address walletData) ->
          getWalletData after later other = getWalletData disk now other).
Proof.
  intros disk now later walletData spelling Hw Hspell after.
  destruct (saveWalletData_cases disk now walletData)
    as (ws & new & Hsave & Haddr & Hconn & Hfind & _ & _ & Hlen & _ & Hother).
  assert (Hafter : loadData after later = mkSnapshot ws now).
  { unfold after. rewrite Hsave. now apply loadData_saveData. }
  split; [|split; [|split]].
  - exists new. rewrite (getWalletData_spelling _ _ _ _ Hspell).
    unfold getWalletData. rewrite Hafter. auto.
  - unfold getDatabaseStats. rewrite Hafter. exact Hlen.
  - unfold getDatabaseStats. now rewrite Hafter.
  - intros other Ho. unfold getWalletData at 1. rewrite Hafter. now apply Hother.
Qed.

(** X2, witness: a wallet saved as ["0xCc"] into a store of two others is
    found as ["0xcC"], and the store then counts three. *)
Lemma saveWalletData_then_found_witness :
  (exists w,
      getWalletData (saveWalletData twoWallets 5 (bareCard "0xCc")) 6 "0xcC" = Some w
      /\ address w = "0xCc"
      /\ connectedAt w = Some 5)
  /\ fst (getDatabaseStats (saveWalletData twoWallets 5 (bareCard "0xCc")) 6) = 3%nat.
Proof.
  destruct (saveWalletData_then_found twoWallets 5 6 (bareCard "0xCc") "0xcC"
              eq_refl eq_refl) as (Hfound & Hcount & _).
  split; [exact Hfound | exact Hcount].
Defined.

(** X3.  [saveWalletData] is idempotent: saving the same update a second
    time at the same instant leaves the file exactly as the first save left
    it, for every file and every update, a new address included (the second
    call finds the record the first one appended). *)
Theorem saveWalletData_idempotent :
  forall (disk : Store) (now : Timestamp) (walletData : WalletObject),
    saveWalletData (saveWalletData disk now walletData) now walletData
    = saveWalletData disk now walletData.
Proof.
  intros disk now walletData.
  destruct (saveWalletData_cases disk now walletData)
    as (ws & new & Hsave & _ & _ & _ & Hidx & Hsame & _).
  rewrite Hsave. destruct (writable disk) eqn:Hw.
  - unfold saveWalletData at 1.
    rewrite loadData_saveData by exact Hw. simpl. rewrite Hidx, Hsame.
    assert (Hnth : nth_error ws
                     (match findIndex (isWallet (p_address walletData))
                              (wallets (loadData disk now)) with
                      | Some (i, _) => i
                      | None => List.length (wallets (loadData disk now))
                      end) = Some new).
    { now apply findIndex_spec in Hidx as (Hnth & _). }
    assert (Hid : forall i, nth_error ws i = Some new -> setAt i new ws = ws).
    { clear. induction ws as [|a l IH]; intros [|i] Hn; simpl in *;
        try discriminate.
      - now inversion Hn.
      - f_equal. auto. }
    rewrite (Hid _ Hnth).
    unfold saveData, writeFileSync. simpl. now rewrite Hw.
  - rewrite saveData_unwritable by exact Hw.
    unfold saveWalletData.
    destruct (findIndex (isWallet (p_address walletData)) (wallets (loadData disk now)))
      as [[i old]|]; now rewrite saveData_unwritable.
Qed.

(** ** An address that is not filed *)

(** X4.  When no record is filed under the address, the methods that
    update a record in place do nothing at all: [updateWalletStats],
    [forceUpdateWalletData], [updateLastSpinDate], [decrementSpins] and
    [resetDailyTransferFlagIfNewDay] hand the file back untouched, without
    writing and without creating the record.  The questions are answered as
    for a wallet never seen: no spin to use, a new day, spins to refresh.
    The missing record is created, on a writable medium, at each of the
    three places where the source pushes one: [saveWalletData],
    [updateDailyTransferStatus] and the balance update inside
    [checkAndDepositWETH]. *)
Theorem unknown_address_leaves_file :
  forall (disk : Store) (now : Timestamp) (addr : string),
    getWalletData disk now addr = None ->
    (forall stats, updateWalletStats disk now addr stats = disk)
    /\ (forall newData, forceUpdateWalletData disk now addr newData = disk)
    /\ updateLastSpinDate disk now addr = disk
    /\ decrementSpins disk now addr = disk
    /\ resetDailyTransferFlagIfNewDay disk now addr = disk
    /\ checkSpinsAvailable disk now addr = false
    /\ isNewDayForWallet disk now addr = true
    /\ (forall nowUTC, shouldRefreshSpinsForNewDay disk now nowUTC addr = true)
    /\ (writable disk = true ->
        forall later date amount,
          isSome (getWalletData
                    (updateDailyTransferStatus disk now addr date amount) later addr)
          = true
          /\ isSome (getWalletData (saveWalletData disk now (bareCard addr)) later addr)
             = true
          /\ isSome (getWalletData (recordNewBalance addr amount disk now) later addr)
             = true).
Proof.
  intros disk now addr Hnone.
  pose proof (findIndex_of_missing disk now addr Hnone) as Hf.
  assert (Hsync : getWalletDataSync disk now addr = None) by exact Hnone.
  repeat split.
  - intros stats. unfold updateWalletStats. now rewrite Hf.
  - intros newData. unfold forceUpdateWalletData. now rewrite Hf.
  - unfold updateLastSpinDate. now rewrite Hf.
  - unfold decrementSpins. now rewrite Hf.
  - unfold resetDailyTransferFlagIfNewDay. now rewrite Hsync.
  - unfold checkSpinsAvailable. now rewrite Hnone.
  - unfold isNewDayForWallet. now rewrite Hsync.
  - intros nowUTC. unfold shouldRefreshSpinsForNewDay. now rewrite Hsync.
  - destruct (updateDailyTransferStatus_recorded disk now addr date amount later H)
      as (w & Hget & _).
    now rewrite Hget.
  - destruct (saveWalletData_cases disk now (bareCard addr))
      as (ws & new & Hsave & _ & _ & Hfind & _).
    unfold getWalletData. rewrite Hsave, loadData_saveData by exact H.
    simpl in *. now rewrite Hfind.
  - unfold recordNewBalance. rewrite Hf.
    unfold getWalletData. rewrite loadData_saveData by exact H.
    cbn [wallets].
    rewrite (find_app_last (isWallet addr) (wallets (loadData disk now)));
      [reflexivity | exact Hnone | now apply isWallet_refl].
Qed.

(** X4, witness: the address ["0xdd"] is not filed among the two wallets. *)
Lemma unknown_address_leaves_file_witness :
  updateLastSpinDate twoWallets 5 "0xdd" = twoWallets
  /\ forceUpdateWalletData twoWallets 5 "0xdd" emptyPatch = twoWallets
  /\ checkSpinsAvailable twoWallets 5 "0xdd" = false.
Proof.
  destruct (unknown_address_leaves_file twoWallets 5 "0xdd" eq_refl)
    as (_ & Hforce & Hspin & _ & _ & Hcheck & _).
  split; [exact Hspin|]. split; [apply Hforce | exact Hcheck].
Defined.

(** ** One record per address *)

Lemma unique_after_save (disk : Store) ws now t later :
  uniqueAddresses (loadData disk t) ->
  NoDup (List.map addressKey ws) ->
  uniqueAddresses (loadData (saveData disk (mkSnapshot ws now)) later).
Proof.
  intros Hinv Hws. unfold uniqueAddresses in *. destruct (writable disk) eqn:Hw.
  - now rewrite loadData_saveData by exact Hw.
  - rewrite saveData_unwritable by exact Hw.
    now rewrite (loadData_wallets_any_time disk later t).
Qed.

Lemma unique_any_time (disk : Store) t1 t2 :
  uniqueAddresses (loadData disk t1) -> uniqueAddresses (loadData disk t2).
Proof.
  unfold uniqueAddresses. now rewrite (loadData_wallets_any_time disk t1 t2).
Qed.

(** Rewriting the first match in place with a record of the same key. *)
Lemma unique_after_rewrite (disk : Store) now t later addr i old new :
  uniqueAddresses (loadData disk t) ->
  findIndex (isWallet addr) (wallets (loadData disk now)) = Some (i, old) ->
  addressKey new = addressKey old ->
  uniqueAddresses
    (loadData
       (saveData disk (mkSnapshot (setAt i new (wallets (loadData disk now))) now))
       later).
Proof.
  intros Hinv Hf Hkey. apply unique_after_save with (t := t); [exact Hinv|].
  apply findIndex_spec in Hf as (Hnth & _).
  rewrite (map_setAt_same addressKey new _ i old Hnth Hkey).
  exact (unique_any_time disk t now Hinv).
Qed.

(** Appending a record under an address that is not filed. *)
Lemma unique_after_append (disk : Store) now t later addr new :
  uniqueAddresses (loadData disk t) ->
  findIndex (isWallet addr) (wallets (loadData disk now)) = None ->
  address new = addr ->
  uniqueAddresses
    (loadData (saveData disk (mkSnapshot (wallets (loadData disk now) ++ [new]) now))
       later).
Proof.
  intros Hinv Hf Haddr. apply unique_after_save with (t := t); [exact Hinv|].
  rewrite map_app. simpl.
  apply NoDup_app; [exact (unique_any_time disk t now Hinv) | | ].
  - repeat constructor. simpl. tauto.
  - intros k Hin [Hk | []]. subst k.
    unfold findIndex in Hf. apply findIndexFrom_None in Hf.
    apply (find_none_key addr _ Hf). unfold addressKey in Hin. now rewrite Haddr in Hin.
Qed.

(** X5.  The store keeps one record per address, letter case aside: if no
    two records of the file share an address up to case, the same holds of
    the file after [saveWalletData], [updateDailyTransferStatus], the
    balance update of [checkAndDepositWETH], [decrementSpins],
    [updateLastSpinDate], [resetDailyTransferFlagIfNewDay],
    [resetDailyTransferFlags] and [deleteWallet], whatever their arguments
    and whether or not the medium is writable; and after
    [updateWalletStats] and [forceUpdateWalletData] when the update does
    not carry another address. *)
Theorem store_keeps_addresses_unique :
  forall (disk : Store) (t now later : Timestamp),
    uniqueAddresses (loadData disk t) ->
    (forall walletData,
        uniqueAddresses (loadData (saveWalletData disk now walletData) later))
    /\ (forall addr date amount,
        uniqueAddresses
          (loadData (updateDailyTransferStatus disk now addr date amount) later))
    /\ (forall addr newWETHBalance,
        uniqueAddresses (loadData (recordNewBalance addr newWETHBalance disk now) later))
    /\ (forall addr, uniqueAddresses (loadData (decrementSpins disk now addr) later))
    /\ (forall addr, uniqueAddresses (loadData (updateLastSpinDate disk now addr) later))
    /\ (forall addr,
        uniqueAddresses (loadData (resetDailyTransferFlagIfNewDay disk now addr) later))
    /\ uniqueAddresses (loadData (resetDailyTransferFlags disk now) later)
    /\ (forall addr, uniqueAddresses (loadData (snd (deleteWallet disk now addr)) later))
    /\ (forall addr stats,
        keepsKey addr (p_address stats) ->
        uniqueAddresses (loadData (updateWalletStats disk now addr stats) later)
        /\ uniqueAddresses (loadData (forceUpdateWalletData disk now addr stats) later)).
Proof.
  intros disk t now later Hinv.
  pose proof (unique_any_time disk t later Hinv) as Hlater.
  split; [|split; [|split; [|split; [|split; [|split; [|split; [|split]]]]]]].
  - intros walletData. unfold saveWalletData.
    destruct (findIndex (isWallet (p_address walletData)) (wallets (loadData disk now)))
      as [[i old]|] eqn:Hf.
    + eapply unique_after_rewrite; eauto.
      unfold addressKey. simpl. symmetry.
      apply isWallet_case_insensitive. eapply isWallet_of_found; eauto.
    + eapply unique_after_append; eauto.
  - intros addr date amount. unfold updateDailyTransferStatus.
    destruct (findIndex (isWallet addr) (wallets (loadData disk now)))
      as [[i old]|] eqn:Hf.
    + eapply unique_after_rewrite; eauto.
    + eapply unique_after_append; eauto.
  - intros addr b. unfold recordNewBalance.
    destruct (findIndex (isWallet addr) (wallets (loadData disk now)))
      as [[i old]|] eqn:Hf.
    + eapply unique_after_rewrite; eauto.
    + eapply unique_after_append; eauto.
  - intros addr. unfold decrementSpins.
    destruct (findIndex (isWallet addr) (wallets (loadData disk now)))
      as [[i old]|] eqn:Hf; [|exact Hlater].
    destruct (0 <? orZero (spinsAvailable old)); [|exact Hlater].
    eapply unique_after_rewrite; eauto.
  - intros addr. unfold updateLastSpinDate.
    destruct (findIndex (isWallet addr) (wallets (loadData disk now)))
      as [[i old]|] eqn:Hf; [|exact Hlater].
    eapply unique_after_rewrite; eauto.
  - intros addr. unfold resetDailyTransferFlagIfNewDay.
    destruct (getWalletDataSync disk now addr) as [w|]; [|exact Hlater].
    destruct (differsFrom (lastTransferDate w) (isoDate now)); [|exact Hlater].
    destruct (findIndex (isWallet addr) (wallets (loadData disk now)))
      as [[i old]|] eqn:Hf; [|exact Hlater].
    eapply unique_after_rewrite; eauto.
  - unfold resetDailyTransferFlags.
    destruct (existsb _ (wallets (loadData disk now))); [|exact Hlater].
    apply unique_after_save with (t := t); [exact Hinv|].
    rewrite map_map.
    rewrite (map_ext _ addressKey).
    + exact (unique_any_time disk t now Hinv).
    + intros w. destruct (differsFrom (lastTransferDate w) (isoDate now)); reflexivity.
  - intros addr. unfold deleteWallet.
    destruct (Nat.ltb _ _); simpl; [|exact Hlater].
    apply unique_after_save with (t := t); [exact Hinv|].
    apply NoDup_map_filter. exact (unique_any_time disk t now Hinv).
  - intros addr stats Hkey.
    assert (Hsame : forall old,
               isWallet addr old = true ->
               toLowerCase (spreadAddress (address old) (p_address stats))
               = toLowerCase (address old)).
    { intros old Hold. apply isWallet_case_insensitive in Hold.
      unfold keepsKey in Hkey. destruct (p_address stats); simpl; congruence. }
    unfold updateWalletStats, forceUpdateWalletData.
    destruct (findIndex (isWallet addr) (wallets (loadData disk now)))
      as [[i old]|] eqn:Hf; [|split; exact Hlater].
    pose proof (isWallet_of_found _ _ _ _ Hf) as Hold.
    split; eapply unique_after_rewrite; eauto; unfold addressKey; simpl;
      now apply Hsame.
Qed.

(** X5, witness: the two wallets stay apart when one of them is saved
    again under another spelling, and when a third is recorded. *)
Lemma store_keeps_addresses_unique_witness :
  uniqueAddresses (loadData (saveWalletData twoWallets 5 (bareCard "0xaa")) 6)
  /\ uniqueAddresses
       (loadData (updateDailyTransferStatus twoWallets 5 "0xCC" 0 100) 6).
Proof.
  assert (Hinv : uniqueAddresses (loadData twoWallets 0)).
  { unfold uniqueAddresses. simpl. repeat constructor; simpl; intuition discriminate. }
  destruct (store_keeps_addresses_unique twoWallets 0 5 6 Hinv)
    as (Hsave & Hstatus & _).
  split; [apply Hsave | apply Hstatus].
Defined.

(** ** The daily flag *)

Lemma resetStale_twice now (l : list WalletData) :
  List.map (fun wallet =>
              if staleTransfer now wallet then set_todayTransfer (Some false) wallet
              else wallet)
    (List.map (fun wallet =>
                 if staleTransfer now wallet then set_todayTransfer (Some false) wallet
                 else wallet) l)
  = List.map (fun wallet =>
                if staleTransfer now wallet then set_todayTransfer (Some false) wallet
                else wallet) l.
Proof.
  rewrite map_map. apply map_ext. intros w.
  destruct (staleTransfer now w) eqn:Hs; [|now rewrite Hs].
  unfold staleTransfer in *. simpl. now rewrite Hs.
Qed.

Lemma existsb_resetStale now (l : list WalletData) :
  List.existsb (staleTransfer now)
    (List.map (fun wallet =>
                 if staleTransfer now wallet then set_todayTransfer (Some false) wallet
                 else wallet) l)
  = List.existsb (staleTransfer now) l.
Proof.
  induction l as [|w l IH]; simpl; [reflexivity|]. rewrite IH. f_equal.
  destruct (staleTransfer now w) eqn:Hs; [|exact Hs].
  unfold staleTransfer in *. simpl. exact Hs.
Qed.

Lemma resetDailyTransferFlags_unfold (disk : Store) now :
  resetDailyTransferFlags disk now
  = if List.existsb (staleTransfer now) (wallets (loadData disk now))
    then saveData disk
           (mkSnapshot
              (List.map (fun wallet =>
                           if staleTransfer now wallet
                           then set_todayTransfer (Some false) wallet
                           else wallet)
                        (wallets (loadData disk now)))
              now)
    else disk.
Proof.
  reflexivity.
Qed.

(** X6.  [resetDailyTransferFlags], run by [main] before the first wallet:
    when no record carries a transfer date other than today's, the file is
    not written at all; otherwise, on a writable medium, each record with
    such a date has [todayTransfer] set to false and nothing else changed,
    and every other record, one with [todayTransfer] true and no transfer
    date included, is exactly as before.  Afterwards a record still flagged
    has today's date or none.  Running it again at the same instant changes
    nothing. *)
Theorem resetDailyTransferFlags_clears_stale :
  forall (disk : Store) (now later : Timestamp),
    (List.existsb (staleTransfer now) (getAllWallets disk now) = false ->
     resetDailyTransferFlags disk now = disk)
    /\ resetDailyTransferFlags (resetDailyTransferFlags disk now) now
       = resetDailyTransferFlags disk now
    /\ (writable disk = true ->
        getAllWallets (resetDailyTransferFlags disk now) later
        = List.map (fun w => if staleTransfer now w
                             then set_todayTransfer (Some false) w else w)
                   (getAllWallets disk now))
    /\ (writable disk = true ->
        forall w,
          In w (getAllWallets (resetDailyTransferFlags disk now) later) ->
          todayTransfer w = Some true ->
          lastTransferDate w = Some (isoDate now) \/ lastTransferDate w = None).
Proof.
  intros disk now later.
  assert (Hwallets : writable disk = true ->
            getAllWallets (resetDailyTransferFlags disk now) later
            = List.map (fun w => if staleTransfer now w
                                 then set_todayTransfer (Some false) w else w)
                       (getAllWallets disk now)).
  { intros Hw. unfold getAllWallets. rewrite resetDailyTransferFlags_unfold.
    destruct (existsb (staleTransfer now) (wallets (loadData disk now))) eqn:He.
    - now rewrite loadData_saveData by exact Hw.
    - rewrite (loadData_wallets_any_time disk later now).
      symmetry. rewrite <- (map_id (wallets (loadData disk now))) at 2.
      apply map_ext_in. intros w Hin.
      destruct (staleTransfer now w) eqn:Hs; [|reflexivity].
      exfalso. assert (existsb (staleTransfer now) (wallets (loadData disk now)) = true).
      { apply existsb_exists. eauto. }
      congruence. }
  split; [|split; [|split]].
  - unfold getAllWallets. rewrite resetDailyTransferFlags_unfold.
    now intros ->.
  - rewrite !resetDailyTransferFlags_unfold.
    destruct (existsb (staleTransfer now) (wallets (loadData disk now))) eqn:He.
    + destruct (writable disk) eqn:Hw.
      * rewrite loadData_saveData by exact Hw. simpl.
        rewrite existsb_resetStale, He, resetStale_twice.
        unfold saveData, writeFileSync. simpl. now rewrite Hw.
      * rewrite saveData_unwritable by exact Hw. rewrite He.
        now rewrite saveData_unwritable by exact Hw.
    + now rewrite He.
  - exact Hwallets.
  - intros Hw w Hin Hflag. rewrite (Hwallets Hw) in Hin.
    apply in_map_iff in Hin as (w0 & Hw0 & _).
    destruct (staleTransfer now w0) eqn:Hs.
    + subst w. simpl in Hflag. discriminate.
    + subst w0. unfold staleTransfer, differsFrom in Hs.
      destruct (lastTransferDate w) as [d|]; [|now right].
      left. apply negb_false_iff, Z.eqb_eq in Hs. now subst.
Qed.

(** X6, witness: on day 8 the transfer dated day 7 is stale; the flag of
    that wallet is cleared and its date kept. *)
Lemma resetDailyTransferFlags_clears_stale_witness :
  getAllWallets (resetDailyTransferFlags twoWallets (atUTC 8 0 0 0)) 0
  = [set_spinsAvailable (Some 2) (blankWallet "0xAA");
     set_todayTransfer (Some false)
       (set_todayTransfer (Some true)
          (set_lastTransferDate (Some 7) (blankWallet "0xbb")))].
Proof.
  apply (proj1 (proj2 (proj2
           (resetDailyTransferFlags_clears_stale twoWallets (atUTC 8 0 0 0) 0)))).
  reflexivity.
Defined.

(** After [updateDailyTransferStatus] on a writable medium the record
    found for the address carries the date, the amount, the flag and the
    instant of the call. *)
Lemma updateDailyTransferStatus_stamped (store : Store) now addr date amount later :
  writable store = true ->
  exists w,
    getWalletData (updateDailyTransferStatus store now addr date amount) later addr
    = Some w
    /\ lastTransferDate w = Some date
    /\ todayTransfer w = Some true
    /\ transferAmount w = Some amount
    /\ lastActivity w = Some now.
Proof.
  intros Hw. unfold updateDailyTransferStatus.
  destruct (findIndex (isWallet addr) (wallets (loadData store now)))
    as [[i w]|] eqn:Hf.
  - eexists. split.
    + apply getWalletData_after_rewrite with (old := w); [exact Hw | exact Hf |].
      exact (isWallet_of_found _ _ _ _ Hf).
    + repeat split.
  - unfold getWalletData. rewrite loadData_saveData by exact Hw. simpl.
    eexists. split.
    + apply find_app_last.
      * unfold findIndex in Hf. now apply findIndexFrom_None in Hf.
      * now apply isWallet_refl.
    + repeat split.
Qed.

(** X7.  The life of the daily flag.  Once [updateDailyTransferStatus] has
    recorded a transfer for the day [date] at an instant of that day:
    at every instant of the same UTC day the wallet is not in a new day and
    [resetDailyTransferFlagIfNewDay] leaves the file untouched; at every
    instant of another UTC day the wallet is in a new day, and
    [resetDailyTransferFlagIfNewDay] then clears [todayTransfer] while
    keeping the date and the amount of the last transfer. *)
Theorem daily_flag_lifecycle :
  forall (disk : Store) (now : Timestamp) (addr : string) (date : Day) (amount : Z)
         (t later : Timestamp),
    writable disk = true ->
    isoDate now = date ->
    let recorded := updateDailyTransferStatus disk now addr date amount in
    (isoDate t = date ->
     isNewDayForWallet recorded t addr = false
     /\ resetDailyTransferFlagIfNewDay recorded t addr = recorded)
    /\ (isoDate t <> date ->
        isNewDayForWallet recorded t addr = true
        /\ exists w,
            getWalletData (resetDailyTransferFlagIfNewDay recorded t addr) later addr
            = Some w
            /\ todayTransfer w = Some false
            /\ lastTransferDate w = Some date
            /\ transferAmount w = Some amount).
Proof.
  intros disk now addr date amount t later Hw Hnow recorded.
  destruct (updateDailyTransferStatus_stamped disk now addr date amount t Hw)
    as (w & Hget & Hdate & Hflag & Hamount & Hact).
  fold recorded in Hget.
  assert (Hsync : getWalletDataSync recorded t addr = Some w) by exact Hget.
  assert (Hrw : writable recorded = true).
  { unfold recorded, updateDailyTransferStatus.
    destruct (findIndex (isWallet addr) (wallets (loadData disk now))) as [[i o]|];
      now rewrite saveData_writable. }
  split.
  - intros Ht. split.
    + unfold isNewDayForWallet. rewrite Hsync, Hdate, Hact. simpl.
      rewrite Hnow, Ht, Z.eqb_refl. reflexivity.
    + unfold resetDailyTransferFlagIfNewDay. rewrite Hsync, Hdate. simpl.
      now rewrite Ht, Z.eqb_refl.
  - intros Ht. assert (Hd : differsFrom (Some date) (isoDate t) = true).
    { simpl. apply negb_true_iff, Z.eqb_neq. congruence. }
    split.
    + unfold isNewDayForWallet. now rewrite Hsync, Hdate, Hd.
    + unfold resetDailyTransferFlagIfNewDay. rewrite Hsync, Hdate, Hd.
      destruct (findIndex_of_found recorded t addr w Hget) as (i & Hf).
      rewrite Hf. eexists. split.
      * apply getWalletData_after_rewrite with (old := w); [exact Hrw | exact Hf |].
        exact (isWallet_of_found _ _ _ _ Hf).
      * simpl. auto.
Qed.

(** X7, witness: a transfer recorded at 10:00 of day 20000, asked about at
    23:00 of that day and at 00:00 of the next. *)
Lemma daily_flag_lifecycle_witness :
  isNewDayForWallet
    (updateDailyTransferStatus emptyStore (atUTC 20000 10 0 0) "0xAA" 20000 400)
    (atUTC 20000 23 0 0) "0xAA" = false
  /\ isNewDayForWallet
       (updateDailyTransferStatus emptyStore (atUTC 20000 10 0 0) "0xAA" 20000 400)
       (atUTC 20001 0 0 0) "0xAA" = true.
Proof.
  split.
  - apply (proj1 (daily_flag_lifecycle emptyStore (atUTC 20000 10 0 0) "0xAA"
                    20000 400 (atUTC 20000 23 0 0) 0 eq_refl eq_refl)).
    reflexivity.
  - apply (proj2 (daily_flag_lifecycle emptyStore (atUTC 20000 10 0 0) "0xAA"
                    20000 400 (atUTC 20001 0 0 0) 0 eq_refl eq_refl)).
    vm_compute. discriminate.
Defined.

(** ** The spin budget, continued *)

(** X8.  After [updateLastSpinDate] has stamped a filed wallet at the
    instant [now] (writable medium), [shouldRefreshSpinsForNewDay] asked at
    an instant [t] answers true exactly when [t] is on another UTC date
    than [now], or [t]'s UTC hour is at least 3 while [now]'s was below 3.
    Asked at the instant of the stamp it answers false. *)
Theorem updateLastSpinDate_settles_refresh :
  forall (disk : Store) (now t : Timestamp) (addr : string),
    writable disk = true ->
    getWalletData disk now addr <> None ->
    let stamped := updateLastSpinDate disk now addr in
    shouldRefreshSpinsForNewDay stamped t t addr
    = negb (isoDate now =? isoDate t)
      || ((3 <=? getUTCHours t) && (getUTCHours now <? 3))
    /\ shouldRefreshSpinsForNewDay stamped now now addr = false
    /\ exists w, getWalletData stamped t addr = Some w
                 /\ lastSpinDate w = Some now
                 /\ lastActivity w = Some now.
Proof.
  intros disk now t addr Hw Hfound stamped.
  destruct (getWalletData disk now addr) as [w0|] eqn:Hget; [|congruence].
  destruct (findIndex_of_found disk now addr w0 Hget) as (i & Hf).
  assert (Hafter : forall later,
             getWalletDataSync stamped later addr
             = Some (set_lastActivity (Some now) (set_lastSpinDate (Some now) w0))).
  { intros later. unfold stamped, updateLastSpinDate. rewrite Hf.
    apply getWalletData_after_rewrite with (old := w0); [exact Hw | exact Hf |].
    exact (isWallet_of_found _ _ _ _ Hf). }
  assert (Hgen : forall later,
             shouldRefreshSpinsForNewDay stamped later later addr
             = negb (isoDate now =? isoDate later)
               || ((3 <=? getUTCHours later) && (getUTCHours now <? 3))).
  { intros later. unfold shouldRefreshSpinsForNewDay. rewrite Hafter. simpl.
    destruct (isoDate now =? isoDate later); simpl; [|reflexivity].
    destruct ((3 <=? getUTCHours later) && (getUTCHours now <? 3)); reflexivity. }
  split; [apply Hgen|]. split.
  - rewrite Hgen, Z.eqb_refl. simpl.
    destruct (3 <=? getUTCHours now) eqn:H3; [|reflexivity].
    apply Z.leb_le in H3. simpl. apply Z.ltb_ge. lia.
  - eexists. split; [apply Hafter|]. split; reflexivity.
Qed.

(** X8, witness: a spin stamped at 02:30 of day 20000 is still fresh at
    02:59 and calls for a refresh at 03:00. *)
Lemma updateLastSpinDate_settles_refresh_witness :
  shouldRefreshSpinsForNewDay
    (updateLastSpinDate twoWallets (atUTC 20000 2 30 0) "0xaa")
    (atUTC 20000 2 59 0) (atUTC 20000 2 59 0) "0xaa" = false
  /\ shouldRefreshSpinsForNewDay
       (updateLastSpinDate twoWallets (atUTC 20000 2 30 0) "0xaa")
       (atUTC 20000 3 0 0) (atUTC 20000 3 0 0) "0xaa" = true.
Proof.
  split.
  - rewrite (proj1 (updateLastSpinDate_settles_refresh twoWallets
                      (atUTC 20000 2 30 0) (atUTC 20000 2 59 0) "0xaa" eq_refl
                      ltac:(discriminate))).
    reflexivity.
  - rewrite (proj1 (updateLastSpinDate_settles_refresh twoWallets
                      (atUTC 20000 2 30 0) (atUTC 20000 3 0 0) "0xaa" eq_refl
                      ltac:(discriminate))).
    reflexivity.
Defined.

Lemma decrementSpins_writable (disk : Store) now addr :
  writable (decrementSpins disk now addr) = writable disk.
Proof.
  destruct (decrementSpins_cases disk now addr)
    as [-> | (i & w & n & _ & _ & _ & ->)]; [reflexivity | apply saveData_writable].
Qed.

(** One [decrementSpins] on a filed wallet with a positive budget that a
    double holds exactly. *)
Lemma decrementSpins_found (disk : Store) now later addr w n :
  writable disk = true ->
  getWalletData disk now addr = Some w ->
  spinsAvailable w = Some n -> 0 < n <= 2 ^ 53 ->
  exists w',
    getWalletData (decrementSpins disk now addr) later addr = Some w'
    /\ spinsAvailable w' = Some (n - 1).
Proof.
  intros Hw Hget Hs Hn.
  destruct (findIndex_of_found disk now addr w Hget) as (i & Hf).
  unfold decrementSpins. rewrite Hf, Hs. cbn [orZero].
  destruct Hn as [Hpos Hsafe]. pose proof Hpos as Hguard.
  apply Z.ltb_lt in Hguard. rewrite Hguard.
  eexists. split.
  - apply getWalletData_after_rewrite with (old := w); [exact Hw | exact Hf |].
    exact (isWallet_of_found _ _ _ _ Hf).
  - cbn [spinsAvailable set_lastActivity set_spinsAvailable].
    f_equal. apply jsSubtract_one_exact. lia.
Qed.

(** X9.  The guard of the spin loop and the decrement agree.  For a wallet
    filed with a budget of [n] spins, [n] at most 2^53 (the integers a
    JavaScript number counts down exactly), on a writable medium: after
    [k] calls of [decrementSpins], at any instants, [checkSpinsAvailable]
    is true exactly when [k < n].  The budget lasts for [n] decrements, the
    [n]-th exhausts it, and further calls leave it exhausted. *)
Theorem spins_count_down :
  forall (n : nat) (times : list Timestamp) (disk : Store) (now later : Timestamp)
         (addr : string) (w : WalletData),
    Z.of_nat n <= 2 ^ 53 ->
    writable disk = true ->
    getWalletData disk now addr = Some w ->
    spinsAvailable w = Some (Z.of_nat n) ->
    checkSpinsAvailable (decrementSpinsMany (decrementsOf addr times) disk) later addr
    = Nat.ltb (List.length times) n.
Proof.
  intros n times. revert n.
  induction times as [|t0 times IH];
    intros n disk now later addr w Hsafe Hw Hget Hs.
  - simpl. unfold checkSpinsAvailable.
    rewrite (getWalletData_any_time disk later now), Hget, Hs.
    destruct n as [|n]; [reflexivity|].
    apply Z.ltb_lt. lia.
  - unfold decrementsOf, decrementSpinsMany. simpl.
    change (checkSpinsAvailable
              (decrementSpinsMany (decrementsOf addr times)
                 (decrementSpins disk t0 addr)) later addr
            = Nat.ltb (S (List.length times)) n).
    destruct n as [|n].
    + assert (Hsame : decrementSpins disk t0 addr = disk).
      { rewrite (getWalletData_any_time disk now t0) in Hget.
        destruct (findIndex_of_found disk t0 addr w Hget) as (i & Hf).
        unfold decrementSpins. now rewrite Hf, Hs. }
      rewrite Hsame, (IH 0%nat disk now later addr w Hsafe Hw Hget Hs).
      reflexivity.
    + rewrite (getWalletData_any_time disk now t0) in Hget.
      destruct (decrementSpins_found disk t0 t0 addr w (Z.of_nat (S n)) Hw Hget Hs)
        as (w' & Hget' & Hs'); [lia|].
      replace (Z.of_nat (S n) - 1) with (Z.of_nat n) in Hs' by lia.
      rewrite (IH n (decrementSpins disk t0 addr) t0 later addr w'); auto.
      * lia.
      * now rewrite decrementSpins_writable.
Qed.

(** X9, witness: two spins; one decrement leaves a spin, two leave none. *)
Lemma spins_count_down_witness :
  checkSpinsAvailable (decrementSpinsMany (decrementsOf "0xaa" [5]) twoWallets) 9 "0xaa"
  = true
  /\ checkSpinsAvailable
       (decrementSpinsMany (decrementsOf "0xaa" [5; 6]) twoWallets) 9 "0xaa"
     = false.
Proof.
  split.
  - apply (spins_count_down 2 [5] twoWallets 0 9 "0xaa"
             (set_spinsAvailable (Some 2) (blankWallet "0xAA")));
      [vm_compute; discriminate | reflexivity ..].
  - apply (spins_count_down 2 [5; 6] twoWallets 0 9 "0xaa"
             (set_spinsAvailable (Some 2) (blankWallet "0xAA")));
      [vm_compute; discriminate | reflexivity ..].
Defined.

(** ** The file itself *)

(** X10.  [ensureDatabaseExists], run by every [new WalletDatabase()]: a
    file that exists is left alone whatever it holds, readable or not; a
    missing file on a writable medium is created holding the empty
    snapshot stamped with the current instant, after which the store lists
    no wallet and a second run changes nothing; a missing file on a medium
    that cannot be written makes the constructor throw, its write being
    outside any [try]. *)
Theorem ensureDatabaseExists_creates_once :
  forall (disk : Store) (now later : Timestamp),
    (existsSync disk = true -> ensureDatabaseExists disk now = Returned disk)
    /\ (existsSync disk = false ->
        writable disk = true ->
        exists created,
          ensureDatabaseExists disk now = Returned created
          /\ getAllWallets created later = []
          /\ getDatabaseStats created later = (0%nat, now)
          /\ ensureDatabaseExists created later = Returned created)
    /\ (existsSync disk = false ->
        writable disk = false ->
        ensureDatabaseExists disk now = Thrown IOError).
Proof.
  intros disk now later. unfold ensureDatabaseExists, writeFileSync.
  split; [|split].
  - now intros ->.
  - intros -> ->. simpl. eexists. split; [reflexivity|]. repeat split.
  - now intros -> ->.
Qed.

(** X10, witness: no file, on a medium that can and on one that cannot be
    written. *)
Lemma ensureDatabaseExists_creates_once_witness :
  (exists created,
      ensureDatabaseExists (mkDisk (@Missing Snapshot) true) 7 = Returned created
      /\ getDatabaseStats created 9 = (0%nat, 7))
  /\ ensureDatabaseExists (mkDisk (@Missing Snapshot) false) 7 = Thrown IOError.
Proof.
  destruct (ensureDatabaseExists_creates_once (mkDisk (@Missing Snapshot) true) 7 9)
    as (_ & Hcreate & _).
  destruct (Hcreate eq_refl eq_refl) as (created & Hrun & _ & Hstats & _).
  split; [exists created; auto|].
  apply (proj2 (proj2 (ensureDatabaseExists_creates_once
                         (mkDisk (@Missing Snapshot) false) 7 9)));
    reflexivity.
Defined.

(** X11.  A file that cannot be read or parsed is treated as empty and is
    overwritten by the next write.  When the file is missing, unreadable or
    not valid JSON, the store lists no wallet; and on a writable medium
    [saveWalletData] and [updateDailyTransferStatus] then replace whatever
    the file held by a snapshot of exactly one record. *)
Theorem unreadable_file_is_replaced :
  forall (disk : Store) (now : Timestamp) (walletData : WalletObject)
         (addr : string) (date : Day) (amount : Z),
    backing disk = Missing \/ backing disk = Unreadable \/ backing disk = Text None ->
    getAllWallets disk now = []
    /\ getDatabaseStats disk now = (0%nat, now)
    /\ (writable disk = true ->
        (exists created,
            backing (saveWalletData disk now walletData)
            = Text (Some (mkSnapshot [created] now))
            /\ address created = p_address walletData)
        /\ (exists created,
            backing (updateDailyTransferStatus disk now addr date amount)
            = Text (Some (mkSnapshot [created] now))
            /\ address created = addr)).
Proof.
  intros disk now walletData addr date amount Hb.
  assert (Hload : loadData disk now = mkSnapshot [] now).
  { unfold loadData, readFileSync.
    destruct Hb as [-> | [-> | ->]]; reflexivity. }
  unfold getAllWallets, getDatabaseStats, saveWalletData, updateDailyTransferStatus.
  rewrite Hload. simpl. repeat split.
  - unfold saveData, writeFileSync. rewrite H. simpl.
    eexists. split; reflexivity.
  - unfold saveData, writeFileSync. rewrite H. simpl.
    eexists. split; reflexivity.
Qed.

(** X11, witness: a file whose text is not JSON. *)
Lemma unreadable_file_is_replaced_witness :
  getAllWallets (mkDisk (Text None) true) 5 = []
  /\ exists created,
      backing (saveWalletData (mkDisk (Text None) true) 5 (bareCard "0xAA"))
      = Text (Some (mkSnapshot [created] 5))
      /\ address created = "0xAA".
Proof.
  destruct (unreadable_file_is_replaced (mkDisk (Text None) true) 5
              (bareCard "0xAA") "0xAA" 0 0 (or_intror (or_intror eq_refl)))
    as (Hnone & _ & Hsave).
  split; [exact Hnone|]. exact (proj1 (Hsave eq_refl)).
Defined.

(* ================================================================== *)
(** * Further properties of the ledger calls *)

Section Ledger.
Context {Ext : Type} `{Collaborators Ext}.

(** X12.  [performWETHTransfer] and [performWETHDeposit] never throw and
    never touch the store.  Each submits at most once, and reports
    [success: true] with the hash only when the submission was accepted and
    the receipt awaited for that very hash reports success; a refused key,
    a submission or a wait that throws, and a reverted receipt all give
    [success: false] with an error and no hash. *)
Theorem ledger_results_follow_receipts :
  forall (privateKey : string) (amount : Z) (w : World Ext),
    (exists result evs,
        fst (performWETHTransfer privateKey amount w) = Returned result
        /\ trace (snd (performWETHTransfer privateKey amount w)) = trace w ++ evs
        /\ disk (machine (snd (performWETHTransfer privateKey amount w)))
           = disk (machine w)
        /\ settles (LedgerTransfer privateKey amount) result evs)
    /\ (exists result evs,
        fst (performWETHDeposit privateKey amount w) = Returned result
        /\ trace (snd (performWETHDeposit privateKey amount w)) = trace w ++ evs
        /\ disk (machine (snd (performWETHDeposit privateKey amount w)))
           = disk (machine w)
        /\ settles (LedgerDeposit privateKey amount) result evs).
Proof.
  intros privateKey amount w.
  unfold performWETHTransfer, performWETHDeposit, settles, tryCatchM, bind, lift,
    callExt, ret.
  split.
  - destruct (privateKeyToAccount privateKey) as [account|e0]; simpl.
    + destruct (writeContractTransfer privateKey amount (ext (machine w)))
        as [[h|e1] x1]; simpl.
      * destruct (waitForTransactionReceipt h x1) as [[[]|e2] x2]; simpl;
          eexists; eexists; rewrite <- ?app_assoc; simpl;
            (split; [reflexivity|]); (split; [reflexivity|]);
            (split; [reflexivity|]).
        -- left. eauto.
        -- right. repeat split. right. right. right. eauto.
        -- right. repeat split. right. right. left. eauto.
      * eexists; eexists. split; [reflexivity|]. split; [reflexivity|].
        split; [reflexivity|]. right. repeat split. right. left. eauto.
    + exists (mkTxResult false None (Some "error.message")), [].
      rewrite app_nil_r. repeat split. right. repeat split. now left.
  - destruct (privateKeyToAccount privateKey) as [account|e0]; simpl.
    + destruct (writeContractDeposit privateKey amount (ext (machine w)))
        as [[h|e1] x1]; simpl.
      * destruct (waitForTransactionReceipt h x1) as [[[]|e2] x2]; simpl;
          eexists; eexists; rewrite <- ?app_assoc; simpl;
            (split; [reflexivity|]); (split; [reflexivity|]);
            (split; [reflexivity|]).
        -- left. eauto.
        -- right. repeat split. right. right. right. eauto.
        -- right. repeat split. right. right. left. eauto.
      * eexists; eexists. split; [reflexivity|]. split; [reflexivity|].
        split; [reflexivity|]. right. repeat split. right. left. eauto.
    + exists (mkTxResult false None (Some "error.message")), [].
      rewrite app_nil_r. repeat split. right. repeat split. now left.
Qed.

End Ledger.

Section Funding.
Context {Ext : Type} `{Collaborators Ext}.

Lemma checkAndDepositWETH_run (privateKey : string) (w : World Ext) :
  exists answer evs,
    fst (checkAndDepositWETH privateKey w) = Returned answer
    /\ trace (snd (checkAndDepositWETH privateKey w)) = trace w ++ evs
    /\ (depositsIn evs <= 1)%nat
    /\ transfersIn evs = 0%nat
    /\ (disk (machine (snd (checkAndDepositWETH privateKey w))) = disk (machine w)
        \/ exists addr amount h b balance now' delay polls,
            privateKeyToAccount privateKey = Returned addr
            /\ answer = true
            /\ b <= 0
            /\ evs = RpcBalanceRead addr (Returned b)
                     :: RandomDrawn amount
                     :: LedgerDeposit privateKey amount (Returned h)
                     :: ReceiptAwaited h (Returned ReceiptSuccess)
                     :: Slept 10000
                     :: polls
                     ++ [RpcBalanceRead addr (Returned balance);
                         RandomDrawn delay; Slept delay]
            /\ (polls = []
                \/ (exists r1, polls = [RpcBalanceRead addr r1; Slept 5000])
                \/ (exists r1 r2,
                       polls = [RpcBalanceRead addr r1; Slept 5000;
                                RpcBalanceRead addr r2; Slept 5000]))
            /\ disk (machine (snd (checkAndDepositWETH privateKey w)))
               = recordNewBalance addr balance (disk (machine w)) now').
Proof.
  unfold checkAndDepositWETH, performWETHDeposit, pollNewBalance,
    getWETHBalanceViaRPC, positiveBalance,
    delayAfterSuccessfulTransaction, tryCatchM, bind, lift, update,
    callExt, draw, sleep, ret.
  repeat (simpl; run_step).
  all: simpl.
  all: eexists; eexists; (split; [reflexivity|]).
  all: (split; [rewrite <- ?app_assoc; simpl; try reflexivity; symmetry; apply app_nil_r |]).
  all: (split; [unfold depositsIn; simpl; lia|]).
  all: (split; [unfold transfersIn; simpl; reflexivity|]).
  all: try (left; reflexivity).
  all: right.
  all: match goal with
       | Hk : privateKeyToAccount _ = Returned ?addr,
         Hr : readContractBalanceOf ?addr (ext (machine _)) = (Returned ?b, _),
         Hd : writeContractDeposit _ ?z _ = (Returned ?h, _) |- _ =>
           exists addr, z, h, b
       end.
  all: do 3 eexists.
  all: lazymatch goal with
       | |- exists polls, _ /\ _ /\ _ /\ [_; _; _; _; _; _; _; _] = _ /\ _ =>
           exists (@nil Event)
       | |- exists polls, _ /\ _ /\ _ /\ [_; _; _; _; _; ?p1; ?p2; _; _; _] = _ /\ _ =>
           exists [p1; p2]
       | |- exists polls, _ /\ _ /\ _
                          /\ [_; _; _; _; _; ?p1; ?p2; ?p3; ?p4; _; _; _] = _ /\ _ =>
           exists [p1; p2; p3; p4]
       end.
  all: (split; [reflexivity|]).
  all: (split; [reflexivity|]).
  all: (split; [apply Z.ltb_ge; assumption|]).
  all: (split; [reflexivity|]).
  all: (split; [|reflexivity]).
  all: solve [ left; reflexivity
             | right; left; eexists; reflexivity
             | right; right; do 2 eexists; reflexivity ].
Qed.

(** X13.  [checkAndDepositWETH] never throws and never submits a transfer.
    It reads the balance first: when the read fails it answers false, and
    when the balance is positive it answers true, in both cases without any
    call to the ledger and without touching the store.  In every run it
    submits at most one deposit.  When the store is written, the events of
    the run are exactly these, in this order: a balance read that was not
    positive, the draw of the amount, the deposit submitted with it, its
    receipt reporting success, a wait of 10 s, at most two further balance
    reads each followed by a wait of 5 s, the balance read whose value is
    written under the wallet's address, and the closing delay. *)
Theorem deposit_only_when_empty :
  forall (privateKey : string) (w : World Ext),
    (exists answer evs,
        fst (checkAndDepositWETH privateKey w) = Returned answer
        /\ trace (snd (checkAndDepositWETH privateKey w)) = trace w ++ evs
        /\ (depositsIn evs <= 1)%nat
        /\ transfersIn evs = 0%nat
        /\ (disk (machine (snd (checkAndDepositWETH privateKey w)))
            = disk (machine w)
            \/ exists addr amount h b balance now' delay polls,
                privateKeyToAccount privateKey = Returned addr
                /\ answer = true
                /\ b <= 0
                /\ evs = RpcBalanceRead addr (Returned b)
                         :: RandomDrawn amount
                         :: LedgerDeposit privateKey amount (Returned h)
                         :: ReceiptAwaited h (Returned ReceiptSuccess)
                         :: Slept 10000
                         :: polls
                         ++ [RpcBalanceRead addr (Returned balance);
                             RandomDrawn delay; Slept delay]
                /\ (polls = []
                    \/ (exists r1, polls = [RpcBalanceRead addr r1; Slept 5000])
                    \/ (exists r1 r2,
                           polls = [RpcBalanceRead addr r1; Slept 5000;
                                    RpcBalanceRead addr r2; Slept 5000]))
                /\ disk (machine (snd (checkAndDepositWETH privateKey w)))
                   = recordNewBalance addr balance (disk (machine w)) now'))
    /\ (forall addr r e,
          privateKeyToAccount privateKey = Returned addr ->
          readContractBalanceOf addr (ext (machine w)) = (r, e) ->
          (forall b, r = Returned b -> 0 < b) ->
          checkAndDepositWETH privateKey w
          = (Returned (match r with Returned _ => true | Thrown _ => false end),
             mkWorld (mkMachine (disk (machine w)) e)
                     (trace w ++ [RpcBalanceRead addr r])))
    /\ (forall e,
          privateKeyToAccount privateKey = Thrown e ->
          checkAndDepositWETH privateKey w = (Returned false, w)).
Proof.
  intros privateKey w. split; [apply checkAndDepositWETH_run|]. split.
  - intros addr r e Hk Hread Hpos.
    unfold checkAndDepositWETH, getWETHBalanceViaRPC, tryCatchM, bind, lift,
      callExt, ret.
    rewrite Hk. simpl. rewrite Hread. destruct r as [b|err]; simpl.
    + specialize (Hpos b eq_refl). apply Z.ltb_lt in Hpos. now rewrite Hpos.
    + reflexivity.
  - intros e Hk. unfold checkAndDepositWETH, tryCatchM, bind, lift, ret.
    now rewrite Hk.
Qed.


Lemma checkAndPerformDailyTransfer_run (privateKey : string) (w : World Ext) :
  exists answer evs,
    fst (checkAndPerformDailyTransfer privateKey w) = Returned answer
    /\ trace (snd (checkAndPerformDailyTransfer privateKey w)) = trace w ++ evs
    /\ depositsIn evs = 0%nat
    /\ (transfersIn evs = 0%nat
        \/ exists addr b amount submitted rest,
            privateKeyToAccount privateKey = Returned addr
            /\ 0 < b
            /\ amount
               = fst (randomTransferAmount b
                        (snd (readContractBalanceOf addr (ext (machine w)))))
            /\ evs = RpcBalanceRead addr (Returned b)
                     :: RandomDrawn amount
                     :: LedgerTransfer privateKey amount submitted
                     :: rest
            /\ transfersIn rest = 0%nat).
Proof.
  unfold checkAndPerformDailyTransfer, performWETHTransfer, getWETHBalanceViaRPC,
    delayAfterSuccessfulTransaction, tryCatchM, bind, lift, newDate, query, update,
    callExt, draw, sleep, ret.
  repeat (simpl; run_step).
  all: simpl.
  all: eexists; eexists; (split; [reflexivity|]).
  all: (split; [rewrite <- ?app_assoc; simpl; try reflexivity; symmetry; apply app_nil_r |]).
  all: (split; [unfold depositsIn; simpl; reflexivity|]).
  all: try (left; reflexivity).
  all: right.
  all: match goal with
       | Hk : privateKeyToAccount _ = Returned ?addr,
         Hr : readContractBalanceOf ?addr (ext (machine _)) = (Returned ?b, _),
         Hb : (?b <=? 0) = false |- _ =>
           exists addr, b; do 3 eexists;
           rewrite Hr; simpl;
           (split; [reflexivity|]);
           (split; [apply Z.leb_gt; exact Hb|])
       end.
  all: match goal with
       | Hd : randomTransferAmount _ _ = (_, _) |- _ => rewrite Hd; simpl
       end.
  all: split; [reflexivity|]; split; reflexivity.
Qed.

(** X14.  [checkAndPerformDailyTransfer] never throws and never submits a
    deposit.  A refused key gives false with nothing done.  When the record
    is not marked for today and the balance cannot be read, or is read as
    zero or less, the answer is false, the only call made is that balance
    read, and the store is untouched.  In every run, a transfer that is
    submitted comes right after a balance read that returned a positive
    amount and the draw of the amount to send, and it is the only one. *)
Theorem daily_transfer_needs_balance :
  forall (privateKey : string) (w : World Ext),
    (exists answer evs,
        fst (checkAndPerformDailyTransfer privateKey w) = Returned answer
        /\ trace (snd (checkAndPerformDailyTransfer privateKey w)) = trace w ++ evs
        /\ depositsIn evs = 0%nat
        /\ (transfersIn evs = 0%nat
            \/ exists addr b amount submitted rest,
                privateKeyToAccount privateKey = Returned addr
                /\ 0 < b
                /\ amount
                   = fst (randomTransferAmount b
                            (snd (readContractBalanceOf addr (ext (machine w)))))
                /\ evs = RpcBalanceRead addr (Returned b)
                         :: RandomDrawn amount
                         :: LedgerTransfer privateKey amount submitted
                         :: rest
                /\ transfersIn rest = 0%nat))
    /\ (forall addr r e,
          privateKeyToAccount privateKey = Returned addr ->
          transferredOn
            (getWalletData (disk (machine w)) (clock (ext (machine w))) addr)
            (isoDate (clock (ext (machine w)))) = false ->
          readContractBalanceOf addr (ext (machine w)) = (r, e) ->
          noBalance r ->
          checkAndPerformDailyTransfer privateKey w
          = (Returned false,
             mkWorld (mkMachine (disk (machine w)) e)
                     (trace w ++ [RpcBalanceRead addr r])))
    /\ (forall e,
          privateKeyToAccount privateKey = Thrown e ->
          checkAndPerformDailyTransfer privateKey w = (Returned false, w)).
Proof.
  intros privateKey w. split; [apply checkAndPerformDailyTransfer_run|]. split.
  - intros addr r e Hk Hmark Hread Hno.
    unfold checkAndPerformDailyTransfer, getWETHBalanceViaRPC, tryCatchM, bind,
      lift, newDate, query, callExt, ret.
    rewrite Hk. simpl. rewrite Hmark, Hread. destruct r as [b|err]; simpl.
    + simpl in Hno. apply Z.leb_le in Hno. now rewrite Hno.
    + reflexivity.
  - intros e Hk. unfold checkAndPerformDailyTransfer, tryCatchM, bind, lift, ret.
    now rewrite Hk.
Qed.

End Funding.

(** X13, witness: in the scripted world the balance read gives 1000 units,
    so no deposit is made. *)
Lemma deposit_only_when_empty_witness :
  checkAndDepositWETH "k" (scriptedWorld emptyStore)
  = (Returned true,
     mkWorld (mkMachine emptyStore (atUTC 20000 10 0 0 + 1))
             [RpcBalanceRead "0xAcck" (Returned 1000)]).
Proof.
  apply (proj1 (proj2 (deposit_only_when_empty "k" (scriptedWorld emptyStore)))
           "0xAcck" (Returned 1000) (atUTC 20000 10 0 0 + 1));
    [reflexivity | reflexivity |].
  intros b Hb. inversion Hb. lia.
Defined.


(** X14, witness: with the chain out of reach the balance cannot be read;
    the pass gives false and has made that one call only. *)
Lemma daily_transfer_needs_balance_witness :
  checkAndPerformDailyTransfer (H := Offline) "k" (scriptedWorld emptyStore)
  = (Returned false,
     mkWorld (mkMachine emptyStore (atUTC 20000 10 0 0 + 1))
             [RpcBalanceRead "0xAcck" (Thrown IOError)]).
Proof.
  apply (proj1 (proj2 (daily_transfer_needs_balance (H := Offline) "k"
                         (scriptedWorld emptyStore)))
           "0xAcck" (Thrown IOError) (atUTC 20000 10 0 0 + 1));
    [reflexivity | reflexivity | reflexivity | exact I].
Defined.

(* ================================================================== *)
(** * Further properties of the pass over one wallet *)

Lemma notBot_inSession ev : notBot ev -> inSession ev.
Proof.
  unfold notBot, inSession. destruct ev; simpl; intros Hn;
    try discriminate; split; reflexivity.
Qed.

Section Session.
Context {Ext : Type} `{Collaborators Ext}.

Lemma adds_callBot P {A : Type} (ev : Outcome A -> Event) f :
  (forall r, P (ev r)) -> adds Ext P (callBot ev f).
Proof.
  intros Hev w. unfold callBot. destruct (f (machine w)) as [r m]. simpl.
  exists [ev r]. auto.
Qed.

Lemma adds_weaken (P Q : Event -> Prop) {A : Type} (c : Run Ext A) :
  (forall ev, P ev -> Q ev) -> adds Ext P c -> adds Ext Q c.
Proof.
  intros Hpq Hc w. destruct (Hc w) as (evs & Ht & Hp).
  exists evs. split; [exact Ht|]. eapply Forall_impl; eauto.
Qed.

Lemma spinLoop_inSession addr :
  forall fuel spinCount, adds Ext inSession (spinLoop fuel spinCount addr).
Proof.
  induction fuel as [|fuel IH]; intros spinCount.
  - simpl. destruct (Nat.ltb spinCount maxSpins); apply adds_ret.
  - rewrite spinLoop_unfold.
    destruct (Nat.ltb spinCount maxSpins); [|apply adds_ret].
    apply adds_bind.
    { apply adds_silent. intros w. reflexivity. }
    intros available. destruct (negb available); [apply adds_ret|].
    apply adds_bind; [apply adds_callBot; intros; split; reflexivity|].
    intros result. destruct (spin_success result).
    + apply adds_bind; [apply adds_callBot; intros; split; reflexivity|].
      intros reloaded. destruct (negb reloaded); [apply adds_ret|].
      apply adds_bind; [apply adds_callBot; intros; split; reflexivity|].
      intros _. apply adds_bind; [apply adds_sleep; split; reflexivity|].
      intros _. apply IH.
    + apply adds_bind; [apply adds_callBot; intros; split; reflexivity|].
      intros _. apply adds_ret.
Qed.

Lemma performAllAvailableSpins_inSession addr :
  adds Ext inSession (performAllAvailableSpins addr).
Proof.
  unfold performAllAvailableSpins.
  apply adds_bind; [apply spinLoop_inSession | intros; apply adds_ret].
Qed.

(** Parts of a pass, piece by piece. *)

Lemma passAdds_inWorld P {A : Type} (c : Run Ext A) :
  adds Ext P c -> passAdds Ext P (inWorld c).
Proof.
  intros Hc f. unfold inWorld. destruct (Hc (world f)) as (evs & Ht & Hp).
  destruct (c (world f)) as [r w']. simpl in *. exists evs. auto.
Qed.

Lemma passAdds_ret P {A : Type} (a : A) : passAdds Ext P (ret a).
Proof.
  intros f. exists []. simpl. rewrite app_nil_r. auto.
Qed.

Lemma passAdds_assign P g : passAdds Ext P (assign g).
Proof.
  intros f. exists []. simpl. rewrite app_nil_r. auto.
Qed.

Lemma passAdds_currentFlags P : passAdds Ext P currentFlags.
Proof.
  intros f. exists []. simpl. rewrite app_nil_r. auto.
Qed.

Lemma passAdds_bind P {A B : Type} (c : Pass Ext A) (k : A -> Pass Ext B) :
  passAdds Ext P c -> (forall a, passAdds Ext P (k a)) -> passAdds Ext P (bind c k).
Proof.
  intros Hc Hk f. unfold bind. destruct (Hc f) as (evs & Ht & Hp & Hb).
  destruct (c f) as [[a|e] f1]; simpl in *.
  - destruct (Hk a f1) as (evs' & Ht' & Hp' & Hb').
    exists (evs ++ evs'). rewrite Ht', Ht, app_assoc, Hb', Hb.
    split; [reflexivity|]. split; [now apply Forall_app | reflexivity].
  - exists evs. auto.
Qed.

Lemma passAdds_weaken (P Q : Event -> Prop) {A : Type} (c : Pass Ext A) :
  (forall ev, P ev -> Q ev) -> passAdds Ext P c -> passAdds Ext Q c.
Proof.
  intros Hpq Hc f. destruct (Hc f) as (evs & Ht & Hp & Hb).
  exists evs. split; [exact Ht|]. split; [|exact Hb]. eapply Forall_impl; eauto.
Qed.

Lemma opens_of_quiet {A : Type} (c : Pass Ext A) :
  passAdds Ext notBot c -> opens Ext c.
Proof.
  intros Hc f Hbot. destruct (Hc f) as (evs & Ht & Hp & Hb).
  exists evs. split; [exact Ht|]. left. split; [congruence | exact Hp].
Qed.

Lemma opens_bind_quiet {A B : Type} (c : Pass Ext A) (k : A -> Pass Ext B) :
  passAdds Ext notBot c -> (forall a, opens Ext (k a)) -> opens Ext (bind c k).
Proof.
  intros Hc Hk f Hbot. unfold bind. destruct (Hc f) as (evs & Ht & Hp & Hb).
  destruct (c f) as [[a|e] f1]; simpl in *.
  - destruct (Hk a f1) as (evs' & Ht' & Hshape); [congruence|].
    exists (evs ++ evs'). rewrite Ht', Ht, app_assoc. split; [reflexivity|].
    destruct Hshape as [[Hb' Hq] | (Hb' & pre & session & -> & Hpre & Hs)].
    + left. split; [exact Hb' | now apply Forall_app].
    + right. split; [exact Hb'|]. exists (evs ++ pre), session.
      rewrite <- app_assoc. split; [reflexivity|].
      split; [now apply Forall_app | exact Hs].
  - exists evs. split; [exact Ht|]. left. split; [congruence | exact Hp].
Qed.

(** Opening the session, then a part that uses the robot inside it. *)
Lemma opens_session {A : Type} (rest : Pass Ext A) :
  passAdds Ext inSession rest ->
  opens Ext (bind newLineaSpinWheelBot (fun _ => rest)).
Proof.
  intros Hrest f Hbot.
  unfold newLineaSpinWheelBot, bind, inWorld, newWalletDatabase, modify.
  simpl.
  destruct (ensureDatabaseExists (disk (machine (world f)))
              (clock (ext (machine (world f))))) as [d|e]; simpl.
  - match goal with
    | |- context [rest ?f1] => destruct (Hrest f1) as (evs & Ht & Hp & Hb)
    end.
    simpl in *. exists (BotCreated :: evs). rewrite Ht, <- app_assoc. simpl.
    split; [reflexivity|]. right. split; [exact Hb|].
    exists [], evs. repeat split; auto.
  - exists []. rewrite app_nil_r. split; [reflexivity|]. left. auto.
Qed.

Lemma returnNotConnected_quiet P : passAdds Ext P returnNotConnected.
Proof.
  unfold returnNotConnected.
  apply passAdds_bind; [apply passAdds_currentFlags | intros; apply passAdds_ret].
Qed.

Lemma checkSpins_quiet P addr :
  passAdds Ext P (inWorld (checkSpinsAvailableToday addr)).
Proof.
  apply passAdds_inWorld, adds_silent. intros w. reflexivity.
Qed.

Lemma botCall_inSession {A : Type} (ev : Outcome A -> Event) f :
  (forall r, inSession (ev r)) -> passAdds Ext inSession (inWorld (callBot ev f)).
Proof.
  intros Hev. now apply passAdds_inWorld, adds_callBot.
Qed.

Lemma spins_inSession addr :
  passAdds Ext inSession (inWorld (performAllAvailableSpins addr)).
Proof.
  apply passAdds_inWorld, performAllAvailableSpins_inSession.
Qed.

Lemma refreshThenDecide_opens addr : opens Ext (refreshThenDecide addr).
Proof.
  unfold refreshThenDecide. apply opens_session.
  apply passAdds_bind; [apply botCall_inSession; intros; split; reflexivity|].
  intros _.
  apply passAdds_bind; [apply botCall_inSession; intros; split; reflexivity|].
  intros connected. destruct (negb connected); [apply returnNotConnected_quiet|].
  apply passAdds_bind; [apply checkSpins_quiet|].
  intros available. destruct available.
  - apply passAdds_bind; [apply spins_inSession|]. intros _.
    apply passAdds_bind; [apply passAdds_assign | intros; apply passAdds_ret].
  - apply passAdds_bind; [apply passAdds_assign | intros; apply passAdds_ret].
Qed.

Lemma decideFromCache_opens addr : opens Ext (decideFromCache addr).
Proof.
  unfold decideFromCache.
  apply opens_bind_quiet; [apply checkSpins_quiet|].
  intros available. destruct available.
  - apply opens_session.
    apply passAdds_bind; [apply botCall_inSession; intros; split; reflexivity|].
    intros _.
    apply passAdds_bind; [apply botCall_inSession; intros; split; reflexivity|].
    intros connected. destruct (negb connected); [apply returnNotConnected_quiet|].
    apply passAdds_bind; [apply spins_inSession|]. intros _.
    apply passAdds_bind; [apply passAdds_assign | intros; apply passAdds_ret].
  - apply opens_of_quiet.
    apply passAdds_bind; [apply passAdds_assign | intros; apply passAdds_ret].
Qed.

Lemma query_quiet P {A : Type} (q : Store -> Timestamp -> A) :
  passAdds Ext P (inWorld (query q)).
Proof.
  apply passAdds_inWorld, adds_silent. intros w. reflexivity.
Qed.

Lemma planAndDispatch_opens addr dailyTransferResult :
  opens Ext (planAndDispatch addr dailyTransferResult).
Proof.
  unfold planAndDispatch.
  apply opens_bind_quiet; [apply query_quiet|]. intros walletData.
  apply opens_bind_quiet; [apply passAdds_assign|]. intros _.
  apply opens_bind_quiet; [apply passAdds_assign|]. intros _.
  apply opens_bind_quiet.
  { destruct (match walletData with Some w => fullData w | None => false end).
    - apply passAdds_bind; [apply checkSpins_quiet | intros; apply passAdds_assign].
    - apply passAdds_assign. }
  intros _.
  apply opens_bind_quiet.
  { destruct walletData; [apply query_quiet | apply passAdds_ret]. }
  intros isNewDay.
  apply opens_bind_quiet.
  { destruct (isSome walletData && isNewDay); [|apply passAdds_ret].
    apply passAdds_inWorld, adds_silent. intros w. reflexivity. }
  intros _.
  apply opens_bind_quiet.
  { apply passAdds_inWorld, adds_silent. intros w. reflexivity. }
  intros now.
  apply opens_bind_quiet.
  { destruct walletData; [apply query_quiet | apply passAdds_ret]. }
  intros shouldRefreshSpins.
  destruct (walletFullyCompletedToday _ _ _).
  { apply opens_of_quiet.
    apply passAdds_bind; [apply passAdds_currentFlags | intros; apply passAdds_ret]. }
  destruct (refreshKnownWallet _ _ _ _ _); [apply refreshThenDecide_opens|].
  destruct (useCachedSpins _ _ _ _);
    [apply decideFromCache_opens | apply refreshThenDecide_opens].
Qed.

End Session.

Section PassSafety.
Context {Ext : Type} `{Collaborators Ext}.

Lemma guardedPass_opens privateKey addr : opens Ext (guardedPass privateKey addr).
Proof.
  assert (Hbody : opens Ext
            (bind (inWorld (checkAndDepositWETH privateKey)) (fun _ =>
             bind (inWorld (checkAndPerformDailyTransfer privateKey))
               (fun dailyTransferResult =>
                  planAndDispatch addr dailyTransferResult)))).
  { apply opens_bind_quiet;
      [apply passAdds_inWorld, checkAndDepositWETH_notBot|].
    intros _. apply opens_bind_quiet;
      [apply passAdds_inWorld, checkAndPerformDailyTransfer_notBot|].
    intros dtr. apply planAndDispatch_opens. }
  intros f Hbot. destruct (Hbody f Hbot) as (evs & Ht & Hshape).
  unfold guardedPass, tryCatchM.
  match goal with
  | |- context [match ?c f with _ => _ end] => destruct (c f) as [[r|e] f1]
  end; simpl in *; exists evs; auto.
Qed.

Lemma guardedPass_returns privateKey addr (f : Frame Ext) :
  exists r, fst (guardedPass privateKey addr f) = Returned r.
Proof.
  unfold guardedPass, tryCatchM.
  match goal with
  | |- context [match ?c f with _ => _ end] => destruct (c f) as [[r|e] f1]
  end; simpl; eauto.
Qed.

Lemma closeBrowser_closes (f : Frame Ext) :
  fst (closeBrowser f) = Returned tt
  /\ bot (locals (snd (closeBrowser f))) = bot (locals f)
  /\ flags (locals (snd (closeBrowser f))) = flags (locals f)
  /\ trace (world (snd (closeBrowser f)))
     = trace (world f)
       ++ (if bot (locals f)
           then [BotClose (fst (bot_close (machine (world f))))]
           else []).
Proof.
  unfold closeBrowser, tryCatchM, inWorld, callBot, ret.
  destruct (bot (locals f)) eqn:Hbot.
  - destruct (bot_close (machine (world f))) as [[[]|e] m]; simpl; auto.
  - simpl. rewrite app_nil_r. auto.
Qed.

Lemma processWallet_steps privateKey addr (f : Frame Ext) w0 :
  createWalletConfig privateKey = Returned addr ->
  newWalletDatabase (world f) = (Returned tt, w0) ->
  processWallet privateKey f
  = match guardedPass privateKey addr
            (mkFrame w0 (mkLocals (mkWalletStatus false false false false) false))
    with
    | (r, f1) =>
        match closeBrowser f1 with
        | (Returned _, f2) =>
            match r with
            | Returned (Some status) => (Returned status, f2)
            | Returned None => (Returned (flags (locals f2)), f2)
            | Thrown e => (Thrown e, f2)
            end
        | (Thrown e, f2) => (Thrown e, f2)
        end
    end.
Proof.
  intros Hcfg Hdb.
  unfold processWallet, guardedPass, bind, inWorld, lift, modify, tryFinally,
    currentFlags, ret.
  rewrite Hcfg. simpl. rewrite Hdb. simpl.
  match goal with
  | |- context [tryCatchM ?body ?handler ?s] =>
      destruct (tryCatchM body handler s) as [[[status|]|e] f1]
  end;
    destruct (closeBrowser f1) as [[[]|e'] f2]; reflexivity.
Qed.

Lemma processWallet_session privateKey addr created (f : Frame Ext) :
  createWalletConfig privateKey = Returned addr ->
  ensureDatabaseExists (disk (machine (world f)))
    (clock (ext (machine (world f)))) = Returned created ->
  exists status evs,
    fst (processWallet privateKey f) = Returned status
    /\ trace (world (snd (processWallet privateKey f))) = trace (world f) ++ evs
    /\ sessionShape evs.
Proof.
  intros Hcfg Hdb.
  set (w0 := mkWorld (mkMachine created (ext (machine (world f))))
               (trace (world f))).
  assert (Hnew : newWalletDatabase (world f) = (Returned tt, w0)).
  { unfold newWalletDatabase. now rewrite Hdb. }
  rewrite (processWallet_steps privateKey addr f w0 Hcfg Hnew).
  set (f0 := mkFrame w0 (mkLocals (mkWalletStatus false false false false) false)).
  destruct (guardedPass_opens privateKey addr f0 eq_refl) as (evs & Ht & Hshape).
  destruct (guardedPass_returns privateKey addr f0) as (r & Hr).
  destruct (guardedPass privateKey addr f0) as [r' f1]. simpl in *. subst r'.
  destruct (closeBrowser_closes f1) as (Hc & _ & _ & Hclose).
  destruct (closeBrowser f1) as [c f2]. simpl in *. subst c.
  assert (Htrace : trace (world f2)
                   = trace (world f)
                     ++ (evs ++ (if bot (locals f1)
                                 then [BotClose (fst (bot_close (machine (world f1))))]
                                 else []))).
  { now rewrite Hclose, Ht, app_assoc. }
  assert (Hs : sessionShape
                 (evs ++ (if bot (locals f1)
                          then [BotClose (fst (bot_close (machine (world f1))))]
                          else []))).
  { destruct Hshape as [[Hb Hq] | (Hb & pre & session & -> & Hpre & Hsess)];
      rewrite Hb.
    - left. now rewrite app_nil_r.
    - right. exists pre, session, (fst (bot_close (machine (world f1)))).
      rewrite <- app_assoc. simpl. auto. }
  destruct r as [status|]; eexists; eexists; simpl;
    (split; [reflexivity|]); split; eauto.
Qed.

Lemma processWallet_refused privateKey (f : Frame Ext) e :
  createWalletConfig privateKey = Thrown e ->
  processWallet privateKey f = (Thrown e, mkFrame (world f) (locals f)).
Proof.
  intros Hcfg. unfold processWallet, bind, inWorld, lift. now rewrite Hcfg.
Qed.

Lemma processWallet_no_file privateKey addr (f : Frame Ext) e :
  createWalletConfig privateKey = Returned addr ->
  ensureDatabaseExists (disk (machine (world f)))
    (clock (ext (machine (world f)))) = Thrown e ->
  processWallet privateKey f = (Thrown e, mkFrame (world f) (locals f)).
Proof.
  intros Hcfg Hdb. unfold processWallet, bind, inWorld, lift, newWalletDatabase.
  rewrite Hcfg. simpl. now rewrite Hdb.
Qed.

(** X15.  [processWallet] and its browser session.  The only exceptions
    that leave [processWallet] are those of the two steps before its [try]
    block: a key that viem refuses, and a database file that is missing and
    cannot be created; both leave before anything is done.  Otherwise the
    pass returns a status whatever the chain, the robot and the store do,
    and its events have the shape of a well handled session: either the
    robot is not used at all, or one session is opened, every use of the
    robot comes after the opening, and the last event of the pass is the
    closing of that session. *)
Theorem processWallet_closes_session :
  forall (privateKey : string) (f : Frame Ext),
    (forall e,
        createWalletConfig privateKey = Thrown e ->
        fst (processWallet privateKey f) = Thrown e
        /\ world (snd (processWallet privateKey f)) = world f)
    /\ (forall addr e,
          createWalletConfig privateKey = Returned addr ->
          ensureDatabaseExists (disk (machine (world f)))
            (clock (ext (machine (world f)))) = Thrown e ->
          fst (processWallet privateKey f) = Thrown e
          /\ world (snd (processWallet privateKey f)) = world f)
    /\ (forall addr created,
          createWalletConfig privateKey = Returned addr ->
          ensureDatabaseExists (disk (machine (world f)))
            (clock (ext (machine (world f)))) = Returned created ->
          exists status evs,
            fst (processWallet privateKey f) = Returned status
            /\ trace (world (snd (processWallet privateKey f)))
               = trace (world f) ++ evs
            /\ sessionShape evs).
Proof.
  intros privateKey f. split; [|split].
  - intros e Hcfg. now rewrite (processWallet_refused privateKey f e Hcfg).
  - intros addr e Hcfg Hdb.
    now rewrite (processWallet_no_file privateKey addr f e Hcfg Hdb).
  - intros addr created. apply processWallet_session.
Qed.

End PassSafety.

(** X15, witness: with the chain and the robot out of reach the pass over
    an unknown wallet still returns; it opens a session, fails to
    initialise it, and closes it. *)
Lemma processWallet_closes_session_witness :
  exists status evs,
    fst (processWallet (H := Offline) "k" (freshFrame emptyStore)) = Returned status
    /\ trace (world (snd (processWallet (H := Offline) "k" (freshFrame emptyStore))))
       = trace (world (freshFrame emptyStore)) ++ evs
    /\ sessionShape evs.
Proof.
  apply (proj2 (proj2 (processWallet_closes_session (H := Offline) "k"
                         (freshFrame emptyStore)))
           "0xAcck" emptyStore); reflexivity.
Defined.

(* ================================================================== *)
(** * Further properties of the campaign *)

Lemma setAt_exchange {T : Type} (h : T) (t : list T) :
  forall k y, nth_error t k = Some y -> Permutation (y :: setAt k h t) (h :: t).
Proof.
  induction t as [|a t IH]; intros [|k] y Hn; simpl in *; try discriminate.
  - inversion Hn; subst. apply perm_swap.
  - eapply perm_trans; [apply perm_swap|].
    eapply perm_trans; [apply perm_skip, (IH k y Hn)|]. apply perm_swap.
Qed.

Lemma setAt_swap_permutation {T : Type} (a : list T) :
  forall i j x y,
    nth_error a i = Some x -> nth_error a j = Some y ->
    Permutation (setAt j x (setAt i y a)) a.
Proof.
  induction a as [|h t IH]; intros [|i] [|j] x y Hi Hj; simpl in *;
    try discriminate.
  - inversion Hi; subst. apply Permutation_refl.
  - inversion Hi; subst. now apply setAt_exchange.
  - inversion Hj; subst. now apply setAt_exchange.
  - apply perm_skip. eapply IH; eauto.
Qed.

Lemma swapAt_permutation {T : Type} (i j : nat) (a : list T) :
  Permutation (swapAt i j a) a.
Proof.
  unfold swapAt.
  destruct (nth_error a i) as [x|] eqn:Hi; [|apply Permutation_refl].
  destruct (nth_error a j) as [y|] eqn:Hj; [|apply Permutation_refl].
  eapply setAt_swap_permutation; eauto.
Qed.

Section Shuffle.
Context {Ext : Type} `{Collaborators Ext} {R : RandomIndex Ext}
        {laws : RandomIndexLaws Ext R}.

Lemma shuffleFrom_run {T : Type} :
  forall (i : nat) (shuffled : list T) (w : World Ext),
    (i < List.length shuffled \/ i = 0)%nat ->
    exists result evs,
      fst (shuffleFrom i shuffled w) = Returned result
      /\ Permutation shuffled result
      /\ trace (snd (shuffleFrom i shuffled w)) = trace w ++ evs
      /\ List.length evs = i
      /\ Forall (drawsIndexBelow (List.length shuffled)) evs
      /\ disk (machine (snd (shuffleFrom i shuffled w))) = disk (machine w).
Proof.
  induction i as [|i IH]; intros shuffled w Hi.
  - exists shuffled, []. simpl. rewrite app_nil_r. repeat split; auto.
  - change (shuffleFrom (S i) shuffled)
      with (bind (drawIndex (S i + 1))
              (fun j => shuffleFrom i (swapAt (S i) j shuffled))).
    unfold bind, drawIndex.
    pose proof (floorRandomTimes_below (S i + 1) (ext (machine w))) as Hbelow.
    destruct (floorRandomTimes (S i + 1) (ext (machine w))) as [j e] eqn:Hdraw.
    simpl in Hbelow.
    match goal with
    | |- context [shuffleFrom i ?a ?w1] =>
        destruct (IH a w1) as (result & evs & Hr & Hp & Ht & Hl & Hd & Hdisk)
    end.
    { left. rewrite (Permutation_length (swapAt_permutation (S i) j shuffled)). lia. }
    exists result, (RandomDrawn (Z.of_nat j) :: evs).
    rewrite Hr, Ht, Hdisk. simpl. rewrite <- app_assoc. simpl.
    split; [reflexivity|].
    split; [eapply perm_trans; [symmetry; apply swapAt_permutation | exact Hp]|].
    split; [reflexivity|]. split; [now rewrite Hl|]. split; [|reflexivity].
    constructor.
    + exists j. split; [reflexivity|]. lia.
    + rewrite (Permutation_length (swapAt_permutation (S i) j shuffled)) in Hd.
      exact Hd.
Qed.

(** X16.  [shuffleArray] returns a permutation of its argument: the same
    elements, each as often as before, in an order decided by the draws.
    For an array of [n] elements it draws [n - 1] indices (none for an
    empty array), every one of them an index of the array since
    [Math.random()] is below 1; it does not throw and leaves the store
    alone. *)
Theorem shuffleArray_permutes :
  forall (T : Type) (array : list T) (w : World Ext),
    exists shuffled evs,
      fst (shuffleArray array w) = Returned shuffled
      /\ Permutation array shuffled
      /\ List.length shuffled = List.length array
      /\ trace (snd (shuffleArray array w)) = trace w ++ evs
      /\ List.length evs = (List.length array - 1)%nat
      /\ Forall (drawsIndexBelow (List.length array)) evs
      /\ disk (machine (snd (shuffleArray array w))) = disk (machine w).
Proof.
  intros T array w. unfold shuffleArray.
  destruct (shuffleFrom_run (List.length array - 1) array w)
    as (result & evs & Hr & Hp & Ht & Hl & Hd & Hdisk); [lia|].
  exists result, evs. repeat split; auto.
  symmetry. now apply Permutation_length.
Qed.

End Shuffle.

Lemma ClockRandom_laws : RandomIndexLaws Z ClockRandom.
Proof.
  intros n e Hn. unfold floorRandomTimes, ClockRandom. simpl.
  assert (0 <= e mod Z.of_nat n < Z.of_nat n) by (apply Z.mod_pos_bound; lia).
  lia.
Qed.

(** X16, witness: three keys shuffled with the clock as random source. *)
Lemma shuffleArray_permutes_witness :
  exists shuffled,
    fst (shuffleArray (R := ClockRandom) ["a"; "b"; "c"] (scriptedWorld emptyStore))
    = Returned shuffled
    /\ Permutation ["a"; "b"; "c"] shuffled.
Proof.
  destruct (shuffleArray_permutes (R := ClockRandom) (laws := ClockRandom_laws)
              string ["a"; "b"; "c"] (scriptedWorld emptyStore))
    as (shuffled & evs & Hr & Hp & _).
  exists shuffled. split; assumption.
Defined.

Lemma sessionsInTurn_nil : sessionsInTurn [].
Proof.
  exists []. split; [reflexivity | constructor].
Qed.

Lemma sessionsInTurn_app a b :
  sessionShape a -> sessionsInTurn b -> sessionsInTurn (a ++ b).
Proof.
  intros Ha (stretches & -> & Hall). exists (a :: stretches).
  split; [reflexivity | now constructor].
Qed.

Lemma sessionsInTurn_quiet evs : Forall notBot evs -> sessionsInTurn evs.
Proof.
  intros Hq. rewrite <- (app_nil_r evs).
  apply sessionsInTurn_app; [now left | apply sessionsInTurn_nil].
Qed.

Lemma sessionsInTurn_concat a b :
  sessionsInTurn a -> sessionsInTurn b -> sessionsInTurn (a ++ b).
Proof.
  intros (sa & -> & Ha) (sb & -> & Hb). exists (sa ++ sb).
  split; [now rewrite concat_app | now apply Forall_app].
Qed.

Section MainLoop.
Context {Ext : Type} `{Collaborators Ext} {R : RandomIndex Ext}.

Lemma processWallet_run privateKey (f : Frame Ext) :
  exists evs,
    trace (world (snd (processWallet privateKey f))) = trace (world f) ++ evs
    /\ sessionShape evs.
Proof.
  destruct (createWalletConfig privateKey) as [addr|e] eqn:Hcfg.
  - destruct (ensureDatabaseExists (disk (machine (world f)))
                (clock (ext (machine (world f))))) as [created|e] eqn:Hdb.
    + destruct (processWallet_session privateKey addr created f Hcfg Hdb)
        as (status & evs & _ & Ht & Hs).
      exists evs. auto.
    + rewrite (processWallet_no_file privateKey addr f e Hcfg Hdb).
      exists []. simpl. rewrite app_nil_r. split; [reflexivity | now left].
  - rewrite (processWallet_refused privateKey f e Hcfg).
    exists []. simpl. rewrite app_nil_r. split; [reflexivity | now left].
Qed.

Lemma smartDelay_quiet spinsPerformed :
  adds Ext notBot (smartDelayBetweenWallets spinsPerformed).
Proof.
  unfold smartDelayBetweenWallets.
  apply adds_bind; [apply adds_draw; intros; reflexivity|].
  intros delay. apply adds_sleep. reflexivity.
Qed.

Lemma walletLoop_unfold privateKey later :
  walletLoop (privateKey :: later)
  = bind (processWallet privateKey) (fun walletResult =>
      bind (match later with
            | [] => ret tt
            | _ :: _ =>
                if shouldSkipWalletDelay (hasWETHBalance walletResult)
                     (dailyTransferCompleted walletResult)
                     (hasAvailableSpins walletResult)
                then ret tt
                else inWorld (smartDelayBetweenWallets (spinsPerformed walletResult))
            end)
        (fun _ => walletLoop later)).
Proof.
  reflexivity.
Qed.

Lemma takesTurns_bind {A B : Type} (c : Pass Ext A) (k : A -> Pass Ext B) :
  takesTurns c -> (forall a, takesTurns (k a)) -> takesTurns (bind c k).
Proof.
  intros Hc Hk f. unfold bind. destruct (Hc f) as (evs & Ht & Hs).
  destruct (c f) as [[a|e] f1]; simpl in *.
  - destruct (Hk a f1) as (evs' & Ht' & Hs').
    exists (evs ++ evs'). rewrite Ht', Ht, app_assoc. split; [reflexivity|].
    now apply sessionsInTurn_concat.
  - exists evs. auto.
Qed.

Lemma takesTurns_quiet {A : Type} (c : Pass Ext A) :
  passAdds Ext notBot c -> takesTurns c.
Proof.
  intros Hc f. destruct (Hc f) as (evs & Ht & Hq & _).
  exists evs. split; [exact Ht | now apply sessionsInTurn_quiet].
Qed.

Lemma takesTurns_tryCatchM {A : Type} (c : Pass Ext A) (h : Error -> Pass Ext A) :
  takesTurns c -> (forall e, takesTurns (h e)) -> takesTurns (tryCatchM c h).
Proof.
  intros Hc Hh f. unfold tryCatchM. destruct (Hc f) as (evs & Ht & Hs).
  destruct (c f) as [[a|e] f1]; simpl in *.
  - exists evs. auto.
  - destruct (Hh e f1) as (evs' & Ht' & Hs').
    exists (evs ++ evs'). rewrite Ht', Ht, app_assoc. split; [reflexivity|].
    now apply sessionsInTurn_concat.
Qed.

Lemma processWallet_takesTurns privateKey : takesTurns (processWallet privateKey).
Proof.
  intros f. destruct (processWallet_run privateKey f) as (evs & Ht & Hs).
  exists evs. split; [exact Ht|].
  rewrite <- (app_nil_r evs).
  apply sessionsInTurn_app; [exact Hs | apply sessionsInTurn_nil].
Qed.

Lemma walletLoop_takesTurns (shuffledKeys : list string) :
  takesTurns (walletLoop shuffledKeys).
Proof.
  induction shuffledKeys as [|privateKey later IH].
  - apply takesTurns_quiet, passAdds_ret.
  - rewrite walletLoop_unfold.
    apply takesTurns_bind; [apply processWallet_takesTurns|].
    intros walletResult. apply takesTurns_bind; [|intros; exact IH].
    apply takesTurns_quiet.
    destruct later; [apply passAdds_ret|].
    destruct (shouldSkipWalletDelay _ _ _); [apply passAdds_ret|].
    apply passAdds_inWorld, smartDelay_quiet.
Qed.

Lemma shuffleFrom_quiet {T : Type} :
  forall (i : nat) (shuffled : list T), adds Ext notBot (shuffleFrom i shuffled).
Proof.
  induction i as [|i IH]; intros shuffled.
  - apply adds_ret.
  - change (shuffleFrom (S i) shuffled)
      with (bind (drawIndex (S i + 1))
              (fun j => shuffleFrom i (swapAt (S i) j shuffled))).
    apply adds_bind; [|intros; apply IH].
    intros w. unfold drawIndex.
    destruct (floorRandomTimes (S i + 1) (ext (machine w))) as [j e]. simpl.
    exists [RandomDrawn (Z.of_nat j)]. split; [reflexivity|].
    repeat constructor.
Qed.

(** X17.  [main], from the loaded keys on.  It never throws: whatever
    leaves a pass is caught and ends the run.  The events of the whole run
    split into stretches, one after the other, each of which either does
    not use the robot or builds one robot, uses it, and ends with the call
    of [close] on it: a robot is built only after [close] has been called
    on the one before it, whatever that call gave.  Whether the browser is
    then really gone is the matter of [close] itself and is not stated
    here.  A key that viem refuses ends the loop where it stands, nothing
    being done for it or for the wallets after it.  And after the last
    wallet nothing follows, no delay in particular. *)
Theorem main_runs_sessions_in_turn :
  forall (privateKeys : list string) (f : Frame Ext),
    fst (main privateKeys f) = Returned tt
    /\ (exists evs,
          trace (world (snd (main privateKeys f))) = trace (world f) ++ evs
          /\ sessionsInTurn evs)
    /\ (exists evs,
          trace (world (snd (walletLoop privateKeys f))) = trace (world f) ++ evs
          /\ sessionsInTurn evs)
    /\ (forall privateKey later e,
          createWalletConfig privateKey = Thrown e ->
          fst (walletLoop (privateKey :: later) f) = Thrown e
          /\ world (snd (walletLoop (privateKey :: later) f)) = world f)
    /\ (forall privateKey,
          snd (walletLoop [privateKey] f) = snd (processWallet privateKey f)).
Proof.
  intros privateKeys f. split; [|split; [|split; [|split]]].
  - unfold main, tryCatchM.
    match goal with
    | |- context [match ?c f with _ => _ end] => destruct (c f) as [[[]|e] f1]
    end; reflexivity.
  - unfold main. apply takesTurns_tryCatchM.
    + apply takesTurns_bind.
      { apply takesTurns_quiet. intros g. unfold inWorld, newWalletDatabase.
        destruct (ensureDatabaseExists (disk (machine (world g)))
                    (clock (ext (machine (world g))))); simpl;
          exists []; rewrite app_nil_r; auto. }
      intros _. apply takesTurns_bind.
      { apply takesTurns_quiet, passAdds_inWorld, adds_silent.
        intros w. reflexivity. }
      intros _. apply takesTurns_bind; [|intros; apply walletLoop_takesTurns].
      apply takesTurns_quiet, passAdds_inWorld, shuffleFrom_quiet.
    + intros e. apply takesTurns_quiet, passAdds_ret.
  - apply walletLoop_takesTurns.
  - intros privateKey later e Hcfg. rewrite walletLoop_unfold. unfold bind.
    rewrite (processWallet_refused privateKey f e Hcfg). simpl. auto.
  - intros privateKey. rewrite walletLoop_unfold. unfold bind, ret.
    destruct (processWallet privateKey f) as [[walletResult|e] f1]; reflexivity.
Qed.

End MainLoop.

(** X17, witness: a run over a good key, an empty key that viem refuses
    and another good key stops at the refused one and still returns. *)
Lemma main_runs_sessions_in_turn_witness :
  fst (main (H := Offline) (R := ClockRandom) ["k"; ""; "m"] (freshFrame emptyStore))
  = Returned tt
  /\ fst (walletLoop (H := Offline) [""; "m"] (freshFrame emptyStore))
     = Thrown TypeError.
Proof.
  destruct (main_runs_sessions_in_turn (H := Offline) (R := ClockRandom)
              ["k"; ""; "m"] (freshFrame emptyStore))
    as (Hmain & _ & _ & Hstop & _).
  split; [exact Hmain|].
  apply (Hstop "" ["m"] TypeError). reflexivity.
Defined.

(* ================================================================== *)
(** * Further properties of the keys *)

Lemma trimRun_NotSpace s : trimRun NotSpace s = NotSpace.
Proof.
  induction s as [|c s IH]; simpl; auto.
Qed.

Lemma hex_is_solid c :
  isSome (hexValue c) = true ->
  trimStep Between c = NotSpace
  /\ Ascii.eqb c "010"%char = false
  /\ Ascii.eqb c "#"%char = false
  /\ Ascii.eqb c "x"%char = false.
Proof.
  destruct c as [[] [] [] [] [] [] [] []]; vm_compute; intros Hc;
    try discriminate; repeat split.
Qed.

(** A string whose characters are hexadecimal digits has no white space
    for [trim] to remove and no line feed. *)
Lemma hex_string_solid digits :
  allHexDigits digits = true ->
  trimEnd digits = digits
  /\ occurs "010"%char digits = false
  /\ (digits <> EmptyString -> trimStart digits = digits)
  /\ (digits <> EmptyString -> trimsToEmpty digits = false).
Proof.
  induction digits as [|c rest IH]; intros Hall.
  - repeat split; congruence.
  - cbn [allHexDigits] in Hall. apply andb_true_iff in Hall as [Hc Hrest].
    destruct (hex_is_solid c Hc) as (Hstep & Hnl & _ & _).
    destruct (IH Hrest) as (Hend & Hocc & _ & _).
    assert (Hblank : trimsToEmpty (String c rest) = false).
    { unfold trimsToEmpty. cbn [trimRun]. now rewrite Hstep, trimRun_NotSpace. }
    split; [|split; [|split]].
    + cbn [trimEnd]. now rewrite Hblank, Hend.
    + cbn [occurs]. now rewrite Hnl, Hocc.
    + intros _. unfold trimStart. cbn [trimStartFrom]. now rewrite Hstep.
    + intros _. exact Hblank.
Qed.

Lemma privateKey_shape k :
  isPrivateKey k = true ->
  exists digits,
    k = String "0" (String "x" digits)
    /\ String.length digits = 64%nat
    /\ allHexDigits digits = true.
Proof.
  unfold isPrivateKey. destruct k as [|a [|b digits]]; try discriminate.
  - destruct a as [[] [] [] [] [] [] [] []]; discriminate.
  - destruct a as [[] [] [] [] [] [] [] []]; try discriminate.
    destruct b as [[] [] [] [] [] [] [] []]; try discriminate.
    intros Hk. apply andb_true_iff in Hk as [Hlen Hall].
    exists digits. apply Nat.eqb_eq in Hlen. auto.
Qed.

Lemma solid_not_blank c rest :
  trimStep Between c = NotSpace -> trimsToEmpty (String c rest) = false.
Proof.
  intros Hstep. unfold trimsToEmpty. cbn [trimRun].
  now rewrite Hstep, trimRun_NotSpace.
Qed.

Lemma privateKey_solid k :
  isPrivateKey k = true ->
  trim k = k /\ trimsToEmpty k = false /\ occurs "010"%char k = false.
Proof.
  intros Hk. destruct (privateKey_shape k Hk) as (digits & -> & Hlen & Hall).
  destruct (hex_string_solid digits Hall) as (Hend & Hocc & _ & _).
  assert (H0 : trimsToEmpty (String "0" (String "x" digits)) = false)
    by (apply solid_not_blank; reflexivity).
  assert (Hx : trimsToEmpty (String "x" digits) = false)
    by (apply solid_not_blank; reflexivity).
  split; [|split].
  - unfold trim, trimStart. cbn [trimStartFrom].
    change (trimStep Between "0"%char) with NotSpace. cbn iota.
    cbn [trimEnd]. now rewrite H0, Hx, Hend.
  - exact H0.
  - cbn [occurs]. rewrite Hocc. reflexivity.
Qed.

Lemma readKeyLine_of_key privateKeys k :
  isPrivateKey k = true -> readKeyLine privateKeys k = privateKeys ++ [k].
Proof.
  intros Hk. unfold readKeyLine. cbv zeta.
  destruct (privateKey_solid k Hk) as (Htrim & _ & _). rewrite Htrim.
  destruct (privateKey_shape k Hk) as (digits & Hshape & _).
  assert (He : isEmpty k = false) by (rewrite Hshape; reflexivity).
  assert (Hc : startsWith "#" k = false) by (rewrite Hshape; reflexivity).
  assert (Hp : startsWith "0x" k = true) by (rewrite Hshape; reflexivity).
  rewrite He, Hc, Hp. cbn [negb andb]. now rewrite Hk.
Qed.

Lemma readKeyLine_of_digits privateKeys digits :
  isPrivateKey (String.append "0x" digits) = true ->
  readKeyLine privateKeys digits = privateKeys ++ [String.append "0x" digits].
Proof.
  intros Hk. unfold readKeyLine. cbv zeta.
  destruct (privateKey_shape _ Hk) as (digits' & Hshape & Hlen & Hall).
  cbn [String.append] in Hshape. inversion Hshape; subst digits'.
  assert (Hne : digits <> EmptyString) by (destruct digits; [discriminate | congruence]).
  destruct (hex_string_solid digits Hall) as (Hend & _ & Hstart & _).
  unfold trim. rewrite (Hstart Hne), Hend.
  destruct digits as [|c rest]; [congruence|].
  cbn [allHexDigits] in Hall. apply andb_true_iff in Hall as [Hc Hrest].
  destruct (hex_is_solid c Hc) as (_ & _ & Hhash & _).
  assert (Hprefix : startsWith "0x" (String c rest) = false).
  { cbn [startsWith]. destruct (Ascii.eqb "0" c); [|reflexivity].
    destruct rest as [|d rest']; [reflexivity|].
    cbn [allHexDigits] in Hrest. apply andb_true_iff in Hrest as [Hd _].
    destruct (hex_is_solid d Hd) as (_ & _ & _ & Hx).
    rewrite Ascii.eqb_sym, Hx. reflexivity. }
  assert (Hcomment : startsWith "#" (String c rest) = false).
  { cbn [startsWith]. now rewrite Ascii.eqb_sym, Hhash. }
  rewrite Hprefix, Hcomment. cbn [isEmpty negb andb]. now rewrite Hk.
Qed.

Lemma readKeyLine_adds privateKeys line :
  readKeyLine privateKeys line = privateKeys ++ keyOfLine line.
Proof.
  unfold keyOfLine, readKeyLine.
  destruct (negb (isEmpty (trim line)) && negb (startsWith "#" (trim line)));
    [|now rewrite app_nil_r].
  destruct (isPrivateKey _); [reflexivity | now rewrite app_nil_r].
Qed.

Lemma readKeyLines_fold lines :
  forall privateKeys,
    List.fold_left readKeyLine lines privateKeys
    = privateKeys ++ List.flat_map keyOfLine lines.
Proof.
  induction lines as [|line lines IH]; intros privateKeys; simpl.
  - now rewrite app_nil_r.
  - now rewrite IH, readKeyLine_adds, <- app_assoc.
Qed.

Lemma keyOfLine_wellformed line k :
  In k (keyOfLine line) -> isPrivateKey k = true.
Proof.
  unfold keyOfLine, readKeyLine.
  destruct (negb (isEmpty (trim line)) && negb (startsWith "#" (trim line)));
    [|intros []].
  destruct (isPrivateKey _) eqn:Hk; [|intros []].
  intros [<- | []]. exact Hk.
Qed.

Lemma flat_map_singletons {A B : Type} (f : A -> list B) (g : A -> B) (l : list A) :
  Forall (fun x => f x = [g x]) l -> List.flat_map f l = List.map g l.
Proof.
  induction 1 as [|x l Hx Hl IH]; simpl; [reflexivity|].
  now rewrite Hx, IH.
Qed.

Lemma readKeyLines_flat content :
  readKeyLines content = List.flat_map keyOfLine (split "010"%char content).
Proof.
  unfold readKeyLines. now rewrite readKeyLines_fold.
Qed.

Lemma readKeyLines_valid content :
  Forall (fun k => isPrivateKey k = true) (readKeyLines content).
Proof.
  rewrite readKeyLines_flat. apply Forall_forall. intros k Hin.
  apply in_flat_map in Hin as (line & _ & Hk).
  exact (keyOfLine_wellformed line k Hk).
Qed.

(** X18.  Reading [keys.txt].  Every key [loadAllPrivateKeys] and
    [migratePlainKeys] take from the file is [0x] followed by exactly 64
    hexadecimal digits; the keys come in the order of their lines, each
    line giving one key or none, so there are never more keys than lines.
    A file made of well-formed keys, one per line, is read back as exactly
    those keys, and so is the same file with the [0x] prefixes left out. *)
Theorem key_lines_are_wellformed :
  forall (content : string),
    readKeyLines content
    = List.flat_map keyOfLine (split "010"%char content)
    /\ Forall (fun k => isPrivateKey k = true /\ String.length k = 66%nat)
              (readKeyLines content)
    /\ (List.length (readKeyLines content)
        <= List.length (split "010"%char content))%nat
    /\ (forall keys,
          Forall (fun k => isPrivateKey k = true) keys ->
          readKeyLines (join (String "010"%char EmptyString) keys) = keys)
    /\ (forall digits,
          Forall (fun d => isPrivateKey (String.append "0x" d) = true) digits ->
          readKeyLines (join (String "010"%char EmptyString) digits)
          = List.map (String.append "0x") digits).
Proof.
  intros content.
  pose proof readKeyLines_flat as Hflat.
  split; [apply Hflat|]. split; [|split; [|split]].
  - eapply Forall_impl; [|apply readKeyLines_valid].
    intros k Hkey. split; [exact Hkey|].
    destruct (privateKey_shape k Hkey) as (digits & -> & Hlen & _).
    simpl. now rewrite Hlen.
  - rewrite Hflat. induction (split "010"%char content) as [|line lines IH];
      simpl; [lia|].
    rewrite length_app.
    assert (List.length (keyOfLine line) <= 1)%nat; [|lia].
    unfold keyOfLine, readKeyLine.
    destruct (negb (isEmpty (trim line)) && negb (startsWith "#" (trim line)));
      [|simpl; lia].
    destruct (isPrivateKey _); simpl; lia.
  - intros keys Hkeys. rewrite Hflat.
    destruct keys as [|k keys]; [reflexivity|].
    rewrite split_join.
    + rewrite (flat_map_singletons keyOfLine (fun k => k)); [apply map_id|].
      eapply Forall_impl; [|exact Hkeys].
      intros a Ha. unfold keyOfLine. now rewrite readKeyLine_of_key.
    + discriminate.
    + eapply Forall_impl; [|exact Hkeys].
      intros a Ha. now destruct (privateKey_solid a Ha) as (_ & _ & Hocc).
  - intros digits Hdigits. rewrite Hflat.
    destruct digits as [|d digits]; [reflexivity|].
    rewrite split_join.
    + apply flat_map_singletons.
      eapply Forall_impl; [|exact Hdigits].
      intros a Ha. unfold keyOfLine. now rewrite readKeyLine_of_digits.
    + discriminate.
    + eapply Forall_impl; [|exact Hdigits].
      intros a Ha. destruct (privateKey_solid _ Ha) as (_ & _ & Hocc).
      simpl in Hocc. exact Hocc.
Qed.

(** X18, witness: a file of one key written without its prefix. *)
Lemma key_lines_are_wellformed_witness :
  readKeyLines (join (String "010"%char EmptyString) [sampleDigits]) = [sampleKey].
Proof.
  apply (proj2 (proj2 (proj2 (proj2 (key_lines_are_wellformed EmptyString))))
           [sampleDigits]).
  repeat constructor.
Defined.

Section KeyLoadingProperties.
Context {C : Crypto} {laws : CryptoLaws C}.

Lemma askPassword_skips (files : KeyFiles) (wrong : list string) :
  Forall (refusedBy files) wrong ->
  forall later, askPassword (wrong ++ later) files = askPassword later files.
Proof.
  induction 1 as [|password wrong (e & He) Hwrong IH]; intros later; simpl.
  - reflexivity.
  - rewrite He. apply IH.
Qed.

Lemma decryptKeys_of_migrated (privateKeys : list string) password salt iv :
  iv <> EmptyString ->
  Forall (fun k => isPrivateKey k = true) privateKeys ->
  decryptKeys password
    (mkKeyFiles
       (Some (String.append (toHex iv)
                (String ":"%char
                   (toHex (cipherBytes (deriveKey password salt) iv
                             (join (String "010"%char EmptyString) privateKeys))))))
       (Some (toHex salt)) true)
  = Returned privateKeys.
Proof.
  intros Hiv Hkeys. unfold decryptKeys.
  rewrite decryptKeys_of_encrypted by exact Hiv.
  rewrite decipher_cipher. simpl. rewrite lines_of_joined; [reflexivity|].
  eapply Forall_impl; [|exact Hkeys].
  intros k Hk. destruct (privateKey_solid k Hk) as (_ & Hblank & Hocc). auto.
Qed.

(** X19.  Migrating the plain keys keeps them.  With a [keys.txt] that holds
    at least one well-formed key, a password of six or more characters
    typed twice, writable key files and a cipher that decrypts what it
    encrypted, [migratePlainKeys] succeeds and leaves both encrypted files
    in place; from then on [loadAllPrivateKeys], whatever [keys.txt] has
    become, returns exactly the keys it would have read from the plain
    file, in the same order, as soon as the password is typed, earlier
    passwords that the cipher refuses being asked again. *)
Theorem plain_keys_survive_migration :
  forall (content password salt iv : string) (files : KeyFiles)
         (keysTxtLater : option string) (wrong later : list string),
    keyFilesWritable files = true ->
    iv <> EmptyString ->
    readKeyLines content <> [] ->
    (6 <= utf16Length password)%nat ->
    exists stored,
      migratePlainKeys (Some content) password password salt iv files
      = Returned stored
      /\ hasEncryptedKeys stored = true
      /\ (Forall (refusedBy stored) wrong ->
          loadAllPrivateKeys stored keysTxtLater (wrong ++ password :: later)
          = Some (Returned (readKeyLines content)))
      /\ loadAllPrivateKeys (mkKeyFiles None None true) (Some content) []
         = Some (Returned (readKeyLines content)).
Proof.
  intros content password salt iv files keysTxtLater wrong later Hw Hiv Hkeys Hlen.
  assert (Hcount : Nat.eqb (List.length (readKeyLines content)) 0 = false).
  { destruct (readKeyLines content); [congruence | reflexivity]. }
  pose proof (readKeyLines_valid content) as Hvalid.
  unfold migratePlainKeys, promptPasswordWithConfirmation, encryptKeys.
  cbn [hasPlainKeys isSome negb]. rewrite Hcount, String.eqb_refl. cbn [negb].
  apply Nat.ltb_ge in Hlen. rewrite Hlen. cbn [andThen]. rewrite Hw.
  eexists. split; [reflexivity|]. split; [reflexivity|]. split.
  - intros Hwrong. unfold loadAllPrivateKeys. cbn [hasEncryptedKeys].
    cbn [encryptedFile saltFile isSome andb].
    rewrite (askPassword_skips _ wrong Hwrong). cbn [askPassword].
    rewrite (decryptKeys_of_migrated _ password salt iv Hiv Hvalid).
    now rewrite Hcount.
  - unfold loadAllPrivateKeys. cbn. now rewrite Hcount.
Qed.

(** X20.  Where [loadAllPrivateKeys] gets its keys.  When both encrypted
    files are present, [keys.txt] plays no part: the answer depends on the
    encrypted files and the passwords typed alone, a password that is
    refused or that decrypts to no key at all is followed by another
    prompt, and as long as every password typed is refused the function is
    still asking: it neither throws nor falls back to the plain file.
    When an encrypted file is missing, the plain file is read: without it
    the function throws, with it and no well-formed key in it the function
    throws as well, and nothing typed is read. *)
Theorem loadAllPrivateKeys_sources :
  forall (files : KeyFiles) (keysTxt : option string) (typed : list string),
    (hasEncryptedKeys files = true ->
     (forall other, loadAllPrivateKeys files keysTxt typed
                    = loadAllPrivateKeys files other typed)
     /\ (Forall (refusedBy files) typed ->
         loadAllPrivateKeys files keysTxt typed = None)
     /\ (forall password later,
           decryptKeys password files = Returned [] ->
           loadAllPrivateKeys files keysTxt (password :: later)
           = loadAllPrivateKeys files keysTxt later)
     /\ (forall e, loadAllPrivateKeys files keysTxt typed <> Some (Thrown e)))
    /\ (hasEncryptedKeys files = false ->
        loadAllPrivateKeys files keysTxt typed
        = loadAllPrivateKeys files keysTxt []
        /\ (keysTxt = None ->
            loadAllPrivateKeys files keysTxt typed = Some (Thrown keysFileNotFound))
        /\ (forall content,
              keysTxt = Some content ->
              readKeyLines content = [] ->
              loadAllPrivateKeys files keysTxt typed
              = Some (Thrown noValidKeysInFile))
        /\ (forall content,
              keysTxt = Some content ->
              readKeyLines content <> [] ->
              loadAllPrivateKeys files keysTxt typed
              = Some (Returned (readKeyLines content)))).
Proof.
  intros files keysTxt typed. unfold loadAllPrivateKeys. split.
  - intros ->. split; [reflexivity|]. split; [|split].
    + intros Hwrong. rewrite <- (app_nil_r typed).
      now rewrite (askPassword_skips files typed Hwrong).
    + intros password later Hnone. cbn [askPassword]. now rewrite Hnone.
    + intros e. destruct (askPassword typed files); discriminate.
  - intros ->. split; [reflexivity|]. split; [|split].
    + now intros ->.
    + intros content -> Hnone. now rewrite Hnone.
    + intros content -> Hsome.
      destruct (readKeyLines content); [congruence | reflexivity].
Qed.

End KeyLoadingProperties.

(** X19, witness: the sample file migrated under the small cipher; a wrong
    password first, then the right one. *)
Lemma plain_keys_survive_migration_witness :
  exists stored,
    migratePlainKeys (C := ToyCrypto) (Some sampleKeysTxt) "secret" "secret"
      "salt" "iv" (mkKeyFiles None None true) = Returned stored
    /\ loadAllPrivateKeys (C := ToyCrypto) stored None ["wrong"; "secret"]
       = Some (Returned [sampleKey; sampleKey]).
Proof.
  destruct (plain_keys_survive_migration (C := ToyCrypto) sampleKeysTxt "secret"
              "salt" "iv" (mkKeyFiles None None true) None ["wrong"] []
              eq_refl ltac:(discriminate) ltac:(discriminate) ltac:(vm_compute; lia))
    as (stored & Hmig & _ & Hload & _).
  exists stored. split; [exact Hmig|].
  change ["wrong"; "secret"] with (["wrong"] ++ ["secret"]).
  change [sampleKey; sampleKey] with (readKeyLines sampleKeysTxt).
  apply Hload. inversion Hmig; subst stored.
  repeat constructor. exists wrongPassword. reflexivity.
Defined.

(** X20, witness: no encrypted file and no [keys.txt]. *)
Lemma loadAllPrivateKeys_sources_witness :
  loadAllPrivateKeys (C := ToyCrypto) (mkKeyFiles None None true) None ["secret"]
  = Some (Thrown keysFileNotFound).
Proof.
  apply (proj2 (loadAllPrivateKeys_sources (C := ToyCrypto)
                  (mkKeyFiles None None true) None ["secret"]));
    reflexivity.
Defined.

(* ================================================================== *)
(** * Further properties of the card read *)

Lemma lowerChar_twice c : lowerChar (lowerChar c) = lowerChar c.
Proof.
  destruct c as [[] [] [] [] [] [] [] []]; reflexivity.
Qed.

Lemma toLowerCase_twice s : toLowerCase (toLowerCase s) = toLowerCase s.
Proof.
  induction s as [|c s IH]; simpl; [reflexivity|].
  now rewrite lowerChar_twice, IH.
Qed.

Lemma spreadSlot_defined {A : Type} (old value : option A) :
  spreadSlot old (definedOrUndefined value) = value.
Proof.
  destruct value; reflexivity.
Qed.

(** X21.  What a card read does to a filed wallet.  The robot saves the
    object [extractWalletData] builds, under the address in lower case;
    the store finds the record whatever the letter case it is asked with.
    On a writable medium, the record found afterwards carries the lower
    case address, the balance and the counters exactly as the card showed
    them, a counter the card did not show being removed; [connectedAt] is
    the instant of the save, not the instant of the read; and the daily
    transfer mark, its date and amount, the last spin date, the last
    activity and the transaction count are those of the record before.  So
    after a card read the spin guard answers by the counter on the card,
    and the daily transfer is marked for the same day as before. *)
Theorem card_read_keeps_transfer_record :
  forall (disk : Store) (now later readAt : Timestamp)
         (accountAddress spelling : string) (cardBalance : option string)
         (cardWethBalance : option Z) (spinInfo : SpinInfo) (old : WalletData),
    writable disk = true ->
    toLowerCase spelling = toLowerCase accountAddress ->
    getWalletData disk now spelling = Some old ->
    let card :=
      extractWalletData accountAddress cardBalance cardWethBalance spinInfo readAt in
    let after := saveWalletData disk now card in
    exists w,
      getWalletData after later spelling = Some w
      /\ address w = toLowerCase accountAddress
      /\ connectedAt w = Some now
      /\ (spinsAvailable w = info_spinsAvailable spinInfo
          /\ prizesWon w = info_prizesWon spinInfo
          /\ gamesPlayed w = info_gamesPlayed spinInfo
          /\ dayStreak w = info_dayStreak spinInfo
          /\ wethBalance w = cardWethBalance)
      /\ (todayTransfer w = todayTransfer old
          /\ lastTransferDate w = lastTransferDate old
          /\ transferAmount w = transferAmount old
          /\ lastSpinDate w = lastSpinDate old
          /\ lastActivity w = lastActivity old
          /\ transactionCount w = transactionCount old)
      /\ checkSpinsAvailable after later spelling = showsSpin spinInfo
      /\ (forall today,
            transferredOn (getWalletData after later spelling) today
            = transferredOn (Some old) today).
Proof.
  intros disk now later readAt accountAddress spelling cardBalance cardWethBalance
    spinInfo old Hw Hspell Hget card after.
  assert (Hkey : toLowerCase spelling = toLowerCase (p_address card)).
  { unfold card, extractWalletData. cbn [p_address].
    now rewrite toLowerCase_twice. }
  rewrite (getWalletData_spelling _ _ _ _ Hkey) in Hget.
  destruct (findIndex_of_found disk now (p_address card) old Hget) as (i & Hf).
  set (merged := set_connectedAt (Some now) (spread (p_address card) old card)).
  assert (Hafter : getWalletData after later spelling = Some merged).
  { rewrite (getWalletData_spelling _ _ _ _ Hkey).
    unfold after, saveWalletData. rewrite Hf.
    apply getWalletData_after_rewrite with (old := old); [exact Hw | exact Hf |].
    now apply isWallet_refl. }
  exists merged. split; [exact Hafter|].
  split; [reflexivity|]. split; [reflexivity|].
  split.
  { unfold merged, card, extractWalletData. cbn.
    rewrite !spreadSlot_defined. repeat split. }
  split; [repeat split|].
  split.
  - unfold checkSpinsAvailable, showsSpin. rewrite Hafter.
    unfold merged, card, extractWalletData. cbn.
    now rewrite spreadSlot_defined.
  - intros today. now rewrite Hafter.
Qed.


(** X21, witness: the wallet filed as ["0xAA"] with two spins is read from
    a card that shows three; it is found as ["0xAa"] with three spins. *)
Lemma card_read_keeps_transfer_record_witness :
  exists w,
    getWalletData
      (saveWalletData twoWallets 5
         (extractWalletData "0xAA" None None threeSpinsCard 4)) 6 "0xAa" = Some w
    /\ address w = "0xaa"
    /\ spinsAvailable w = Some 3.
Proof.
  destruct (card_read_keeps_transfer_record twoWallets 5 6 4 "0xAA" "0xAa" None None
              threeSpinsCard (set_spinsAvailable (Some 2) (blankWallet "0xAA"))
              eq_refl eq_refl eq_refl)
    as (w & Hget & Haddr & _ & (Hspins & _) & _).
  exists w. repeat split; assumption.
Defined.

(* ================================================================== *)
(** * Further properties of the keys: blanks and comments *)

Lemma asciiSpace_step c :
  isAsciiSpace c = true ->
  trimStep Between c = Between
  /\ forall q, q <> Between -> trimStep q c = NotSpace.
Proof.
  destruct c as [[] [] [] [] [] [] [] []]; vm_compute; intros Hc;
    try discriminate; (split; [reflexivity|]);
    intros q Hq; destruct q; try reflexivity; congruence.
Qed.

Lemma trimRun_app q a b : trimRun q (String.append a b) = trimRun (trimRun q a) b.
Proof.
  revert q. induction a as [|c a IH]; intros q; simpl; auto.
Qed.

Lemma trimRun_blank pad :
  allAsciiSpace pad = true ->
  trimRun Between pad = Between
  /\ forall q, q <> Between -> trimRun q pad <> Between.
Proof.
  induction pad as [|c pad IH]; intros Hpad.
  - split; [reflexivity | auto].
  - cbn [allAsciiSpace] in Hpad. apply andb_true_iff in Hpad as [Hc Hpad].
    destruct (asciiSpace_step c Hc) as (Hb & Hq). destruct (IH Hpad) as (IHb & IHq).
    cbn [trimRun]. split.
    + now rewrite Hb.
    + intros q Hne. rewrite (Hq q Hne), trimRun_NotSpace. discriminate.
Qed.

Lemma trimsToEmpty_padded s pad :
  allAsciiSpace pad = true ->
  trimsToEmpty (String.append s pad) = trimsToEmpty s.
Proof.
  intros Hpad. destruct (trimRun_blank pad Hpad) as (Hb & Hq).
  unfold trimsToEmpty. rewrite trimRun_app.
  destruct (trimRun Between s) eqn:Hs; try (now rewrite Hb);
    match goal with
    | |- context [trimRun ?q pad] =>
        pose proof (Hq q ltac:(discriminate)) as Hne;
        destruct (trimRun q pad); try reflexivity; congruence
    end.
Qed.

Lemma trimEnd_padded s pad :
  allAsciiSpace pad = true -> trimEnd (String.append s pad) = trimEnd s.
Proof.
  intros Hpad. induction s as [|c s IH].
  - simpl. destruct pad as [|c pad']; [reflexivity|].
    cbn [trimEnd]. unfold trimsToEmpty.
    now rewrite (proj1 (trimRun_blank _ Hpad)).
  - change (String.append (String c s) pad) with (String c (String.append s pad)).
    cbn [trimEnd].
    change (String c (String.append s pad)) with (String.append (String c s) pad).
    rewrite (trimsToEmpty_padded (String c s) pad Hpad).
    change (String.append (String c s) pad) with (String c (String.append s pad)).
    now rewrite IH.
Qed.

Lemma trimStartFrom_blank pad keep :
  allAsciiSpace pad = true -> trimStartFrom Between pad keep = EmptyString.
Proof.
  revert keep. induction pad as [|c pad IH]; intros keep Hpad; [reflexivity|].
  cbn [allAsciiSpace] in Hpad. apply andb_true_iff in Hpad as [Hc Hpad].
  cbn [trimStartFrom]. rewrite (proj1 (asciiSpace_step c Hc)). now apply IH.
Qed.

Lemma trimStart_padded_left pad s :
  allAsciiSpace pad = true -> trimStart (String.append pad s) = trimStart s.
Proof.
  intros Hpad. unfold trimStart. induction pad as [|c pad IH]; [reflexivity|].
  cbn [allAsciiSpace] in Hpad. apply andb_true_iff in Hpad as [Hc Hpad].
  change (String.append (String c pad) s) with (String c (String.append pad s)).
  cbn [trimStartFrom]. rewrite (proj1 (asciiSpace_step c Hc)). now apply IH.
Qed.

Lemma trimStartFrom_padded pad :
  allAsciiSpace pad = true ->
  forall s q keep,
    trimStartFrom q (String.append s pad) (String.append keep pad)
    = match trimRun q s with
      | Between => EmptyString
      | _ => String.append (trimStartFrom q s keep) pad
      end
    /\ (trimRun q s = Between -> trimStartFrom q s keep = EmptyString).
Proof.
  intros Hpad. induction s as [|c s IH]; intros q keep.
  - cbn [String.append trimRun]. split.
    + destruct q; cbn [trimStartFrom];
        try (now apply trimStartFrom_blank);
        (destruct pad as [|d pad']; [cbn [trimStartFrom]; reflexivity|]);
        cbn [allAsciiSpace] in Hpad; apply andb_true_iff in Hpad as [Hd _];
        cbn [trimStartFrom];
        match goal with
        | |- context [trimStep ?q d] =>
            rewrite (proj2 (asciiSpace_step d Hd) q) by discriminate
        end; reflexivity.
    + now intros ->.
  - change (String.append (String c s) pad) with (String c (String.append s pad)).
    cbn [trimStartFrom trimRun].
    destruct (trimStep q c) eqn:Hstep;
      try (destruct (IH (trimStep q c) keep) as (IH1 & IH2);
           rewrite Hstep in IH1, IH2; split; [exact IH1 | exact IH2]).
    + destruct (IH Between s) as (IH1 & IH2). split; [exact IH1 | exact IH2].
    + rewrite trimRun_NotSpace. split; [reflexivity | discriminate].
Qed.

Lemma trim_padded pad1 pad2 s :
  allAsciiSpace pad1 = true -> allAsciiSpace pad2 = true ->
  trim (String.append pad1 (String.append s pad2)) = trim s.
Proof.
  intros H1 H2. unfold trim. rewrite (trimStart_padded_left pad1 _ H1).
  unfold trimStart.
  destruct (trimStartFrom_padded pad2 H2 s Between s) as (Happ & Hnone).
  rewrite Happ.
  destruct (trimRun Between s) eqn:Hs;
    try (now apply trimEnd_padded).
  now rewrite (Hnone eq_refl).
Qed.

Lemma append_empty s : String.append s EmptyString = s.
Proof.
  induction s as [|c s IH]; simpl; [reflexivity | now rewrite IH].
Qed.

Lemma trim_blank pad : allAsciiSpace pad = true -> trim pad = EmptyString.
Proof.
  intros Hpad. unfold trim, trimStart. now rewrite trimStartFrom_blank.
Qed.

(** X22.  The lines of [keys.txt] are read without regard to the white
    space around them: spaces, tabs and carriage returns before or after a
    line change nothing to the key it gives, so a file with Windows line
    ends or indented keys gives the same keys.  A line of white space gives
    no key, and neither does a line whose first character after the
    leading white space is [#], whatever follows it, a well-formed key
    included. *)
Theorem key_lines_ignore_padding :
  forall (pad1 pad2 : string),
    allAsciiSpace pad1 = true ->
    allAsciiSpace pad2 = true ->
    (forall privateKeys line,
        readKeyLine privateKeys (String.append pad1 (String.append line pad2))
        = readKeyLine privateKeys line)
    /\ (forall privateKeys, readKeyLine privateKeys pad1 = privateKeys)
    /\ (forall privateKeys rest,
          readKeyLine privateKeys (String.append pad1 (String "#" rest))
          = privateKeys).
Proof.
  intros pad1 pad2 H1 H2. split; [|split].
  - intros privateKeys line. unfold readKeyLine. now rewrite trim_padded.
  - intros privateKeys. unfold readKeyLine. now rewrite trim_blank.
  - intros privateKeys rest. unfold readKeyLine. cbv zeta.
    assert (Htrim : exists tail,
               trim (String.append pad1 (String "#" rest)) = String "#" tail).
    { replace (String.append pad1 (String "#" rest))
        with (String.append pad1 (String.append (String "#" rest) EmptyString))
        by (now rewrite append_empty).
      rewrite (trim_padded pad1 EmptyString (String "#" rest) H1 eq_refl).
      unfold trim, trimStart. cbn [trimStartFrom].
      change (trimStep Between "#"%char) with NotSpace. cbn iota.
      cbn [trimEnd]. rewrite solid_not_blank by reflexivity. eauto. }
    destruct Htrim as (tail & ->). reflexivity.
Qed.

(** X22, witness: an indented key followed by a space and a carriage
    return. *)
Lemma key_lines_ignore_padding_witness :
  readKeyLine []
    (String.append "  "
       (String.append sampleKey (String " " (String "013" EmptyString))))
  = readKeyLine [] sampleKey.
Proof.
  apply (proj1 (key_lines_ignore_padding "  " (String " " (String "013" EmptyString))
                  eq_refl eq_refl)).
Defined.

(* ================================================================== *)
(** * Further properties of the balance refresh *)

Section BalanceRefresh.
Context {Ext : Type} `{Collaborators Ext}.

(** X23.  [updateWalletWETHBalance] never throws and makes exactly one
    call to the outside, the balance read.  It answers true exactly when
    the read returned and a record is filed under the address; otherwise
    the store is untouched, and in particular no record is created for an
    unknown address.  When it writes (writable medium), the record found
    afterwards is the old one with [wethBalance] replaced by the amount
    read and nothing else changed, [lastActivity] included, and the store
    counts as many records as before. *)
Theorem updateWalletWETHBalance_refreshes_one_field :
  forall (addr : string) (w : World Ext),
    trace (snd (updateWalletWETHBalance addr w))
    = trace w ++ [RpcBalanceRead addr (fst (readContractBalanceOf addr (ext (machine w))))]
    /\ fst (updateWalletWETHBalance addr w)
       = Returned
           (match fst (readContractBalanceOf addr (ext (machine w))) with
            | Returned _ =>
                isSome (getWalletData (disk (machine w))
                          (clock (snd (readContractBalanceOf addr (ext (machine w)))))
                          addr)
            | Thrown _ => false
            end)
    /\ (fst (updateWalletWETHBalance addr w) = Returned false ->
        disk (machine (snd (updateWalletWETHBalance addr w))) = disk (machine w))
    /\ (forall amount old later,
          fst (readContractBalanceOf addr (ext (machine w))) = Returned amount ->
          writable (disk (machine w)) = true ->
          getWalletData (disk (machine w))
            (clock (snd (readContractBalanceOf addr (ext (machine w))))) addr
          = Some old ->
          getWalletData (disk (machine (snd (updateWalletWETHBalance addr w)))) later
            addr
          = Some (set_wethBalance (Some amount) old)
          /\ fst (getDatabaseStats
                    (disk (machine (snd (updateWalletWETHBalance addr w)))) later)
             = fst (getDatabaseStats (disk (machine w)) later)).
Proof.
  intros addr w.
  unfold updateWalletWETHBalance, getWETHBalanceViaRPC, recordWETHBalance,
    tryCatchM, bind, callExt, ret, getWalletData.
  destruct (readContractBalanceOf addr (ext (machine w))) as [[amount|e] x] eqn:Hread;
    simpl.
  - destruct (findIndex (isWallet addr) (wallets (loadData (disk (machine w)) (clock x))))
      as [[i old]|] eqn:Hf; simpl.
    + unfold findIndex in Hf. rewrite (findIndexFrom_find _ _ _ _ _ Hf). simpl.
      split; [reflexivity|]. split; [reflexivity|]. split; [discriminate|].
      intros amount' old' later Ha Hw Hold. inversion Ha; subst amount'.
      inversion Hold; subst old'. split.
      * apply (getWalletData_after_rewrite (disk (machine w)) (clock x) later addr
                 i old (set_wethBalance (Some amount) old) Hw Hf).
        exact (isWallet_of_found _ _ _ _ Hf).
      * unfold getDatabaseStats. rewrite loadData_saveData by exact Hw. simpl.
        rewrite setAt_length.
        now rewrite (loadData_wallets_any_time (disk (machine w)) (clock x) later).
    + unfold findIndex in Hf. apply findIndexFrom_None in Hf. rewrite Hf. simpl.
      split; [reflexivity|]. split; [reflexivity|]. split; [reflexivity|].
      intros amount' old' later _ _ Hold. discriminate.
  - split; [reflexivity|]. split; [reflexivity|]. split; [reflexivity|].
    intros amount old later Ha. discriminate.
Qed.

End BalanceRefresh.

(** X23, witness: in the scripted world the balance read gives 1000 units;
    the wallet filed as ["0xAA"] gets them, the unknown ["0xdd"] gets no
    record. *)
Lemma updateWalletWETHBalance_refreshes_one_field_witness :
  getWalletData
    (disk (machine (snd (updateWalletWETHBalance "0xaa" (scriptedWorld twoWallets)))))
    0 "0xaa"
  = Some (set_wethBalance (Some 1000)
            (set_spinsAvailable (Some 2) (blankWallet "0xAA")))
  /\ disk (machine (snd (updateWalletWETHBalance "0xdd" (scriptedWorld twoWallets))))
     = twoWallets.
Proof.
  split.
  - apply (proj2 (proj2 (proj2 (updateWalletWETHBalance_refreshes_one_field "0xaa"
                                  (scriptedWorld twoWallets))))
             1000 (set_spinsAvailable (Some 2) (blankWallet "0xAA")) 0);
      reflexivity.
  - apply (proj1 (proj2 (proj2 (updateWalletWETHBalance_refreshes_one_field "0xdd"
                                  (scriptedWorld twoWallets)))));
      reflexivity.
Defined.


(* ================================================================== *)
(** * Clearing secrets from an object *)






(* ================================================================== *)
(** * The browser robot *)

Section Composition.
Context {S : Type}.

Lemma neverThrows_ret {A : Type} (a : A) : neverThrows (S := S) (ret a).
Proof.
  intros s. now exists a.
Qed.

Lemma neverThrows_caught {A : Type} (body : M S A) (handler : Error -> M S A) :
  (forall e, neverThrows (handler e)) -> neverThrows (tryCatchM body handler).
Proof.
  intros Hh s. unfold tryCatchM. destruct (body s) as [[a|e] s'].
  - now exists a.
  - apply Hh.
Qed.

Variable R : S -> S -> Prop.
Hypothesis R_refl : forall s, R s s.
Hypothesis R_trans : forall a b c, R a b -> R b c -> R a c.

Lemma preserves_ret {A : Type} (a : A) : preserves R (ret a).
Proof.
  intros s. apply R_refl.
Qed.

Lemma preserves_throw {A : Type} (e : Error) : preserves R (throw (A := A) e).
Proof.
  intros s. apply R_refl.
Qed.

Lemma preserves_bind {A B : Type} (c : M S A) (k : A -> M S B) :
  preserves R c -> (forall a, preserves R (k a)) -> preserves R (bind c k).
Proof.
  intros Hc Hk s. unfold bind. specialize (Hc s).
  destruct (c s) as [[a|e] s']; simpl in *; [|exact Hc].
  exact (R_trans _ _ _ Hc (Hk a s')).
Qed.

Lemma preserves_tryCatchM {A : Type} (body : M S A) (handler : Error -> M S A) :
  preserves R body -> (forall e, preserves R (handler e)) ->
  preserves R (tryCatchM body handler).
Proof.
  intros Hb Hh s. unfold tryCatchM. specialize (Hb s).
  destruct (body s) as [[a|e] s']; simpl in *; [exact Hb|].
  exact (R_trans _ _ _ Hb (Hh e s')).
Qed.

End Composition.

Section RobotProperties.
Context {Ext : Type} `{Collaborators Ext} {P : Playwright Ext}.

Lemma sameDisk_refl (m : Machine (Robot Ext)) : sameDisk m m.
Proof.
  reflexivity.
Qed.

Lemma sameDisk_trans (a b c : Machine (Robot Ext)) :
  sameDisk a b -> sameDisk b c -> sameDisk a c.
Proof.
  unfold sameDisk. congruence.
Qed.

Lemma sameAddresses_refl t (m : Machine (Robot Ext)) : sameAddresses t m m.
Proof.
  reflexivity.
Qed.

Lemma sameAddresses_trans t (a b c : Machine (Robot Ext)) :
  sameAddresses t a b -> sameAddresses t b c -> sameAddresses t a c.
Proof.
  unfold sameAddresses. congruence.
Qed.

Lemma sameDisk_sameAddresses t (a b : Machine (Robot Ext)) :
  sameDisk a b -> sameAddresses t a b.
Proof.
  unfold sameDisk, sameAddresses. now intros ->.
Qed.

Lemma preserves_weaken {A : Type} (R R' : Machine (Robot Ext) -> Machine (Robot Ext) -> Prop)
  (c : Bot Ext A) :
  (forall a b, R a b -> R' a b) -> preserves R c -> preserves R' c.
Proof.
  intros Hsub Hc m. apply Hsub, Hc.
Qed.

Lemma onOutside_sameDisk {A : Type} (f : Ext -> Outcome A * Ext) :
  preserves sameDisk (onOutside f).
Proof.
  intros m. unfold onOutside. now destruct (f (outside (ext m))).
Qed.

Lemma onOutsideSafe_sameDisk {A : Type} (f : Ext -> A * Ext) :
  preserves sameDisk (onOutsideSafe f).
Proof.
  intros m. unfold onOutsideSafe. now destruct (f (outside (ext m))).
Qed.

Lemma setField_sameDisk (g : Robot Ext -> Robot Ext) :
  preserves sameDisk (setField g).
Proof.
  intros m. reflexivity.
Qed.

Lemma whenField_preserves R (field : Robot Ext -> bool) body :
  (forall m : Machine (Robot Ext), R m m) ->
  preserves R body -> preserves R (whenField field body).
Proof.
  intros Hrefl Hb m. unfold whenField. destruct (field (ext m)); [apply Hb | apply Hrefl].
Qed.

(** Building blocks that leave the file alone, for [auto]. *)
Lemma sameDisk_bind {A B : Type} (c : Bot Ext A) (k : A -> Bot Ext B) :
  preserves sameDisk c -> (forall a, preserves sameDisk (k a)) ->
  preserves sameDisk (bind c k).
Proof.
  apply preserves_bind, sameDisk_trans.
Qed.

Lemma sameDisk_tryCatchM {A : Type} (body : Bot Ext A) (handler : Error -> Bot Ext A) :
  preserves sameDisk body -> (forall e, preserves sameDisk (handler e)) ->
  preserves sameDisk (tryCatchM body handler).
Proof.
  apply preserves_tryCatchM, sameDisk_trans.
Qed.

Lemma sameDisk_ret {A : Type} (a : A) :
  preserves sameDisk (ret (S := Machine (Robot Ext)) a).
Proof.
  intros m. reflexivity.
Qed.

Lemma sameDisk_throw {A : Type} (e : Error) :
  preserves sameDisk (throw (S := Machine (Robot Ext)) (A := A) e).
Proof.
  intros m. reflexivity.
Qed.

Lemma sameDisk_pure {A : Type} (f : Machine (Robot Ext) -> Outcome A) :
  preserves sameDisk (fun m => (f m, m)).
Proof.
  intros m. reflexivity.
Qed.

Ltac quiet :=
  repeat first
    [ apply sameDisk_ret | apply sameDisk_throw | apply onOutside_sameDisk
    | apply onOutsideSafe_sameDisk | apply setField_sameDisk
    | apply sameDisk_pure
    | apply whenField_preserves; [apply sameDisk_refl|]
    | apply sameDisk_tryCatchM; [|intros ?]
    | apply sameDisk_bind; [|intros ?]
    | match goal with |- preserves _ (if ?b then _ else _) => destruct b end ].

Lemma connect_sameDisk : preserves sameDisk LineaRewardsConnector_connect.
Proof.
  unfold LineaRewardsConnector_connect. quiet.
Qed.

Lemma extractWalletData_sameDisk privateKey :
  preserves sameDisk (WalletDataExtractor_extractWalletData privateKey).
Proof.
  unfold WalletDataExtractor_extractWalletData. quiet.
Qed.

Lemma initializeWithProgrammaticWallet_sameDisk :
  preserves sameDisk initializeWithProgrammaticWallet.
Proof.
  unfold initializeWithProgrammaticWallet. quiet.
Qed.

Lemma initialize_sameDisk privateKey : preserves sameDisk (initialize privateKey).
Proof.
  unfold initialize. quiet.
Qed.

Lemma close_sameDisk : preserves sameDisk close.
Proof.
  unfold close. quiet.
Qed.


Lemma neverThrows_guarded {A : Type} (test : Machine (Robot Ext) -> bool)
  (a : A) (c : Bot Ext A) :
  neverThrows c ->
  neverThrows (fun m => if test m then (Returned a, m) else c m).
Proof.
  intros Hc m. destruct (test m); [now exists a | apply Hc].
Qed.

Lemma rabbyPath_run privateKey (m : Machine (Robot Ext)) :
  let path :=
    bind (setField (set_rabbyWallet true)) (fun _ =>
    bind (onOutside rabby_initialize) (fun _ =>
    bind (onOutside (rabby_importWallet privateKey)) (fun _ =>
    bind (onOutside rabby_getPage) (fun _ =>
    bind (setField (set_page true)) (fun _ =>
    setField (set_lineaRewardsConnector true)))))) in
  this_rabbyWallet (ext (snd (path m))) = true
  /\ this_browser (ext (snd (path m))) = this_browser (ext m)
  /\ this_context (ext (snd (path m))) = this_context (ext m)
  /\ (if rabbyStarts privateKey (outside (ext m))
      then fst (path m) = Returned tt
           /\ this_page (ext (snd (path m))) = true
           /\ this_lineaRewardsConnector (ext (snd (path m))) = true
      else (exists e, fst (path m) = Thrown e)
           /\ this_page (ext (snd (path m))) = this_page (ext m)
           /\ this_lineaRewardsConnector (ext (snd (path m)))
              = this_lineaRewardsConnector (ext m)).
Proof.
  intros path. subst path.
  unfold rabbyStarts, bind, setField, modify, onOutside. simpl.
  destruct (rabby_initialize (outside (ext m))) as [[[]|e1] x1]; simpl;
    [|now eauto 10].
  destruct (rabby_importWallet privateKey x1) as [[a|e2] x2]; simpl;
    [|now eauto 10].
  destruct (rabby_getPage x2) as [[[]|e3] x3]; simpl; now eauto 10.
Qed.

Lemma fallback_fields (m : Machine (Robot Ext)) :
  this_lineaRewardsConnector (ext (snd (initializeWithProgrammaticWallet m)))
  = this_lineaRewardsConnector (ext m)
  /\ this_rabbyWallet (ext (snd (initializeWithProgrammaticWallet m)))
     = this_rabbyWallet (ext m).
Proof.
  unfold initializeWithProgrammaticWallet, tryCatchM, bind, setField, modify,
    onOutside, throw. simpl.
  destruct (chromium_launch (outside (ext m))) as [[[]|e1] x1]; simpl; [|now auto].
  destruct (browser_newContext x1) as [[[]|e2] x2]; simpl; [|now auto].
  destruct (context_newPage x2) as [[[]|e3] x3]; simpl; now auto.
Qed.

Lemma connectToLineaRewards_refuses privateKey (m : Machine (Robot Ext)) :
  this_page (ext m) && this_lineaRewardsConnector (ext m) = false ->
  connectToLineaRewards privateKey m = (Thrown notInitialised, m).
Proof.
  intros Hnot. unfold connectToLineaRewards.
  destruct (this_page (ext m)), (this_lineaRewardsConnector (ext m));
    try discriminate; reflexivity.
Qed.

Lemma reloadAndReconnect_without_connector privateKey (m : Machine (Robot Ext)) :
  this_lineaRewardsConnector (ext m) = false ->
  fst (reloadAndReconnect privateKey m) = Returned false
  /\ sameDisk m (snd (reloadAndReconnect privateKey m)).
Proof.
  intros Hnone. unfold reloadAndReconnect, sameDisk.
  destruct (this_page (ext m)) eqn:Hpage; simpl; [|now split].
  unfold tryCatchM, bind, onOutside, ret.
  destruct (page_reload (outside (ext m))) as [[[]|e1] x1]; simpl; [|now split].
  destruct (page_waitForTimeout 3000 x1) as [[[]|e2] x2]; simpl; [|now split].
  rewrite connectToLineaRewards_refuses; [now split|].
  simpl. rewrite Hnone. apply andb_false_r.
Qed.

(** X25.  Which methods of the robot can throw.  [spinWheel],
    [reloadAndReconnect], [extractAndSaveWalletData],
    [updateWalletStatsAfterSpin] and [close], as the connector's [connect]
    and the extractor's [extractWalletData], return from every state,
    whatever the page and the libraries do: each wraps its work in a
    [try] whose [catch] returns.  [connectToLineaRewards] throws exactly
    when the page or the connector is missing, then with its own error and
    before doing anything; otherwise it returns.  [initialize] can throw
    only out of its fallback: when it throws, the Rabby path did not run
    to its end. *)
Theorem robot_contains_failures (privateKey walletAddress : string) :
  neverThrows (spinWheel privateKey walletAddress)
  /\ neverThrows (reloadAndReconnect privateKey)
  /\ neverThrows (extractAndSaveWalletData privateKey)
  /\ neverThrows (updateWalletStatsAfterSpin privateKey walletAddress)
  /\ neverThrows close
  /\ neverThrows LineaRewardsConnector_connect
  /\ neverThrows (WalletDataExtractor_extractWalletData privateKey)
  /\ (forall m,
        if this_page (ext m) && this_lineaRewardsConnector (ext m)
        then exists connected,
               fst (connectToLineaRewards privateKey m) = Returned connected
        else connectToLineaRewards privateKey m = (Thrown notInitialised, m))
  /\ (forall m e,
        fst (initialize privateKey m) = Thrown e ->
        rabbyStarts privateKey (outside (ext m)) = false).
Proof.
  repeat split.
  - unfold spinWheel.
    apply (neverThrows_guarded (fun m => negb (this_page (ext m)))).
    apply neverThrows_caught. intros e. apply neverThrows_ret.
  - unfold reloadAndReconnect.
    apply (neverThrows_guarded (fun m => negb (this_page (ext m)))).
    apply neverThrows_caught. intros e. apply neverThrows_ret.
  - unfold extractAndSaveWalletData.
    apply (neverThrows_guarded (fun m => negb (this_page (ext m)))).
    apply neverThrows_caught. intros e. apply neverThrows_ret.
  - unfold updateWalletStatsAfterSpin.
    apply (neverThrows_guarded (fun m => negb (this_page (ext m)))).
    apply neverThrows_caught. intros e. apply neverThrows_ret.
  - apply neverThrows_caught. intros e. apply neverThrows_ret.
  - apply neverThrows_caught. intros e. apply neverThrows_ret.
  - apply neverThrows_caught. intros e. apply neverThrows_ret.
  - intros m.
    destruct (this_page (ext m) && this_lineaRewardsConnector (ext m)) eqn:Hready.
    + unfold connectToLineaRewards.
      apply andb_prop in Hready. destruct Hready as [-> ->]. simpl.
      apply (neverThrows_caught _ (fun _ => ret false)).
      intros e. apply neverThrows_ret.
    + now apply connectToLineaRewards_refuses.
  - intros m e Hthrown.
    destruct (rabbyStarts privateKey (outside (ext m))) eqn:Hstarts; [|reflexivity].
    pose proof (rabbyPath_run privateKey m) as (_ & _ & _ & Hpath).
    rewrite Hstarts in Hpath. destruct Hpath as (Hret & _).
    unfold initialize, tryCatchM in Hthrown. cbv zeta in Hret.
    match type of Hret with
    | fst (?path m) = _ => destruct (path m) as [[[]|e'] m']
    end; simpl in Hret |- *; [discriminate | discriminate].
Qed.

Lemma initialize_fields privateKey (m : Machine (Robot Ext)) :
  this_lineaRewardsConnector (ext m) = false ->
  this_lineaRewardsConnector (ext (snd (initialize privateKey m)))
  = rabbyStarts privateKey (outside (ext m))
  /\ this_rabbyWallet (ext (snd (initialize privateKey m))) = true
  /\ (rabbyStarts privateKey (outside (ext m)) = true ->
      fst (initialize privateKey m) = Returned tt
      /\ this_page (ext (snd (initialize privateKey m))) = true
      /\ this_browser (ext (snd (initialize privateKey m))) = this_browser (ext m)
      /\ this_context (ext (snd (initialize privateKey m))) = this_context (ext m)).
Proof.
  intros Hnone.
  pose proof (rabbyPath_run privateKey m)
    as (Hrabby & Hbrowser & Hcontext & Hpath).
  cbv zeta in Hrabby, Hbrowser, Hcontext, Hpath.
  unfold initialize, tryCatchM.
  match type of Hrabby with
  | this_rabbyWallet (ext (snd (?path m))) = _ =>
      destruct (path m) as [[[]|e] m1] eqn:Hrun
  end; simpl in *.
  - destruct (rabbyStarts privateKey (outside (ext m))).
    + destruct Hpath as (_ & Hpage & Hconn). now auto.
    + destruct Hpath as ((e & He) & _). discriminate.
  - destruct (rabbyStarts privateKey (outside (ext m))).
    + destruct Hpath as (He & _). discriminate.
    + destruct Hpath as (_ & _ & Hconn).
      destruct (fallback_fields m1) as (Hc & Hr).
      rewrite Hc, Hr, Hconn. split; [exact Hnone|]. split; [exact Hrabby|].
      discriminate.
Qed.

(** X26.  The fallback of [initialize] gives a page but no connector.
    For a robot that has no connector yet, the connector exists after
    [initialize] exactly when the Rabby path ran to its end (the
    extension started, the key was imported, the page was found); then
    [initialize] returned, the page is set and no browser of the robot's
    own was launched.  In every other case, whether the fallback then
    returned or threw, [connectToLineaRewards] throws its error without
    doing anything and [reloadAndReconnect] answers [false] and leaves the
    file alone.  The Rabby wallet object is held in both cases. *)
Theorem fallback_cannot_connect (privateKey : string) (m : Machine (Robot Ext)) :
  this_lineaRewardsConnector (ext m) = false ->
  let after := snd (initialize privateKey m) in
  this_lineaRewardsConnector (ext after)
  = rabbyStarts privateKey (outside (ext m))
  /\ this_rabbyWallet (ext after) = true
  /\ sameDisk m after
  /\ (rabbyStarts privateKey (outside (ext m)) = true ->
        fst (initialize privateKey m) = Returned tt
        /\ this_page (ext after) = true
        /\ this_browser (ext after) = this_browser (ext m)
        /\ this_context (ext after) = this_context (ext m))
  /\ (rabbyStarts privateKey (outside (ext m)) = false ->
        connectToLineaRewards privateKey after = (Thrown notInitialised, after)
        /\ fst (reloadAndReconnect privateKey after) = Returned false
        /\ sameDisk after (snd (reloadAndReconnect privateKey after))).
Proof.
  intros Hnone after.
  destruct (initialize_fields privateKey m Hnone) as (Hconn & Hheld & Hup).
  split; [exact Hconn|]. split; [exact Hheld|].
  split; [apply initialize_sameDisk|]. split; [exact Hup|].
  intros Hdown. subst after. rewrite Hdown in Hconn. split.
  - apply connectToLineaRewards_refuses. rewrite Hconn. apply andb_false_r.
  - now apply reloadAndReconnect_without_connector.
Qed.


(** ** What the robot does to the file *)

Lemma sameAddresses_bind t {A B : Type} (c : Bot Ext A) (k : A -> Bot Ext B) :
  preserves (sameAddresses t) c -> (forall a, preserves (sameAddresses t) (k a)) ->
  preserves (sameAddresses t) (bind c k).
Proof.
  apply preserves_bind, sameAddresses_trans.
Qed.

Lemma quiet_sameAddresses t {A : Type} (c : Bot Ext A) :
  preserves sameDisk c -> preserves (sameAddresses t) c.
Proof.
  apply preserves_weaken. apply sameDisk_sameAddresses.
Qed.

Lemma preserves_caught {A : Type}
  (R : Machine (Robot Ext) -> Machine (Robot Ext) -> Prop)
  (body : Bot Ext A) (a : Error -> A) :
  preserves R body -> preserves R (tryCatchM body (fun e => ret (a e))).
Proof.
  intros Hb m. unfold tryCatchM. specialize (Hb m).
  now destruct (body m) as [[r|e] m'].
Qed.

Lemma preserves_guarded {A : Type}
  (R : Machine (Robot Ext) -> Machine (Robot Ext) -> Prop)
  (test : Machine (Robot Ext) -> bool) (a : Outcome A) (c : Bot Ext A) :
  (forall m, R m m) -> preserves R c ->
  preserves R (fun m => if test m then (a, m) else c m).
Proof.
  intros Hrefl Hc m. destruct (test m); [apply Hrefl | apply Hc].
Qed.

Lemma updateWalletStats_addresses (store : Store) now addr (stats : WalletPatch) t :
  p_address stats = None ->
  List.map address (getAllWallets (updateWalletStats store now addr stats) t)
  = List.map address (getAllWallets store t).
Proof.
  intros Hkeep. unfold updateWalletStats, getAllWallets.
  destruct (findIndex (isWallet addr) (wallets (loadData store now)))
    as [[i old]|] eqn:Hf; [|reflexivity].
  destruct (writable store) eqn:Hw.
  - rewrite loadData_saveData by exact Hw. simpl.
    rewrite (loadData_wallets_any_time store t now).
    apply findIndex_spec in Hf. destruct Hf as (Hnth & _).
    apply (map_setAt_same address _ _ i old Hnth).
    now rewrite Hkeep.
  - now rewrite saveData_unwritable by exact Hw.
Qed.

Lemma saveWalletData_filedKeys (store : Store) now (walletData : WalletObject) t :
  filedKeys t (saveWalletData store now walletData) = filedKeys t store
  \/ (getWalletData store t (p_address walletData) = None
      /\ filedKeys t (saveWalletData store now walletData)
         = filedKeys t store ++ [toLowerCase (p_address walletData)]).
Proof.
  destruct (saveWalletData_cases store now walletData)
    as (ws & new & Hsave & _ & _ & _ & _ & _ & _ & Hkeys & _).
  rewrite Hsave. unfold filedKeys, getAllWallets.
  destruct (writable store) eqn:Hw.
  - rewrite loadData_saveData by exact Hw. simpl. rewrite Hkeys.
    rewrite (loadData_wallets_any_time store t now).
    rewrite (getWalletData_any_time store t now).
    destruct (getWalletData store now (p_address walletData)); simpl; auto.
  - rewrite saveData_unwritable by exact Hw. now left.
Qed.

Lemma extractWalletData_card privateKey (m : Machine (Robot Ext)) walletData :
  fst (WalletDataExtractor_extractWalletData privateKey m) = Returned (Some walletData) ->
  exists account,
    privateKeyToAccount privateKey = Returned account
    /\ p_address walletData = toLowerCase account.
Proof.
  unfold WalletDataExtractor_extractWalletData, tryCatchM, bind, onOutside,
    onOutsideSafe, ret.
  destruct (page_waitForTimeout 3000 (outside (ext m))) as [[[]|e1] x1]; simpl;
    [|discriminate].
  destruct (privateKeyToAccount privateKey) as [account|e2]; simpl; [|discriminate].
  destruct (extractBalance (toLowerCase account) x1) as [cardBalance x2]. simpl.
  destruct (extractorWETHBalance (toLowerCase account) x2) as [cardWeth x3]. simpl.
  destruct (extractSpinInfo x3) as [spinInfo x4]. simpl.
  intros Hcard. inversion Hcard. exists account. split; reflexivity.
Qed.

Lemma filesCard_refl privateKey t (m : Machine (Robot Ext)) :
  filesCard privateKey t m m.
Proof.
  now left.
Qed.

Lemma filesCard_of_sameDisk privateKey t (a b : Machine (Robot Ext)) :
  sameDisk a b -> filesCard privateKey t a b.
Proof.
  unfold sameDisk. intros Hd. left. now rewrite Hd.
Qed.

Lemma filesCard_after privateKey t (a b c : Machine (Robot Ext)) :
  sameDisk a b -> filesCard privateKey t b c -> filesCard privateKey t a c.
Proof.
  unfold sameDisk, filesCard. now intros ->.
Qed.

Lemma filesCard_before privateKey t (a b c : Machine (Robot Ext)) :
  filesCard privateKey t a b -> sameDisk b c -> filesCard privateKey t a c.
Proof.
  unfold sameDisk, filesCard. now intros Hab ->.
Qed.

Lemma filesCard_after_quiet privateKey t {A B : Type}
  (c : Bot Ext A) (k : A -> Bot Ext B) :
  preserves sameDisk c -> (forall a, preserves (filesCard privateKey t) (k a)) ->
  preserves (filesCard privateKey t) (bind c k).
Proof.
  intros Hc Hk m. unfold bind. specialize (Hc m).
  destruct (c m) as [[a|e] m1]; simpl in *.
  - exact (filesCard_after _ _ _ _ _ Hc (Hk a m1)).
  - now apply filesCard_of_sameDisk.
Qed.

Lemma extractAndSaveWalletData_files privateKey t :
  preserves (filesCard privateKey t) (extractAndSaveWalletData privateKey).
Proof.
  unfold extractAndSaveWalletData.
  apply (preserves_guarded _ (fun m => negb (this_page (ext m))) (Returned tt));
    [apply filesCard_refl|].
  apply (preserves_caught _ _ (fun _ => tt)).
  apply filesCard_after_quiet; [apply onOutsideSafe_sameDisk|].
  intros [|]; simpl; [|intros m; apply filesCard_refl].
  intros m. unfold bind.
  pose proof (extractWalletData_sameDisk privateKey m) as Hquiet.
  pose proof (extractWalletData_card privateKey m) as Hcard.
  destruct (WalletDataExtractor_extractWalletData privateKey m)
    as [[[walletData|]|e] m1]; simpl in *;
    try (now apply filesCard_of_sameDisk).
  destruct (Hcard walletData eq_refl) as (account & Hkey & Haddr).
  unfold sameDisk in Hquiet. unfold filesCard, onStore. simpl.
  rewrite <- Hquiet.
  destruct (saveWalletData_filedKeys (disk m1) (clock (outside (ext m1)))
              walletData t) as [Hsame|(Hnew & Hkeys)]; [now left|].
  right. exists account. split; [exact Hkey|]. split.
  - rewrite <- Hnew. apply getWalletData_spelling.
    rewrite Haddr. now rewrite toLowerCase_twice.
  - rewrite Hkeys, Haddr. now rewrite toLowerCase_twice.
Qed.

Lemma connectToLineaRewards_files privateKey t :
  preserves (filesCard privateKey t) (connectToLineaRewards privateKey).
Proof.
  unfold connectToLineaRewards.
  apply (preserves_guarded _
           (fun m => negb (this_page (ext m))
                     || negb (this_lineaRewardsConnector (ext m)))
           (Thrown notInitialised));
    [apply filesCard_refl|].
  apply (preserves_caught _ _ (fun _ => false)).
  apply filesCard_after_quiet; [apply connect_sameDisk|].
  intros [|]; simpl; [|intros m; apply filesCard_refl].
  intros m. unfold bind, ret.
  pose proof (extractAndSaveWalletData_files privateKey t m) as Hfiles.
  now destruct (extractAndSaveWalletData privateKey m) as [[[]|e] m1].
Qed.

Lemma updateWalletStatsAfterSpin_addresses privateKey walletAddress t :
  preserves (sameAddresses t) (updateWalletStatsAfterSpin privateKey walletAddress).
Proof.
  unfold updateWalletStatsAfterSpin.
  apply (preserves_guarded _ (fun m => negb (this_page (ext m))) (Returned tt));
    [apply sameAddresses_refl|].
  apply (preserves_caught _ _ (fun _ => tt)).
  apply sameAddresses_bind;
    [apply quiet_sameAddresses, onOutside_sameDisk | intros _].
  apply sameAddresses_bind;
    [apply quiet_sameAddresses, extractWalletData_sameDisk | intros [walletData|]];
    [|intros m; apply sameAddresses_refl].
  apply sameAddresses_bind;
    [apply quiet_sameAddresses, sameDisk_pure | intros now].
  intros m. unfold sameAddresses, onStore. simpl.
  now apply updateWalletStats_addresses.
Qed.

(** X27.  What each method of the robot can do to the backing file, from
    any state and whatever the page and the libraries do.  [initialize],
    [close], the connector's [connect] and the extractor's
    [extractWalletData] leave the file as it is.  [spinWheel] and
    [updateWalletStatsAfterSpin] rewrite at most the fields of a record:
    the file keeps the same records under the same addresses, in the same
    order.  [extractAndSaveWalletData], [connectToLineaRewards] and
    [reloadAndReconnect] keep the keys of the file or add one key at the
    end: the account of the robot's private key, in lower case, and only
    when it was not filed. *)
Theorem robot_file_effects (privateKey walletAddress : string) (t : Timestamp) :
  preserves sameDisk (initialize privateKey)
  /\ preserves sameDisk close
  /\ preserves sameDisk LineaRewardsConnector_connect
  /\ preserves sameDisk (WalletDataExtractor_extractWalletData privateKey)
  /\ preserves (sameAddresses t) (updateWalletStatsAfterSpin privateKey walletAddress)
  /\ preserves (sameAddresses t) (spinWheel privateKey walletAddress)
  /\ preserves (filesCard privateKey t) (extractAndSaveWalletData privateKey)
  /\ preserves (filesCard privateKey t) (connectToLineaRewards privateKey)
  /\ preserves (filesCard privateKey t) (reloadAndReconnect privateKey).
Proof.
  split; [apply initialize_sameDisk|].
  split; [apply close_sameDisk|].
  split; [apply connect_sameDisk|].
  split; [apply extractWalletData_sameDisk|].
  split; [apply updateWalletStatsAfterSpin_addresses|].
  split; [|split; [apply extractAndSaveWalletData_files|]].
  - unfold spinWheel.
    apply (preserves_guarded _ (fun m => negb (this_page (ext m)))
             (Returned (mkSpinResult false (Some "Страница не инициализирована"))));
      [apply sameAddresses_refl|].
    apply (preserves_caught _ _ (fun _ => mkSpinResult false (Some "error.message"))).
    apply sameAddresses_bind;
      [apply quiet_sameAddresses, onOutside_sameDisk | intros _].
    apply sameAddresses_bind; [|intros _ m; apply sameAddresses_refl].
    apply (preserves_caught _ _ (fun _ => tt)).
    apply updateWalletStatsAfterSpin_addresses.
  - split; [apply connectToLineaRewards_files|].
    unfold reloadAndReconnect.
    apply (preserves_guarded _ (fun m => negb (this_page (ext m))) (Returned false));
      [apply filesCard_refl|].
    apply (preserves_caught _ _ (fun _ => false)).
    apply filesCard_after_quiet; [apply onOutside_sameDisk | intros _].
    apply filesCard_after_quiet; [apply onOutside_sameDisk | intros _].
    intros m. unfold bind, ret.
    pose proof (connectToLineaRewards_files privateKey t m) as Hfiles.
    now destruct (connectToLineaRewards privateKey m) as [[[|]|e] m1].
Qed.

(** ** Closing *)

Lemma close_connector (m : Machine (Robot Ext)) :
  this_lineaRewardsConnector (ext (snd (close m)))
  = this_lineaRewardsConnector (ext m).
Proof.
  destruct m as [store [b c p r l x]].
  unfold close, tryCatchM, bind, whenField, onOutside, onOutsideSafe, setField,
    modify, ret. simpl.
  destruct p; simpl; [destruct (page_close x) as [[[]|e] x1]; simpl|];
    try reflexivity;
    (destruct r; simpl;
     (destruct c; simpl;
      [match goal with
       | |- context [context_close ?y] =>
           destruct (context_close y) as [[[]|e] x2]; simpl
       end|];
      try reflexivity;
      (destruct b; simpl;
       [match goal with
        | |- context [browser_close ?y] =>
            destruct (browser_close y) as [[[]|e] x3]; simpl
        end|];
       reflexivity))).
Qed.

(** X28.  [close] gives up at the first step that throws.  It always
    returns and never touches the connector.  When [page.close()] throws,
    nothing else is done: every field of the robot stays as it was, the
    Rabby wallet is not cleaned up, and the outside is what the failed
    call left.  When the three [close] calls of Playwright cannot throw,
    [close] ends with the page, the Rabby wallet, the context and the
    browser all released. *)
Theorem close_stops_at_first_failure (m : Machine (Robot Ext)) :
  fst (close m) = Returned tt
  /\ this_lineaRewardsConnector (ext (snd (close m)))
     = this_lineaRewardsConnector (ext m)
  /\ (forall e,
        this_page (ext m) = true ->
        fst (page_close (outside (ext m))) = Thrown e ->
        snd (close m)
        = mkMachine (disk m)
            (set_outside (snd (page_close (outside (ext m)))) (ext m)))
  /\ ((forall x, fst (page_close x) = Returned tt) ->
      (forall x, fst (context_close x) = Returned tt) ->
      (forall x, fst (browser_close x) = Returned tt) ->
      allClosed (ext (snd (close m)))).
Proof.
  split; [|split; [apply close_connector|]].
  all: destruct m as [store [b c p r l x]].
  all: unfold close, tryCatchM, bind, whenField, onOutside, onOutsideSafe, setField,
    modify, ret, allClosed; simpl.
  - destruct p; simpl; [destruct (page_close x) as [[[]|e] x1]; simpl|];
      try reflexivity;
      (destruct r; simpl;
       (destruct c; simpl;
        [match goal with
         | |- context [context_close ?y] =>
             destruct (context_close y) as [[[]|e] x2]; simpl
         end|];
        try reflexivity;
        (destruct b; simpl;
         [match goal with
          | |- context [browser_close ?y] =>
              destruct (browser_close y) as [[[]|e] x3]; simpl
          end|];
         reflexivity))).
  - split.
    + intros e Hp Hthrown. subst p.
      destruct (page_close x) as [[[]|e'] x1]; simpl in *; [discriminate|].
      reflexivity.
    + intros Hpage Hcontext Hbrowser.
      destruct p; simpl;
        [pose proof (Hpage x) as Hp; destruct (page_close x) as [[[]|e] x1];
         simpl in Hp |- *; [|discriminate]|];
        (destruct r; simpl;
         (destruct c; simpl;
          [match goal with
           | |- context [context_close ?y] =>
               pose proof (Hcontext y) as Hc;
               destruct (context_close y) as [[[]|e] x2]; simpl in Hc |- *;
               [|discriminate]
           end|];
          (destruct b; simpl;
           [match goal with
            | |- context [browser_close ?y] =>
                pose proof (Hbrowser y) as Hb;
                destruct (browser_close y) as [[[]|e] x3]; simpl in Hb |- *;
                [|discriminate]
            end|];
           now auto))).
Qed.

End RobotProperties.

(** X25, witness: a robot just constructed refuses to connect and reports
    a failed spin. *)
Lemma robot_contains_failures_witness :
  connectToLineaRewards (P := SiteUp) "k" (freshRobot emptyStore)
  = (Thrown notInitialised, freshRobot emptyStore)
  /\ exists result,
       fst (spinWheel (P := SiteUp) "k" "0xAcck" (freshRobot emptyStore))
       = Returned result.
Proof.
  pose proof (robot_contains_failures (P := SiteUp) "k" "0xAcck")
    as (Hspin & _ & _ & _ & _ & _ & _ & Hconnect & _).
  split.
  - exact (Hconnect (freshRobot emptyStore)).
  - exact (Hspin (freshRobot emptyStore)).
Defined.

(** X26, witness: where the extension does not start, the fallback opens
    a page, and the robot then refuses to connect. *)
Lemma fallback_cannot_connect_witness :
  this_page (ext (snd (initialize (P := RabbyDown) "k" (freshRobot emptyStore))))
  = true
  /\ this_lineaRewardsConnector
       (ext (snd (initialize (P := RabbyDown) "k" (freshRobot emptyStore))))
     = false
  /\ fst (connectToLineaRewards (P := RabbyDown) "k"
            (snd (initialize (P := RabbyDown) "k" (freshRobot emptyStore))))
     = Thrown notInitialised.
Proof.
  split; [reflexivity|].
  pose proof (fallback_cannot_connect (P := RabbyDown) "k" (freshRobot emptyStore)
                eq_refl) as (Hconnector & _ & _ & _ & Hdown).
  split; [exact Hconnector|].
  destruct (Hdown eq_refl) as (Hrefused & _).
  now rewrite Hrefused.
Defined.

(** X27, witness: connecting an open robot to a site that works files the
    account of the key in an empty store. *)
Lemma robot_file_effects_witness :
  filesCard "k" 0 (openRobot emptyStore)
    (snd (connectToLineaRewards (P := SiteUp) "k" (openRobot emptyStore)))
  /\ filedKeys 0
       (disk (snd (connectToLineaRewards (P := SiteUp) "k" (openRobot emptyStore))))
     = ["0xacck"].
Proof.
  split; [|reflexivity].
  exact (proj1 (proj2 (proj2 (proj2 (proj2 (proj2 (proj2 (proj2
           (robot_file_effects (P := SiteUp) "k" "0xAcck" 0))))))))
           (openRobot emptyStore)).
Defined.

(** X28, witness: where the page does not close, the robot still holds
    its page and its Rabby wallet after [close]; where everything closes,
    it holds nothing. *)
Lemma close_stops_at_first_failure_witness :
  ext (snd (close (P := RabbyDown) (openRobot emptyStore)))
  = mkRobot false false true true true (atUTC 20000 10 0 0 + 1)
  /\ allClosed (ext (snd (close (P := SiteUp) (openRobot emptyStore)))).
Proof.
  split.
  - destruct (close_stops_at_first_failure (P := RabbyDown) (openRobot emptyStore))
      as (_ & _ & Hstops & _).
    now rewrite (Hstops IOError eq_refl eq_refl).
  - destruct (close_stops_at_first_failure (P := SiteUp) (openRobot emptyStore))
      as (_ & _ & _ & Hcloses).
    apply Hcloses; reflexivity.
Defined.

(* ================================================================== *)
(** * The pass over a wallet where the Rabby extension does not start *)

Section KeepsComposition.
Context {S : Type} (tr : S -> list Event) (I : S -> Prop) (P : Event -> Prop).

Lemma keeps_ret {A : Type} (Q : A -> Prop) (a : A) : Q a -> keeps tr I P Q (ret a).
Proof.
  intros Hq s Hi. simpl. split; [exact Hi|]. split.
  - exists []. now rewrite app_nil_r.
  - intros a' Ha. now inversion Ha; subst.
Qed.

Lemma keeps_throw {A : Type} (Q : A -> Prop) (e : Error) : keeps tr I P Q (throw e).
Proof.
  intros s Hi. simpl. split; [exact Hi|]. split.
  - exists []. now rewrite app_nil_r.
  - discriminate.
Qed.

Lemma keeps_bind {A B : Type} (Q1 : A -> Prop) (Q2 : B -> Prop)
  (c : M S A) (k : A -> M S B) :
  keeps tr I P Q1 c -> (forall a, Q1 a -> keeps tr I P Q2 (k a)) ->
  keeps tr I P Q2 (bind c k).
Proof.
  intros Hc Hk s Hi. unfold bind.
  destruct (Hc s Hi) as (Hi1 & (evs & Ht & Hp) & Hq).
  destruct (c s) as [[a|e] s1]; simpl in *.
  - destruct (Hk a (Hq a eq_refl) s1 Hi1) as (Hi2 & (evs' & Ht' & Hp') & Hq2).
    split; [exact Hi2|]. split; [|exact Hq2].
    exists (evs ++ evs'). rewrite Ht', Ht, app_assoc.
    split; [reflexivity | now apply Forall_app].
  - split; [exact Hi1|]. split; [now exists evs | discriminate].
Qed.

Lemma keeps_tryCatchM {A : Type} (Q : A -> Prop) (body : M S A)
  (handler : Error -> M S A) :
  keeps tr I P Q body -> (forall e, keeps tr I P Q (handler e)) ->
  keeps tr I P Q (tryCatchM body handler).
Proof.
  intros Hb Hh s Hi. unfold tryCatchM.
  destruct (Hb s Hi) as (Hi1 & (evs & Ht & Hp) & Hq).
  destruct (body s) as [[a|e] s1]; simpl in *.
  - split; [exact Hi1|]. split; [now exists evs | exact Hq].
  - destruct (Hh e s1 Hi1) as (Hi2 & (evs' & Ht' & Hp') & Hq2).
    split; [exact Hi2|]. split; [|exact Hq2].
    exists (evs ++ evs'). rewrite Ht', Ht, app_assoc.
    split; [reflexivity | now apply Forall_app].
Qed.

Lemma keeps_tryFinally {A : Type} (Q : A -> Prop) (Q' : unit -> Prop)
  (body : M S A) (cleanup : M S unit) :
  keeps tr I P Q body -> keeps tr I P Q' cleanup ->
  keeps tr I P Q (tryFinally body cleanup).
Proof.
  intros Hb Hc s Hi. unfold tryFinally.
  destruct (Hb s Hi) as (Hi1 & (evs & Ht & Hp) & Hq).
  destruct (body s) as [r s1]; simpl in *.
  destruct (Hc s1 Hi1) as (Hi2 & (evs' & Ht' & Hp') & _).
  destruct (cleanup s1) as [[u|e] s2]; simpl in *.
  - split; [exact Hi2|]. split; [|exact Hq].
    exists (evs ++ evs'). rewrite Ht', Ht, app_assoc.
    split; [reflexivity | now apply Forall_app].
  - split; [exact Hi2|]. split; [|discriminate].
    exists (evs ++ evs'). rewrite Ht', Ht, app_assoc.
    split; [reflexivity | now apply Forall_app].
Qed.

Lemma keeps_weaken {A : Type} (Q Q' : A -> Prop) (c : M S A) :
  (forall a, Q a -> Q' a) -> keeps tr I P Q c -> keeps tr I P Q' c.
Proof.
  intros Hsub Hc s Hi. destruct (Hc s Hi) as (Hi1 & Hev & Hq).
  split; [exact Hi1|]. split; [exact Hev|]. intros a Ha. now apply Hsub, Hq.
Qed.

End KeepsComposition.

Section OffSite.
Context {Ext : Type} `{Collaborators Ext} {P : Playwright Ext}.
Variables privateKey walletAddress : string.

Local Abbreviation R := (withRobot privateKey walletAddress).

Lemma sameRobot_refl (w : World (Robot Ext)) : sameRobot w w.
Proof.
  reflexivity.
Qed.

Lemma sameRobot_trans (a b c : World (Robot Ext)) :
  sameRobot a b -> sameRobot b c -> sameRobot a c.
Proof.
  unfold sameRobot. congruence.
Qed.

Lemma callExt_aside {A : Type} (ev : Outcome A -> Event)
  (f : Ext -> Outcome A * Ext) :
  preserves sameRobot (callExt ev (aside f)).
Proof.
  intros w. unfold callExt, aside. now destruct (f (outside (ext (machine w)))).
Qed.

Lemma draw_aside (f : Ext -> Z * Ext) : preserves sameRobot (draw (aside f)).
Proof.
  intros w. unfold draw, aside. now destruct (f (outside (ext (machine w)))).
Qed.

Lemma sleep_aside ms : preserves sameRobot (sleep (H := R) ms).
Proof.
  intros w. reflexivity.
Qed.

Lemma sameRobot_same_ext {A : Type} (c : Run (Robot Ext) A) :
  (forall w, ext (machine (snd (c w))) = ext (machine w)) ->
  preserves sameRobot c.
Proof.
  intros Hc w. unfold sameRobot. now rewrite Hc.
Qed.

Lemma newWalletDatabase_aside : preserves sameRobot (newWalletDatabase (H := R)).
Proof.
  apply sameRobot_same_ext. intros w. unfold newWalletDatabase.
  now destruct (ensureDatabaseExists _ _).
Qed.

Ltac aside_step :=
  first
    [ apply preserves_ret; apply sameRobot_refl
    | apply (preserves_bind sameRobot sameRobot_trans); [|intros ?]
    | apply (preserves_tryCatchM sameRobot sameRobot_trans); [|intros ?]
    | apply callExt_aside
    | apply draw_aside
    | apply sleep_aside
    | apply sameRobot_same_ext; intros ?; reflexivity
    | match goal with
      | |- preserves _ (match ?x with _ => _ end) => destruct x
      end ].

Lemma getWETHBalanceViaRPC_aside addr :
  preserves sameRobot (getWETHBalanceViaRPC (H := R) addr).
Proof.
  unfold getWETHBalanceViaRPC. repeat aside_step.
Qed.

Lemma delay_aside : preserves sameRobot (delayAfterSuccessfulTransaction (H := R)).
Proof.
  unfold delayAfterSuccessfulTransaction. repeat aside_step.
Qed.

Lemma pollNewBalance_aside addr :
  forall n last, preserves sameRobot (pollNewBalance (H := R) addr n last).
Proof.
  induction n as [|n IH]; intros last; simpl.
  - aside_step.
  - apply (preserves_bind sameRobot sameRobot_trans);
      [apply getWETHBalanceViaRPC_aside|]. intros read.
    destruct (positiveBalance read); [aside_step|].
    apply (preserves_bind sameRobot sameRobot_trans); [|intros; apply IH].
    destruct n; repeat aside_step.
Qed.

Lemma checkAndDepositWETH_aside key :
  preserves sameRobot (checkAndDepositWETH (H := R) key).
Proof.
  unfold checkAndDepositWETH, performWETHDeposit.
  repeat first
    [ apply getWETHBalanceViaRPC_aside
    | apply delay_aside
    | apply pollNewBalance_aside
    | aside_step ].
Qed.

Lemma checkAndPerformDailyTransfer_aside key :
  preserves sameRobot (checkAndPerformDailyTransfer (H := R) key).
Proof.
  unfold checkAndPerformDailyTransfer, performWETHTransfer.
  repeat first
    [ apply getWETHBalanceViaRPC_aside
    | apply delay_aside
    | aside_step ].
Qed.


Hypothesis rabby_down : forall x, rabbyStarts privateKey x = false.

Lemma notBot_offSite ev : notBot ev -> offSite ev.
Proof.
  unfold notBot. destruct ev; simpl; try discriminate; trivial.
Qed.

Lemma inWorld_offSite {A : Type} (c : Run (Robot Ext) A) :
  preserves sameRobot c -> adds (Robot Ext) notBot c ->
  keeps passTrace idle offSite (fun _ => True) (inWorld c).
Proof.
  intros Hsame Hadds f [Hconn Hflag]. unfold inWorld, passTrace.
  specialize (Hsame (world f)). destruct (Hadds (world f)) as (evs & Ht & Hp).
  destruct (c (world f)) as [r w1]. simpl in *.
  split; [|split; [|trivial]].
  - unfold idle. simpl. split; [|exact Hflag].
    unfold sameRobot, robotFields in Hsame.
    injection Hsame as _ _ _ _ Hfield. now rewrite Hfield.
  - exists evs. split; [exact Ht|].
    eapply Forall_impl; [|exact Hp]. apply notBot_offSite.
Qed.

Lemma silent_offSite {A : Type} (c : Run (Robot Ext) A) :
  (forall w, snd (c w) = w) ->
  keeps passTrace idle offSite (fun _ => True) (inWorld c).
Proof.
  intros Hc. apply inWorld_offSite.
  - intros w. rewrite Hc. apply sameRobot_refl.
  - apply adds_silent. intros w. now rewrite Hc.
Qed.

Lemma update_offSite (g : Store -> Timestamp -> Store) :
  keeps passTrace idle offSite (fun _ => True) (inWorld (update (H := R) g)).
Proof.
  apply inWorld_offSite.
  - apply sameRobot_same_ext. intros w. reflexivity.
  - apply adds_silent. intros w. reflexivity.
Qed.

Lemma assign_offSite (g : WalletStatus -> WalletStatus) :
  (forall s, spinsPerformed s = false -> spinsPerformed (g s) = false) ->
  keeps passTrace idle offSite (fun _ => True) (assign (Ext := Robot Ext) g).
Proof.
  intros Hg f [Hconn Hflag]. unfold assign, modify, passTrace. simpl.
  split; [split; [exact Hconn | now apply Hg]|].
  split; [exists []; now rewrite app_nil_r | trivial].
Qed.

Lemma currentFlags_offSite :
  keeps passTrace idle offSite (fun s => spinsPerformed s = false)
    (currentFlags (Ext := Robot Ext)).
Proof.
  intros f [Hconn Hflag]. unfold currentFlags, passTrace. simpl.
  split; [now split|].
  split; [exists []; now rewrite app_nil_r|].
  intros s Hs. now inversion Hs; subst.
Qed.

Lemma newLineaSpinWheelBot_offSite :
  keeps passTrace idle offSite (fun _ => True) (newLineaSpinWheelBot (H := R)).
Proof.
  unfold newLineaSpinWheelBot.
  apply (keeps_bind _ _ _ (fun _ => True));
    [apply inWorld_offSite;
     [apply newWalletDatabase_aside
     | apply adds_silent; intros w; unfold newWalletDatabase;
       now destruct (ensureDatabaseExists _ _)]|].
  intros _ _.
  apply (keeps_bind _ _ _ (fun _ => True)).
  - intros f [Hconn Hflag]. unfold inWorld, passTrace. simpl.
    split; [now split|]. split; [|trivial].
    exists [BotCreated]. split; [reflexivity|]. now repeat constructor.
  - intros _ _ f [Hconn Hflag]. unfold modify, passTrace. simpl.
    split; [now split|].
    split; [exists []; now rewrite app_nil_r | trivial].
Qed.

Lemma initialize_offSite :
  keeps passTrace idle offSite (fun _ => True)
    (inWorld (callBot BotInitialize (bot_initialize (Collaborators := R)))).
Proof.
  intros f [Hconn Hflag]. unfold inWorld, callBot, passTrace. simpl.
  destruct (initialize_fields privateKey (machine (world f)) Hconn) as (Hafter & _).
  rewrite rabby_down in Hafter.
  destruct (initialize privateKey (machine (world f))) as [r m1]. simpl in *.
  split; [now split|]. split; [|trivial].
  exists [BotInitialize r]. split; [reflexivity|]. now repeat constructor.
Qed.

Lemma connect_offSite {A : Type} (Q : bool -> Prop) :
  keeps passTrace idle offSite Q
    (inWorld (callBot BotConnect (bot_connectToLineaRewards (Collaborators := R)))).
Proof.
  intros f [Hconn Hflag]. unfold inWorld, callBot, passTrace. simpl.
  rewrite connectToLineaRewards_refuses
    by (rewrite Hconn; apply andb_false_r).
  simpl. split; [now split|]. split; [|discriminate].
  exists [BotConnect (Thrown notInitialised)]. split; [reflexivity|].
  now repeat constructor.
Qed.

Lemma closeBrowser_offSite :
  keeps passTrace idle offSite (fun _ => True) (closeBrowser (H := R)).
Proof.
  intros f [Hconn Hflag]. unfold closeBrowser, tryCatchM, inWorld, callBot, ret,
    passTrace.
  destruct (bot (locals f)); simpl.
  - pose proof (close_connector (machine (world f))) as Hclose.
    destruct (close (machine (world f))) as [[[]|e] m1]; simpl in *;
      (split; [unfold idle; simpl; split; [now rewrite Hclose | exact Hflag]|]);
      (split; [|trivial]);
      eexists; (split; [reflexivity|]); now repeat constructor.
  - split; [now split|].
    split; [exists []; now rewrite app_nil_r | trivial].
Qed.

(** Opening a session, from the constructor to the refused connection. *)
Lemma session_refused {A : Type} (Q : A -> Prop) (k : bool -> Pass (Robot Ext) A) :
  keeps passTrace idle offSite Q
    (bind (newLineaSpinWheelBot (H := R)) (fun _ =>
     bind (inWorld (callBot BotInitialize (bot_initialize (Collaborators := R))))
       (fun _ =>
     bind (inWorld (callBot BotConnect
                      (bot_connectToLineaRewards (Collaborators := R)))) k))).
Proof.
  apply (keeps_bind _ _ _ (fun _ => True)); [apply newLineaSpinWheelBot_offSite|].
  intros _ _.
  apply (keeps_bind _ _ _ (fun _ => True)); [apply initialize_offSite|].
  intros _ _.
  apply (keeps_bind _ _ _ (fun _ => False));
    [apply (connect_offSite (A := A)) | intros connected []].
Qed.

Lemma refreshThenDecide_offSite addr :
  keeps passTrace idle offSite noSpinReported (refreshThenDecide (H := R) addr).
Proof.
  unfold refreshThenDecide. apply session_refused.
Qed.

Lemma decideFromCache_offSite addr :
  keeps passTrace idle offSite noSpinReported (decideFromCache (H := R) addr).
Proof.
  unfold decideFromCache.
  apply (keeps_bind _ _ _ (fun _ => True));
    [apply silent_offSite; intros ?; reflexivity|].
  intros available _. destruct available; [apply session_refused|].
  apply (keeps_bind _ _ _ (fun _ => True));
    [apply assign_offSite; intros s _; reflexivity|].
  intros _ _. now apply keeps_ret.
Qed.

Lemma planAndDispatch_offSite addr dailyTransferResult :
  keeps passTrace idle offSite noSpinReported
    (planAndDispatch (H := R) addr dailyTransferResult).
Proof.
  unfold planAndDispatch.
  apply (keeps_bind _ _ _ (fun _ => True));
    [apply silent_offSite; intros ?; reflexivity|].
  intros walletData _.
  apply (keeps_bind _ _ _ (fun _ => True));
    [apply assign_offSite; intros s Hs; exact Hs|]. intros _ _.
  apply (keeps_bind _ _ _ (fun _ => True));
    [apply assign_offSite; intros s Hs; exact Hs|]. intros _ _.
  apply (keeps_bind _ _ _ (fun _ => True)).
  { destruct (match walletData with Some w => fullData w | None => false end).
    - apply (keeps_bind _ _ _ (fun _ => True));
        [apply silent_offSite; intros ?; reflexivity|].
      intros available _. apply assign_offSite. intros s Hs. exact Hs.
    - apply assign_offSite. intros s Hs. exact Hs. }
  intros _ _.
  apply (keeps_bind _ _ _ (fun _ => True)).
  { destruct walletData;
      [apply silent_offSite; intros ?; reflexivity | now apply keeps_ret]. }
  intros isNewDay _.
  apply (keeps_bind _ _ _ (fun _ => True)).
  { destruct (isSome walletData && isNewDay);
      [apply update_offSite | now apply keeps_ret]. }
  intros _ _.
  apply (keeps_bind _ _ _ (fun _ => True));
    [apply silent_offSite; intros ?; reflexivity|].
  intros now _.
  apply (keeps_bind _ _ _ (fun _ => True)).
  { destruct walletData;
      [apply silent_offSite; intros ?; reflexivity | now apply keeps_ret]. }
  intros shouldRefreshSpins _.
  destruct (walletFullyCompletedToday _ _ _).
  { apply (keeps_bind _ _ _ (fun _ => True));
      [eapply keeps_weaken; [|apply currentFlags_offSite]; trivial|].
    intros s _. now apply keeps_ret. }
  destruct (refreshKnownWallet _ _ _ _ _); [apply refreshThenDecide_offSite|].
  destruct (useCachedSpins _ _ _ _);
    [apply decideFromCache_offSite | apply refreshThenDecide_offSite].
Qed.

Lemma guardedPass_offSite addr :
  keeps passTrace idle offSite noSpinReported (guardedPass (H := R) privateKey addr).
Proof.
  unfold guardedPass. apply keeps_tryCatchM; [|intros e; now apply keeps_ret].
  apply (keeps_bind _ _ _ (fun _ => True));
    [apply inWorld_offSite;
     [apply checkAndDepositWETH_aside | apply checkAndDepositWETH_notBot]|].
  intros _ _.
  apply (keeps_bind _ _ _ (fun _ => True));
    [apply inWorld_offSite;
     [apply checkAndPerformDailyTransfer_aside
     | apply checkAndPerformDailyTransfer_notBot]|].
  intros dailyTransferResult _. apply planAndDispatch_offSite.
Qed.


(** X29.  A wallet whose Rabby extension does not start is never spun.
    [processWallet] is run with the robot of browser-automation, built for
    the wallet of the key; the robot has no connector when the pass
    starts, as its constructor leaves it.  If the Rabby path of
    [initialize] cannot run to its end, then whatever the chain, the page
    and the store do, the pass makes no use of the site: its trace has no
    spin, no reload and no card read, and a connection appears in it only
    as refused for want of a connector.  A status that is returned
    reports [spinsPerformed: false], the robot still has no connector at
    the end, and the pass does return a status when the key is valid and
    the database file exists or can be created. *)
Theorem rabby_failure_skips_wheel (f : Frame (Robot Ext)) :
  this_lineaRewardsConnector (ext (machine (world f))) = false ->
  (exists evs,
      trace (world (snd (processWallet (H := withRobot privateKey walletAddress)
                           privateKey f)))
      = trace (world f) ++ evs
      /\ Forall offSite evs)
  /\ (forall status,
        fst (processWallet (H := withRobot privateKey walletAddress) privateKey f)
        = Returned status ->
        spinsPerformed status = false)
  /\ this_lineaRewardsConnector
       (ext (machine (world (snd (processWallet
                                    (H := withRobot privateKey walletAddress)
                                    privateKey f)))))
     = false
  /\ (forall addr created,
        createWalletConfig privateKey = Returned addr ->
        ensureDatabaseExists (disk (machine (world f)))
          (clock (outside (ext (machine (world f))))) = Returned created ->
        exists status,
          fst (processWallet (H := withRobot privateKey walletAddress) privateKey f)
          = Returned status).
Proof.
  intros Hconn.
  destruct (createWalletConfig privateKey) as [addr|e] eqn:Hcfg.
  - assert (Hcfg' : createWalletConfig (H := R) privateKey = Returned addr)
      by exact Hcfg.
    destruct (ensureDatabaseExists (disk (machine (world f)))
                (clock (outside (ext (machine (world f)))))) as [created|e] eqn:Hdb.
    + assert (Hdb' : ensureDatabaseExists (disk (machine (world f)))
                       (clock (Collaborators := R) (ext (machine (world f))))
                     = Returned created) by exact Hdb.
      set (w0 := mkWorld (mkMachine created (ext (machine (world f))))
                   (trace (world f))).
      assert (Hnew : newWalletDatabase (H := R) (world f) = (Returned tt, w0)).
      { unfold newWalletDatabase. now rewrite Hdb'. }
      rewrite (processWallet_steps (H := R) privateKey addr f w0 Hcfg' Hnew).
      set (f0 := mkFrame w0 (mkLocals (mkWalletStatus false false false false) false)).
      assert (Hidle : idle f0) by (split; [exact Hconn | reflexivity]).
      destruct (guardedPass_offSite addr f0 Hidle)
        as (Hidle1 & (evs & Ht & Hp) & Hq).
      destruct (guardedPass_returns (H := R) privateKey addr f0) as (r & Hr).
      destruct (guardedPass (H := R) privateKey addr f0) as [r' f1].
      simpl in Hr, Ht, Hq, Hidle1. subst r'.
      destruct (closeBrowser_offSite f1 Hidle1)
        as ([Hconn2 Hflag2] & (evs' & Ht' & Hp') & _).
      destruct (closeBrowser_closes (H := R) f1) as (Hclosed & _).
      destruct (closeBrowser (H := R) f1) as [c f2]. simpl in *. subst c.
      unfold passTrace in Ht, Ht'. simpl in Ht.
      assert (Hevents : exists all,
                 trace (world f2) = trace (world f) ++ all /\ Forall offSite all).
      { exists (evs ++ evs'). rewrite Ht', Ht, app_assoc.
        split; [reflexivity | now apply Forall_app]. }
      destruct r as [status|]; simpl.
      * split; [exact Hevents|]. split.
        { intros status' Hs. inversion Hs; subst. exact (Hq (Some status') eq_refl). }
        split; [exact Hconn2|]. intros; eauto.
      * split; [exact Hevents|]. split.
        { intros status' Hs. inversion Hs; subst. exact Hflag2. }
        split; [exact Hconn2|]. intros; eauto.
    + assert (Hdb' : ensureDatabaseExists (disk (machine (world f)))
                       (clock (Collaborators := R) (ext (machine (world f))))
                     = Thrown e) by exact Hdb.
      rewrite (processWallet_no_file (H := R) privateKey addr f e Hcfg' Hdb').
      simpl. split; [exists []; now rewrite app_nil_r|].
      split; [discriminate|]. split; [exact Hconn|]. intros; discriminate.
  - assert (Hcfg' : createWalletConfig (H := R) privateKey = Thrown e)
      by exact Hcfg.
    rewrite (processWallet_refused (H := R) privateKey f e Hcfg').
    simpl. split; [exists []; now rewrite app_nil_r|].
    split; [discriminate|]. split; [exact Hconn|]. intros; discriminate.
Qed.

End OffSite.

(** X29, witness: on a machine where the extension does not start, the
    pass over the wallet of key ["k"] transfers, opens a session, is
    refused the connection, closes, and reports no spin. *)
Lemma rabby_failure_skips_wheel_witness :
  fst (processWallet (H := withRobot (P := RabbyDown) "k" "0xAcck") "k"
         (robotFrame emptyStore))
  = Returned (mkWalletStatus false true false false)
  /\ exists evs,
       trace (world (snd (processWallet (H := withRobot (P := RabbyDown) "k" "0xAcck")
                            "k" (robotFrame emptyStore))))
       = trace (world (robotFrame emptyStore)) ++ evs
       /\ Forall offSite evs.
Proof.
  split; [reflexivity|].
  exact (proj1 (rabby_failure_skips_wheel (P := RabbyDown) "k" "0xAcck"
                  (fun x => eq_refl) (robotFrame emptyStore) eq_refl)).
Defined.
